(* ===== verification/_CoqProject ===== *)
-Q . S2P
Prelude.v
StdString.v
Doubles.v
Rounding.v
JsonFloat.v
JsonGrisu.v
Json.v
JsonDump.v
JsonParse.v
JsonNumbers.v
JsonStrings.v
JsonDocument.v
JsonRoundTrip.v
Observability.v
Metrics.v
Types.v
Endpoint.v
Queue.v
Records.v
Config.v
Stream.v
Task.v
Worker.v
Pool.v
Util.v
Framing.v
Manager.v
Session.v
EchoUnit.v
System.v
Bridge.v
Rpc.v
Events.v
Route.v
Wire.v
Pzmq.v
Sockets.v
NetBuffer.v
Reactor.v
Connection.v
EventLoop.v
LoopThread.v
Acceptor.v
Server.v
Connector.v
Address.v
SocketCalls.v
Startup.v
