(* ===== verification/Prelude.v ===== *)
(** * VllmRoute: a verification of its scheduler, its units and its network library

    VllmRoute puts a TCP front end and a scheduler before several
    OpenAI-compatible model servers.  Two processes work together.

    - The _unit manager_ (src/unit-manager) accepts TCP clients with the
      network library (src/network), reads their JSON messages, keeps a
      registry of units with their ports and a key-value table, forwards
      inference messages to the unit that owns a work identifier and all
      other actions as remote calls.
    - The _LLM unit_ (src/node/vllm-client) is built on StackFlow
      (src/infra-controller): an event loop, one channel of ZeroMQ sockets per
      session, remote calls.  A setup registers the unit with the manager and
      opens a session; the messages of a session become requests of the
      session's scheduler [vllm_task], whose worker threads choose an endpoint,
      call it over HTTP and push the answer to the client, while a health
      thread checks the endpoints.  Counters, records and observability series
      are kept along the way.

    A second unit, the _test node_ (src/node/test), answers every message with
    its own text.

    ** Files

    Foundations:
    - [Prelude]: record update, the result monad (an exception is [Throw], a
      failed [assert] is [None] of an option), machine integers, reachability,
      tactics and hints;
    - [StdString], [Doubles]: std::string with stoi and to_string, IEEE-754
      binary64 with stod;
    - [Json]: JSON values and the typed readers of main.cpp.

    JSON texts (src/utils/json.hpp, json::parse and dump):
    - [JsonDump], [JsonFloat]: class serializer, and to_chars with the Grisu2
      algorithm;
    - [JsonParse]: class lexer, class parser and the document builder
      json_sax_dom_parser;
    - [Rounding], [JsonGrisu], [JsonNumbers]: decimal numbers near a double and
      strtod; the digits of Grisu2; numerals and the round trip of numbers;
    - [JsonStrings], [JsonDocument], [JsonRoundTrip]: UTF-8 and escapes, the
      invariant of the parser's loop, whole texts and values.

    The scheduler (src/node/vllm-client/src/main.cpp, observability_metrics):
    - [Observability], [Metrics], [Records]: class ObservabilityMetrics, class
      MetricsCollector, the log of request records;
    - [Types], [Config]: the structs of a task; parse_config, profiles,
      endpoints, the parameters of a request;
    - [Queue]: admission, the 5:3:1 schedule of pop_next_request, statistics;
    - [Endpoint]: selection, results, health checks, circuit breaker, reload,
      with endpoint objects in a heap because threads share them;
    - [Stream]: the event-stream parser and call_vllm;
    - [Task]: class vllm_task with one definition per method;
    - [Worker], [Pool]: the bodies of the worker and health threads as programs
      of atomic actions, and their interleaving on the shared state.

    Units and manager (src/infra-controller, src/hybrid-comm,
    src/unit-manager):
    - [Util], [Framing]: StackFlowUtil.cpp (the JSON scanner, work
      identifiers, UTF-8) and the parameters of pzmq_data.cpp;
    - [Manager]: ports, registry, key-value table and dispatch;
    - [Session]: class vllm_llm on StackFlow and its channels;
    - [System]: manager and unit composed;
    - [Bridge]: the sessions of TCP clients and the way of their answers;
    - [Rpc], [Events]: remote calls (pzmq.hpp), the actions of a unit and its
      event queue (StackFlow);
    - [Pzmq]: the sockets of class pzmq from creation to destruction, with
      the ZeroMQ contexts, sockets and ipc files they open;
    - [Sockets]: the socket table of a channel (channel.cpp);
    - [EchoUnit]: class llm_llm of the test node;
    - [Route]: the whole program, manager, client sessions, unit and scheduler
      side by side, and the way of a message through them and back;
    - [Wire]: the JSON library in its place, and the texts between a model
      server, the unit, the manager and a client.

    The network library (src/network):
    - [NetBuffer]: class Buffer;
    - [Reactor]: class Channel and class Poller with the interest list of the
      kernel;
    - [Connection]: class TcpConnection with its buffers, its channel and the
      functors it leaves to the loop;
    - [EventLoop], [LoopThread]: the functor queue, its wakeups, the pool of
      loops, and the start and end of a loop in its thread;
    - [Server]: class TcpServer and the numbers of client sessions;
    - [Connector]: class Connector and class TcpClient;
    - [Acceptor]: class Acceptor;
    - [Address], [SocketCalls]: class InetAddress on the bytes of the socket
      structures; the wrappers of Socket.cc and SocketsOps.cc as programs over
      system calls;
    - [Startup]: the start of the manager from its configuration file, its end
      on a signal, the limit of open files, the pause between health checks.

    ** What is shown

    - _The whole program_: in every state an orderly run reaches, a client's
      inference message reaches its session and no other, and its answers
      return to this client under its request id, as long as nobody else writes
      to the session's channel between the receipt and the processing of the
      message; a remote call is answered once, to this client, as long as no
      other call writes the members that say where the answer goes ([Route]);
      the tokens a model server streams are what the client reads, numbered and
      ended by one finish mark ([Wire]); the manager comes up in the initial
      states that the invariants assume, or ends when the port cannot be had
      ([Startup]).
    - _JSON texts_: a value comes back from its text, every finite double
      included ([JsonRoundTrip], [JsonNumbers]); the parser ends on every input
      and what it delivers is printed and read again unchanged
      ([JsonRoundTrip]); integers are printed in decimal ([JsonDump]).
    - _Scheduling_: no priority class starves, backlogged classes share 5:3:1,
      the queue keeps its limits and loses nothing, a pop serves the best of
      its class ([Queue]).
    - _Routing_: a selected endpoint is admissible and best, its limits hold
      under every interleaving and its in-flight counter counts the calls that
      run; failures open a circuit, which refuses the endpoint until its time
      is over or the successes that recovery asks for have come ([Endpoint],
      [Pool]).
    - _Requests_: one outcome per request, no call without a slot, no slot
      kept, at most max_retries + 1 calls; a request that is not finished is
      still polling for an endpoint ([Worker]); submissions are queued or
      refused with one error ([Task]).
    - _Streams_: the answer does not depend on how the transfer cuts the bytes
      ([Stream]); streamed inputs are reassembled ([Session]).
    - _Configuration_: what loads is usable, a reload installs everything or
      changes nothing ([Config], [Task]).
    - _Observations_: every series holds exactly what was recorded for it
      ([Observability]).
    - _Units_: channels and sessions correspond, and a well-formed event throws
      only when an answer cannot be printed ([Session]); ports are exclusive,
      and no port is lost unless a key-value call overwrites a registration
      ([Manager]); unit and manager agree in orderly runs, and a setup is all or
      nothing unless its answer cannot be printed ([System]); answers return to
      the client that asked, as long as no running session's number is given
      out again ([Bridge]); remote calls are handled by the handler registered
      last ([Rpc]); parameters and scanned members come back ([Framing], [Util]); a
      channel keeps its sockets ([Sockets]); a message socket and a remote call
      leave nothing open behind ([Pzmq]); the test node keeps at most three
      sessions and answers each ([EchoUnit]).
    - _Network_: the buffer refines a queue of bytes ([NetBuffer]); the poller
      mirrors the kernel ([Reactor]); output and input are neither lost nor
      reordered and a connection that is closed on its loop's thread opens and
      closes once ([Connection]); no
      wakeup is lost ([EventLoop]) and a loop thread starts ([LoopThread]); the
      server's table is exact ([Server]);
      a connector neither leaks nor closes twice a descriptor
      ([Connector]); an acceptor always has its spare descriptor
      ([Acceptor]); addresses and their texts correspond ([Address]); the
      listening socket is set up in order or the process ends
      ([SocketCalls]).
    - Lemmas outside these groups show behaviour of the code that differs from
      what it means to do, on a concrete state each: [truncated_stream_succeeds],
      [work_id_num_throws], [inexact_exit_leaks], [pause_ends_unit],
      [disable_twice_registers] and others; those that show why a theorem has
      the provisos it has are [key_value_call_leaks_ports],
      [reused_number_loses_answers], [task_query_misdirects_inference],
      [calls_race_for_the_answer], [refused_setup_keeps_registration],
      [estimate_overflows] and [close_race].

    ** Conventions, bounds and fuel

    int is Z with its wrap-around written out ([to_int]) where a value from a
    client, a document or a server enters the arithmetic; counters that go up
    by one for an event (failures in a row, calls in flight, the index of a
    delta) are kept unwrapped.  size_t and indexes are nat where no operation
    can overflow.  std::map and
    std::unordered_map are gmap, vectors are lists.  Memory that is read as
    integers is little-endian.  Critical sections are one
    definition each; where threads interleave, a step relation has one step
    per critical section, atomic access or system call.  The handlers of a unit
    share members without a lock: a handler is two steps there, what it writes
    to these members first and the rest, and the steps of different handlers
    mix ([Session], [System], [Route]).  Within the second step nothing else
    happens.  An exception of dump (text that is not UTF-8) is a result of
    every definition that prints.

    Loops are structural recursion except: [drain_lines] has the length of the
    buffer as fuel (every line takes a byte); [visit_slots] visits the nine
    slots of the schedule; decimal printing has the binary logarithm as fuel;
    the loops of the JSON printer have ten turns of four or two digits, 64
    shifts, ten decrements of a digit and twenty digits of a fraction, which
    [float_round_trip] and [dump_integer_decimal] show to be enough; the loop of
    the JSON parser has a turn for every byte and two more, which
    [parse_total_and_clean] shows to be enough;
    [has_action_key] the length of the text; the pause of [Startup] has the
    number of its steps; the wait for an endpoint in
    [Worker] polls without bound in the code, so it takes a number of polls
    and [unfinished_request_polled] shows that only polling can use it up.

    ** Parameters

    The components take the JSON library as an interface ([JsonText]), which
    [Wire.library_text] implements with the parser and the printer.  Code
    outside src/ is an argument: simdjson ([DocumentReader]), the time-series store
    ([TimeSeriesStore]), the texts of IPv6 addresses ([Inet6Text]), the bytes
    of an HTTP transfer ([http_reply]), the answers of ZeroMQ ([transport],
    [zmq_answers]) and of the system calls ([io], [kernel], [sysanswer]), the
    clock and the environment.  The laws of the classes are those the
    libraries document; each class has a concrete instance, which the
    witnesses use.

    ** Not modelled

    Of the vendored JSON library what the program does not call: comments,
    callbacks, indentation, the other error handlers, binary formats, iterators,
    pointers and patches, and the positions in its messages.  The header of
    ZeroMQ;
    ZeroMQ and epoll themselves; the functions that only pass their arguments
    to a system call (sockets::read, readv, write); the waiting loops of the
    main functions and the initialisation of libcurl; log texts; thread
    names; file_exists and scheduler_config_signature, which nothing calls. *)
From stdpp Require Export base list strings gmap numbers sorting.
From Stdlib Require Export Ascii.

#[export] Set Default Goal Selector "!".

(** ** Notations of the development *)

Declare Scope vroute_scope.
Delimit Scope vroute_scope with vroute.
#[global] Open Scope Z_scope.
#[global] Open Scope vroute_scope.

(** *** Functional record update

    The C++ code assigns single members of large structs.  A record declares
    its eta expansion once ([Eta]); [r <| f := v |>] and [r <| f ::= g |>]
    are the member assignments. *)
Class Eta (R : Type) := eta_of : R → R.

Class FieldUpdate {R E : Type} (proj : R → E) := update_field : (E → E) → R → R.
Arguments update_field {R E} proj {_} _ _ /.

Ltac derive_field_update :=
  match goal with
  | |- @FieldUpdate ?R ?E ?proj =>
      let inst := constr:(_ : Eta R) in
      let body := eval hnf in inst in
      lazymatch body with
      | context [proj] => idtac
      | _ => fail 1 "not a member of the record"
      end;
      lazymatch eval pattern proj in body with
      | ?abstracted _ =>
          let setter := eval cbv beta in
            (fun (f : E → E) => abstracted (fun r : R => f (proj r))) in
          exact setter
      end
  end.

#[export] Hint Extern 1 (FieldUpdate _) => derive_field_update : typeclass_instances.

Notation "r <| proj := v |>" := (update_field proj (fun _ => v) r)
  (at level 1, left associativity, proj constr at level 1, v constr at level 99)
  : vroute_scope.
Notation "r <| proj ::= f |>" := (update_field proj f r)
  (at level 1, left associativity, proj constr at level 1, f constr at level 99)
  : vroute_scope.

(** ** Results of code that may throw

    [Ok] is a normal return, [Throw] an exception that leaves the function;
    the string is the exception's [what()] or a short tag. *)
Inductive result (A : Type) : Type :=
  | Ok (a : A)
  | Throw (what : string).
Arguments Ok {A} _.
Arguments Throw {A} _.

#[global] Instance result_ret : MRet result := fun A a => Ok a.
#[global] Instance result_bind : MBind result := fun A B k m =>
  match m with Ok a => k a | Throw w => Throw w end.

(** [assert]: a condition that fails ends the process. *)
Definition assertion (cond : bool) : option unit := if cond then Some tt else None.

(** ** Machine integers

    [int] is a 32-bit and [int64_t] a 64-bit two's complement integer; a
    conversion to a narrower type keeps the low bits. *)
Definition INT_MAX : Z := 2147483647.
Definition INT_MIN : Z := -2147483648.
Definition is_int (z : Z) : bool := (INT_MIN <=? z) && (z <=? INT_MAX).
Definition to_int (z : Z) : Z := (z + 2147483648) mod 4294967296 - 2147483648.
Definition to_int64 (z : Z) : Z :=
  (z + 9223372036854775808) mod 18446744073709551616 - 9223372036854775808.

(** Counters of type [uint64_t]. *)
Definition uint64_add (a b : Z) : Z := (a + b) mod 18446744073709551616.

Lemma to_int_is_int z : is_int (to_int z) = true.
Proof.
  unfold is_int, to_int, INT_MIN, INT_MAX.
  pose proof (Z.mod_pos_bound (z + 2147483648) 4294967296). lia.
Qed.

Lemma is_int_true z : -2147483648 <= z <= 2147483647 → is_int z = true.
Proof. intros [? ?]. apply andb_true_intro. by split; apply Z.leb_le. Qed.

Lemma to_int_id z : is_int z = true → to_int z = z.
Proof.
  unfold is_int, to_int, INT_MIN, INT_MAX. intros Hz.
  rewrite Z.mod_small; lia.
Qed.

(** A boolean comparison as a decidable relation (the argument of [std::sort]). *)
Definition rel_of {A} (f : A → A → bool) : relation A := λ x y, f x y = true.
#[export] Instance rel_of_dec {A} (f : A → A → bool) : RelDecision (rel_of f).
Proof. intros x y. unfold rel_of. apply _. Defined.

(** Invariants hold along executions. *)
Lemma rtc_preserves {A} (R : relation A) (P : A → Prop) :
  (∀ x y, R x y → P x → P y) → ∀ x y, rtc R x y → P x → P y.
Proof. intros Hstep x y Hxy. induction Hxy; eauto. Qed.

(** ** Tactics *)

(** Split every [if] of the goal, keeping the tests as hypotheses. *)
Ltac split_ifs :=
  repeat match goal with
  | |- context [if ?b then _ else _] => destruct b eqn:?
  end.

(** Split every [if] of a hypothesis. *)
Ltac split_ifs_in H :=
  repeat match type of H with
  | context [if ?b then _ else _] => destruct b eqn:?
  end.

(** Turn boolean facts into propositions. *)
Ltac boolean :=
  repeat match goal with
  | H : (_ && _) = true |- _ => apply andb_true_iff in H as [? ?]
  | H : (_ || _) = false |- _ => apply orb_false_iff in H as [? ?]
  | H : negb _ = true |- _ => apply negb_true_iff in H
  | H : negb _ = false |- _ => apply negb_false_iff in H
  | H : String.eqb _ _ = true |- _ => apply String.eqb_eq in H
  | H : String.eqb _ _ = false |- _ => apply String.eqb_neq in H
  end.

Create HintDb vroute discriminated.
#[export] Hint Resolve to_int_is_int : vroute.
