(* ===== verification/StdString.v ===== *)
(** * The part of [std::string] the sources use

    Searching, cutting, decimal printing ([std::to_string]) and decimal
    parsing ([std::stoi]).  A [std::string] is a [string]: one [ascii] per
    [char]. *)
From S2P Require Import Prelude.

(** ** Characters *)

Definition is_digit (c : ascii) : bool :=
  ((48 <=? Z.of_nat (nat_of_ascii c)) && (Z.of_nat (nat_of_ascii c) <=? 57)).
Definition digit_value (c : ascii) : Z := Z.of_nat (nat_of_ascii c) - 48.
Definition digit_char (d : Z) : ascii := ascii_of_nat (Z.to_nat (d + 48)).

(** [isspace] in the C locale. *)
Definition is_space (c : ascii) : bool :=
  let n := nat_of_ascii c in
  (n =? 32)%nat || ((9 <=? n)%nat && (n <=? 13)%nat).

Lemma digit_char_spec d :
  0 <= d < 10 → is_digit (digit_char d) = true ∧ digit_value (digit_char d) = d.
Proof.
  intros Hd. unfold is_digit, digit_value, digit_char.
  rewrite nat_ascii_embedding, Z2Nat.id by lia. lia.
Qed.

(** ** Searching and cutting *)

(** [hay.find(needle)]: the first position, [None] for [npos]. *)
Definition str_find (needle hay : string) : option nat := String.index 0 needle hay.

(** [hay.find(needle, pos)]. *)
Definition str_find_from (pos : nat) (needle hay : string) : option nat :=
  String.index pos needle hay.

(** [hay.find(needle) != std::string::npos]. *)
Definition str_contains (hay needle : string) : bool :=
  match str_find needle hay with Some _ => true | None => false end.

(** [s.substr(n)]. *)
Fixpoint str_drop (n : nat) (s : string) : string :=
  match n, s with
  | O, _ => s
  | S n, String _ s => str_drop n s
  | S _, EmptyString => EmptyString
  end.

(** [s.substr(0, n)]. *)
Fixpoint str_take (n : nat) (s : string) : string :=
  match n, s with
  | S n, String c s => String c (str_take n s)
  | _, _ => EmptyString
  end.

(** [s.empty()]. *)
Definition str_empty (s : string) : bool :=
  match s with EmptyString => true | _ => false end.

(** [s.back()] of a non-empty string. *)
Fixpoint str_back (s : string) : option ascii :=
  match s with
  | EmptyString => None
  | String c EmptyString => Some c
  | String _ s => str_back s
  end.

(** [s.pop_back()]. *)
Fixpoint str_pop_back (s : string) : string :=
  match s with
  | EmptyString => EmptyString
  | String c EmptyString => EmptyString
  | String c s => String c (str_pop_back s)
  end.

Lemma str_app_cons c s t : String c s +:+ t = String c (s +:+ t).
Proof. done. Qed.

Lemma str_take_drop n s : (str_take n s +:+ str_drop n s)%string = s.
Proof.
  revert s. induction n as [|n IH]; intros [|c s]; try done.
  cbn [str_take str_drop]. by rewrite str_app_cons, IH.
Qed.

Lemma str_drop_app s t : str_drop (String.length s) (s +:+ t) = t.
Proof. induction s as [|c s IH]; [done|]. exact IH. Qed.

Lemma str_take_app s t : str_take (String.length s) (s +:+ t) = s.
Proof.
  induction s as [|c s IH]; [by destruct t|].
  rewrite str_app_cons. cbn [String.length str_take]. by rewrite IH.
Qed.

Lemma str_drop_length n s : String.length (str_drop n s) = (String.length s - n)%nat.
Proof.
  revert s. induction n as [|n IH]; intros [|c s]; simpl; auto.
Qed.

Lemma str_length_app s t :
  String.length (s +:+ t) = (String.length s + String.length t)%nat.
Proof.
  induction s as [|c s IH]; [done|].
  change (String c s +:+ t) with (String c (s +:+ t)). simpl. by rewrite IH.
Qed.

Lemma str_app_assoc (s t u : string) : (s +:+ t) +:+ u = s +:+ (t +:+ u).
Proof.
  induction s as [|c s IH]; [done|].
  change (String c ((s +:+ t) +:+ u) = String c (s +:+ (t +:+ u))). by rewrite IH.
Qed.

Lemma str_app_nil_r (s : string) : s +:+ "" = s.
Proof.
  induction s as [|c s IH]; [done|].
  change (String c (s +:+ "") = String c s). by rewrite IH.
Qed.

(** A single character: the position of its first occurrence. *)
Fixpoint char_find (c : ascii) (s : string) : option nat :=
  match s with
  | EmptyString => None
  | String d s => if Ascii.eqb c d then Some O else S <$> char_find c s
  end.

Fixpoint char_in (c : ascii) (s : string) : bool :=
  match s with
  | EmptyString => false
  | String d s => Ascii.eqb c d || char_in c s
  end.

(** Searching a one-character needle is [char_find]. *)
Lemma str_find_char c s : str_find (String c EmptyString) s = char_find c s.
Proof.
  unfold str_find. induction s as [|d s IH]; [done|].
  simpl. destruct (ascii_dec c d) as [->|Hne].
  - rewrite Ascii.eqb_refl. by destruct s.
  - rewrite (proj2 (Ascii.eqb_neq c d) Hne), IH. by destruct (char_find c s).
Qed.

Lemma char_find_app c s t :
  char_in c s = false → char_find c (s +:+ t) = (Nat.add (String.length s)) <$> char_find c t.
Proof.
  induction s as [|d s IH]; intros Hin.
  - change ("" +:+ t) with t. by destruct (char_find c t).
  - change (String d s +:+ t) with (String d (s +:+ t)). simpl in *.
    apply orb_false_iff in Hin as [-> Hin]. rewrite (IH Hin).
    by destruct (char_find c t).
Qed.

(** ** [std::to_string] *)

Fixpoint decimal_digits (fuel : nat) (n : Z) : string :=
  match fuel with
  | O => EmptyString
  | S fuel =>
      if n <? 10 then String (digit_char n) EmptyString
      else decimal_digits fuel (n / 10) +:+ String (digit_char (n mod 10)) EmptyString
  end.

(** The fuel, one more than the number of binary digits, is enough for every
    decimal digit. *)
Definition to_string (z : Z) : string :=
  let digits n := decimal_digits (S (Z.to_nat (Z.log2 n))) n in
  if z <? 0 then String "-"%char (digits (- z)) else digits z.

(** ** [std::stoi] *)

(** The longest run of digits: its value, the number of digits read and the
    rest. *)
Fixpoint scan_digits (acc : Z) (count : nat) (s : string) : Z * nat * string :=
  match s with
  | String c s' =>
      if is_digit c then scan_digits (acc * 10 + digit_value c) (S count) s'
      else (acc, count, s)
  | EmptyString => (acc, count, EmptyString)
  end.

Fixpoint skip_spaces (s : string) : string :=
  match s with
  | String c s' => if is_space c then skip_spaces s' else s
  | EmptyString => EmptyString
  end.

Definition scan_sign (s : string) : bool * string :=
  match s with
  | String "-"%char s' => (true, s')
  | String "+"%char s' => (false, s')
  | _ => (false, s)
  end.

(** Throws [std::invalid_argument] without a digit and [std::out_of_range]
    outside the range of [int]. *)
Definition stoi (s : string) : result Z :=
  let '(neg, body) := scan_sign (skip_spaces s) in
  let '(v, count, _) := scan_digits 0 0 body in
  if (count =? 0)%nat then Throw "stoi: invalid_argument"
  else
    let z := if (neg : bool) then - v else v in
    if is_int z then Ok z else Throw "stoi: out_of_range".

(** ** Round trip *)

Lemma scan_digits_app acc count s t :
  (∀ c, char_in c s = true → is_digit c = true) →
  scan_digits acc count (s +:+ t) =
    scan_digits (scan_digits acc count s).1.1 (count + String.length s) t.
Proof.
  revert acc count. induction s as [|c s IH]; intros acc count Hs.
  - simpl. by rewrite Nat.add_0_r.
  - change (String c s +:+ t) with (String c (s +:+ t)). simpl.
    rewrite (Hs c) by (simpl; by rewrite Ascii.eqb_refl).
    rewrite IH by (intros d Hd; apply Hs; simpl; by rewrite Hd, orb_true_r).
    by replace (S count + String.length s)%nat with (count + S (String.length s))%nat by lia.
Qed.

(** A numeral is not negative. *)
Lemma scan_digits_nonneg s : ∀ acc count, 0 <= acc → 0 <= (scan_digits acc count s).1.1.
Proof.
  induction s as [|c s IH]; intros acc count Hacc; cbn [scan_digits]; [done|].
  destruct (is_digit c) eqn:Hc; [|done]. apply IH. unfold digit_value, is_digit in *. lia.
Qed.

Lemma char_in_app c s t : char_in c (s +:+ t) = char_in c s || char_in c t.
Proof.
  induction s as [|d s IH]; [done|].
  change (String d s +:+ t) with (String d (s +:+ t)). simpl.
  by rewrite IH, orb_assoc.
Qed.

Lemma decimal_digits_are_digits fuel n c :
  0 <= n → char_in c (decimal_digits fuel n) = true → is_digit c = true.
Proof.
  revert n. induction fuel as [|fuel IH]; intros n Hn; simpl; [done|].
  destruct (Z.ltb_spec n 10) as [Hlt|Hge].
  - simpl. rewrite orb_false_r. intros ->%Ascii.eqb_eq.
    apply digit_char_spec; lia.
  - rewrite char_in_app. simpl. rewrite orb_false_r.
    intros [Hin|Heq]%orb_true_iff.
    + apply (IH (n / 10)); [|done]. apply Z.div_pos; lia.
    + apply Ascii.eqb_eq in Heq as ->. apply digit_char_spec.
      pose proof (Z.mod_pos_bound n 10). lia.
Qed.

Lemma decimal_digits_nonempty fuel n : String.length (decimal_digits (S fuel) n) ≠ 0%nat.
Proof.
  simpl. split_ifs; [done|]. rewrite str_length_app. simpl. lia.
Qed.

Lemma scan_decimal_digits fuel n :
  0 <= n < 10 ^ Z.of_nat fuel →
  (scan_digits 0 0 (decimal_digits fuel n)).1.1 = n.
Proof.
  revert n. induction fuel as [|fuel IH]; intros n Hn; [simpl in *; lia|].
  simpl. destruct (Z.ltb_spec n 10) as [Hlt|Hge].
  - destruct (digit_char_spec n) as [Hd Hv]; [lia|]. simpl. rewrite Hd. simpl. lia.
  - assert (0 <= n / 10) by (apply Z.div_pos; lia).
    rewrite scan_digits_app
      by (intros c; by apply decimal_digits_are_digits).
    destruct (digit_char_spec (n mod 10)) as [Hd Hv].
    { apply Z.mod_pos_bound; lia. }
    simpl. rewrite Hd. simpl. rewrite IH, Hv.
    { pose proof (Z.div_mod n 10). lia. }
    split; [done|]. apply Z.div_lt_upper_bound; [lia|].
    rewrite Nat2Z.inj_succ, Z.pow_succ_r in Hn by lia. lia.
Qed.

Lemma log2_fuel_enough n : 0 <= n → n < 10 ^ Z.of_nat (S (Z.to_nat (Z.log2 n))).
Proof.
  intros Hn. pose proof (Z.log2_nonneg n).
  rewrite Nat2Z.inj_succ, Z2Nat.id by done.
  destruct (decide (n = 0)) as [->|Hne]; [by vm_compute|].
  apply Z.lt_le_trans with (2 ^ Z.succ (Z.log2 n)).
  - apply Z.log2_spec. lia.
  - apply Z.pow_le_mono_l. lia.
Qed.

Lemma scan_to_digits n rest :
  0 <= n → (∀ c s, rest = String c s → is_digit c = false) →
  ∃ count, (count ≠ 0)%nat ∧
    scan_digits 0 0 (decimal_digits (S (Z.to_nat (Z.log2 n))) n +:+ rest) = (n, count, rest).
Proof.
  intros Hn Hrest.
  rewrite scan_digits_app by (intros c; by apply decimal_digits_are_digits).
  rewrite scan_decimal_digits by (split; [done|by apply log2_fuel_enough]).
  exists (String.length (decimal_digits (S (Z.to_nat (Z.log2 n))) n)).
  split; [apply decimal_digits_nonempty|].
  destruct rest as [|c rest]; simpl; [done|]. by rewrite (Hrest c rest).
Qed.

Lemma digit_not_space_sign c :
  is_digit c = true → is_space c = false ∧ c ≠ "-"%char ∧ c ≠ "+"%char.
Proof.
  intros Hc. unfold is_digit in Hc. unfold is_space.
  apply andb_true_iff in Hc as [Hlo%Z.leb_le Hhi%Z.leb_le]. repeat split.
  - apply orb_false_iff. split; [apply Nat.eqb_neq; lia|].
    apply andb_false_iff. right. apply Nat.leb_gt. lia.
  - by intros ->.
  - by intros ->.
Qed.

Lemma decimal_digits_head fuel n :
  0 <= n → ∃ c s, decimal_digits (S fuel) n = String c s ∧ is_digit c = true.
Proof.
  intros Hn. pose proof (decimal_digits_nonempty fuel n) as Hne.
  pose proof (λ c, decimal_digits_are_digits (S fuel) n c Hn) as Hd.
  destruct (decimal_digits (S fuel) n) as [|c s]; [done|].
  exists c, s. split; [done|]. apply Hd. simpl. by rewrite Ascii.eqb_refl.
Qed.

Lemma decimal_digits_lead fuel n c s :
  0 < n < 10 ^ Z.of_nat fuel → decimal_digits fuel n = String c s → c ≠ "0"%char.
Proof.
  revert n c s. induction fuel as [|fuel IH]; intros n c s Hn; [done|]. cbn [decimal_digits].
  destruct (Z.ltb_spec n 10) as [Hlt|Hge].
  - intros [= <- _] Hc. destruct (digit_char_spec n) as [_ Hv]; [lia|]. rewrite Hc in Hv. change (0 = n) in Hv. lia.
  - assert (0 < n / 10 < 10 ^ Z.of_nat fuel) as Hq.
    { split; [apply Z.div_str_pos; lia|]. apply Z.div_lt_upper_bound; [lia|].
      rewrite Nat2Z.inj_succ, Z.pow_succ_r in Hn by lia. lia. }
    destruct (decimal_digits fuel (n / 10)) as [|d r] eqn:E.
    + destruct fuel as [|fuel]; [simpl in Hq; lia|]. by destruct (decimal_digits_nonempty fuel (n / 10)); rewrite E.
    + rewrite str_app_cons. intros [= <- _]. exact (IH _ _ _ Hq E).
Qed.

Lemma decimal_digits_short k fuel n :
  0 <= n < 10 ^ Z.of_nat (S k) → (String.length (decimal_digits fuel n) <= S k)%nat.
Proof.
  revert n k. induction fuel as [|fuel IH]; intros n k Hn; cbn [decimal_digits]; [cbn; lia|].
  destruct (Z.ltb_spec n 10) as [Hlt|Hge]; [cbn; lia|]. rewrite str_length_app. cbn [String.length].
  destruct k as [|k]; [cbn in Hn; lia|].
  assert (0 <= n / 10 < 10 ^ Z.of_nat (S k)) as Hq.
  { split; [apply Z.div_pos; lia|]. apply Z.div_lt_upper_bound; [lia|].
    rewrite (Nat2Z.inj_succ (S k)), Z.pow_succ_r in Hn by lia. lia. }
  specialize (IH (n / 10) k Hq). lia.
Qed.

(** Parsing a printed [int] gives it back, whatever non-digit follows. *)
Lemma stoi_to_string z rest :
  is_int z = true → (∀ c s, rest = String c s → is_digit c = false) →
  stoi (to_string z +:+ rest) = Ok z.
Proof.
  intros Hz Hrest. unfold stoi, to_string.
  destruct (Z.ltb_spec z 0) as [Hneg|Hpos].
  - cbv zeta. rewrite str_app_cons.
    change (scan_sign (skip_spaces (String "-" ?a))) with (true, a). cbv beta iota.
    destruct (scan_to_digits (- z) rest) as (count & Hcount & ->); [lia|done|].
    rewrite (proj2 (Nat.eqb_neq _ _) Hcount), Z.opp_involutive, Hz. done.
  - cbv zeta. destruct (decimal_digits_head (Z.to_nat (Z.log2 z)) z) as (c & s & Heq & Hc); [lia|].
    destruct (scan_to_digits z rest) as (count & Hcount & Hscan); [lia|done|].
    rewrite Heq in *. change (String c s +:+ rest) with (String c (s +:+ rest)) in *.
    destruct (digit_not_space_sign c Hc) as (Hsp & Hm & Hp).
    cbn [skip_spaces]. rewrite Hsp.
    assert (scan_sign (String c (s +:+ rest)) = (false, String c (s +:+ rest))) as ->.
    { destruct c as [[] [] [] [] [] [] [] []]; done. }
    rewrite Hscan, (proj2 (Nat.eqb_neq _ _) Hcount), Hz. done.
Qed.

Lemma to_string_no_char c z : is_digit c = false → c ≠ "-"%char → char_in c (to_string z) = false.
Proof.
  intros Hc Hm. apply not_true_iff_false. intros Hin. unfold to_string in Hin.
  destruct (Z.ltb_spec z 0) as [Hz|Hz].
  - cbn [char_in] in Hin. apply orb_true_iff in Hin as [Heq|Hin].
    { by apply Ascii.eqb_eq in Heq. }
    apply decimal_digits_are_digits in Hin; [congruence|lia].
  - apply decimal_digits_are_digits in Hin; [congruence|lia].
Qed.

Lemma str_take_ge n s : (String.length s <= n)%nat → str_take n s = s.
Proof.
  revert n. induction s as [|c s IH]; intros n Hn; [by destruct n|].
  destruct n as [|n]; [cbn in Hn; lia|]. cbn [str_take]. rewrite IH; [done|]. cbn in Hn. lia.
Qed.

Lemma str_app_inj s t t' : s +:+ t = s +:+ t' → t = t'.
Proof. induction s as [|c s IH]; [done|]. rewrite !str_app_cons. intros [= E]. by apply IH. Qed.
