(* ===== verification/Doubles.v ===== *)
(** * [double] as IEEE-754 binary64

    The latency averages, the percentile ranks and the observability series
    are [double]s.  They are the standard library's binary64 specification
    ([SpecFloat] at precision 53 and maximal exponent 1024), which rounds to
    nearest even as the generated code does and evaluates inside the kernel. *)
From S2P Require Import Prelude StdString.
From Stdlib Require Export SpecFloat.

Definition double : Type := spec_float.

Definition d_add : double → double → double := SFadd 53 1024.
Definition d_sub : double → double → double := SFsub 53 1024.
Definition d_mul : double → double → double := SFmul 53 1024.
Definition d_div : double → double → double := SFdiv 53 1024.
Definition d_le : double → double → bool := SFleb.
Definition d_lt : double → double → bool := SFltb.
Definition d_zero : double := S754_zero false.

(** [static_cast<double>(z)]. *)
Definition d_of_Z (z : Z) : double := binary_normalize 53 1024 z 0 false.

(** A decimal literal [a / b] of the source: the nearest [double], obtained as
    the correctly rounded quotient of two exact integers. *)
Definition d_lit (a b : Z) : double := d_div (d_of_Z a) (d_of_Z b).

Definition d_is_finite (d : double) : bool :=
  match d with S754_infinity _ | S754_nan => false | _ => true end.

(** Conversion to an integer type truncates toward zero; it is undefined for
    an infinity or a NaN ([None]). *)
Definition d_trunc (d : double) : option Z :=
  match d with
  | S754_zero _ => Some 0
  | S754_finite s m e =>
      let v := if 0 <=? e then Z.pos m * 2 ^ e else Z.pos m / 2 ^ (- e) in
      Some (if s then - v else v)
  | _ => None
  end.

(** The rank a [p]-percentile of [n] sorted samples is read at:
    [static_cast<size_t>(p * static_cast<double>(n - 1))], clamped as the
    source clamps it. *)
Definition percentile_index (p : double) (n : Z) : Z :=
  match d_trunc (d_mul p (d_of_Z (n - 1))) with
  | Some i => if n <=? i then n - 1 else i
  | None => n - 1
  end.

Definition p95 : double := d_lit 95 100.

(** Up to 4096 samples (the default bound of a series, four times the bound of
    the scheduler's own sample windows) the rounding of the product never
    reaches the next integer: the rank is the exact floor. *)
Lemma p95_index_exact n : 1 <= n <= 4096 → percentile_index p95 n = 95 * (n - 1) / 100.
Proof.
  assert (forallb (λ n, percentile_index p95 (Z.of_nat n) =? 95 * (Z.of_nat n - 1) / 100)
            (seq 1 4096) = true) as Hall by (vm_compute; reflexivity).
  intros Hn. rewrite forallb_forall in Hall.
  specialize (Hall (Z.to_nat n)). rewrite Z2Nat.id in Hall by lia.
  apply Z.eqb_eq, Hall, in_seq. lia.
Qed.

Lemma p95_index_in_range n : 1 <= n <= 4096 → 0 <= percentile_index p95 n < n.
Proof.
  intros Hn. rewrite p95_index_exact by done. split.
  - apply Z.div_pos; lia.
  - apply Z.div_lt_upper_bound; lia.
Qed.

(** ** [std::stod]

    The longest prefix [strtod] accepts: an optional sign, then [inf],
    [infinity] or [nan] in any case, or a decimal or hexadecimal number with
    an optional fraction and exponent, rounded to nearest even. *)

Definition lower (c : ascii) : ascii :=
  let n := nat_of_ascii c in
  if (65 <=? n)%nat && (n <=? 90)%nat then ascii_of_nat (n + 32) else c.

Fixpoint prefix_nocase (word s : string) : bool :=
  match word, s with
  | EmptyString, _ => true
  | String c word, String d s => (c =? lower d)%char && prefix_nocase word s
  | String _ _, EmptyString => false
  end.

Definition base_digit (base : Z) (c : ascii) : option Z :=
  let n := Z.of_nat (nat_of_ascii (lower c)) in
  let v := if (48 <=? n) && (n <=? 57) then n - 48
           else if (97 <=? n) && (n <=? 102) then n - 87 else 16 in
  if v <? base then Some v else None.

(** A run of digits: the number read so far, how many digits, the rest. *)
Fixpoint scan_base (base acc : Z) (count : Z) (s : string) : Z * Z * string :=
  match s with
  | String c s' =>
      match base_digit base c with
      | Some v => scan_base base (acc * base + v) (count + 1) s'
      | None => (acc, count, s)
      end
  | EmptyString => (acc, count, s)
  end.

(** An exponent part, 0 if there is none. *)
Definition scan_exponent (letter : ascii) (s : string) : Z :=
  match s with
  | String c s' =>
      if (lower c =? letter)%char then
        let '(neg, digits) := scan_sign s' in
        let '(e, _, _) := scan_base 10 0 0 digits in
        if (neg : bool) then - e else e
      else 0
  | EmptyString => 0
  end.

(** A mantissa with its fraction: the integer read, the number of digits and
    the number of them after the point. *)
Definition scan_mantissa (base : Z) (s : string) : Z * Z * Z * string :=
  let '(m, n, rest) := scan_base base 0 0 s in
  match rest with
  | String "."%char rest' =>
      let '(m', n', rest'') := scan_base base m 0 rest' in (m', n + n', n', rest'')
  | _ => (m, n, 0, rest)
  end.

(** The quotient of two positive integers, correctly rounded. *)
Definition d_quotient (neg : bool) (a b : positive) : double :=
  let '(m, e, l) := SFdiv_core_binary 53 1024 (Z.pos a) 0 (Z.pos b) 0 in
  binary_round_aux 53 1024 neg m e l.

(** [m * 10^e]. *)
Definition d_decimal (neg : bool) (m e : Z) : double :=
  match m with
  | Z.pos p =>
      if 0 <=? e then binary_normalize 53 1024 (if neg then - (m * 10 ^ e) else m * 10 ^ e) 0 neg
      else match 10 ^ (- e) with Z.pos q => d_quotient neg p q | _ => S754_zero neg end
  | _ => S754_zero neg
  end.

(** Overflow, and underflow below the normal range, are range errors. *)
Definition d_in_range (m : Z) (d : double) : bool :=
  match d with
  | S754_infinity _ | S754_nan => false
  | S754_zero _ => m =? 0
  | S754_finite _ p _ => 4503599627370496 <=? Z.pos p
  end.

Definition stod (s : string) : result double :=
  let '(neg, body) := scan_sign (skip_spaces s) in
  if prefix_nocase "inf" body then Ok (S754_infinity neg)
  else if prefix_nocase "nan" body then Ok S754_nan
  else
    let '(hm, hcount, hfrac, hrest) := scan_mantissa 16 (str_drop 2 body) in
    if prefix_nocase "0x" body && (0 <? hcount) then
      let e := scan_exponent "p" hrest - 4 * hfrac in
      let d := if hm =? 0 then S754_zero neg
               else binary_normalize 53 1024 (if (neg : bool) then - hm else hm) e neg in
      if d_in_range hm d then Ok d else Throw "stod"
    else
      let '(m, count, frac, rest) := scan_mantissa 10 body in
      if count =? 0 then Throw "stod"
      else
        let d := d_decimal neg m (scan_exponent "e" rest - frac) in
        if d_in_range m d then Ok d else Throw "stod".

Example stod_temperature : stod "0.7" = Ok (d_lit 7 10).
Proof. vm_compute. reflexivity. Qed.
