(* ===== verification/Rounding.v ===== *)
(** * Rounding of decimal numbers

    [Doubles.d_decimal] is the conversion of the C library ([strtod]) on the
    floating-point specification of the standard library.  Here: a decimal
    number that lies strictly between the midpoints of a [double] and its
    neighbours is read as this [double]. *)
From S2P Require Import Prelude StdString Doubles.

(** ** Digits *)

Lemma digits2_pos_spec p : 2 ^ (Z.pos (digits2_pos p) - 1) <= Z.pos p < 2 ^ Z.pos (digits2_pos p).
Proof.
  induction p as [p IH|p IH|]; cbn [digits2_pos]; [..|by vm_compute].
  all: rewrite Pos2Z.inj_succ; replace (Z.succ (Z.pos (digits2_pos p)) - 1) with (Z.succ (Z.pos (digits2_pos p) - 1)) by lia;
    rewrite !Z.pow_succ_r by lia; lia.
Qed.

Lemma Zdigits2_unique z d : 0 <= d - 1 → 2 ^ (d - 1) <= z < 2 ^ d → Zdigits2 z = d.
Proof.
  intros Hd Hz. pose proof (Z.pow_pos_nonneg 2 (d - 1) ltac:(lia) ltac:(lia)). destruct z as [|p|p]; [lia| |lia]. cbn [Zdigits2].
  pose proof (digits2_pos_spec p) as Hp. destruct (Z.lt_trichotomy (Z.pos (digits2_pos p)) d) as [Hlt|[Heq|Hgt]]; [|done|].
  - pose proof (Z.pow_le_mono_r 2 (Z.pos (digits2_pos p)) (d - 1) ltac:(lia) ltac:(lia)). lia.
  - pose proof (Z.pow_le_mono_r 2 d (Z.pos (digits2_pos p) - 1) ltac:(lia) ltac:(lia)). lia.
Qed.

Lemma Zdigits2_le z d : 0 <= z < 2 ^ d → 0 <= d → Zdigits2 z <= d.
Proof.
  intros Hz Hd. destruct z as [|p|p]; [done| |lia]. cbn [Zdigits2]. pose proof (digits2_pos_spec p) as Hp.
  destruct (Z.le_gt_cases (Z.pos (digits2_pos p)) d) as [|Hgt]; [done|]. pose proof (Z.pow_le_mono_r 2 d (Z.pos (digits2_pos p) - 1) ltac:(lia) ltac:(lia)). lia.
Qed.

(** ** Shifting with a round bit and a sticky bit *)

(** The record stands for [N / B]: the quotient, and where the rest lies. *)
Definition stands_for (N B : Z) (mrs : shr_record) : Prop :=
  shr_m mrs = N / B ∧
  match shr_r mrs, shr_s mrs with
  | false, false => N mod B = 0
  | false, true => 0 < 2 * (N mod B) < B
  | true, false => 2 * (N mod B) = B
  | true, true => B < 2 * (N mod B)
  end.

Lemma double_divisor N B : 0 < B → N mod (B * 2) = N mod B + B * ((N / B) mod 2) ∧ N / (B * 2) = N / B / 2.
Proof. intros HB. rewrite Z.rem_mul_r, Z.div_div by lia. lia. Qed.

Lemma shr_1_stands N B mrs : 0 < B → 0 <= N → stands_for N B mrs → stands_for N (B * 2) (shr_1 mrs).
Proof.
  intros HB HN [Hm Hrs]. destruct mrs as [m r s]. cbn [shr_m shr_r shr_s] in *. unfold stands_for.
  destruct (double_divisor N B HB) as [-> ->]. rewrite <- Hm. pose proof (Z.mod_pos_bound N B HB) as Hb.
  assert (0 <= m) as Hm0 by (rewrite Hm; apply Z.div_pos; lia). clear Hm. generalize dependent (N mod B). intros R Hrs Hb.
  destruct m as [|[p|p|]|p]; [..|lia]; cbn [shr_1 shr_m shr_r shr_s].
  - split; [done|]. change (0 mod 2) with 0. destruct r, s; cbn [orb]; lia.
  - change (Z.pos p~1) with (2 * Z.pos p + 1). rewrite (Z.add_comm (2 * _)), (Z.mul_comm 2), Z.div_add, Z.mod_add by lia.
    change ((1 / 2)) with 0. change (1 mod 2) with 1. split; [done|]. destruct r, s; cbn [orb]; lia.
  - change (Z.pos p~0) with (2 * Z.pos p). rewrite (Z.mul_comm 2), Z.div_mul, Z.mod_mul by lia. split; [done|]. destruct r, s; cbn [orb]; lia.
  - split; [done|]. change (1 mod 2) with 1. destruct r, s; cbn [orb]; lia.
Qed.

Lemma iter_stands N p : ∀ B mrs, 0 < B → 0 <= N → stands_for N B mrs → stands_for N (B * 2 ^ Z.pos p) (iter_pos shr_1 p mrs).
Proof.
  induction p as [p IH|p IH|]; intros B mrs HB HN Hs; cbn [iter_pos].
  - replace (B * 2 ^ Z.pos p~1) with (B * 2 * 2 ^ Z.pos p * 2 ^ Z.pos p).
    + apply IH; [nia|done|]. apply IH; [lia|done|]. by apply shr_1_stands.
    + change (Z.pos p~1) with (2 * Z.pos p + 1). replace (2 * Z.pos p + 1) with (Z.pos p + (Z.pos p + 1)) by lia. rewrite !Z.pow_add_r by lia. lia.
  - replace (B * 2 ^ Z.pos p~0) with (B * 2 ^ Z.pos p * 2 ^ Z.pos p).
    + apply IH; [nia|done|]. by apply IH.
    + change (Z.pos p~0) with (2 * Z.pos p). replace (2 * Z.pos p) with (Z.pos p + Z.pos p) by lia. rewrite !Z.pow_add_r by lia. lia.
  - by apply shr_1_stands.
Qed.

Lemma shr_stands N B mrs e n :
  0 < B → 0 <= N → 0 <= n → stands_for N B mrs → ∃ mrs', shr mrs e n = (mrs', e + n) ∧ stands_for N (B * 2 ^ n) mrs'.
Proof.
  intros HB HN Hn Hs. destruct n as [|p|p]; cbn [shr]; [|by eexists; split; [done|apply iter_stands]|lia].
  exists mrs. rewrite Z.add_0_r, Z.mul_1_r. done.
Qed.

(** Rounding to nearest. *)
Lemma nearest_stands N B mrs m :
  0 < B → stands_for N B mrs → (2 * m - 1) * B < 2 * N < (2 * m + 1) * B →
  round_nearest_even (shr_m mrs) (loc_of_shr_record mrs) = m.
Proof.
  intros HB [Hm Hrs] Hnear. destruct mrs as [q r s]. cbn [shr_m shr_r shr_s loc_of_shr_record] in *. subst q.
  pose proof (Z.div_mod N B ltac:(lia)) as Hdiv. pose proof (Z.mod_pos_bound N B HB) as Hb.
  generalize dependent (N mod B). intros R Hrs Hdiv Hb. generalize dependent (N / B). intros q ->.
  assert (q = m ∨ q = m - 1) as [-> | ->] by nia.
  - destruct r, s; cbn [round_nearest_even]; try done; exfalso; nia.
  - destruct r, s; cbn [round_nearest_even]; try lia; exfalso; nia.
Qed.

(** ** Numbers of the format *)

Lemma fexp_eq x : fexp 53 1024 x = Z.max (x - 53) (-1074).
Proof. reflexivity. Qed.

Lemma bounded_spec m e :
  bounded 53 1024 m e = true →
  -1074 <= e <= 971 ∧ Z.pos m < 2 ^ 53 ∧ (2 ^ 52 <= Z.pos m ∨ e = -1074) ∧ fexp 53 1024 (Zdigits2 (Z.pos m) + e) = e.
Proof.
  unfold bounded, canonical_mantissa. intros [Hc He]%andb_true_iff. apply Z.eqb_eq in Hc. apply Z.leb_le in He.
  pose proof (digits2_pos_spec m) as Hd. cbn [Zdigits2]. rewrite fexp_eq in *. split_and!; [lia|lia|..].
  - pose proof (Z.pow_le_mono_r 2 (Z.pos (digits2_pos m)) 53 ltac:(lia) ltac:(lia)). lia.
  - destruct (Z.eq_dec e (-1074)); [by right|]. left. replace (Z.pos (digits2_pos m)) with 53 in Hd by lia. lia.
  - done.
Qed.

Lemma bounded_intro m e : 2 ^ 52 <= Z.pos m ∨ e = -1074 → Z.pos m < 2 ^ 53 → -1074 <= e <= 971 → bounded 53 1024 m e = true.
Proof.
  intros Hcase Hm He. unfold bounded, canonical_mantissa. apply andb_true_iff. split; [|apply Z.leb_le; lia]. apply Z.eqb_eq. rewrite fexp_eq.
  pose proof (Zdigits2_le (Z.pos m) 53 ltac:(lia) ltac:(lia)) as Hd. cbn [Zdigits2] in Hd. destruct Hcase as [Hlow| ->]; [|lia].
  pose proof (Zdigits2_unique (Z.pos m) 53 ltac:(lia) ltac:(lia)) as Hd'. cbn [Zdigits2] in Hd'. lia.
Qed.

(** The canonical form of a finite [double], which the bits have. *)
Definition canonical (d : double) : bool := d_is_finite d && valid_binary 53 1024 d.

(** The lower neighbour is half as far away. *)
Definition closer (m : positive) (e : Z) : Prop := Z.pos m = 2 ^ 52 ∧ -1074 < e.

(** [N / B] in units of [2^t] lies strictly between the midpoints around
    [m * 2^e]. *)
Definition between (N B t : Z) (m : positive) (e : Z) : Prop :=
  (2 * Z.pos m - 1) * (B * 2 ^ (e - t)) < 2 * N < (2 * Z.pos m + 1) * (B * 2 ^ (e - t)) ∧
  (closer m e → (4 * Z.pos m - 1) * (B * 2 ^ (e - t)) < 4 * N).

Lemma quotient_bounds N B lo hi : 0 < B → lo * B <= N → N < hi * B → lo <= N / B < hi.
Proof. intros HB Hlo Hhi. split; [apply Z.div_le_lower_bound; lia|apply Z.div_lt_upper_bound; lia]. Qed.

(** The exponent of the result when no power of two is crossed. *)
Lemma same_exponent N B t m e :
  0 < B → 0 <= N → bounded 53 1024 m e = true → -1074 <= t <= e → between N B t m e →
  (closer m e → Z.pos m * (B * 2 ^ (e - t)) <= N) →
  fexp 53 1024 (Zdigits2 (N / B) + t) = e.
Proof.
  intros HB HN Hb Ht [Hnear _] Hcl. destruct (bounded_spec m e Hb) as (He & Hm & Hcase & _).
  pose proof (Z.pow_pos_nonneg 2 (e - t) ltac:(lia) ltac:(lia)) as HJ. rewrite fexp_eq. destruct (Z.eq_dec e (-1074)) as [->|Hne].
  - assert (t = -1074) as -> by lia. change (2 ^ (-1074 - -1074)) with 1 in *.
    assert (0 <= N / B < 2 ^ 53) as Hq by (apply quotient_bounds; nia). pose proof (Zdigits2_le (N / B) 53 Hq ltac:(lia)). lia.
  - destruct Hcase as [Hlow|]; [|lia]. rewrite (Zdigits2_unique (N / B) (53 + (e - t))); [lia|lia|].
    replace (53 + (e - t) - 1) with (52 + (e - t)) by lia. rewrite !Z.pow_add_r by lia.
    apply quotient_bounds; [done|..]; rewrite <- Z.mul_assoc, (Z.mul_comm (2 ^ (e - t)) B);
      (assert (0 < B * 2 ^ (e - t)) as HW by (apply Z.mul_pos_pos; lia)); set (W := B * 2 ^ (e - t)) in *; clearbody W;
      [|pose proof (Z.mul_le_mono_nonneg_r (2 * Z.pos m + 1) (2 * (2 ^ 53 - 1) + 1) W ltac:(lia) ltac:(lia)); lia].
    destruct (Z.eq_dec (Z.pos m) (2 ^ 52)) as [Heq|Hneq];
      [|pose proof (Z.mul_le_mono_nonneg_r (2 * (2 ^ 52 + 1) - 1) (2 * Z.pos m - 1) W ltac:(lia) ltac:(lia)); lia]. specialize (Hcl ltac:(split; [done|lia])). rewrite Heq in Hcl. lia.
Qed.

(** Below a power of two the exponent is one less. *)
Lemma lower_exponent N B t m e :
  0 < B → closer m e → -1074 <= t <= e - 1 → between N B t m e → N < Z.pos m * (B * 2 ^ (e - t)) →
  fexp 53 1024 (Zdigits2 (N / B) + t) = e - 1 ∧
  (2 * (2 ^ 53) - 1) * (B * 2 ^ (e - 1 - t)) < 2 * N < (2 * (2 ^ 53)) * (B * 2 ^ (e - 1 - t)).
Proof.
  intros HB Hcl Ht [_ Hnear] Hlow. specialize (Hnear Hcl). destruct Hcl as [Hm He]. rewrite Hm in *.
  pose proof (Z.pow_pos_nonneg 2 (e - 1 - t) ltac:(lia) ltac:(lia)) as HJ.
  assert (B * 2 ^ (e - t) = 2 * (B * 2 ^ (e - 1 - t))) as E by (replace (e - t) with (1 + (e - 1 - t)) by lia; rewrite Z.pow_add_r by lia; lia).
  rewrite E in *. clear E. assert (0 < B * 2 ^ (e - 1 - t)) as HW by (apply Z.mul_pos_pos; lia).
  assert (Zdigits2 (N / B) = 53 + (e - 1 - t)) as ->.
  { apply Zdigits2_unique; [lia|]. replace (53 + (e - 1 - t) - 1) with (52 + (e - 1 - t)) by lia. rewrite !Z.pow_add_r by lia.
    apply quotient_bounds; [done|..]; rewrite <- Z.mul_assoc, (Z.mul_comm (2 ^ (e - 1 - t)) B); lia. }
  rewrite fexp_eq. split; lia.
Qed.

(** The rounding of the specification, in both cases. *)
Lemma round_aux_lower sx q l N B t m e :
  0 < B → 0 <= N → stands_for N B (shr_record_of_loc q l) → q = N / B → closer m e → e <= 971 → -1074 <= t <= e - 1 → between N B t m e →
  N < Z.pos m * (B * 2 ^ (e - t)) → binary_round_aux 53 1024 sx q t l = S754_finite sx m e.
Proof.
  intros HB HN Hs Hq Hcl He Ht Hnear Hlt. unfold binary_round_aux. unfold shr_fexp at 1. rewrite Hq at 2.
  destruct (lower_exponent N B t m e HB Hcl ltac:(lia) Hnear Hlt) as [-> Hn].
  destruct (shr_stands N B (shr_record_of_loc q l) t (e - 1 - t) HB HN ltac:(lia) Hs) as (mrs & -> & Hmrs).
  rewrite (nearest_stands N (B * 2 ^ (e - 1 - t)) mrs (2 ^ 53)); [|apply Z.mul_pos_pos; lia|done|lia].
  unfold shr_fexp. change (Zdigits2 (2 ^ 53)) with 54. rewrite fexp_eq. destruct Hcl as [Hm52 He'].
  replace (Z.max (54 + (t + (e - 1 - t)) - 53) (-1074) - (t + (e - 1 - t))) with 1 by lia. cbn [shr iter_pos shr_record_of_loc].
  change (shr_m (shr_1 _)) with (2 ^ 52). rewrite <- Hm52. replace (t + (e - 1 - t) + 1) with e by lia.
  by rewrite (proj2 (Z.leb_le e _)) by lia.
Qed.

Lemma round_aux_same sx q l N B t m e :
  0 < B → 0 <= N → stands_for N B (shr_record_of_loc q l) → q = N / B → bounded 53 1024 m e = true → -1074 <= t <= e → between N B t m e →
  (closer m e → Z.pos m * (B * 2 ^ (e - t)) <= N) → binary_round_aux 53 1024 sx q t l = S754_finite sx m e.
Proof.
  intros HB HN Hs Hq Hb Ht Hnear Hcl. destruct (bounded_spec m e Hb) as (He & _ & _ & Hfm). unfold binary_round_aux. unfold shr_fexp at 1. rewrite Hq at 2.
  rewrite (same_exponent N B t m e HB HN Hb Ht Hnear Hcl).
  destruct (shr_stands N B (shr_record_of_loc q l) t (e - t) HB HN ltac:(lia) Hs) as (mrs & -> & Hmrs).
  rewrite (nearest_stands N (B * 2 ^ (e - t)) mrs (Z.pos m)); [|apply Z.mul_pos_pos; [done|apply Z.pow_pos_nonneg; lia]|done|apply Hnear].
  unfold shr_fexp. replace (t + (e - t)) with e by lia. rewrite Hfm, Z.sub_diag. cbn [shr shr_record_of_loc shr_m].
  by rewrite (proj2 (Z.leb_le e _)) by lia.
Qed.

Lemma round_aux_between sx q l N B t m e :
  0 < B → 0 <= N → stands_for N B (shr_record_of_loc q l) → bounded 53 1024 m e = true →
  -1074 <= t <= e → (closer m e → N < Z.pos m * (B * 2 ^ (e - t)) → t <= e - 1) → between N B t m e →
  binary_round_aux 53 1024 sx q t l = S754_finite sx m e.
Proof.
  intros HB HN Hs Hb Ht Hlow Hnear. assert (q = N / B) as Hq by (destruct Hs as [Hs _]; by destruct l as [|[]]).
  destruct (bounded_spec m e Hb) as (He & _). destruct (Z.lt_ge_cases N (Z.pos m * (B * 2 ^ (e - t)))) as [Hlt|Hge].
  - destruct (decide (Z.pos m = 2 ^ 52 ∧ -1074 < e)) as [Hcl|Hncl].
    + specialize (Hlow Hcl Hlt). apply (round_aux_lower sx q l N B t m e); try done; lia.
    + by apply (round_aux_same sx q l N B t m e).
  - by apply (round_aux_same sx q l N B t m e).
Qed.

(** ** Quotients *)

(** [a / b] lies between the midpoints around [m * 2^e]. *)
Definition rounds_to (a b : Z) (m : positive) (e : Z) : Prop := between (a * 2 ^ 1100) b (-1100) m e.

Lemma between_scale N B t k m e : 0 <= k → t <= e → between (N * 2 ^ k) B (t - k) m e → between N B t m e.
Proof.
  intros Hk Ht. unfold between. replace (e - (t - k)) with (e - t + k) by lia. rewrite Z.pow_add_r by lia.
  pose proof (Z.pow_pos_nonneg 2 k ltac:(lia) Hk) as HP. set (P := 2 ^ k) in *. clearbody P.
  intros [[H1 H2] H3]. rewrite !Z.mul_assoc in *. split; [split|intros Hcl; specialize (H3 Hcl)]; apply (Z.mul_lt_mono_pos_r P); lia.
Qed.

Lemma rounds_between a b m e t : rounds_to a b m e → -1100 <= t <= 0 → t <= e → between (a * 2 ^ (- t)) b t m e.
Proof.
  intros Hr Ht He. apply (between_scale _ _ _ (t + 1100)); [lia|done|]. replace (t - (t + 1100)) with (-1100) by lia.
  rewrite <- Z.mul_assoc, <- Z.pow_add_r by lia. by replace (- t + (t + 1100)) with 1100 by lia.
Qed.

(** The exponent chosen from the numbers of digits is small enough. *)
Lemma exponent_small a b d1 d2 m e :
  0 <= d1 - 1 → 0 <= d2 → 2 ^ (d1 - 1) <= a → 0 < b <= 2 ^ d2 → bounded 53 1024 m e = true → rounds_to a b m e →
  d1 - d2 - 53 <= e ∧ (closer m e → a * 2 ^ 1100 < Z.pos m * (b * 2 ^ (e + 1100)) → d1 - d2 - 53 <= e - 1).
Proof.
  intros Hd1 Hd2 Ha Hb Hm [[_ Hr] _]. destruct (bounded_spec m e Hm) as (He & Hm53 & _). replace (e - -1100) with (e + 1100) in Hr by lia.
  assert (∀ k, 0 <= k → e + k <= d1 - d2 - 1 → 2 ^ k * (b * 2 ^ (e + 1100)) <= a * 2 ^ 1100) as Hbig.
  { intros k Hk Hle. transitivity (2 ^ (d1 - 1) * 2 ^ 1100); [|apply Z.mul_le_mono_nonneg_r; lia].
    transitivity (2 ^ k * (2 ^ d2 * 2 ^ (e + 1100))); [repeat (apply Z.mul_le_mono_nonneg_l || apply Z.mul_le_mono_nonneg_r); lia|].
    rewrite <- !Z.pow_add_r by lia. apply Z.pow_le_mono_r; lia. }
  pose proof (Z.pow_pos_nonneg 2 (e + 1100) ltac:(lia) ltac:(lia)) as HP. assert (0 < b * 2 ^ (e + 1100)) as HW by (apply Z.mul_pos_pos; lia).
  set (W := b * 2 ^ (e + 1100)) in *. set (A := a * 2 ^ 1100) in *. clearbody W A. split.
  - apply Z.nlt_ge. intros Hlt. specialize (Hbig 53 ltac:(lia) ltac:(lia)).
    pose proof (Z.mul_le_mono_nonneg_r (2 * Z.pos m + 1) (2 * (2 ^ 53 - 1) + 1) W ltac:(lia) ltac:(lia)). lia.
  - intros [Hm52 _] Hlow. apply Z.nlt_ge. intros Hlt. specialize (Hbig 52 ltac:(lia) ltac:(lia)). rewrite Hm52 in Hlow. lia.
Qed.

Lemma new_location_stands N B : 0 < B → stands_for N B (shr_record_of_loc (N / B) (new_location B (N mod B))).
Proof.
  intros HB. pose proof (Z.mod_pos_bound N B HB) as Hb. unfold stands_for, new_location, new_location_even, new_location_odd.
  destruct (Z.even B) eqn:Ee; cbv beta iota.
  - destruct (Z.eqb_spec (N mod B) 0) as [E|Hne]; [done|]. destruct (Z.compare_spec (2 * (N mod B)) B); cbn [shr_record_of_loc shr_m shr_r shr_s]; split; try done; lia.
  - destruct (Z.eqb_spec (N mod B) 0) as [E|Hne]; [done|].
    assert (2 * (N mod B) ≠ B) as Hodd by (intros E; rewrite <- E, Z.even_mul in Ee; done).
    destruct (Z.compare_spec (2 * (N mod B) + 1) B); cbn [shr_record_of_loc shr_m shr_r shr_s]; split; try done; lia.
Qed.

Lemma Zdigits2_pos_spec p : 0 <= Zdigits2 (Z.pos p) - 1 ∧ 2 ^ (Zdigits2 (Z.pos p) - 1) <= Z.pos p < 2 ^ Zdigits2 (Z.pos p).
Proof. split; [cbn; lia|]. apply digits2_pos_spec. Qed.

Lemma shifted_numerator a t : t <= 0 → match 0 - t with Z.pos _ => Z.shiftl (Z.pos a) (0 - t) | 0 => Z.pos a | Z.neg _ => 0 end = Z.pos a * 2 ^ (- t).
Proof. intros Ht. replace (0 - t) with (- t) by lia. destruct (- t) eqn:E; [lia| |lia]. rewrite Z.shiftl_mul_pow2 by lia. done. Qed.

Lemma d_quotient_rounds s a b m e : bounded 53 1024 m e = true → rounds_to (Z.pos a) (Z.pos b) m e → d_quotient s a b = S754_finite s m e.
Proof.
  intros Hb Hr. unfold d_quotient, SFdiv_core_binary. rewrite !Z.add_0_r, !Z.sub_0_r.
  destruct (Zdigits2_pos_spec a) as [Ha0 Ha]. destruct (Zdigits2_pos_spec b) as [Hb0 Hb1]. destruct (bounded_spec m e Hb) as (He & _).
  set (d1 := Zdigits2 (Z.pos a)) in *. set (d2 := Zdigits2 (Z.pos b)) in *.
  destruct (exponent_small (Z.pos a) (Z.pos b) d1 d2 m e) as [Hsmall Hlow]; [lia..|done|done|]. rewrite fexp_eq.
  set (t := Z.min (Z.max (d1 - d2 - 53) (-1074)) 0). assert (-1074 <= t <= 0 ∧ t <= e) as Ht by lia.
  assert (match 0 - t with Z.pos _ => Z.shiftl (Z.pos a) (0 - t) | 0 => Z.pos a | Z.neg _ => 0 end = Z.pos a * 2 ^ (- t)) as Em by (apply shifted_numerator; lia).
  rewrite Em. pose proof (Z.pow_pos_nonneg 2 (- t) ltac:(lia) ltac:(lia)) as HP.
  pose proof (new_location_stands (Z.pos a * 2 ^ (- t)) (Z.pos b) ltac:(lia)) as Hs. unfold Z.div, Z.modulo in Hs.
  destruct (Z.div_eucl (Z.pos a * 2 ^ (- t)) (Z.pos b)) as [q r].
  apply (round_aux_between s q _ (Z.pos a * 2 ^ (- t)) (Z.pos b)); try done; [nia|lia| |apply rounds_between; [done|lia|lia]].
  intros Hcl Hlt. specialize (Hlow Hcl). destruct Hcl as [_ He']. apply (Z.mul_lt_mono_pos_r (2 ^ (t + 1100))) in Hlt; [|apply Z.pow_pos_nonneg; lia].
  rewrite <- !Z.mul_assoc, <- !Z.pow_add_r in Hlt by lia. replace (- t + (t + 1100)) with 1100 in Hlt by lia.
  replace (e - t + (t + 1100)) with (e + 1100) in Hlt by lia. specialize (Hlow Hlt). lia.
Qed.

(** ** Integers and decimal numbers *)

Lemma shift_left_pos a d : Z.pos (Pos.iter xO a d) = Z.pos a * 2 ^ Z.pos d.
Proof.
  induction d as [|d IH] using Pos.peano_ind; [cbn; lia|]. rewrite Pos.iter_succ, Pos2Z.inj_succ, Z.pow_succ_r by lia.
  change (Z.pos (Pos.iter xO a d)~0) with (2 * Z.pos (Pos.iter xO a d)). lia.
Qed.

Lemma aligned a :
  let t := Z.min (Z.max (Zdigits2 (Z.pos a) - 53) (-1074)) 0 in
  ∃ mz, shl_align a 0 (Z.max (Zdigits2 (Z.pos a) - 53) (-1074)) = (mz, t) ∧ Z.pos mz = Z.pos a * 2 ^ (- t).
Proof.
  unfold shl_align. rewrite Z.sub_0_r. destruct (Z.max (Zdigits2 (Z.pos a) - 53) (-1074)) as [|p|p] eqn:Ex; [exists a..|exists (Pos.iter xO a p)]; (split; [f_equal; lia|]).
  - change (- Z.min 0 0) with 0. lia.
  - replace (- Z.min (Z.pos p) 0) with 0 by lia. lia.
  - replace (- Z.min (Z.neg p) 0) with (Z.pos p) by lia. apply shift_left_pos.
Qed.

Lemma binary_round_rounds s a m e : bounded 53 1024 m e = true → rounds_to (Z.pos a) 1 m e → binary_round 53 1024 s a 0 = S754_finite s m e.
Proof.
  intros Hb Hr. unfold binary_round. rewrite Z.add_0_r. destruct (Zdigits2_pos_spec a) as [Ha0 Ha]. destruct (bounded_spec m e Hb) as (He & _).
  change (Z.pos (digits2_pos a)) with (Zdigits2 (Z.pos a)). set (d1 := Zdigits2 (Z.pos a)) in *.
  destruct (exponent_small (Z.pos a) 1 d1 0 m e) as [Hsmall Hlow]; [lia|lia|lia|split; [lia|by vm_compute]|done|done|]. rewrite fexp_eq.
  set (x := Z.max (d1 - 53) (-1074)) in *. set (t := Z.min x 0).
  destruct (aligned a) as (mz & Ealign & Emz). fold d1 in Ealign, Emz. fold x in Ealign, Emz. fold t in Ealign, Emz. rewrite Ealign.
  apply (round_aux_between s (Z.pos mz) loc_Exact (Z.pos a * 2 ^ (- t)) 1); try done; [rewrite <- Emz; lia| |lia| |apply rounds_between; [done|lia|lia]].
  - rewrite <- Emz. split; cbn [shr_record_of_loc shr_m shr_r shr_s]; [by rewrite Z.div_1_r|apply Z.mod_1_r].
  - intros Hcl Hlt. specialize (Hlow Hcl). destruct Hcl as [_ He']. apply (Z.mul_lt_mono_pos_r (2 ^ (t + 1100))) in Hlt; [|apply Z.pow_pos_nonneg; lia].
    rewrite <- !Z.mul_assoc, <- !Z.pow_add_r in Hlt by lia. replace (- t + (t + 1100)) with 1100 in Hlt by lia.
    replace (e - t + (t + 1100)) with (e + 1100) in Hlt by lia. specialize (Hlow Hlt). lia.
Qed.

(** [D * 10^K] lies between the midpoints around [m * 2^e]. *)
Definition decimal_rounds_to (D K : Z) (m : positive) (e : Z) : Prop := rounds_to (D * 10 ^ Z.max K 0) (10 ^ Z.max (- K) 0) m e.

(** Such a decimal number is read as [m * 2^e]. *)
Lemma d_decimal_rounds s D K m e :
  0 < D → bounded 53 1024 m e = true → decimal_rounds_to D K m e → d_decimal s D K = S754_finite s m e.
Proof.
  intros HD Hb Hr. unfold decimal_rounds_to in Hr. unfold d_decimal. destruct D as [|p|p]; [lia| |lia]. destruct (Z.leb_spec 0 K) as [HK|HK].
  - rewrite Z.max_l in Hr by lia. replace (Z.max (- K) 0) with 0 in Hr by lia. pose proof (Z.pow_pos_nonneg 10 K ltac:(lia) HK).
    destruct (Z.pos p * 10 ^ K) as [|a|a] eqn:Ea; [lia| |lia]. destruct s; cbn [Z.opp binary_normalize]; by apply binary_round_rounds.
  - replace (Z.max K 0) with 0 in Hr by lia. rewrite Z.max_l in Hr by lia. rewrite Z.pow_0_r, Z.mul_1_r in Hr.
    pose proof (Z.pow_pos_nonneg 10 (- K) ltac:(lia) ltac:(lia)). destruct (10 ^ (- K)) as [|b|b]; [lia| |lia]. by apply d_quotient_rounds.
Qed.

Lemma between_mul N B t k m e : 0 < k → between (N * k) (B * k) t m e ↔ between N B t m e.
Proof.
  intros Hk. unfold between. set (W := 2 ^ (e - t)). clearbody W.
  assert (∀ x y, x * (B * k * W) < y * (N * k) ↔ x * (B * W) < y * N) as Hlt by (intros x y; rewrite (Z.mul_lt_mono_pos_r k (x * (B * W))) by done; lia).
  assert (∀ x y, y * (N * k) < x * (B * k * W) ↔ y * N < x * (B * W)) as Hgt by (intros x y; rewrite (Z.mul_lt_mono_pos_r k (y * N)) by done; lia).
  by rewrite !Hlt, Hgt.
Qed.

(** The exponents may be moved. *)
Lemma decimal_between D K a b m e :
  0 <= a → 0 <= b → b - a = K → between (D * 10 ^ b * 2 ^ 1100) (10 ^ a) (-1100) m e ↔ decimal_rounds_to D K m e.
Proof.
  intros Ha Hb HK. unfold decimal_rounds_to, rounds_to. pose proof (Z.pow_pos_nonneg 10 (Z.min a b) ltac:(lia) ltac:(lia)) as Hpos.
  rewrite <- (between_mul (D * 10 ^ Z.max K 0 * 2 ^ 1100) _ _ (10 ^ Z.min a b)) by done. rewrite <- Z.pow_add_r by lia.
  replace (D * 10 ^ Z.max K 0 * 2 ^ 1100 * 10 ^ Z.min a b) with (D * (10 ^ Z.max K 0 * 10 ^ Z.min a b) * 2 ^ 1100) by lia. rewrite <- Z.pow_add_r by lia.
  replace (Z.max K 0 + Z.min a b) with b by lia. by replace (Z.max (- K) 0 + Z.min a b) with a by lia.
Qed.

Lemma ten_above_two n k : 0 <= k <= 3 * n → 2 ^ k <= 10 ^ n.
Proof. intros Hk. transitivity (2 ^ (3 * n)); [apply Z.pow_le_mono_r; lia|]. rewrite Z.pow_mul_r by lia. apply Z.pow_le_mono_l. lia. Qed.

(** The decimal exponent of a [double]. *)
Lemma decimal_magnitude D K k m e :
  bounded 53 1024 m e = true → decimal_rounds_to D K m e → 1 <= k → 10 ^ (k - 1) <= D < 10 ^ k → -400 <= k + K - 1 <= 400.
Proof.
  intros Hb Hr Hk HD. destruct (bounded_spec m e Hb) as (He & Hm & _). set (a := Z.max (- K) 0 + 500). set (b := Z.max K 0 + 500).
  apply (decimal_between D K a b) in Hr as [[Hlow Hhigh] _]; [|lia..]. replace (e - -1100) with (e + 1100) in * by lia.
  pose proof (Z.pow_le_mono_r 2 26 (e + 1100) ltac:(lia) ltac:(lia)) as H2low. pose proof (Z.pow_le_mono_r 2 (e + 1100) 2071 ltac:(lia) ltac:(lia)) as H2high.
  pose proof (Z.pow_pos_nonneg 10 b ltac:(lia) ltac:(lia)) as Hbpos. pose proof (Z.pow_pos_nonneg 10 a ltac:(lia) ltac:(lia)) as Hapos. split; apply Z.nlt_ge; intros Hlt.
  - assert (D * 10 ^ b < 10 ^ (a - 400)) as HDb.
    { apply Z.lt_le_trans with (10 ^ k * 10 ^ b); [apply Z.mul_lt_mono_pos_r; [done|apply HD]|]. rewrite <- Z.pow_add_r by lia. apply Z.pow_le_mono_r; lia. }
    assert (10 ^ a = 10 ^ 400 * 10 ^ (a - 400)) as Ea by (rewrite <- (Z.pow_add_r 10 400) by lia; f_equal; lia). rewrite Ea in *. clear Ea.
    pose proof (Z.pow_pos_nonneg 10 (a - 400) ltac:(lia) ltac:(lia)) as HA. pose proof (ten_above_two 400 1100 ltac:(lia)) as HT.
    pose proof (Z.pow_pos_nonneg 2 1100 ltac:(lia) ltac:(lia)) as HP. revert Hlow HT HP. generalize (2 ^ 1100), (10 ^ 400). intros P T Hlow HT HP.
    set (A := 10 ^ (a - 400)) in *. set (X := 2 ^ (e + 1100)) in *. set (Y := D * 10 ^ b) in *. clearbody A X Y. clear Hhigh Hapos.
    assert (2 ^ 26 * (T * A) <= (2 * Z.pos m - 1) * (T * A * X)) as H1.
    { assert (0 < T * A) by (apply Z.mul_pos_pos; lia). transitivity (X * (T * A)); [apply Z.mul_le_mono_nonneg_r; lia|].
      assert (0 <= X * (T * A)) by (apply Z.mul_nonneg_nonneg; lia). rewrite (Z.mul_comm (T * A) X). set (V := X * (T * A)) in *. clearbody V. nia. }
    assert (Y * P <= A * P) by (apply Z.mul_le_mono_nonneg_r; lia). assert (P * A <= T * A) by (apply Z.mul_le_mono_nonneg_r; lia). assert (0 < P * A) by nia. lia.
  - assert (10 ^ 401 * 10 ^ a <= D * 10 ^ b) as HDb.
    { transitivity (10 ^ (k - 1) * 10 ^ b); [|apply Z.mul_le_mono_nonneg_r; lia]. rewrite <- !Z.pow_add_r by lia. apply Z.pow_le_mono_r; lia. }
    pose proof (ten_above_two 401 1025 ltac:(lia)) as HT. pose proof (Z.pow_pos_nonneg 2 1100 ltac:(lia) ltac:(lia)) as HP.
    assert (2 ^ 2071 = 2 ^ 971 * 2 ^ 1100) as E2071 by (rewrite <- Z.pow_add_r by lia; done). assert (2 ^ 1025 = 2 ^ 54 * 2 ^ 971) as E1025 by (rewrite <- Z.pow_add_r by lia; done).
    rewrite E2071 in H2high. rewrite E1025 in HT. clear E2071 E1025 Hlow. revert H2high HDb HT HP Hhigh. generalize (2 ^ 1100), (10 ^ 401), (2 ^ 971). intros P T U H2high HDb HT HP Hhigh.
    set (A := 10 ^ a) in *. set (X := 2 ^ (e + 1100)) in *. set (Y := D * 10 ^ b) in *. clearbody A X Y.
    assert (0 < A * X) by (apply Z.mul_pos_pos; lia). assert (0 < A * P) by (apply Z.mul_pos_pos; lia).
    assert ((2 * Z.pos m + 1) * (A * X) <= 2 ^ 54 * (A * X)) by (apply Z.mul_le_mono_nonneg_r; lia). assert (A * X <= A * (U * P)) by (apply Z.mul_le_mono_nonneg_l; lia).
    assert (2 ^ 54 * U * (A * P) <= T * (A * P)) by (apply Z.mul_le_mono_nonneg_r; lia). assert (T * A * P <= Y * P) by (apply Z.mul_le_mono_nonneg_r; lia).
    replace (A * (U * P)) with (U * (A * P)) in * by lia. replace (T * A * P) with (T * (A * P)) in * by lia. rewrite <- Z.mul_assoc in *. lia.
Qed.

(** ** The results are numbers of the format *)

Lemma shr_1_half mrs : 0 <= shr_m mrs → shr_m (shr_1 mrs) = shr_m mrs / 2.
Proof.
  destruct mrs as [[|[p|p|]|p] r s]; cbn [shr_m shr_1]; intros Hm; try done; try lia.
  - change (Z.pos p~1) with (2 * Z.pos p + 1). rewrite Z.add_comm, Z.mul_comm, Z.div_add by lia. done.
  - change (Z.pos p~0) with (2 * Z.pos p). rewrite Z.mul_comm, Z.div_mul by lia. done.
Qed.

Lemma iter_div p : ∀ mrs, 0 <= shr_m mrs → shr_m (iter_pos shr_1 p mrs) = shr_m mrs / 2 ^ Z.pos p.
Proof.
  induction p as [p IH|p IH|]; intros mrs Hm; cbn [iter_pos]; [..|by apply shr_1_half].
  all: pose proof (Z.pow_pos_nonneg 2 (Z.pos p) ltac:(lia) ltac:(lia)) as HP.
  - pose proof (shr_1_half mrs Hm) as H1. assert (0 <= shr_m (shr_1 mrs)) as Hm1 by (rewrite H1; apply Z.div_pos; lia).
    rewrite IH by (rewrite IH by done; by apply Z.div_pos). rewrite IH, H1 by done. rewrite !Z.div_div by lia. f_equal.
    change (Z.pos p~1) with (2 * Z.pos p + 1). replace (2 * Z.pos p + 1) with (1 + (Z.pos p + Z.pos p)) by lia. rewrite !Z.pow_add_r by lia. lia.
  - rewrite IH by (rewrite IH by done; by apply Z.div_pos). rewrite IH by done. rewrite Z.div_div by lia. f_equal.
    change (Z.pos p~0) with (2 * Z.pos p). replace (2 * Z.pos p) with (Z.pos p + Z.pos p) by lia. rewrite Z.pow_add_r by lia. done.
Qed.

Lemma shr_div mrs e n : 0 <= shr_m mrs → 0 <= n → shr_m (shr mrs e n).1 = shr_m mrs / 2 ^ n ∧ (shr mrs e n).2 = e + n.
Proof.
  intros Hm Hn. destruct n as [|p|p]; cbn [shr fst snd]; [|split; [by apply iter_div|done]|lia]. by rewrite Z.div_1_r, Z.add_0_r.
Qed.

Lemma Zdigits2_bounds z : 0 <= z → 0 <= Zdigits2 z ∧ z < 2 ^ Zdigits2 z ∧ (0 < z → 0 < Zdigits2 z ∧ 2 ^ (Zdigits2 z - 1) <= z).
Proof. intros Hz. destruct z as [|p|p]; [done| |lia]. pose proof (Zdigits2_pos_spec p). split_and!; lia. Qed.

(** The first shift: the significand has 53 bits, or is subnormal. *)
Lemma shifted_significand mx ex mrs :
  shr_m mrs = mx → 0 <= mx → ex <= fexp 53 1024 (Zdigits2 mx + ex) →
  let '(mrs', e') := shr mrs ex (fexp 53 1024 (Zdigits2 mx + ex) - ex) in
  0 <= shr_m mrs' < 2 ^ 53 ∧ -1074 <= e' ∧ (e' = -1074 ∨ 2 ^ 52 <= shr_m mrs').
Proof.
  intros Em Hm Hex. rewrite fexp_eq in *. set (n := Z.max (Zdigits2 mx + ex - 53) (-1074) - ex) in *.
  destruct (shr_div mrs ex n ltac:(lia) ltac:(lia)) as [E1 E2]. destruct (shr mrs ex n) as [mrs' e']. cbn [fst snd] in *. subst e'. rewrite E1, Em.
  destruct (Zdigits2_bounds mx Hm) as (Hd0 & Hup & Hlow). pose proof (Z.pow_pos_nonneg 2 n ltac:(lia) ltac:(lia)) as HP. split; [split|split].
  - by apply Z.div_pos.
  - apply Z.div_lt_upper_bound; [done|]. apply Z.lt_le_trans with (2 ^ Zdigits2 mx); [done|]. rewrite <- Z.pow_add_r by lia. apply Z.pow_le_mono_r; lia.
  - lia.
  - destruct (Z.eq_dec (ex + n) (-1074)) as [|Hne]; [by left|right]. destruct (Z.eq_dec mx 0) as [->|Hnz]; [subst n; change (Zdigits2 0) with 0 in *; lia|].
    specialize (Hlow ltac:(lia)). apply Z.div_le_lower_bound; [done|]. rewrite <- Z.pow_add_r by lia. replace (n + 52) with (Zdigits2 mx - 1) by lia. lia.
Qed.

Lemma round_nearest_even_range m l : round_nearest_even m l = m ∨ round_nearest_even m l = m + 1.
Proof. destruct l as [|[]]; cbn; [by left| |by left|by right]. destruct (Z.even m); auto. Qed.

(** Rounding delivers a number in canonical form, or overflows. *)
Lemma round_aux_bounded sx mx ex l :
  0 <= mx → ex <= fexp 53 1024 (Zdigits2 mx + ex) → valid_binary 53 1024 (binary_round_aux 53 1024 sx mx ex l) = true.
Proof.
  intros Hm Hex. unfold binary_round_aux. unfold shr_fexp at 1.
  pose proof (shifted_significand mx ex (shr_record_of_loc mx l) ltac:(by destruct l as [|[]]) Hm Hex) as Hs. destruct (shr _ ex _) as [mrs e1]. destruct Hs as (Hm1 & He1 & Hcase).
  pose proof (round_nearest_even_range (shr_m mrs) (loc_of_shr_record mrs)) as Hr.
  set (r := round_nearest_even (shr_m mrs) (loc_of_shr_record mrs)) in *. assert (0 <= r <= 2 ^ 53 ∧ (e1 = -1074 ∨ 2 ^ 52 <= r)) as [Hr53 Hcase'] by lia.
  clearbody r. unfold shr_fexp. rewrite fexp_eq. destruct (Z.eq_dec r (2 ^ 53)) as [->|Hne].
  - change (Zdigits2 (2 ^ 53)) with 54. replace (Z.max (54 + e1 - 53) (-1074) - e1) with 1 by lia. cbn [shr iter_pos shr_record_of_loc]. change (shr_m (shr_1 _)) with (2 ^ 52).
    change (2 ^ 52) with (Z.pos 4503599627370496). cbv iota. destruct (Z.leb_spec (e1 + 1) (1024 - 53)) as [Hle|]; [|done]. cbn [valid_binary].
    apply bounded_intro; [by left|lia|lia].
  - assert (Zdigits2 r <= 53) as Hd by (apply Zdigits2_le; lia). assert (shr (shr_record_of_loc r loc_Exact) e1 (Z.max (Zdigits2 r + e1 - 53) (-1074) - e1) = (shr_record_of_loc r loc_Exact, e1)) as ->.
    { by destruct (Z.max (Zdigits2 r + e1 - 53) (-1074) - e1) eqn:E; [|lia|]. }
    cbn [shr_record_of_loc shr_m]. destruct r as [|p|p]; [done| |lia]. destruct (Z.leb_spec e1 (1024 - 53)) as [Hle|]; [|done]. cbn [valid_binary].
    apply bounded_intro; [lia|lia|lia].
Qed.

Lemma quotient_valid s a b : valid_binary 53 1024 (d_quotient s a b) = true.
Proof.
  unfold d_quotient, SFdiv_core_binary. rewrite !Z.add_0_r, !Z.sub_0_r. destruct (Zdigits2_pos_spec a) as [Ha0 Ha]. destruct (Zdigits2_pos_spec b) as [Hb0 Hb].
  set (d1 := Zdigits2 (Z.pos a)) in *. set (d2 := Zdigits2 (Z.pos b)) in *. rewrite fexp_eq. set (t := Z.min (Z.max (d1 - d2 - 53) (-1074)) 0).
  assert (match 0 - t with Z.pos _ => Z.shiftl (Z.pos a) (0 - t) | 0 => Z.pos a | Z.neg _ => 0 end = Z.pos a * 2 ^ (- t)) as -> by apply shifted_numerator, Z.le_min_r.
  pose proof (Z.pow_pos_nonneg 2 (- t) ltac:(lia) ltac:(lia)) as HP.
  pose proof (eq_refl (Z.pos a * 2 ^ (- t) / Z.pos b)) as Eq. unfold Z.div at 1 in Eq. destruct (Z.div_eucl (Z.pos a * 2 ^ (- t)) (Z.pos b)) as [q r].
  assert (0 <= q) as Hq by (rewrite Eq; apply Z.div_pos; lia). apply round_aux_bounded; [done|]. rewrite fexp_eq. destruct (Z.le_gt_cases t (-1074)) as [|Ht]; [lia|].
  assert (2 ^ 52 <= q) as Hq52.
  { rewrite Eq. apply Z.div_le_lower_bound; [lia|]. transitivity (2 ^ d2 * 2 ^ 52); [apply Z.mul_le_mono_nonneg_r; lia|].
    transitivity (2 ^ (d1 - 1) * 2 ^ (- t)); [|apply Z.mul_le_mono_nonneg_r; lia]. rewrite <- !Z.pow_add_r by lia. apply Z.pow_le_mono_r; lia. }
  destruct (Zdigits2_bounds q Hq) as (_ & Hup & _). assert (53 <= Zdigits2 q); [|lia]. apply Z.nlt_ge. intros Hlt.
  pose proof (Z.pow_le_mono_r 2 (Zdigits2 q) 52 ltac:(lia) ltac:(lia)). lia.
Qed.

Lemma binary_round_valid s a : valid_binary 53 1024 (binary_round 53 1024 s a 0) = true.
Proof.
  unfold binary_round. rewrite Z.add_0_r. change (Z.pos (digits2_pos a)) with (Zdigits2 (Z.pos a)). rewrite fexp_eq. destruct (aligned a) as (mz & -> & Emz).
  destruct (Zdigits2_pos_spec a) as [Ha0 Ha]. apply round_aux_bounded; [lia|]. set (d1 := Zdigits2 (Z.pos a)) in *. set (t := Z.min (Z.max (d1 - 53) (-1074)) 0) in *.
  rewrite (Zdigits2_unique (Z.pos mz) (d1 - t)); [rewrite fexp_eq; lia|lia|]. rewrite Emz. pose proof (Z.pow_pos_nonneg 2 (- t) ltac:(lia) ltac:(lia)) as HP.
  replace (d1 - t - 1) with (d1 - 1 + - t) by lia. replace (d1 - t) with (d1 + - t) by lia. rewrite !Z.pow_add_r by lia.
  split; [apply Z.mul_le_mono_nonneg_r; lia|apply Z.mul_lt_mono_pos_r; lia].
Qed.

Lemma d_decimal_valid s D K : valid_binary 53 1024 (d_decimal s D K) = true.
Proof.
  unfold d_decimal. destruct D as [|p|p]; [done| |done]. destruct (0 <=? K).
  - destruct s; destruct (Z.pos p * 10 ^ K) as [|a|a]; cbn [Z.opp binary_normalize]; try done; apply binary_round_valid.
  - destruct (10 ^ (- K)); [done|apply quotient_valid|done].
Qed.
