(* ===== verification/JsonFloat.v ===== *)
(** * Printing floating-point numbers

    [to_chars] of [utils/json.hpp] with its namespace [dtoa_impl]: the Grisu2
    algorithm of Florian Loitsch on 64-bit significands and a table of powers
    of ten, and the formatting of the digits.

    A significand is a [uint64_t], kept at its width ([u64]).  The digits
    written to the buffer are a list, the last one first.  The input is a
    binary64 number in canonical form, whose fields are those of its bits. *)
From S2P Require Import Prelude StdString Doubles.

Definition u64 (z : Z) : Z := z mod 2 ^ 64.

(** ** Numbers with their own exponent *)

(** [f * 2^e]. *)
Record diyfp := MkDiyfp { fp_f : Z; fp_e : Z }.

Definition diyfp_sub (x y : diyfp) : diyfp := MkDiyfp (u64 (fp_f x - fp_f y)) (fp_e x).

(** The upper half of the product, rounded: a multiplication of 64-bit numbers
    from four of 32-bit numbers. *)
Definition diyfp_mul (x y : diyfp) : diyfp :=
  let u_lo := Z.land (fp_f x) 0xFFFFFFFF in
  let u_hi := Z.shiftr (fp_f x) 32 in
  let v_lo := Z.land (fp_f y) 0xFFFFFFFF in
  let v_hi := Z.shiftr (fp_f y) 32 in
  let p0 := u64 (u_lo * v_lo) in
  let p1 := u64 (u_lo * v_hi) in
  let p2 := u64 (u_hi * v_lo) in
  let p3 := u64 (u_hi * v_hi) in
  let p0_hi := Z.shiftr p0 32 in
  let p1_lo := Z.land p1 0xFFFFFFFF in
  let p1_hi := Z.shiftr p1 32 in
  let p2_lo := Z.land p2 0xFFFFFFFF in
  let p2_hi := Z.shiftr p2 32 in
  let Q := u64 (p0_hi + p1_lo + p2_lo) in
  let Q := u64 (Q + Z.shiftl 1 (64 - 32 - 1)) in
  MkDiyfp (u64 (p3 + p2_hi + p1_hi + Z.shiftr Q 32)) (fp_e x + fp_e y + 64).

(** A number that is not zero has its first bit within 64 shifts. *)
Fixpoint normalize_loop (turns : nat) (x : diyfp) : diyfp :=
  match turns with
  | O => x
  | S turns =>
      if Z.shiftr (fp_f x) 63 =? 0 then normalize_loop turns (MkDiyfp (u64 (Z.shiftl (fp_f x) 1)) (fp_e x - 1)) else x
  end.

Definition normalize (x : diyfp) : diyfp := normalize_loop 64 x.

Definition normalize_to (x : diyfp) (target_exponent : Z) : diyfp :=
  MkDiyfp (u64 (Z.shiftl (fp_f x) (fp_e x - target_exponent))) target_exponent.

(** ** The number and its neighbours *)

Record boundaries := MkBoundaries { b_w : diyfp; b_minus : diyfp; b_plus : diyfp }.

Definition kHiddenBit : Z := 2 ^ 52.
Definition kBias : Z := 1075.
Definition kMinExp : Z := -1074.

(** The exponent and the fraction among the bits of [m * 2^e]. *)
Definition ieee_fields (m e : Z) : Z * Z := if m <? kHiddenBit then (0, m) else (e + kBias, m - kHiddenBit).

Definition compute_boundaries (m e : Z) : boundaries :=
  let '(E, F) := ieee_fields m e in
  let v := if E =? 0 then MkDiyfp F kMinExp else MkDiyfp (F + kHiddenBit) (E - kBias) in
  let lower_boundary_is_closer := (F =? 0) && (1 <? E) in
  let m_plus := MkDiyfp (u64 (2 * fp_f v + 1)) (fp_e v - 1) in
  let m_minus :=
    if lower_boundary_is_closer then MkDiyfp (u64 (4 * fp_f v - 1)) (fp_e v - 2)
    else MkDiyfp (u64 (2 * fp_f v - 1)) (fp_e v - 1) in
  let w_plus := normalize m_plus in
  let w_minus := normalize_to m_minus (fp_e w_plus) in
  MkBoundaries (normalize v) w_minus w_plus.

(** ** Powers of ten *)

Definition kAlpha : Z := -60.
Definition kGamma : Z := -32.
Definition kCachedPowersMinDecExp : Z := -300.
Definition kCachedPowersDecStep : Z := 8.

(** [cp_f * 2^cp_e], nearly [10^cp_k]. *)
Record cached_power := MkCachedPower { cp_f : Z; cp_e : Z; cp_k : Z }.

Definition kCachedPowers : list cached_power :=
  [MkCachedPower 0xAB70FE17C79AC6CA (-1060) (-300); MkCachedPower 0xFF77B1FCBEBCDC4F (-1034) (-292); MkCachedPower 0xBE5691EF416BD60C (-1007) (-284);
   MkCachedPower 0x8DD01FAD907FFC3C (-980) (-276); MkCachedPower 0xD3515C2831559A83 (-954) (-268); MkCachedPower 0x9D71AC8FADA6C9B5 (-927) (-260);
   MkCachedPower 0xEA9C227723EE8BCB (-901) (-252); MkCachedPower 0xAECC49914078536D (-874) (-244); MkCachedPower 0x823C12795DB6CE57 (-847) (-236);
   MkCachedPower 0xC21094364DFB5637 (-821) (-228); MkCachedPower 0x9096EA6F3848984F (-794) (-220); MkCachedPower 0xD77485CB25823AC7 (-768) (-212);
   MkCachedPower 0xA086CFCD97BF97F4 (-741) (-204); MkCachedPower 0xEF340A98172AACE5 (-715) (-196); MkCachedPower 0xB23867FB2A35B28E (-688) (-188);
   MkCachedPower 0x84C8D4DFD2C63F3B (-661) (-180); MkCachedPower 0xC5DD44271AD3CDBA (-635) (-172); MkCachedPower 0x936B9FCEBB25C996 (-608) (-164);
   MkCachedPower 0xDBAC6C247D62A584 (-582) (-156); MkCachedPower 0xA3AB66580D5FDAF6 (-555) (-148); MkCachedPower 0xF3E2F893DEC3F126 (-529) (-140);
   MkCachedPower 0xB5B5ADA8AAFF80B8 (-502) (-132); MkCachedPower 0x87625F056C7C4A8B (-475) (-124); MkCachedPower 0xC9BCFF6034C13053 (-449) (-116);
   MkCachedPower 0x964E858C91BA2655 (-422) (-108); MkCachedPower 0xDFF9772470297EBD (-396) (-100); MkCachedPower 0xA6DFBD9FB8E5B88F (-369) (-92);
   MkCachedPower 0xF8A95FCF88747D94 (-343) (-84); MkCachedPower 0xB94470938FA89BCF (-316) (-76); MkCachedPower 0x8A08F0F8BF0F156B (-289) (-68);
   MkCachedPower 0xCDB02555653131B6 (-263) (-60); MkCachedPower 0x993FE2C6D07B7FAC (-236) (-52); MkCachedPower 0xE45C10C42A2B3B06 (-210) (-44);
   MkCachedPower 0xAA242499697392D3 (-183) (-36); MkCachedPower 0xFD87B5F28300CA0E (-157) (-28); MkCachedPower 0xBCE5086492111AEB (-130) (-20);
   MkCachedPower 0x8CBCCC096F5088CC (-103) (-12); MkCachedPower 0xD1B71758E219652C (-77) (-4); MkCachedPower 0x9C40000000000000 (-50) 4;
   MkCachedPower 0xE8D4A51000000000 (-24) 12; MkCachedPower 0xAD78EBC5AC620000 3 20; MkCachedPower 0x813F3978F8940984 30 28;
   MkCachedPower 0xC097CE7BC90715B3 56 36; MkCachedPower 0x8F7E32CE7BEA5C70 83 44; MkCachedPower 0xD5D238A4ABE98068 109 52;
   MkCachedPower 0x9F4F2726179A2245 136 60; MkCachedPower 0xED63A231D4C4FB27 162 68; MkCachedPower 0xB0DE65388CC8ADA8 189 76;
   MkCachedPower 0x83C7088E1AAB65DB 216 84; MkCachedPower 0xC45D1DF942711D9A 242 92; MkCachedPower 0x924D692CA61BE758 269 100;
   MkCachedPower 0xDA01EE641A708DEA 295 108; MkCachedPower 0xA26DA3999AEF774A 322 116; MkCachedPower 0xF209787BB47D6B85 348 124;
   MkCachedPower 0xB454E4A179DD1877 375 132; MkCachedPower 0x865B86925B9BC5C2 402 140; MkCachedPower 0xC83553C5C8965D3D 428 148;
   MkCachedPower 0x952AB45CFA97A0B3 455 156; MkCachedPower 0xDE469FBD99A05FE3 481 164; MkCachedPower 0xA59BC234DB398C25 508 172;
   MkCachedPower 0xF6C69A72A3989F5C 534 180; MkCachedPower 0xB7DCBF5354E9BECE 561 188; MkCachedPower 0x88FCF317F22241E2 588 196;
   MkCachedPower 0xCC20CE9BD35C78A5 614 204; MkCachedPower 0x98165AF37B2153DF 641 212; MkCachedPower 0xE2A0B5DC971F303A 667 220;
   MkCachedPower 0xA8D9D1535CE3B396 694 228; MkCachedPower 0xFB9B7CD9A4A7443C 720 236; MkCachedPower 0xBB764C4CA7A44410 747 244;
   MkCachedPower 0x8BAB8EEFB6409C1A 774 252; MkCachedPower 0xD01FEF10A657842C 800 260; MkCachedPower 0x9B10A4E5E9913129 827 268;
   MkCachedPower 0xE7109BFBA19C0C9D 853 276; MkCachedPower 0xAC2820D9623BF429 880 284; MkCachedPower 0x80444B5E7AA7CF85 907 292;
   MkCachedPower 0xBF21E44003ACDD2D 933 300; MkCachedPower 0x8E679C2F5E44FF8F 960 308; MkCachedPower 0xD433179D9C8CB841 986 316;
   MkCachedPower 0x9E19DB92B4E31BA9 1013 324].

(** The division of [int]s truncates. *)
Definition cached_power_index (e : Z) : Z :=
  let f := kAlpha - e - 1 in
  let k := Z.quot (f * 78913) (Z.shiftl 1 18) + (if 0 <? f then 1 else 0) in
  Z.quot (- kCachedPowersMinDecExp + k + (kCachedPowersDecStep - 1)) kCachedPowersDecStep.

Definition get_cached_power_for_binary_exponent (e : Z) : cached_power :=
  default (MkCachedPower 0 0 0) (kCachedPowers !! Z.to_nat (cached_power_index e)).

(** The number of digits and the largest power of ten. *)
Definition find_largest_pow10 (n : Z) : nat * Z :=
  if 1000000000 <=? n then (10%nat, 1000000000)
  else if 100000000 <=? n then (9%nat, 100000000)
  else if 10000000 <=? n then (8%nat, 10000000)
  else if 1000000 <=? n then (7%nat, 1000000)
  else if 100000 <=? n then (6%nat, 100000)
  else if 10000 <=? n then (5%nat, 10000)
  else if 1000 <=? n then (4%nat, 1000)
  else if 100 <=? n then (3%nat, 100)
  else if 10 <=? n then (2%nat, 10)
  else (1%nat, 1).

(** ** Digits *)

Definition decrement_last (buf : list Z) : list Z := match buf with d :: buf => d - 1 :: buf | [] => [] end.

(** A digit can be decremented nine times. *)
Fixpoint grisu2_round (turns : nat) (buf : list Z) (dist delta rest ten_k : Z) : list Z :=
  match turns with
  | O => buf
  | S turns =>
      if (rest <? dist) && (ten_k <=? u64 (delta - rest)) &&
         ((u64 (rest + ten_k) <? dist) || (u64 (rest + ten_k - dist) <? u64 (dist - rest)))
      then grisu2_round turns (decrement_last buf) dist delta (u64 (rest + ten_k)) ten_k
      else buf
  end.

(** The digits of the integral part; the answer is the finished number, or the
    digits when [delta] asks for more. *)
Fixpoint integral_digits (n : nat) (buf : list Z) (p1 pow10 p2 dist delta decimal_exponent minus_e : Z) : (list Z * Z) + list Z :=
  match n with
  | O => inr buf
  | S n =>
      let d := p1 / pow10 in
      let r := p1 mod pow10 in
      let buf := d :: buf in
      let rest := u64 (Z.shiftl r minus_e + p2) in
      if rest <=? delta then
        inl (grisu2_round 10 buf dist delta rest (u64 (Z.shiftl pow10 minus_e)), decimal_exponent + Z.of_nat n)
      else integral_digits n buf r (pow10 / 10) p2 dist delta decimal_exponent minus_e
  end.

(** The digits of the fraction; twenty are more than a [uint64_t] has. *)
Fixpoint fraction_digits (turns : nat) (buf : list Z) (p2 dist delta m minus_e : Z) : list Z * Z :=
  match turns with
  | O => (buf, m)
  | S turns =>
      let p2 := u64 (p2 * 10) in
      let d := Z.shiftr p2 minus_e in
      let r := Z.land p2 (u64 (Z.shiftl 1 minus_e) - 1) in
      let buf := d :: buf in
      let delta := u64 (delta * 10) in
      let dist := u64 (dist * 10) in
      if r <=? delta then (grisu2_round 10 buf dist delta r (u64 (Z.shiftl 1 minus_e)), m + 1)
      else fraction_digits turns buf r dist delta (m + 1) minus_e
  end.

Definition grisu2_digit_gen (decimal_exponent : Z) (M_minus w M_plus : diyfp) : list Z * Z :=
  let delta := fp_f (diyfp_sub M_plus M_minus) in
  let dist := fp_f (diyfp_sub M_plus w) in
  let minus_e := - fp_e M_plus in
  let p1 := Z.shiftr (fp_f M_plus) minus_e mod 2 ^ 32 in
  let p2 := Z.land (fp_f M_plus) (u64 (Z.shiftl 1 minus_e) - 1) in
  let '(k, pow10) := find_largest_pow10 p1 in
  match integral_digits k [] p1 pow10 p2 dist delta decimal_exponent minus_e with
  | inl done => done
  | inr buf => let '(buf, m) := fraction_digits 20 buf p2 dist delta 0 minus_e in (buf, decimal_exponent - m)
  end.

Definition grisu2_scaled (m_minus v m_plus : diyfp) : list Z * Z :=
  let cached := get_cached_power_for_binary_exponent (fp_e m_plus) in
  let c_minus_k := MkDiyfp (cp_f cached) (cp_e cached) in
  let w := diyfp_mul v c_minus_k in
  let w_minus := diyfp_mul m_minus c_minus_k in
  let w_plus := diyfp_mul m_plus c_minus_k in
  let M_minus := MkDiyfp (u64 (fp_f w_minus + 1)) (fp_e w_minus) in
  let M_plus := MkDiyfp (u64 (fp_f w_plus - 1)) (fp_e w_plus) in
  grisu2_digit_gen (- cp_k cached) M_minus w M_plus.

(** The digits of [m * 2^e] and their exponent. *)
Definition grisu2 (m e : Z) : list Z * Z :=
  let b := compute_boundaries m e in grisu2_scaled (b_minus b) (b_w b) (b_plus b).

(** ** Formatting *)

(** The bytes of the buffer. *)
Definition buffer_text (buf : list Z) : string := foldr (λ d text, String (digit_char d) text) "" (rev buf).

Fixpoint zeros (n : nat) : string := match n with O => "" | S n => String "0" (zeros n) end.

Definition append_exponent (e : Z) : string :=
  let k := Z.abs e in
  String (if e <? 0 then "-"%char else "+"%char)
    (if k <? 10 then String "0" (String (digit_char k) "")
     else if k <? 100 then String (digit_char (k / 10)) (String (digit_char (k mod 10)) "")
     else String (digit_char (k / 100)) (String (digit_char (k mod 100 / 10)) (String (digit_char (k mod 100 mod 10)) ""))).

Definition format_buffer (buf : string) (decimal_exponent min_exp max_exp : Z) : string :=
  let k := Z.of_nat (String.length buf) in
  let n := k + decimal_exponent in
  if (k <=? n) && (n <=? max_exp) then buf +:+ zeros (Z.to_nat (n - k)) +:+ ".0"
  else if (0 <? n) && (n <=? max_exp) then str_take (Z.to_nat n) buf +:+ "." +:+ str_drop (Z.to_nat n) buf
  else if (min_exp <? n) && (n <=? 0) then "0." +:+ zeros (Z.to_nat (- n)) +:+ buf
  else
    (if k =? 1 then buf else str_take 1 buf +:+ "." +:+ str_drop 1 buf) +:+ "e" +:+ append_exponent (n - 1).

(** [to_chars] of a finite number; an infinity and a NaN do not come here. *)
Definition to_chars (value : double) : string :=
  let sign (s : bool) := if s then "-" else "" in
  match value with
  | S754_zero s => sign s +:+ "0.0"
  | S754_finite s m e =>
      let '(buf, decimal_exponent) := grisu2 (Z.pos m) e in
      sign s +:+ format_buffer (buffer_text buf) decimal_exponent (-4) 15
  | S754_infinity _ | S754_nan => ""
  end.
