(* ===== verification/JsonGrisu.v ===== *)
(** * The digits of Grisu2

    The digits [grisu2] delivers for a [double], with their exponent, are a
    decimal number strictly between the midpoints of the [double] and its
    neighbours, so that [strtod] reads it back ([Rounding]).

    The steps: the multiplication is the rounded product; every cached power
    is within half a unit of the power of ten; so the scaled boundaries, moved
    by one unit, stay inside the exact ones; the generated digits stay between
    the moved boundaries; and no digit leaves its range. *)
From S2P Require Import Prelude StdString Doubles Rounding JsonFloat.

Lemma u64_small z : 0 <= z < 2 ^ 64 → u64 z = z.
Proof. intros Hz. unfold u64. by rewrite Z.mod_small. Qed.

(** ** Multiplication *)

Lemma split_word z : Z.land z 0xFFFFFFFF = z mod 2 ^ 32 ∧ Z.shiftr z 32 = z / 2 ^ 32.
Proof. split; [apply (Z.land_ones z 32); lia|apply Z.shiftr_div_pow2; lia]. Qed.

(** The upper half of the product, rounded. *)
Lemma diyfp_mul_rounded x y :
  0 <= fp_f x < 2 ^ 64 → 0 <= fp_f y < 2 ^ 64 →
  fp_f (diyfp_mul x y) = (fp_f x * fp_f y + 2 ^ 63) / 2 ^ 64 ∧ fp_e (diyfp_mul x y) = fp_e x + fp_e y + 64.
Proof.
  intros Hx Hy. split; [|done]. unfold diyfp_mul. cbv zeta. cbn [fp_f fp_e].
  set (f := fp_f x) in *. set (g := fp_f y) in *. clearbody f g. repeat match goal with |- context [Z.land ?z 0xFFFFFFFF] => rewrite (proj1 (split_word z)) end.
  rewrite (proj2 (split_word f)), (proj2 (split_word g)). change (Z.shiftl 1 (64 - 32 - 1)) with (2 ^ 31).
  pose proof (Z.div_mod f (2 ^ 32) ltac:(lia)) as Ef. pose proof (Z.mod_pos_bound f (2 ^ 32) ltac:(lia)).
  pose proof (Z.div_mod g (2 ^ 32) ltac:(lia)) as Eg. pose proof (Z.mod_pos_bound g (2 ^ 32) ltac:(lia)).
  assert (0 <= f / 2 ^ 32 < 2 ^ 32) by (split; [apply Z.div_pos; lia|apply Z.div_lt_upper_bound; lia]).
  assert (0 <= g / 2 ^ 32 < 2 ^ 32) by (split; [apply Z.div_pos; lia|apply Z.div_lt_upper_bound; lia]).
  set (ul := f mod 2 ^ 32) in *. set (uh := f / 2 ^ 32) in *. set (vl := g mod 2 ^ 32) in *. set (vh := g / 2 ^ 32) in *. clearbody ul uh vl vh.
  assert (∀ a b, 0 <= a < 2 ^ 32 → 0 <= b < 2 ^ 32 → 0 <= a * b <= (2 ^ 32 - 1) * (2 ^ 32 - 1)) as Hprod by (intros; nia).
  pose proof (Hprod ul vl ltac:(lia) ltac:(lia)). pose proof (Hprod ul vh ltac:(lia) ltac:(lia)).
  pose proof (Hprod uh vl ltac:(lia) ltac:(lia)). pose proof (Hprod uh vh ltac:(lia) ltac:(lia)).
  assert (f * g = uh * vh * 2 ^ 64 + (ul * vh + uh * vl) * 2 ^ 32 + ul * vl) as -> by (rewrite Ef, Eg; ring).
  rewrite !(u64_small (_ * _)) by lia. set (p0 := ul * vl) in *. set (p1 := ul * vh) in *. set (p2 := uh * vl) in *. set (p3 := uh * vh) in *. clearbody p0 p1 p2 p3.
  rewrite (proj2 (split_word p0)), (proj2 (split_word p1)), (proj2 (split_word p2)).
  assert (∀ p, 0 <= p <= (2 ^ 32 - 1) * (2 ^ 32 - 1) → 0 <= p / 2 ^ 32 <= 2 ^ 32 - 2 ∧ 0 <= p mod 2 ^ 32 < 2 ^ 32 ∧ p = 2 ^ 32 * (p / 2 ^ 32) + p mod 2 ^ 32) as Hw.
  { intros p Hp. pose proof (Z.div_mod p (2 ^ 32) ltac:(lia)). pose proof (Z.mod_pos_bound p (2 ^ 32) ltac:(lia)). lia. }
  destruct (Hw p0) as (? & ? & E0); [lia|]. destruct (Hw p1) as (? & ? & E1); [lia|]. destruct (Hw p2) as (? & ? & E2); [lia|].
  set (q := p0 / 2 ^ 32 + p1 mod 2 ^ 32 + p2 mod 2 ^ 32) in *. rewrite !(u64_small q), !(u64_small (q + 2 ^ 31)) by lia. rewrite (proj2 (split_word (q + 2 ^ 31))).
  pose proof (Z.div_mod (q + 2 ^ 31) (2 ^ 32) ltac:(lia)). pose proof (Z.mod_pos_bound (q + 2 ^ 31) (2 ^ 32) ltac:(lia)).
  rewrite u64_small by lia. apply Z.div_unique with (r := 2 ^ 32 * ((q + 2 ^ 31) mod 2 ^ 32) + p0 mod 2 ^ 32); lia.
Qed.

(** ** Powers of ten *)

(** Powers of two and ten as integers: every exponent is moved by a constant
    that makes it positive. *)
Definition unit_of (c : cached_power) : Z := 2 ^ (cp_e c + 1300) * 10 ^ 350.
Definition ten_of (c : cached_power) : Z := 10 ^ (cp_k c + 350) * 2 ^ 1300.

(** [f * 2^e] is within half a unit, [2^(e-1)], of [10^k]; multiplied by the
    denominators. *)
Definition power_close (f e k : Z) : bool :=
  if 0 <=? k then
    if 0 <=? e then 2 * Z.abs (f * 2 ^ e - 10 ^ k) <=? 2 ^ e else 2 * Z.abs (f * 1 - 10 ^ k * 2 ^ (- e)) <=? 1
  else (e <? 0) && (2 * Z.abs (f * 10 ^ (- k) - 2 ^ (- e)) <=? 10 ^ (- k)).

(** A cached power is normalized and within half a unit of the power of ten. *)
Definition power_ok (c : cached_power) : bool :=
  (2 ^ 63 <=? cp_f c) && (cp_f c <? 2 ^ 64) && (-1060 <=? cp_e c) && (cp_e c <=? 1013) && (-300 <=? cp_k c) && (cp_k c <=? 324) &&
  power_close (cp_f c) (cp_e c) (cp_k c).

Lemma close_scale f a b S : 2 * Z.abs (f * a - b) <= a → 0 <= S → 2 * Z.abs (f * (a * S) - b * S) <= a * S.
Proof.
  intros Hc HS. replace (f * (a * S) - b * S) with ((f * a - b) * S) by lia. rewrite Z.abs_mul, (Z.abs_eq S), Z.mul_assoc by done.
  by apply Z.mul_le_mono_nonneg_r.
Qed.

Lemma power_close_spec c :
  power_close (cp_f c) (cp_e c) (cp_k c) = true → -1060 <= cp_e c → -300 <= cp_k c → 2 * Z.abs (cp_f c * unit_of c - ten_of c) <= unit_of c.
Proof.
  unfold power_close, unit_of, ten_of. intros Hc He Hk. destruct (Z.leb_spec 0 (cp_k c)); [destruct (Z.leb_spec 0 (cp_e c))|].
  - apply Z.leb_le, (close_scale _ _ _ (2 ^ 1300 * 10 ^ 350)) in Hc; [|apply Z.mul_nonneg_nonneg; apply Z.pow_nonneg; lia].
    rewrite (Z.pow_add_r 2 (cp_e c)), (Z.pow_add_r 10 (cp_k c)) by lia. set (P := 2 ^ 1300) in *. set (Q := 10 ^ 350) in *. clearbody P Q. lia.
  - apply Z.leb_le, (close_scale _ _ _ (2 ^ (cp_e c + 1300) * 10 ^ 350)) in Hc; [|apply Z.mul_nonneg_nonneg; apply Z.pow_nonneg; lia].
    assert (2 ^ (- cp_e c) * 2 ^ (cp_e c + 1300) = 2 ^ 1300) as E2 by (rewrite <- Z.pow_add_r by lia; f_equal; lia). rewrite <- E2. clear E2.
    rewrite (Z.pow_add_r 10 (cp_k c)) by lia. set (Q := 10 ^ 350) in *. clearbody Q. lia.
  - apply andb_true_iff in Hc as [He0%Z.ltb_lt Hc]. apply Z.leb_le, (close_scale _ _ _ (10 ^ (cp_k c + 350) * 2 ^ (cp_e c + 1300))) in Hc;
      [|apply Z.mul_nonneg_nonneg; apply Z.pow_nonneg; lia].
    assert (2 ^ (- cp_e c) * 2 ^ (cp_e c + 1300) = 2 ^ 1300) as E2 by (rewrite <- Z.pow_add_r by lia; f_equal; lia). rewrite <- E2. clear E2.
    assert (10 ^ (- cp_k c) * 10 ^ (cp_k c + 350) = 10 ^ 350) as E10 by (rewrite <- Z.pow_add_r by lia; f_equal; lia). rewrite <- E10. clear E10. lia.
Qed.

(** Its product with a number of exponent [e] has an exponent in the range. *)
Definition fits (e : Z) (c : cached_power) : bool := (-60 <=? cp_e c + e + 64) && (cp_e c + e + 64 <=? -32).

Lemma cached_powers_ok : forallb power_ok kCachedPowers = true.
Proof. vm_compute. reflexivity. Qed.

Lemma cached_power_fits e :
  -1137 <= e <= 960 → power_ok (get_cached_power_for_binary_exponent e) = true ∧ fits e (get_cached_power_for_binary_exponent e) = true.
Proof.
  intros He. assert (forallb (λ i, let e := Z.of_nat i - 1137 in
    (cached_power_index e <? 79) && (0 <=? cached_power_index e) && fits e (get_cached_power_for_binary_exponent e)) (seq 0 2098) = true) as Hall
    by (vm_compute; reflexivity).
  rewrite forallb_forall in Hall. specialize (Hall (Z.to_nat (e + 1137)) ltac:(apply in_seq; lia)). cbv zeta in Hall.
  replace (Z.of_nat (Z.to_nat (e + 1137)) - 1137) with e in Hall by lia. rewrite !andb_true_iff in Hall. destruct Hall as [[Hlt Hge] Hfits]. split; [|done].
  unfold get_cached_power_for_binary_exponent. destruct (lookup_lt_is_Some_2 kCachedPowers (Z.to_nat (cached_power_index e))) as [c Ec].
  { change (length kCachedPowers) with 79%nat. lia. }
  rewrite Ec. pose proof cached_powers_ok as Hok. rewrite forallb_forall in Hok. apply Hok, list_elem_of_In. by eapply list_elem_of_lookup_2.
Qed.

(** ** Scaling *)

(** A product in units of the scaled exponent differs from the exact one by less
    than a unit. *)
Lemma scaled_close x c :
  power_ok c = true → 0 <= fp_f x < 2 ^ 64 →
  let h := fp_f (diyfp_mul x (MkDiyfp (cp_f c) (cp_e c))) in
  (h - 1) * (2 ^ 64 * unit_of c) < fp_f x * ten_of c < (h + 1) * (2 ^ 64 * unit_of c).
Proof.
  intros Hc Hx. cbv zeta. unfold power_ok in Hc. rewrite !andb_true_iff in Hc. destruct Hc as [[[[[[Hf1 Hf2] He] _] Hk] _] Hclose]. apply power_close_spec in Hclose; [|lia..].
  destruct (diyfp_mul_rounded x (MkDiyfp (cp_f c) (cp_e c)) Hx ltac:(cbn [fp_f]; lia)) as [-> _]. cbn [fp_f].
  assert (0 < unit_of c) as HU by (unfold unit_of; apply Z.mul_pos_pos; apply Z.pow_pos_nonneg; lia).
  set (U := unit_of c) in *. set (T := ten_of c) in *. set (f := fp_f x) in *. set (g := cp_f c) in *. clearbody U T f g.
  pose proof (Z.div_mod (f * g + 2 ^ 63) (2 ^ 64) ltac:(lia)) as Ed. pose proof (Z.mod_pos_bound (f * g + 2 ^ 63) (2 ^ 64) ltac:(lia)) as Hr.
  set (h := (f * g + 2 ^ 63) / 2 ^ 64) in *. set (r := (f * g + 2 ^ 63) mod 2 ^ 64) in *. clearbody h r.
  assert (h * (2 ^ 64 * U) = f * g * U + 2 ^ 63 * U - r * U) as Eh by nia. assert (0 <= r * U <= (2 ^ 64 - 1) * U) as HrU by nia.
  assert (2 * Z.abs (f * (g * U) - f * T) <= f * U) as Hfc by (rewrite <- Z.mul_sub_distr_l, Z.abs_mul, (Z.abs_eq f) by lia; nia).
  assert (f * U <= (2 ^ 64 - 1) * U) as HfU by nia. rewrite Z.mul_assoc in Hfc. rewrite Z.mul_sub_distr_r, Z.mul_add_distr_r, Eh. lia.
Qed.

(** ** Boundaries *)

Lemma normalize_loop_spec turns : ∀ f e d,
  1 <= d <= 64 → 2 ^ (d - 1) <= f < 2 ^ d → 64 - d <= Z.of_nat turns →
  normalize_loop turns (MkDiyfp f e) = MkDiyfp (f * 2 ^ (64 - d)) (e - (64 - d)).
Proof.
  induction turns as [|turns IH]; intros f e d Hd Hf Ht.
  - replace d with 64 by lia. cbn [normalize_loop]. f_equal; lia.
  - cbn [normalize_loop fp_f fp_e]. rewrite Z.shiftr_div_pow2 by lia. destruct (decide (d = 64)) as [->|Hne].
    + assert (f / 2 ^ 63 ≠ 0) as Hnz by (assert (1 <= f / 2 ^ 63) by (apply Z.div_le_lower_bound; lia); lia). apply Z.eqb_neq in Hnz as ->. f_equal; lia.
    + pose proof (Z.pow_le_mono_r 2 d 63 ltac:(lia) ltac:(lia)). pose proof (Z.pow_pos_nonneg 2 (d - 1) ltac:(lia) ltac:(lia)).
      rewrite (Z.div_small f) by lia. cbn [Z.eqb].
      rewrite Z.shiftl_mul_pow2, u64_small by lia. rewrite (IH (f * 2 ^ 1) (e - 1) (d + 1)); [|lia| |lia].
      * f_equal; [|lia]. replace (64 - d) with (1 + (64 - (d + 1))) by lia. rewrite (Z.pow_add_r 2 1) by lia. lia.
      * replace (d + 1 - 1) with (1 + (d - 1)) by lia. replace (d + 1) with (1 + d) by lia. rewrite !Z.pow_add_r by lia. lia.
Qed.

Lemma normalize_spec f e d : 1 <= d <= 64 → 2 ^ (d - 1) <= f < 2 ^ d → normalize (MkDiyfp f e) = MkDiyfp (f * 2 ^ (64 - d)) (e - (64 - d)).
Proof. intros Hd Hf. apply normalize_loop_spec; [done|done|lia]. Qed.

(** The lower significand. *)
Definition minus_f (m : positive) (e s : Z) : Z :=
  if (Z.pos m =? kHiddenBit) && (-1074 <? e) then (4 * Z.pos m - 1) * 2 ^ (s - 1) else (2 * Z.pos m - 1) * 2 ^ s.

Lemma fields_spec m e :
  bounded 53 1024 m e = true →
  let '(E, F) := ieee_fields (Z.pos m) e in
  (if E =? 0 then MkDiyfp F kMinExp else MkDiyfp (F + kHiddenBit) (E - kBias)) = MkDiyfp (Z.pos m) e ∧
  (F =? 0) && (1 <? E) = (Z.pos m =? kHiddenBit) && (-1074 <? e).
Proof.
  intros Hb. destruct (bounded_spec m e Hb) as (He & Hm & Hcase & _). unfold ieee_fields, kMinExp, kBias. change kHiddenBit with (2 ^ 52).
  destruct (Z.ltb_spec (Z.pos m) (2 ^ 52)) as [Hlt|Hge].
  - change (0 =? 0) with true. cbv iota. destruct Hcase as [?| ->]; [lia|]. split; [done|]. rewrite andb_false_r. by rewrite andb_false_r.
  - rewrite (proj2 (Z.eqb_neq (e + 1075) 0)) by lia. split; [f_equal; lia|]. apply eq_true_iff_eq. rewrite !andb_true_iff, !Z.eqb_eq, !Z.ltb_lt. lia.
Qed.

Lemma boundaries_spec m e :
  bounded 53 1024 m e = true →
  ∃ s, 10 <= s <= 62 ∧ 2 ^ 63 <= 2 * Z.pos m * 2 ^ s ∧ (2 * Z.pos m + 1) * 2 ^ s < 2 ^ 64 ∧
    compute_boundaries (Z.pos m) e =
      MkBoundaries (MkDiyfp (2 * Z.pos m * 2 ^ s) (e - 1 - s)) (MkDiyfp (minus_f m e s) (e - 1 - s)) (MkDiyfp ((2 * Z.pos m + 1) * 2 ^ s) (e - 1 - s)).
Proof.
  intros Hb. pose proof (fields_spec m e Hb) as Hfields. destruct (bounded_spec m e Hb) as (He & Hm & _). destruct (Zdigits2_pos_spec m) as [Hd0 Hd].
  set (d := Zdigits2 (Z.pos m)) in *. assert (d <= 53) as Hd53.
  { apply Z.nlt_ge. intros Hlt. pose proof (Z.pow_le_mono_r 2 53 (d - 1) ltac:(lia) ltac:(lia)). lia. }
  exists (63 - d). assert (2 ^ (d - 1) * 2 ^ (64 - d) = 2 ^ 63) as E63 by (rewrite <- Z.pow_add_r by lia; f_equal; lia).
  assert (2 ^ d * 2 ^ (64 - d) = 2 ^ 64) as E64 by (rewrite <- Z.pow_add_r by lia; f_equal; lia).
  assert (2 ^ (64 - d) = 2 * 2 ^ (63 - d)) as Es by (replace (64 - d) with (1 + (63 - d)) by lia; rewrite Z.pow_add_r by lia; lia).
  pose proof (Z.pow_pos_nonneg 2 (63 - d) ltac:(lia) ltac:(lia)) as HP. assert ((2 * Z.pos m + 1) * 2 ^ (63 - d) < 2 ^ 64) as Hplus by nia.
  split; [lia|]. split; [nia|]. split; [done|]. unfold compute_boundaries. destruct (ieee_fields (Z.pos m) e) as [E F].
  destruct Hfields as [-> ->]. cbn [fp_f fp_e]. rewrite (u64_small (2 * Z.pos m + 1)) by nia.
  assert (2 ^ (d + 1 - 1) <= 2 * Z.pos m + 1 < 2 ^ (d + 1)) as Hdp.
  { replace (d + 1 - 1) with (1 + (d - 1)) by lia. replace (d + 1) with (1 + d) by lia. rewrite !Z.pow_add_r by lia. lia. }
  rewrite (normalize_spec (Z.pos m) e d), (normalize_spec (2 * Z.pos m + 1) (e - 1) (d + 1)) by (done || lia). cbn [fp_e].
  replace (64 - (d + 1)) with (63 - d) by lia. f_equal; [f_equal; [rewrite Es; lia|lia]|]. unfold minus_f, normalize_to.
  destruct (Z.eqb_spec (Z.pos m) kHiddenBit) as [Hh|Hh]; [destruct (Z.ltb_spec (-1074) e)|]; cbn [andb fp_f fp_e].
  - replace (e - 2 - (e - 1 - (63 - d))) with (63 - d - 1) by lia. rewrite (u64_small (4 * Z.pos m - 1)) by (rewrite Hh; split; by vm_compute).
    rewrite Z.shiftl_mul_pow2 by lia. f_equal. apply u64_small.
    assert (2 ^ (63 - d) = 2 * 2 ^ (63 - d - 1)) as Es' by (replace (63 - d) with (1 + (63 - d - 1)) at 1 by lia; rewrite Z.pow_add_r by lia; lia).
    pose proof (Z.pow_pos_nonneg 2 (63 - d - 1) ltac:(lia) ltac:(lia)). nia.
  - replace (e - 1 - (e - 1 - (63 - d))) with (63 - d) by lia. rewrite (u64_small (2 * Z.pos m - 1)) by nia. rewrite Z.shiftl_mul_pow2 by lia. f_equal. apply u64_small. nia.
  - replace (e - 1 - (e - 1 - (63 - d))) with (63 - d) by lia. rewrite (u64_small (2 * Z.pos m - 1)) by nia. rewrite Z.shiftl_mul_pow2 by lia. f_equal. apply u64_small. nia.
Qed.

(** ** Digits *)

(** The number in the buffer. *)
Definition buffer_value (buf : list Z) : Z := foldr (λ d v, v * 10 + d) 0 buf.

(** Decimal digits, the first of which is not zero. *)
Definition digits_ok (buf : list Z) : Prop := Forall (λ d, 0 <= d <= 9) buf ∧ ∃ first, last buf = Some first ∧ first ≠ 0.

Lemma digits_ok_cons d buf : 0 <= d <= 9 → (buf = [] → d ≠ 0) → (buf ≠ [] → digits_ok buf) → digits_ok (d :: buf).
Proof.
  intros Hd Hnil Hbuf. destruct buf as [|c buf]; [split; [by constructor|exists d; auto]|]. destruct Hbuf as [Hall Hfirst]; [done|].
  split; [by constructor|]. by rewrite last_cons_cons.
Qed.

Lemma buffer_value_low buf : digits_ok buf → 10 ^ (Z.of_nat (length buf) - 1) <= buffer_value buf.
Proof.
  induction buf as [|d buf IH]; intros [Hall (first & Hl & Hne)]; [done|]. apply Forall_cons in Hall as [Hd Hall]. destruct buf as [|d' buf].
  - injection Hl as ->. cbn. lia.
  - assert (digits_ok (d' :: buf)) as Hok by (split; [done|exists first; by rewrite last_cons_cons in Hl]). specialize (IH Hok).
    cbn [buffer_value foldr]. fold (buffer_value buf). cbn [buffer_value foldr] in IH. fold (buffer_value buf) in IH.
    replace (Z.of_nat (length (d :: d' :: buf)) - 1) with (Z.succ (Z.of_nat (length (d' :: buf)) - 1)) by (cbn [length]; lia).
    rewrite Z.pow_succ_r by (cbn [length]; lia). lia.
Qed.

(** The last digit is decremented while the rest stays within [delta]. *)
Lemma grisu2_round_spec turns dist delta ten : ∀ d buf rest,
  0 < ten → 0 <= rest <= delta → delta < 2 ^ 64 →
  ∃ j, grisu2_round turns (d :: buf) dist delta rest ten = d - j :: buf ∧ 0 <= j ∧ rest + j * ten <= delta.
Proof.
  induction turns as [|turns IH]; intros d buf rest Hten Hrest Hdelta; cbn [grisu2_round]; [exists 0; rewrite Z.sub_0_r; split_and!; [done|lia|lia]|].
  destruct ((rest <? dist) && (ten <=? u64 (delta - rest)) && _) eqn:Ec; [|exists 0; rewrite Z.sub_0_r; split_and!; [done|lia|lia]].
  rewrite !andb_true_iff in Ec. destruct Ec as [[_ Hle] _]. rewrite u64_small in Hle by lia. cbn [decrement_last]. rewrite u64_small by lia.
  destruct (IH (d - 1) buf (rest + ten)) as (j & -> & Hj & Hsum); [lia..|]. exists (j + 1). split_and!; [f_equal; lia|lia|lia].
Qed.

Section digit_generation.
(** [Mp] is the upper boundary in units of [1 / one]. *)
Variables (Mp delta0 minus_e : Z).
Hypothesis minus_e_range : 0 <= minus_e <= 60.
Hypothesis Mp_range : 0 < delta0 < Mp ∧ Mp < 2 ^ 64.

Lemma one_pos : 0 < 2 ^ minus_e <= 2 ^ 60.
Proof. split; [apply Z.pow_pos_nonneg; lia|apply Z.pow_le_mono_r; lia]. Qed.

(** While [delta] asks for more, sixteen digits are not exceeded. *)
Lemma unfinished_short buf unit rest scale :
  digits_ok buf → Mp <= delta0 * 10 ^ 16 → buffer_value buf * unit <= Mp * scale → delta0 * scale <= rest → rest < unit → 0 < scale →
  Z.of_nat (length buf) <= 16.
Proof.
  intros Hok Hwide HV Hrest Hunit Hscale. pose proof (buffer_value_low buf Hok) as Hlow. apply Z.nlt_ge. intros Hlt.
  pose proof (Z.pow_le_mono_r 10 16 (Z.of_nat (length buf) - 1) ltac:(lia) ltac:(lia)) as Hpow. set (V := buffer_value buf) in *.
  assert (10 ^ 16 * (delta0 * scale) < V * unit) by nia. assert (Mp * scale <= delta0 * 10 ^ 16 * scale) by (apply Z.mul_le_mono_nonneg_r; lia). lia.
Qed.

(** A rounded last digit: the number stays between the boundaries. *)
Lemma rounded_digit turns d buf dist delta rest ten prev :
  0 < ten → 0 <= rest <= delta → delta < 2 ^ 64 → prev = d * ten + rest → delta < prev → 0 <= d <= 9 → (buf ≠ [] → digits_ok buf) →
  ∃ j, grisu2_round turns (d :: buf) dist delta rest ten = d - j :: buf ∧ 0 <= j ∧ rest + j * ten <= delta ∧ digits_ok (d - j :: buf).
Proof.
  intros Hten Hrest Hdelta Eprev Hprev Hd Hbuf. destruct (grisu2_round_spec turns dist delta ten d buf rest Hten Hrest Hdelta) as (j & E & Hj & Hsum).
  exists j. split_and!; [done..|]. assert (j < d) by nia. apply digits_ok_cons; [lia|lia|done].
Qed.

Lemma integral_digits_spec n : ∀ buf p1 pow10 p2 dist dexp,
  Mp = buffer_value buf * 10 ^ Z.of_nat n * 2 ^ minus_e + (p1 * 2 ^ minus_e + p2) → 0 <= p2 < 2 ^ minus_e →
  0 <= p1 < 10 ^ Z.of_nat n → (n ≠ 0%nat → pow10 = 10 ^ (Z.of_nat n - 1) ∧ pow10 * 2 ^ minus_e <= Mp) → delta0 < p1 * 2 ^ minus_e + p2 →
  (buf = [] → n ≠ 0%nat ∧ pow10 <= p1) → (buf ≠ [] → digits_ok buf) → 0 <= buffer_value buf →
  match integral_digits n buf p1 pow10 p2 dist delta0 dexp minus_e with
  | inl (buf, K) => ∃ n, 0 <= n ∧ K = dexp + n ∧ digits_ok buf ∧ (Mp <= delta0 * 10 ^ 16 → (length buf <= 17)%nat) ∧
                      Mp - delta0 <= buffer_value buf * 10 ^ n * 2 ^ minus_e <= Mp
  | inr buf => Mp = buffer_value buf * 2 ^ minus_e + p2 ∧ delta0 < p2 ∧ digits_ok buf ∧ 0 <= buffer_value buf
  end.
Proof.
  pose proof one_pos as Hone. set (one := 2 ^ minus_e) in *.
  induction n as [|n IH]; intros buf p1 pow10 p2 dist dexp EM Hp2 Hp1 Hpow Hprev Hnil Hok Hval; cbn [integral_digits].
  - change (10 ^ Z.of_nat 0) with 1 in *. assert (p1 = 0) as -> by lia. split_and!; [lia|lia| |done]. apply Hok. intros ->. by destruct (Hnil eq_refl).
  - destruct (Hpow ltac:(done)) as [Epow Hpowle]. replace (Z.of_nat (S n) - 1) with (Z.of_nat n) in Epow by lia.
    rewrite Nat2Z.inj_succ, Z.pow_succ_r in EM, Hp1 by lia. pose proof (Z.pow_pos_nonneg 10 (Z.of_nat n) ltac:(lia) ltac:(lia)) as Hpos.
    rewrite <- Epow in EM, Hp1, Hpos. pose proof (Z.div_mod p1 pow10 ltac:(lia)) as Ediv. pose proof (Z.mod_pos_bound p1 pow10 Hpos) as Hr.
    assert (0 <= p1 / pow10 < 10) as Hd by (split; [apply Z.div_pos; lia|apply Z.div_lt_upper_bound; lia]).
    set (d := p1 / pow10) in *. set (r := p1 mod pow10) in *.
    assert (Mp = buffer_value (d :: buf) * pow10 * one + (r * one + p2)) as EM' by (cbn [buffer_value foldr]; fold (buffer_value buf); rewrite EM, Ediv; ring).
    assert (0 <= buffer_value (d :: buf)) as Hval' by (cbn [buffer_value foldr]; fold (buffer_value buf); lia).
    assert (0 <= r * one + p2 < 2 ^ 64) as Hrest by nia. rewrite !Z.shiftl_mul_pow2 by lia. fold one. rewrite (u64_small (r * one + p2)) by lia.
    assert (0 < pow10 * one) as Hten by nia. rewrite (u64_small (pow10 * one)) by lia. destruct (Z.leb_spec (r * one + p2) delta0) as [Hstop|Hgo].
    + destruct (rounded_digit 10 d buf dist delta0 (r * one + p2) (pow10 * one) (p1 * one + p2)) as (j & -> & Hj & Hsum & Hdig); [lia|lia|lia|rewrite Ediv; ring|lia|lia|done|].
      exists (Z.of_nat n). split_and!; [lia|done|done| |..].
      { intros Hwide. destruct buf as [|x buf]; [cbn; lia|].
        pose proof (unfinished_short (x :: buf) (10 * pow10 * one) (p1 * one + p2) 1 (Hok ltac:(done)) Hwide ltac:(lia) ltac:(lia) ltac:(nia) ltac:(lia)). cbn [length] in *. lia. }
      all: rewrite <- Epow; cbn [buffer_value foldr] in *; fold (buffer_value buf) in *; nia.
    + apply IH; [rewrite <- Epow; exact EM'|done|rewrite <- Epow; lia| |done|done| |done].
      * intros Hn. rewrite Epow. replace (Z.of_nat n) with (Z.succ (Z.of_nat n - 1)) by lia. rewrite Z.pow_succ_r by lia. rewrite (Z.mul_comm 10), Z.div_mul by lia.
        replace (Z.succ (Z.of_nat n - 1) - 1) with (Z.of_nat n - 1) by lia. split; [done|]. pose proof (Z.pow_pos_nonneg 10 (Z.of_nat n - 1) ltac:(lia) ltac:(lia)).
        rewrite Epow in Hpowle. replace (Z.of_nat n) with (Z.succ (Z.of_nat n - 1)) in Hpowle by lia. rewrite Z.pow_succ_r in Hpowle by lia. nia.
      * intros _. apply digits_ok_cons; [lia| |done]. intros ->. destruct (Hnil eq_refl) as [_ Hge]. assert (1 <= d) by (apply Z.div_le_lower_bound; lia). lia.
Qed.

Lemma fraction_digits_spec turns : ∀ buf p2 dist delta m,
  Mp * 10 ^ m = buffer_value buf * 2 ^ minus_e + p2 → 0 <= p2 < 2 ^ minus_e → delta = delta0 * 10 ^ m → delta < p2 → 0 <= m →
  m + Z.of_nat turns = 20 → digits_ok buf → 0 <= buffer_value buf →
  let '(buf, m) := fraction_digits turns buf p2 dist delta m minus_e in
  0 <= m <= 20 ∧ digits_ok buf ∧ (Mp <= delta0 * 10 ^ 16 → (length buf <= 17)%nat) ∧ (Mp - delta0) * 10 ^ m <= buffer_value buf * 2 ^ minus_e <= Mp * 10 ^ m.
Proof.
  pose proof one_pos as Hone. set (one := 2 ^ minus_e) in *.
  induction turns as [|turns IH]; intros buf p2 dist delta m EM Hp2 Edelta Hprev Hm Hturns Hok Hval; cbn [fraction_digits].
  - replace m with 20 in * by lia. assert (10 ^ 20 <= delta) by nia. lia.
  - rewrite !Z.shiftl_mul_pow2, !Z.shiftr_div_pow2, Z.mul_1_l by lia. fold one. rewrite !(u64_small one), (u64_small (p2 * 10)) by lia.
    assert (Z.land (p2 * 10) (one - 1) = (p2 * 10) mod one) as ->.
    { unfold one. rewrite <- Z.land_ones by lia. f_equal. by rewrite Z.ones_equiv. }
    pose proof (Z.div_mod (p2 * 10) one ltac:(lia)) as Ediv. pose proof (Z.mod_pos_bound (p2 * 10) one ltac:(lia)) as Hr.
    assert (0 <= p2 * 10 / one < 10) as Hd by (split; [apply Z.div_pos; lia|apply Z.div_lt_upper_bound; lia]).
    set (d := p2 * 10 / one) in *. set (r := (p2 * 10) mod one) in *. clearbody d r.
    assert (0 <= delta) as Hdelta by (rewrite Edelta; apply Z.mul_nonneg_nonneg; [lia|apply Z.pow_nonneg; lia]). rewrite (u64_small (delta * 10)) by lia.
    assert (10 ^ (m + 1) = 10 ^ m * 10) as E10 by (rewrite Z.pow_add_r by lia; lia).
    assert (Mp * 10 ^ (m + 1) = buffer_value (d :: buf) * one + r) as EM' by (cbn [buffer_value foldr]; fold (buffer_value buf); rewrite E10; lia).
    assert (0 <= buffer_value (d :: buf)) as Hval' by (cbn [buffer_value foldr]; fold (buffer_value buf); lia).
    destruct (Z.leb_spec r (delta * 10)) as [Hstop|Hgo].
    + destruct (rounded_digit 10 d buf (u64 (dist * 10)) (delta * 10) r one (p2 * 10)) as (j & -> & Hj & Hsum & Hdig); [lia|lia|lia|lia|lia|lia|done|].
      split_and!; [lia|lia|done| |..].
      { intros Hwide. pose proof (unfinished_short buf one p2 (10 ^ m) Hok Hwide ltac:(lia) ltac:(lia) ltac:(lia) ltac:(apply Z.pow_pos_nonneg; lia)). cbn [length]. lia. }
      all: rewrite ?Z.mul_sub_distr_r, EM'; cbn [buffer_value foldr]; fold (buffer_value buf); rewrite ?E10; nia.
    + apply IH; [done|lia|rewrite E10, Edelta; lia|lia|lia|lia| |done]. apply digits_ok_cons; [lia| |done]. by intros ->; destruct Hok as [_ (first & Hl & _)].
Qed.

Lemma find_largest_pow10_spec n :
  1 <= n < 2 ^ 32 → let '(k, pow10) := find_largest_pow10 n in k ≠ 0%nat ∧ pow10 = 10 ^ (Z.of_nat k - 1) ∧ pow10 <= n < 10 ^ Z.of_nat k.
Proof.
  intros Hn. unfold find_largest_pow10.
  repeat match goal with |- context [if ?a <=? n then _ else _] => destruct (Z.leb_spec a n); [split_and!; [done|reflexivity|lia|cbn; lia]|] end.
  split_and!; [done|reflexivity|lia|cbn; lia].
Qed.

(** The digits of a number between the boundaries. *)
Lemma digit_gen_spec M_minus w M_plus dexp :
  fp_f M_plus = Mp → fp_e M_plus = - minus_e → u64 (Mp - fp_f M_minus) = delta0 → 32 <= minus_e → 2 ^ minus_e <= Mp →
  let '(buf, K) := grisu2_digit_gen dexp M_minus w M_plus in
  digits_ok buf ∧ (Mp <= delta0 * 10 ^ 16 → (length buf <= 17)%nat) ∧
  ((∃ n, 0 <= n ∧ K = dexp + n ∧ Mp - delta0 <= buffer_value buf * 10 ^ n * 2 ^ minus_e <= Mp) ∨
   (∃ m, 0 <= m <= 20 ∧ K = dexp - m ∧ (Mp - delta0) * 10 ^ m <= buffer_value buf * 2 ^ minus_e <= Mp * 10 ^ m)).
Proof.
  intros Ef Ee Edelta Hme Hge. unfold grisu2_digit_gen, diyfp_sub. cbn [fp_f]. rewrite Ef, Ee, Edelta, Z.opp_involutive. pose proof one_pos as Hone.
  rewrite Z.shiftl_mul_pow2, Z.shiftr_div_pow2, Z.mul_1_l, (u64_small (2 ^ minus_e)) by lia.
  assert (Z.land Mp (2 ^ minus_e - 1) = Mp mod 2 ^ minus_e) as -> by (rewrite <- Z.land_ones by lia; f_equal; by rewrite Z.ones_equiv).
  pose proof (Z.div_mod Mp (2 ^ minus_e) ltac:(lia)) as Ediv. pose proof (Z.mod_pos_bound Mp (2 ^ minus_e) ltac:(lia)) as Hr.
  assert (1 <= Mp / 2 ^ minus_e < 2 ^ 32) as Hp1.
  { split; [apply Z.div_le_lower_bound; lia|]. apply Z.div_lt_upper_bound; [lia|]. pose proof (Z.pow_le_mono_r 2 32 minus_e ltac:(lia) Hme). nia. }
  rewrite (Z.mod_small (Mp / 2 ^ minus_e)) by lia. pose proof (find_largest_pow10_spec _ Hp1) as Hk. destruct (find_largest_pow10 (Mp / 2 ^ minus_e)) as [k pow10].
  destruct Hk as (Hk & Epow & Hpow). set (p1 := Mp / 2 ^ minus_e) in *. set (p2 := Mp mod 2 ^ minus_e) in *. set (dist := u64 (Mp - fp_f w)).
  pose proof (integral_digits_spec k [] p1 pow10 p2 dist dexp) as Hint.
  destruct (integral_digits k [] p1 pow10 p2 dist delta0 dexp minus_e) as [[buf K]|buf].
  - destruct Hint as (n & Hn & HK & Hok & Hshort & HV); [cbn; lia|lia|lia|intros _; split; [done|nia]|lia|intros _; split; [done|lia]|done|cbn; lia|].
    split; [done|]. split; [done|]. left. by exists n.
  - destruct Hint as (EM & Hd & Hok & Hval); [cbn; lia|lia|lia|intros _; split; [done|nia]|lia|intros _; split; [done|lia]|done|cbn; lia|].
    pose proof (fraction_digits_spec 20 buf p2 dist delta0 0) as Hfr. destruct (fraction_digits 20 buf p2 dist delta0 0 minus_e) as [buf' m].
    destruct Hfr as (Hm & Hok' & Hshort & HV); [cbn; lia|lia|cbn; lia|lia|lia|lia|done|done|]. split; [done|]. split; [done|]. right. exists m. split_and!; [lia|lia|done|lia..].
Qed.
End digit_generation.

(** ** The shortest digits *)

(** The boundaries after scaling, moved inwards by one unit: in range, apart,
    and inside the exact boundaries. *)
Lemma scaled_boundaries c f_minus f_plus :
  power_ok c = true → 0 <= f_minus → 2 ^ 63 <= f_plus < 2 ^ 64 → f_minus + 2 ^ 10 <= f_plus → f_plus <= (f_plus - f_minus) * 2 ^ 53 →
  let scale f := fp_f (diyfp_mul f (MkDiyfp (cp_f c) (cp_e c))) in
  ∀ e, let Mm := scale (MkDiyfp f_minus e) + 1 in let Mp := scale (MkDiyfp f_plus e) - 1 in
  0 < Mm < Mp ∧ 2 ^ 60 <= Mp < 2 ^ 64 ∧ Mp <= (Mp - Mm) * 10 ^ 16 ∧
  f_minus * ten_of c < Mm * (2 ^ 64 * unit_of c) ∧ Mp * (2 ^ 64 * unit_of c) < f_plus * ten_of c.
Proof.
  intros Hc Hm Hp Hd Hwide scale e Mm Mp. pose proof (scaled_close (MkDiyfp f_minus e) c Hc ltac:(cbn [fp_f]; lia)) as Hcm.
  pose proof (scaled_close (MkDiyfp f_plus e) c Hc ltac:(cbn [fp_f]; lia)) as Hcp. cbv zeta in Hcm, Hcp. cbn [fp_f] in Hcm, Hcp.
  assert (2 ^ 63 <= cp_f c < 2 ^ 64) as Hg by (unfold power_ok in Hc; rewrite !andb_true_iff in Hc; lia).
  assert (∀ f, 0 <= f < 2 ^ 64 → scale (MkDiyfp f e) = (f * cp_f c + 2 ^ 63) / 2 ^ 64) as Hscale.
  { intros f Hf. by destruct (diyfp_mul_rounded (MkDiyfp f e) (MkDiyfp (cp_f c) (cp_e c))) as [E _]; [cbn [fp_f]; lia..|]. }
  fold (scale (MkDiyfp f_minus e)) in Hcm. fold (scale (MkDiyfp f_plus e)) in Hcp. subst Mm Mp.
  set (G := 2 ^ 64 * unit_of c) in *. set (T := ten_of c) in *. split; [|split; [|split; [|split; lia]]]; clear Hcm Hcp; rewrite !Hscale by lia; clear Hscale;
    set (g := cp_f c) in *; clearbody g; pose proof (Z.div_mod (f_plus * g + 2 ^ 63) (2 ^ 64) ltac:(lia)) as Edp; pose proof (Z.mod_pos_bound (f_plus * g + 2 ^ 63) (2 ^ 64) ltac:(lia));
    pose proof (Z.div_mod (f_minus * g + 2 ^ 63) (2 ^ 64) ltac:(lia)) as Edm; pose proof (Z.mod_pos_bound (f_minus * g + 2 ^ 63) (2 ^ 64) ltac:(lia)).
  - assert (f_minus * g + 2 ^ 10 * 2 ^ 63 <= f_plus * g) by nia. assert (0 <= f_minus * g) by nia. lia.
  - assert (2 ^ 63 * 2 ^ 63 <= f_plus * g <= (2 ^ 64 - 1) * (2 ^ 64 - 1)) by nia. lia.
  - assert (2 ^ 10 * 2 ^ 63 <= (f_plus - f_minus) * g) by nia. assert (f_plus * g <= (f_plus - f_minus) * g * 2 ^ 53) by nia.
    assert ((f_plus - f_minus) * g = f_plus * g - f_minus * g) by lia. lia.
Qed.

Lemma minus_f_range m e s :
  10 <= s <= 62 → Z.pos m < 2 ^ 53 → 2 ^ 63 <= 2 * Z.pos m * 2 ^ s → (2 * Z.pos m + 1) * 2 ^ s < 2 ^ 64 →
  0 <= minus_f m e s ∧ minus_f m e s + 2 ^ 10 <= (2 * Z.pos m + 1) * 2 ^ s ∧
  (2 * Z.pos m + 1) * 2 ^ s <= ((2 * Z.pos m + 1) * 2 ^ s - minus_f m e s) * 2 ^ 53.
Proof.
  intros Hs Hm53 Hm Hp. unfold minus_f. pose proof (Z.pow_le_mono_r 2 10 s ltac:(lia) ltac:(lia)).
  assert (2 ^ s = 2 * 2 ^ (s - 1)) as Es by (replace s with (1 + (s - 1)) at 1 by lia; rewrite Z.pow_add_r by lia; lia).
  destruct ((Z.pos m =? kHiddenBit) && (-1074 <? e)) eqn:Ec; [|split_and!; nia].
  apply andb_true_iff in Ec as [Ec%Z.eqb_eq _]. change kHiddenBit with (2 ^ 52) in Ec. rewrite Ec in *. split_and!; lia.
Qed.

(** A decimal number between the moved boundaries, in the units of the exact
    ones. *)
Lemma unscale c f_minus f_plus Mm Mp D p q e s :
  f_minus * ten_of c < Mm * (2 ^ 64 * unit_of c) → Mp * (2 ^ 64 * unit_of c) < f_plus * ten_of c →
  Mm * 10 ^ p <= D * 10 ^ q * 2 ^ (- (cp_e c + (e - 1 - s) + 64)) <= Mp * 10 ^ p →
  0 <= p → 0 <= q → 0 <= s <= 62 → -1074 <= e <= 971 → -300 <= cp_k c → -1060 <= cp_e c → 0 <= - (cp_e c + (e - 1 - s) + 64) →
  let W := 10 ^ (cp_k c + 350 + p) * 2 ^ (e - -1100) in let N := D * 10 ^ (350 + q) * 2 ^ 1100 in
  f_minus * W < N * 2 * 2 ^ s < f_plus * W.
Proof.
  intros Hm Hp HD Hp0 Hq0 Hs He Hk Hce Hme W N. set (me := - (cp_e c + (e - 1 - s) + 64)) in *.
  pose proof (Z.pow_pos_nonneg 10 p ltac:(lia) Hp0) as Hpp. pose proof (Z.pow_pos_nonneg 2 (e + 1100) ltac:(lia) ltac:(lia)) as HP.
  assert (0 < unit_of c) as HU by (unfold unit_of; apply Z.mul_pos_pos; apply Z.pow_pos_nonneg; lia).
  assert (ten_of c * 10 ^ p * 2 ^ (e + 1100) = W * 2 ^ 1300) as EW.
  { subst W. unfold ten_of. replace (e - -1100) with (e + 1100) by lia. rewrite (Z.pow_add_r 10 (cp_k c + 350)) by lia.
    generalize (2 ^ 1300). lia. }
  assert (10 ^ q * 2 ^ me * (2 ^ 64 * unit_of c) * 2 ^ (e + 1100) = 10 ^ (350 + q) * (2 ^ 1100 * 2 * 2 ^ s) * 2 ^ 1300) as EN.
  { unfold unit_of. rewrite (Z.pow_add_r 10 350) by lia.
    assert (2 ^ me * 2 ^ 64 * 2 ^ (cp_e c + 1300) * 2 ^ (e + 1100) = 2 ^ 1100 * 2 ^ 1 * 2 ^ s * 2 ^ 1300) as E2 by (rewrite <- !Z.pow_add_r by lia; f_equal; lia).
    change (2 ^ 1) with 2 in E2. revert E2. generalize (2 ^ 1300), (2 ^ 1100), (10 ^ 350), (2 ^ 64). intros P P' Q Y E2.
    transitivity (10 ^ q * Q * (2 ^ me * Y * 2 ^ (cp_e c + 1300) * 2 ^ (e + 1100))); [lia|]. rewrite E2. lia. }
  assert (N * 2 * 2 ^ s * 2 ^ 1300 = D * 10 ^ q * 2 ^ me * (2 ^ 64 * unit_of c) * 2 ^ (e + 1100)) as EN'.
  { subst N. transitivity (D * (10 ^ (350 + q) * (2 ^ 1100 * 2 * 2 ^ s) * 2 ^ 1300)); [generalize (2 ^ 1300), (2 ^ 1100); lia|]. rewrite <- EN. lia. }
  set (G := 2 ^ 64 * unit_of c) in *. assert (0 < G) as HG by lia. set (T := ten_of c) in *. set (V := D * 10 ^ q * 2 ^ me) in *.
  clearbody G T V W N. clear EN HU. split; apply (Z.mul_lt_mono_pos_r (2 ^ 1300)); try (apply Z.pow_pos_nonneg; lia); rewrite EN', <- (Z.mul_assoc _ W), <- EW.
  - apply (Z.lt_le_trans _ (Mm * 10 ^ p * G * 2 ^ (e + 1100))).
    + replace (f_minus * (T * 10 ^ p * 2 ^ (e + 1100))) with (f_minus * T * (10 ^ p * 2 ^ (e + 1100))) by lia.
      replace (Mm * 10 ^ p * G * 2 ^ (e + 1100)) with (Mm * G * (10 ^ p * 2 ^ (e + 1100))) by lia. apply Z.mul_lt_mono_pos_r; [nia|done].
    + repeat (apply Z.mul_le_mono_nonneg_r; [lia|]). lia.
  - apply (Z.le_lt_trans _ (Mp * 10 ^ p * G * 2 ^ (e + 1100))).
    + repeat (apply Z.mul_le_mono_nonneg_r; [lia|]). lia.
    + replace (f_plus * (T * 10 ^ p * 2 ^ (e + 1100))) with (f_plus * T * (10 ^ p * 2 ^ (e + 1100))) by lia.
      replace (Mp * 10 ^ p * G * 2 ^ (e + 1100)) with (Mp * G * (10 ^ p * 2 ^ (e + 1100))) by lia. apply Z.mul_lt_mono_pos_r; [nia|done].
Qed.

Lemma unscaled_between m e s N B :
  0 <= s - 1 → 0 < B * 2 ^ (e - -1100) → let W := B * 2 ^ (e - -1100) in minus_f m e s * W < N * 2 * 2 ^ s < (2 * Z.pos m + 1) * 2 ^ s * W → between N B (-1100) m e.
Proof.
  intros Hs HW W. unfold minus_f, between. fold W. fold W in HW. clearbody W. pose proof (Z.pow_pos_nonneg 2 (s - 1) ltac:(lia) ltac:(lia)) as HP.
  replace (2 ^ s) with (2 * 2 ^ (s - 1)) by (replace s with (1 + (s - 1)) at 2 by lia; rewrite Z.pow_add_r by lia; lia). set (P := 2 ^ (s - 1)) in *. clearbody P.
  intros [Hlow Hhigh]. assert (2 * N < (2 * Z.pos m + 1) * W) as Hup by (apply (Z.mul_lt_mono_pos_r (2 * P)); lia).
  destruct ((Z.pos m =? kHiddenBit) && (-1074 <? e)) eqn:Ec.
  - assert ((4 * Z.pos m - 1) * W < 4 * N) by (apply (Z.mul_lt_mono_pos_r P); lia). split; [lia|done].
  - assert ((2 * Z.pos m - 1) * W < 2 * N) by (apply (Z.mul_lt_mono_pos_r (2 * P)); lia). split; [lia|]. intros [Hm He].
    change kHiddenBit with (2 ^ 52) in Ec. rewrite (proj2 (Z.eqb_eq _ _) Hm), (proj2 (Z.ltb_lt _ _) He) in Ec. done.
Qed.

(** The digits of a [double] are a decimal number between the midpoints around
    it. *)
Lemma grisu2_rounds m e :
  bounded 53 1024 m e = true →
  digits_ok (grisu2 (Z.pos m) e).1 ∧ (length (grisu2 (Z.pos m) e).1 <= 17)%nat ∧ decimal_rounds_to (buffer_value (grisu2 (Z.pos m) e).1) (grisu2 (Z.pos m) e).2 m e.
Proof.
  intros Hb. destruct (boundaries_spec m e Hb) as (s & Hs & Hw & Hplus & Eb). destruct (bounded_spec m e Hb) as (He & Hm53 & _).
  unfold grisu2. rewrite Eb. cbn [b_minus b_w b_plus]. unfold grisu2_scaled. cbn [fp_e].
  destruct (cached_power_fits (e - 1 - s) ltac:(lia)) as [Hok Hfits]. set (c := get_cached_power_for_binary_exponent (e - 1 - s)) in *. clearbody c.
  destruct (minus_f_range m e s Hs Hm53 Hw Hplus) as (Hm0 & Hdiff & Hwide). pose proof (Z.pow_pos_nonneg 2 s ltac:(lia) ltac:(lia)) as HP.
  destruct (scaled_boundaries c (minus_f m e s) ((2 * Z.pos m + 1) * 2 ^ s) Hok Hm0 ltac:(lia) Hdiff Hwide (e - 1 - s)) as (HMm & HMp & Hwide' & Hlow & Hhigh).
  set (hm := fp_f (diyfp_mul (MkDiyfp (minus_f m e s) (e - 1 - s)) _)) in *.
  set (hp := fp_f (diyfp_mul (MkDiyfp ((2 * Z.pos m + 1) * 2 ^ s) (e - 1 - s)) _)) in *. rewrite (u64_small (hm + 1)), (u64_small (hp - 1)) by lia.
  unfold fits in Hfits. rewrite andb_true_iff, !Z.leb_le in Hfits. set (me := - (cp_e c + (e - 1 - s) + 64)).
  pose proof (Z.pow_le_mono_r 2 me 60 ltac:(lia) ltac:(lia)) as Hone.
  pose proof (digit_gen_spec (hp - 1) (hp - 1 - (hm + 1)) me ltac:(lia) ltac:(lia) (MkDiyfp (hm + 1) (fp_e (diyfp_mul (MkDiyfp (minus_f m e s) (e - 1 - s)) (MkDiyfp (cp_f c) (cp_e c)))))
    (diyfp_mul (MkDiyfp (2 * Z.pos m * 2 ^ s) (e - 1 - s)) (MkDiyfp (cp_f c) (cp_e c)))
    (MkDiyfp (hp - 1) (fp_e (diyfp_mul (MkDiyfp ((2 * Z.pos m + 1) * 2 ^ s) (e - 1 - s)) (MkDiyfp (cp_f c) (cp_e c))))) (- cp_k c)
    eq_refl ltac:(cbn; lia) ltac:(cbn [fp_f]; apply u64_small; lia) ltac:(lia) ltac:(lia)) as Hgen.
  destruct (grisu2_digit_gen _ _ _ _) as [buf K]. cbn [fst snd]. destruct Hgen as (Hdig & Hshort & HV). split; [done|]. split; [apply Hshort; lia|].
  assert (∃ p q, 0 <= p ∧ 0 <= q ∧ K = - cp_k c + q - p ∧ (hm + 1) * 10 ^ p <= buffer_value buf * 10 ^ q * 2 ^ me <= (hp - 1) * 10 ^ p) as (p & q & Hp0 & Hq0 & EK & HV').
  { destruct HV as [(n & Hn & -> & HV)|(p & Hp & -> & HV)]; [exists 0, n|exists p, 0]; split_and!; lia. }
  unfold power_ok in Hok. rewrite !andb_true_iff, !Z.leb_le in Hok.
  apply (decimal_between _ _ (cp_k c + 350 + p) (350 + q)); [lia..|]. apply (unscaled_between m e s); [lia| |].
  - apply Z.mul_pos_pos; apply Z.pow_pos_nonneg; lia.
  - apply (unscale c _ _ (hm + 1) (hp - 1)); try done; lia.
Qed.
