(* ===== verification/Json.v ===== *)
(** * JSON values and the typed readers of the sources

    [json] is the value domain of the JSON library: an object is a finite map
    from keys to values, an integer is kept as the 64-bit value the library
    stores and a float as a [double].  The library tags an integer as signed or
    unsigned, and an unsigned value that a text gives back was perhaps a signed
    one before; the sources never ask for this tag, and [JInt] does not have
    it.  The readers are those of
    [node/vllm-client/src/main.cpp] (top of the file) and of
    [observability_metrics.cpp]: every one falls back to its default when the
    key is missing or has another type, and none throws. *)
From S2P Require Import Prelude StdString Doubles.

Set Warnings "-register-all".

Inductive json : Type :=
  | JNull
  | JBool (b : bool)
  | JInt (z : Z)
  | JFloat (d : double)
  | JStr (s : string)
  | JArr (l : list json)
  | JObj (m : gmap string json).

Definition json_object : json := JObj ∅.

Definition is_object (j : json) : bool := match j with JObj _ => true | _ => false end.
Definition is_array (j : json) : bool := match j with JArr _ => true | _ => false end.
Definition is_string (j : json) : bool := match j with JStr _ => true | _ => false end.
Definition is_null (j : json) : bool := match j with JNull => true | _ => false end.

(** [body.find(key)] of the library: nothing for a value that is no object. *)
Definition json_get (body : json) (key : string) : option json :=
  match body with JObj m => m !! key | _ => None end.

(** [body.contains(key)]. *)
Definition contains (body : json) (key : string) : bool :=
  match json_get body key with Some _ => true | None => false end.

(** [body[key] = value] on a mutable value: a null becomes an object, any
    other non-object throws the library's [type_error]. *)
Definition json_set (body : json) (key : string) (value : json) : result json :=
  match body with
  | JObj m => Ok (JObj (<[key := value]> m))
  | JNull => Ok (JObj {[key := value]})
  | _ => Throw "type_error.305"
  end.

(** [body.at(key).get<std::string>()], [get<int>()]: conversions of a present
    value. *)
Definition get_string (j : json) : result string :=
  match j with JStr s => Ok s | _ => Throw "type_error.302" end.

(** ** Readers *)

Definition parse_bool_string (val : string) (default_value : bool) : bool :=
  if (val =? "1")%string || (val =? "true")%string || (val =? "TRUE")%string
     || (val =? "on")%string || (val =? "ON")%string then true
  else if (val =? "0")%string || (val =? "false")%string || (val =? "FALSE")%string
     || (val =? "off")%string || (val =? "OFF")%string then false
  else default_value.

Definition json_bool_value (body : json) (key : string) (default_value : bool) : bool :=
  match json_get body key with
  | None => default_value
  | Some (JBool b) => b
  | Some (JInt z) => negb (to_int z =? 0)
  | Some (JStr s) => parse_bool_string s default_value
  | Some _ => default_value
  end.

Definition json_int_value (body : json) (key : string) (default_value : Z) : Z :=
  match json_get body key with
  | None => default_value
  | Some (JInt z) => to_int z
  | Some (JStr s) => match stoi s with Ok v => v | Throw _ => default_value end
  | Some _ => default_value
  end.

Definition json_string_value (body : json) (key default_value : string) : string :=
  match json_get body key with
  | Some (JStr s) => s
  | _ => default_value
  end.

(** The strings among the items of an array, in order. *)
Fixpoint strings_of (l : list json) : list string :=
  match l with
  | [] => []
  | JStr s :: l => s :: strings_of l
  | _ :: l => strings_of l
  end.

Definition json_string_array_value (body : json) (key : string) : list string :=
  match json_get body key with
  | Some (JStr s) => [s]
  | Some (JArr l) => strings_of l
  | _ => []
  end.

Definition string_in_vector (values : list string) (target : string) : bool :=
  existsb (String.eqb target) values.

Fixpoint strip_slashes (rev_chars : list ascii) : list ascii :=
  match rev_chars with
  | c :: rest => if Ascii.eqb c "/" then strip_slashes rest else rev_chars
  | [] => []
  end.

(** [while (!value.empty() && value.back() == '/') value.pop_back()]. *)
Definition trim_right_slash (value : string) : string :=
  String.string_of_list_ascii (rev (strip_slashes (rev (String.list_ascii_of_string value)))).

(** An object literal. *)
Definition mk_obj (fields : list (string * json)) : json := JObj (list_to_map fields).

Definition JStrs (l : list string) : json := JArr (JStr <$> l).

(** ** Facts *)

Lemma stoi_is_int s v : stoi s = Ok v → is_int v = true.
Proof.
  unfold stoi. destruct (scan_sign _) as [neg body].
  destruct (scan_digits 0 0 body) as [[v' count] rest].
  destruct (count =? 0)%nat; [done|].
  cbv zeta. destruct (is_int (if neg then - v' else v')) eqn:E; [|done].
  intros [= <-]. exact E.
Qed.

(** A reader returns a value of the C++ type when its default is one. *)
Lemma json_int_value_is_int body key d :
  is_int d = true → is_int (json_int_value body key d) = true.
Proof.
  intros Hd. unfold json_int_value.
  destruct (json_get body key) as [[]|]; auto with vroute.
  destruct (stoi s) eqn:E; [|done]. by eapply stoi_is_int.
Qed.
#[export] Hint Resolve json_int_value_is_int : vroute.

Lemma string_in_vector_spec values target :
  string_in_vector values target = true ↔ target ∈ values.
Proof.
  unfold string_in_vector. rewrite existsb_exists. split.
  - intros (x & Hin & Heq). apply String.eqb_eq in Heq as ->. by apply list_elem_of_In.
  - intros Hin. exists target. split; [by apply list_elem_of_In|]. apply String.eqb_refl.
Qed.

Lemma string_in_vector_false values target :
  string_in_vector values target = false ↔ target ∉ values.
Proof. by rewrite <- string_in_vector_spec, not_true_iff_false. Qed.

Lemma strip_slashes_head l c l' : strip_slashes l = c :: l' → c ≠ "/"%char.
Proof.
  induction l as [|d l IH]; simpl; [done|].
  destruct (Ascii.eqb d "/") eqn:E; [done|].
  intros [= -> ->] ->. by rewrite Ascii.eqb_refl in E.
Qed.

(** The trimmed URL never ends in a slash. *)
Lemma trim_right_slash_no_slash value :
  list.last (String.list_ascii_of_string (trim_right_slash value)) ≠ Some "/"%char.
Proof.
  unfold trim_right_slash. rewrite String.list_ascii_of_string_of_list_ascii.
  destruct (strip_slashes _) as [|c l] eqn:E; simpl; [done|].
  rewrite last_snoc. apply strip_slashes_head in E. congruence.
Qed.
