(* ===== verification/JsonDump.v ===== *)
(** * Printing JSON

    [class serializer] of [utils/json.hpp] as the program uses it:
    [dump()] without arguments, that is without indentation, without escaping
    of non-ASCII characters and with the strict error handler, which throws
    on text that is not UTF-8.

    Strings are decoded with a table-driven automaton ([decode]) while they
    are escaped into a buffer of 512 bytes; integers are written backwards,
    two digits at a time, into a buffer of 64 bytes; floating-point numbers are
    printed by [JsonFloat.to_chars].  Objects are written in the order of their
    keys ([std::map]). *)
From S2P Require Import Prelude StdString Doubles JsonFloat Json.

Definition byte_value (c : ascii) : Z := Z.of_N (N_of_ascii c).
Definition byte_char (z : Z) : ascii := ascii_of_N (Z.to_N z).

(** ** Integers *)

(** [count_digits], four digits a turn; ten turns are more than the twenty
    digits of a [uint64_t] need. *)
Fixpoint count_digits (turns : nat) (x n_digits : Z) : Z :=
  match turns with
  | O => n_digits
  | S turns =>
      if x <? 10 then n_digits
      else if x <? 100 then n_digits + 1
      else if x <? 1000 then n_digits + 2
      else if x <? 10000 then n_digits + 3
      else count_digits turns (x / 10000) (n_digits + 4)
  end.

(** [digits_to_99[i]]. *)
Definition digits_to_99 (i : Z) : string := String (digit_char (i / 10)) (String (digit_char (i mod 10)) "").

(** The loop that writes pairs of digits backwards in front of [written]. *)
Fixpoint write_digits (turns : nat) (abs_value : Z) (written : string) : string :=
  match turns with
  | O => written
  | S turns =>
      if 100 <=? abs_value then write_digits turns (abs_value / 100) (digits_to_99 (abs_value mod 100) +:+ written)
      else if 10 <=? abs_value then digits_to_99 abs_value +:+ written
      else String (digit_char abs_value) written
  end.

(** [remove_sign]: the unsigned absolute value of a negative [int64_t]. *)
Definition remove_sign (x : Z) : Z := (- (x + 1)) mod 2 ^ 64 + 1.

(** The number of characters and the characters: the buffer is filled from
    position [n_chars] backwards. *)
Definition dump_integer (x : Z) : Z * string :=
  if x =? 0 then (1, "0")
  else if x <? 0 then
    let abs_value := remove_sign x in
    (1 + count_digits 10 abs_value 1, String "-" (write_digits 20 abs_value ""))
  else (count_digits 10 x 1, write_digits 20 x "").

(** ** Strings *)

Definition UTF8_ACCEPT : Z := 0.
Definition UTF8_REJECT : Z := 1.

(** The first 256 entries are the classes of the bytes, the others the
    transitions. *)
Definition utf8_class (byte : Z) : Z :=
  if byte <=? 0x7F then 0
  else if byte <=? 0x8F then 1
  else if byte <=? 0x9F then 9
  else if byte <=? 0xBF then 7
  else if byte <=? 0xC1 then 8
  else if byte <=? 0xDF then 2
  else default 8 ([0xA; 3; 3; 3; 3; 3; 3; 3; 3; 3; 3; 3; 3; 4; 3; 3;
                   0xB; 6; 6; 6; 5; 8; 8; 8; 8; 8; 8; 8; 8; 8; 8; 8] !! Z.to_nat (byte - 0xE0)).

Definition utf8_transitions : list Z :=
  [0; 1; 2; 3; 5; 8; 7; 1; 1; 1; 4; 6; 1; 1; 1; 1;
   1; 1; 1; 1; 1; 1; 1; 1; 1; 1; 1; 1; 1; 1; 1; 1; 1; 0; 1; 1; 1; 1; 1; 0; 1; 0; 1; 1; 1; 1; 1; 1;
   1; 2; 1; 1; 1; 1; 1; 2; 1; 2; 1; 1; 1; 1; 1; 1; 1; 1; 1; 1; 1; 1; 1; 2; 1; 1; 1; 1; 1; 1; 1; 1;
   1; 2; 1; 1; 1; 1; 1; 1; 1; 2; 1; 1; 1; 1; 1; 1; 1; 1; 1; 1; 1; 1; 1; 3; 1; 3; 1; 1; 1; 1; 1; 1;
   1; 3; 1; 1; 1; 1; 1; 3; 1; 3; 1; 1; 1; 1; 1; 1; 1; 3; 1; 1; 1; 1; 1; 1; 1; 1; 1; 1; 1; 1; 1; 1].

(** [decode]: the next state and the code point so far. *)
Definition decode (state codep byte : Z) : Z * Z :=
  let type := utf8_class byte in
  let codep :=
    if negb (state =? UTF8_ACCEPT) then Z.lor (Z.land byte 0x3F) (Z.shiftl codep 6 mod 2 ^ 32)
    else Z.land (Z.shiftr 0xFF type) byte in
  (default UTF8_REJECT (utf8_transitions !! Z.to_nat (state * 16 + type)), codep).

Definition hex_digit (z : Z) : ascii := if z <? 10 then digit_char z else byte_char (z - 10 + 97).

(** ["\\u%04x"]. *)
Definition u_escape (codepoint : Z) : string :=
  String "\" (String "u" (String (hex_digit (codepoint / 4096 mod 16)) (String (hex_digit (codepoint / 256 mod 16))
    (String (hex_digit (codepoint / 16 mod 16)) (String (hex_digit (codepoint mod 16)) ""))))).

(** What is written for a complete code point; [c] is its last byte. *)
Definition escape_of (codepoint : Z) (c : ascii) : string :=
  if codepoint =? 0x08 then "\b"
  else if codepoint =? 0x09 then "\t"
  else if codepoint =? 0x0A then "\n"
  else if codepoint =? 0x0C then "\f"
  else if codepoint =? 0x0D then "\r"
  else if codepoint =? 0x22 then String "\" (String "034" "")
  else if codepoint =? 0x5C then "\\"
  else if codepoint <=? 0x1F then u_escape codepoint
  else String c "".

(** The state of the loop: [ds_buffer] is the used part of [string_buffer],
    [ds_out] what has been written to the output. *)
Record dump_state := MkDumpState {
  ds_state : Z;
  ds_codepoint : Z;
  ds_buffer : string;
  ds_out : string;
}.

Definition string_buffer_size : nat := 512.

Definition dump_byte (c : ascii) (ds : dump_state) : result dump_state :=
  let '(state, codepoint) := decode (ds_state ds) (ds_codepoint ds) (byte_value c) in
  if state =? UTF8_ACCEPT then
    let buffer := ds_buffer ds +:+ escape_of codepoint c in
    if (string_buffer_size - String.length buffer <? 13)%nat then Ok (MkDumpState state codepoint "" (ds_out ds +:+ buffer))
    else Ok (MkDumpState state codepoint buffer (ds_out ds))
  else if state =? UTF8_REJECT then Throw "type_error.316"
  else Ok (MkDumpState state codepoint (ds_buffer ds +:+ String c "") (ds_out ds)).

Fixpoint dump_bytes (s : string) (ds : dump_state) : result dump_state :=
  match s with
  | EmptyString => Ok ds
  | String c s => ds ← dump_byte c ds; dump_bytes s ds
  end.

Definition dump_escaped (s : string) : result string :=
  ds ← dump_bytes s (MkDumpState UTF8_ACCEPT 0 "" "");
  if ds_state ds =? UTF8_ACCEPT then Ok (ds_out ds +:+ ds_buffer ds) else Throw "type_error.316".

(** ** Values *)

Definition dump_float (x : double) : string := if d_is_finite x then to_chars x else "null".

Definition in_quotes (s : string) : string := String "034" (s +:+ String "034" "").

Definition dump_member (item : string * result string) : result string :=
  key ← dump_escaped item.1; value ← item.2; Ok (in_quotes key +:+ ":" +:+ value).

(** The members of a [std::map], by key. *)
Definition by_key {A} (p q : string * A) : bool := String.leb p.1 q.1.

Definition dump_array (items : list (result string)) : result string :=
  items ← mapM id items; Ok ("[" +:+ String.concat "," items +:+ "]").

Definition dump_object (members : list (string * result string)) : result string :=
  members ← mapM dump_member (merge_sort (rel_of by_key) members); Ok ("{" +:+ String.concat "," members +:+ "}").

Fixpoint dump (j : json) : result string :=
  match j with
  | JNull => Ok "null"
  | JBool b => Ok (if b then "true" else "false")
  | JInt z => Ok (dump_integer z).2
  | JFloat d => Ok (dump_float d)
  | JStr s => text ← dump_escaped s; Ok (in_quotes text)
  | JArr l => dump_array (map dump l)
  | JObj m => dump_object (map_fold (λ key value rest, (key, dump value) :: rest) [] m)
  end.

(** ** Lemmas on integers *)

(** The decimal digits of a number, whatever fuel is enough for it. *)
Lemma decimal_digits_fuel f : ∀ f' n,
  0 <= n < 10 ^ Z.of_nat f → n < 10 ^ Z.of_nat f' → (f ≠ 0)%nat → (f' ≠ 0)%nat → decimal_digits f n = decimal_digits f' n.
Proof.
  induction f as [|f IH]; intros f' n Hn Hn' Hf Hf'; [done|]. destruct f' as [|f']; [done|]. cbn [decimal_digits].
  destruct (Z.ltb_spec n 10) as [|Hge]; [done|]. f_equal. rewrite Nat2Z.inj_succ, Z.pow_succ_r in Hn, Hn' by lia.
  apply IH; [split; [apply Z.div_pos; lia|apply Z.div_lt_upper_bound; lia]|apply Z.div_lt_upper_bound; lia|..].
  - intros ->. cbn in Hn. lia.
  - intros ->. cbn in Hn'. lia.
Qed.

(** Splitting off the last two digits. *)
Lemma decimal_digits_pair f n w :
  100 <= n → decimal_digits (S (S f)) n +:+ w = decimal_digits f (n / 100) +:+ (digits_to_99 (n mod 100) +:+ w).
Proof.
  intros Hn. cbn [decimal_digits]. destruct (Z.ltb_spec n 10); [lia|]. destruct (Z.ltb_spec (n / 10) 10) as [Hlt|]; [exfalso|].
  { apply Z.lt_nge in Hlt. apply Hlt. apply Z.div_le_lower_bound; lia. }
  assert (n mod 100 = n mod 10 + (n / 10 mod 10) * 10) as Em by (change 100 with (10 * 10); rewrite (Z.rem_mul_r n 10 10) by lia; lia).
  pose proof (Z.mod_pos_bound n 10). rewrite Zdiv.Zdiv_Zdiv by lia. change (10 * 10) with 100. unfold digits_to_99. rewrite Em.
  rewrite Z.add_comm, Z.div_add_l, (Z.div_small (n mod 10)), Z.add_0_r, Z.add_comm, Z.mod_add, Z.mod_mod, !str_app_assoc by lia. reflexivity.
Qed.

Lemma write_digits_decimal turns : ∀ f n w,
  0 <= n < 100 ^ Z.of_nat turns → n < 10 ^ Z.of_nat f → (turns ≠ 0)%nat → (f ≠ 0)%nat → write_digits turns n w = decimal_digits f n +:+ w.
Proof.
  induction turns as [|turns IH]; intros f n w Hn Hf Ht Hf0; [done|]. cbn [write_digits]. destruct (Z.leb_spec 100 n) as [Hge|Hlt].
  - rewrite (decimal_digits_fuel f (S (S f)) n), (decimal_digits_pair f n w) by
      (try done; try lia; rewrite !Nat2Z.inj_succ, !Z.pow_succ_r by lia; lia).
    rewrite Nat2Z.inj_succ, Z.pow_succ_r in Hn by lia.
    apply IH; [split; [apply Z.div_pos; lia|apply Z.div_lt_upper_bound; lia]|apply Z.div_lt_upper_bound; lia| |done].
    intros ->. cbn in Hn. lia.
  - rewrite (decimal_digits_fuel f 2 n) by (try done; cbn; lia). cbn [decimal_digits]. destruct (Z.leb_spec 10 n), (Z.ltb_spec n 10); try lia; [|done].
    assert (n / 10 < 10) as Hd by (apply Z.div_lt_upper_bound; lia). apply Z.ltb_lt in Hd as ->. reflexivity.
Qed.

(** Four digits at once. *)
Lemma decimal_digits_length_ge f n :
  10 <= n → String.length (decimal_digits (S f) n) = S (String.length (decimal_digits f (n / 10))).
Proof. intros Hn. cbn [decimal_digits]. destruct (Z.ltb_spec n 10); [lia|]. rewrite str_length_app. cbn. lia. Qed.

Lemma count_digits_length turns : ∀ f n acc,
  0 <= n < 10000 ^ Z.of_nat turns → n < 10 ^ Z.of_nat f → (turns ≠ 0)%nat → (f ≠ 0)%nat →
  count_digits turns n acc = acc - 1 + Z.of_nat (String.length (decimal_digits f n)).
Proof.
  induction turns as [|turns IH]; intros f n acc Hn Hf Ht Hf0; [done|]. cbn [count_digits].
  rewrite (decimal_digits_fuel f (4 + f) n) by (try done; try lia; rewrite Nat2Z.inj_add, Z.pow_add_r by lia; lia).
  destruct (Z.ltb_spec n 10); [cbn [Nat.add decimal_digits]; destruct (Z.ltb_spec n 10); [cbn; lia|lia]|].
  cbn [Nat.add]. rewrite decimal_digits_length_ge by lia.
  assert (∀ b, 0 < b → n < 10 * b → n / 10 < b) as Hq by (intros; apply Z.div_lt_upper_bound; lia).
  destruct (Z.ltb_spec n 100).
  { cbn [decimal_digits]. pose proof (Hq 10) as Hl. rewrite (proj2 (Z.ltb_lt (n / 10) 10)) by lia. cbn. lia. }
  assert (10 <= n / 10) by (apply Z.div_le_lower_bound; lia). rewrite decimal_digits_length_ge by lia.
  rewrite Zdiv.Zdiv_Zdiv by lia. change (10 * 10) with 100. destruct (Z.ltb_spec n 1000).
  { cbn [decimal_digits]. assert (n / 100 < 10) as Hl by (apply Z.div_lt_upper_bound; lia). apply Z.ltb_lt in Hl as ->. cbn. lia. }
  assert (10 <= n / 100) by (apply Z.div_le_lower_bound; lia). rewrite decimal_digits_length_ge by lia.
  rewrite Zdiv.Zdiv_Zdiv by lia. change (100 * 10) with 1000. destruct (Z.ltb_spec n 10000).
  { cbn [decimal_digits]. assert (n / 1000 < 10) as Hl by (apply Z.div_lt_upper_bound; lia). apply Z.ltb_lt in Hl as ->. cbn. lia. }
  assert (10 <= n / 1000) by (apply Z.div_le_lower_bound; lia). rewrite decimal_digits_length_ge by lia.
  rewrite Zdiv.Zdiv_Zdiv by lia. change (1000 * 10) with 10000. rewrite Nat2Z.inj_succ, Z.pow_succ_r in Hn by lia.
  rewrite (IH f (n / 10000) (acc + 4)); [lia|split; [apply Z.div_pos; lia|apply Z.div_lt_upper_bound; lia]| | |done].
  - apply Z.div_lt_upper_bound; lia.
  - intros ->. cbn in Hn. lia.
Qed.

(** What is printed for a number without sign. *)
Lemma unsigned_text n :
  0 <= n < 2 ^ 64 →
  write_digits 20 n "" = to_string n ∧ count_digits 10 n 1 = Z.of_nat (String.length (to_string n)) ∧ (String.length (to_string n) <= 20)%nat.
Proof.
  intros Hn. unfold to_string. destruct (Z.ltb_spec n 0); [lia|]. pose proof (log2_fuel_enough n ltac:(lia)) as Hf. split_and!.
  - rewrite <- (str_app_nil_r (decimal_digits _ n)). apply write_digits_decimal; try done. lia.
  - rewrite (count_digits_length 10 (S (Z.to_nat (Z.log2 n)))); [lia|lia|done..].
  - apply (decimal_digits_short 19). cbn. lia.
Qed.

Lemma dump_integer_text (x : Z) :
  - 2 ^ 63 <= x < 2 ^ 64 →
  dump_integer x = (Z.of_nat (String.length (to_string x)), to_string x) ∧ Z.of_nat (String.length (to_string x)) < 64 - 1.
Proof.
  intros Hx. unfold dump_integer. destruct (Z.eqb_spec x 0) as [->|Hne]; [split; [reflexivity|by vm_compute]|].
  destruct (Z.ltb_spec x 0) as [Hneg|Hpos].
  - assert (remove_sign x = - x) as Es by (unfold remove_sign; rewrite Z.mod_small; lia).
    destruct (unsigned_text (- x)) as (Ew & Ec & El); [lia|].
    assert (to_string x = String "-" (to_string (- x))) as Et.
    { unfold to_string. destruct (Z.ltb_spec x 0), (Z.ltb_spec (- x) 0); try lia. done. }
    cbv zeta. rewrite Es, Ew, Ec, Et. cbn [String.length]. split; [f_equal; lia|lia].
  - destruct (unsigned_text x) as (-> & -> & El); [lia|]. split; [done|lia].
Qed.

(** ** Properties *)

(** C35.  The fast integer printer is right: for every [int64_t] and
    [uint64_t] it writes the decimal numeral, the number of characters it
    computes first is the number it writes, so that the buffer is filled from
    its first byte on, and they fit into the buffer of 64 bytes. *)
Theorem dump_integer_decimal (x : Z) :
  - 2 ^ 63 <= x < 2 ^ 64 →
  dump_integer x = (Z.of_nat (String.length (to_string x)), to_string x) ∧ Z.of_nat (String.length (to_string x)) < 64 - 1.
Proof. apply dump_integer_text. Qed.

Lemma dump_integer_decimal_witness : dump_integer (- 2 ^ 63) = (20, "-9223372036854775808").
Proof. rewrite (proj1 (dump_integer_decimal (- 2 ^ 63) ltac:(lia))). vm_compute. reflexivity. Defined.
