(* ===== verification/JsonParse.v ===== *)
(** * Reading JSON

    [class lexer], [class parser] and [class json_sax_dom_parser] of
    [utils/json.hpp] as [json::parse(text)] uses them: without a callback and
    without comments, with exceptions, and in strict mode, where the input has
    to end after the value.

    The lexer reads the input byte by byte; what it has not read is the rest
    of the text, and [unget] leaves a byte there.  [scan_string] and
    [scan_number] are the automata of the code, driven by the next byte.  The
    parser is the loop of [sax_parse_internal] with its stack of open arrays
    and objects; the document is built on a stack of frames, whose top is
    finished when its bracket closes; of the assertions of the library those of
    its stack ([key], [end_object], [end_array]) are modelled.  The assertions of
    the lexer, which are about its own last steps (a [u] was read, a code point
    is in range, [strtoull] has read the whole token), and the one on the place
    of an object's value are left out.  The locale's decimal point is a dot.  Of
    the message of a syntax error only its context and the message of the lexer
    are kept, not the position and the tokens around it. *)
From S2P Require Import Prelude StdString Doubles Json JsonDump.

(** ** Tokens *)

Inductive token :=
  | begin_array
  | end_array
  | begin_object
  | end_object
  | name_separator
  | value_separator
  | literal_true
  | literal_false
  | literal_null
  | value_string (s : string)
  | value_unsigned (z : Z)
  | value_integer (z : Z)
  | value_float (d : double)
  | parse_error (error_message : string)
  | end_of_input.

(** ** Strings *)

Definition in_range (range : Z * Z) (z : Z) : bool := (range.1 <=? z) && (z <=? range.2).

(** The bytes that may follow a byte inside a string: the arguments of
    [next_byte_in_range], none after an ASCII character. *)
Definition following_ranges (byte : Z) : option (list (Z * Z)) :=
  if in_range (0x20, 0x7F) byte then Some []
  else if in_range (0xC2, 0xDF) byte then Some [(0x80, 0xBF)]
  else if byte =? 0xE0 then Some [(0xA0, 0xBF); (0x80, 0xBF)]
  else if in_range (0xE1, 0xEC) byte || in_range (0xEE, 0xEF) byte then Some [(0x80, 0xBF); (0x80, 0xBF)]
  else if byte =? 0xED then Some [(0x80, 0x9F); (0x80, 0xBF)]
  else if byte =? 0xF0 then Some [(0x90, 0xBF); (0x80, 0xBF); (0x80, 0xBF)]
  else if in_range (0xF1, 0xF3) byte then Some [(0x80, 0xBF); (0x80, 0xBF); (0x80, 0xBF)]
  else if byte =? 0xF4 then Some [(0x80, 0x8F); (0x80, 0xBF); (0x80, 0xBF)]
  else None.

Definition hex_value (byte : Z) : option Z :=
  if in_range (48, 57) byte then Some (byte - 0x30)
  else if in_range (65, 70) byte then Some (byte - 0x37)
  else if in_range (97, 102) byte then Some (byte - 0x57)
  else None.

(** The bytes of a code point. *)
Definition utf8_encode (codepoint : Z) : string :=
  let low := byte_char (Z.lor 0x80 (Z.land codepoint 0x3F)) in
  let mid := byte_char (Z.lor 0x80 (Z.land (Z.shiftr codepoint 6) 0x3F)) in
  if codepoint <? 0x80 then String (byte_char codepoint) ""
  else if codepoint <=? 0x7FF then String (byte_char (Z.lor 0xC0 (Z.shiftr codepoint 6))) (String low "")
  else if codepoint <=? 0xFFFF then String (byte_char (Z.lor 0xE0 (Z.shiftr codepoint 12))) (String mid (String low ""))
  else String (byte_char (Z.lor 0xF0 (Z.shiftr codepoint 18)))
         (String (byte_char (Z.lor 0x80 (Z.land (Z.shiftr codepoint 12) 0x3F))) (String mid (String low ""))).

(** The simple escapes. *)
Definition unescape (c : ascii) : option ascii :=
  if (c =? "034")%char then Some "034"%char
  else if (c =? "\")%char then Some "\"%char
  else if (c =? "/")%char then Some "/"%char
  else if (c =? "b")%char then Some "008"%char
  else if (c =? "f")%char then Some "012"%char
  else if (c =? "n")%char then Some "010"%char
  else if (c =? "r")%char then Some "013"%char
  else if (c =? "t")%char then Some "009"%char
  else None.

(** The messages for control characters. *)
Definition control_names : list string :=
  ["NUL"; "SOH"; "STX"; "ETX"; "EOT"; "ENQ"; "ACK"; "BEL"; "BS"; "HT"; "LF"; "VT"; "FF"; "CR"; "SO"; "SI";
   "DLE"; "DC1"; "DC2"; "DC3"; "DC4"; "NAK"; "SYN"; "ETB"; "CAN"; "EM"; "SUB"; "ESC"; "FS"; "GS"; "RS"; "US"].

Definition control_message (byte : Z) : string :=
  let digit (z : Z) := String (if z <? 10 then digit_char z else byte_char (z - 10 + 65)) "" in
  let number := "00" +:+ digit (byte / 16) +:+ digit (byte mod 16) in
  let short :=
    if byte =? 0x08 then " or \b" else if byte =? 0x09 then " or \t" else if byte =? 0x0A then " or \n"
    else if byte =? 0x0C then " or \f" else if byte =? 0x0D then " or \r" else "" in
  "invalid string: control character U+" +:+ number +:+ " (" +:+ default "" (control_names !! Z.to_nat byte) +:+
  ") must be escaped to \u" +:+ number +:+ short.

(** Where [scan_string] is: between characters, inside a multi-byte character,
    after a backslash, in the hexadecimal digits of an escape (with the number
    of digits to come, the value so far and the high surrogate before it), or
    between the two escapes of a surrogate pair. *)
Inductive string_state :=
  | InText
  | InCharacter (ranges : list (Z * Z))
  | InEscape
  | InHex (digits : nat) (codepoint : Z) (high : option Z)
  | AfterHigh (high : Z)
  | AfterHighBackslash (high : Z).

Definition is_high_surrogate (codepoint : Z) : bool := in_range (0xD800, 0xDBFF) codepoint.
Definition is_low_surrogate (codepoint : Z) : bool := in_range (0xDC00, 0xDFFF) codepoint.

(** The end of an escape: a code point, or the first half of a pair. *)
Definition end_escape (codepoint : Z) (high : option Z) : result (Z + Z) :=
  match high with
  | Some codepoint1 =>
      if is_low_surrogate codepoint then Ok (inl (Z.shiftl codepoint1 10 + codepoint - 0x35FDC00))
      else Throw "invalid string: surrogate U+D800..U+DBFF must be followed by U+DC00..U+DFFF"
  | None =>
      if is_high_surrogate codepoint then Ok (inr codepoint)
      else if is_low_surrogate codepoint then Throw "invalid string: surrogate U+DC00..U+DFFF must follow U+D800..U+DBFF"
      else Ok (inl codepoint)
  end.

(** What a byte does: the bytes added to the token and the next state; the
    closing quote ends the string. *)
Inductive string_move :=
  | Closed
  | Added (bytes : string) (st : string_state)
  | Refused (error_message : string).

Definition string_move_of (st : string_state) (c : ascii) : string_move :=
  let byte := byte_value c in
  match st with
  | InText =>
      if (c =? "034")%char then Closed
      else if (c =? "\")%char then Added "" InEscape
      else if byte <=? 0x1F then Refused (control_message byte)
      else
        match following_ranges byte with
        | Some [] => Added (String c "") InText
        | Some ranges => Added (String c "") (InCharacter ranges)
        | None => Refused "invalid string: ill-formed UTF-8 byte"
        end
  | InCharacter [] => Refused "unreachable"
  | InCharacter (range :: ranges) =>
      if in_range range byte then Added (String c "") (match ranges with [] => InText | _ => InCharacter ranges end)
      else Refused "invalid string: ill-formed UTF-8 byte"
  | InEscape =>
      if (c =? "u")%char then Added "" (InHex 3 0 None)
      else match unescape c with
           | Some d => Added (String d "") InText
           | None => Refused "invalid string: forbidden character after backslash"
           end
  | InHex digits codepoint high =>
      match hex_value byte with
      | None => Refused "invalid string: '\u' must be followed by 4 hex digits"
      | Some v =>
          let codepoint := codepoint + Z.shiftl v (4 * Z.of_nat digits) in
          match digits with
          | S digits => Added "" (InHex digits codepoint high)
          | O =>
              match end_escape codepoint high with
              | Ok (inl codepoint) => Added (utf8_encode codepoint) InText
              | Ok (inr codepoint1) => Added "" (AfterHigh codepoint1)
              | Throw error_message => Refused error_message
              end
          end
      end
  | AfterHigh codepoint1 =>
      if (c =? "\")%char then Added "" (AfterHighBackslash codepoint1)
      else Refused "invalid string: surrogate U+D800..U+DBFF must be followed by U+DC00..U+DFFF"
  | AfterHighBackslash codepoint1 =>
      if (c =? "u")%char then Added "" (InHex 3 0 (Some codepoint1))
      else Refused "invalid string: surrogate U+D800..U+DBFF must be followed by U+DC00..U+DFFF"
  end.

(** The message when the input ends inside the string. *)
Definition end_message (st : string_state) : string :=
  match st with
  | InText => "invalid string: missing closing quote"
  | InCharacter _ => "invalid string: ill-formed UTF-8 byte"
  | InEscape => "invalid string: forbidden character after backslash"
  | InHex _ _ _ => "invalid string: '\u' must be followed by 4 hex digits"
  | AfterHigh _ | AfterHighBackslash _ => "invalid string: surrogate U+D800..U+DBFF must be followed by U+DC00..U+DFFF"
  end.

(** The token or the message, and the rest of the input. *)
Fixpoint scan_string (st : string_state) (token_buffer s : string) : token * string :=
  match s with
  | EmptyString => (parse_error (end_message st), "")
  | String c s =>
      match string_move_of st c with
      | Closed => (value_string token_buffer, s)
      | Added bytes st => scan_string st (token_buffer +:+ bytes) s
      | Refused error_message => (parse_error error_message, s)
      end
  end.

(** ** Numbers *)

Inductive number_state := NMinus | NZero | NAny1 | NDecimal1 | NDecimal2 | NExponent | NSign | NAny2.
Inductive number_type := TUnsigned | TInteger | TFloat.
Inductive number_move := MoveTo (st : number_state) | NumberDone | NumberError.

Definition is_exponent_mark (c : ascii) : bool := (c =? "e")%char || (c =? "E")%char.

(** The table in the comment of [scan_number]; [None] is the end of the
    input. *)
Definition number_move_of (st : number_state) (c : option ascii) : number_move :=
  let char (f : ascii → bool) := match c with Some c => f c | None => false end in
  match st with
  | NMinus => if char (Ascii.eqb "0") then MoveTo NZero else if char is_digit then MoveTo NAny1 else NumberError
  | NZero => if char (Ascii.eqb ".") then MoveTo NDecimal1 else if char is_exponent_mark then MoveTo NExponent else NumberDone
  | NAny1 =>
      if char is_digit then MoveTo NAny1 else if char (Ascii.eqb ".") then MoveTo NDecimal1
      else if char is_exponent_mark then MoveTo NExponent else NumberDone
  | NDecimal1 => if char is_digit then MoveTo NDecimal2 else NumberError
  | NDecimal2 => if char is_digit then MoveTo NDecimal2 else if char is_exponent_mark then MoveTo NExponent else NumberDone
  | NExponent => if char (Ascii.eqb "+") || char (Ascii.eqb "-") then MoveTo NSign else if char is_digit then MoveTo NAny2 else NumberError
  | NSign => if char is_digit then MoveTo NAny2 else NumberError
  | NAny2 => if char is_digit then MoveTo NAny2 else NumberDone
  end.

Definition type_after (st : number_state) (type : number_type) : number_type :=
  match st with NMinus => TInteger | NDecimal1 | NExponent => TFloat | _ => type end.

(** [strtod] on the text of a number. *)
Definition strtod (text : string) : double :=
  let '(neg, body) := scan_sign text in
  let '(m, _, frac, rest) := scan_mantissa 10 body in
  d_decimal neg m (scan_exponent "e" rest - frac).

(** The conversions at the end of [scan_number]. *)
Definition number_token (type : number_type) (text : string) : token :=
  let digits (s : string) := (scan_digits 0 0 s).1.1 in
  match type with
  | TUnsigned => if digits text <? 2 ^ 64 then value_unsigned (digits text) else value_float (strtod text)
  | TInteger =>
      let x := - digits (str_drop 1 text) in
      if - 2 ^ 63 <=? x then value_integer x else value_float (strtod text)
  | TFloat => value_float (strtod text)
  end.

Definition number_error (st : number_state) : string :=
  match st with
  | NMinus => "invalid number; expected digit after '-'"
  | NDecimal1 => "invalid number; expected digit after '.'"
  | NExponent => "invalid number; expected '+', '-', or digit after exponent"
  | _ => "invalid number; expected digit after exponent sign"
  end.

Fixpoint scan_number_from (st : number_state) (type : number_type) (token_buffer s : string) : token * string :=
  match number_move_of st (match s with String c _ => Some c | EmptyString => None end) with
  | NumberDone => (number_token type token_buffer, s)
  | NumberError => (parse_error (number_error st), str_drop 1 s)
  | MoveTo st' =>
      match s with
      | String c s => scan_number_from st' (type_after st' type) (token_buffer +:+ String c "") s
      | EmptyString => (parse_error "unreachable", "")
      end
  end.

(** [scan_number], whose first character [c] has been read. *)
Definition scan_number (c : ascii) (s : string) : token * string :=
  if (c =? "-")%char then scan_number_from NMinus TInteger (String c "") s
  else if (c =? "0")%char then scan_number_from NZero TUnsigned (String c "") s
  else scan_number_from NAny1 TUnsigned (String c "") s.

(** ** The scanner *)

(** [scan_literal] after its first character. *)
Fixpoint scan_literal (literal_text : string) (return_type : token) (s : string) : token * string :=
  match literal_text with
  | EmptyString => (return_type, s)
  | String l literal_text =>
      match s with
      | String c s => if (c =? l)%char then scan_literal literal_text return_type s else (parse_error "invalid literal", s)
      | EmptyString => (parse_error "invalid literal", "")
      end
  end.

Definition is_whitespace (c : ascii) : bool := (c =? " ")%char || (c =? "009")%char || (c =? "010")%char || (c =? "013")%char.

Fixpoint skip_whitespace (s : string) : string :=
  match s with
  | String c s' => if is_whitespace c then skip_whitespace s' else s
  | EmptyString => s
  end.

(** The byte order mark: the input after it, nothing if it is broken. *)
Definition skip_bom (s : string) : option string :=
  match s with
  | String "239" (String "187" (String "191" s)) => Some s
  | String "239" _ => None
  | _ => Some s
  end.

Definition scan (s : string) : token * string :=
  match skip_whitespace s with
  | EmptyString => (end_of_input, "")
  | String c s =>
      if (c =? "[")%char then (begin_array, s)
      else if (c =? "]")%char then (end_array, s)
      else if (c =? "{")%char then (begin_object, s)
      else if (c =? "}")%char then (end_object, s)
      else if (c =? ":")%char then (name_separator, s)
      else if (c =? ",")%char then (value_separator, s)
      else if (c =? "t")%char then scan_literal "rue" literal_true s
      else if (c =? "f")%char then scan_literal "alse" literal_false s
      else if (c =? "n")%char then scan_literal "ull" literal_null s
      else if (c =? "034")%char then scan_string InText "" s
      else if (c =? "-")%char || is_digit c then scan_number c s
      else if (c =? "000")%char then (end_of_input, s)
      else (parse_error "invalid literal", s)
  end.

(** The first token of the input. *)
Definition first_scan (s : string) : token * string :=
  match skip_bom s with
  | Some s => scan s
  | None => (parse_error "invalid BOM; must be 0xEF 0xBB 0xBF if given", "")
  end.

(** ** The document *)

(** An open array with its elements, an open object with its members and the
    key of the next one. *)
Inductive frame :=
  | FArray (items : list json)
  | FObject (members : gmap string json) (object_element : string).

Record parse_state := MkParseState {
  ps_states : list bool;
  ps_ref_stack : list frame;
  ps_root : json;
  ps_last_token : token;
  ps_rest : string;
  ps_skip : bool;
}.
#[export] Instance eta_ps : Eta parse_state := fun ps =>
  MkParseState (ps_states ps) (ps_ref_stack ps) (ps_root ps) (ps_last_token ps) (ps_rest ps) (ps_skip ps).

Definition handle_value (v : json) (ps : parse_state) : parse_state :=
  match ps_ref_stack ps with
  | [] => ps <| ps_root := v |>
  | FArray items :: stack => ps <| ps_ref_stack := FArray (items ++ [v]) :: stack |>
  | FObject members key :: stack => ps <| ps_ref_stack := FObject (<[key := v]> members) key :: stack |>
  end.

Definition start_object (ps : parse_state) : parse_state := ps <| ps_ref_stack := FObject ∅ "" :: ps_ref_stack ps |>.
Definition start_array (ps : parse_state) : parse_state := ps <| ps_ref_stack := FArray [] :: ps_ref_stack ps |>.

(** [None] is a failed assertion. *)
Definition key (val : string) (ps : parse_state) : option parse_state :=
  match ps_ref_stack ps with
  | FObject members _ :: stack => Some (ps <| ps_ref_stack := FObject members val :: stack |>)
  | _ => None
  end.

Definition close_object (ps : parse_state) : option parse_state :=
  match ps_ref_stack ps with
  | FObject members _ :: stack => Some (handle_value (JObj members) (ps <| ps_ref_stack := stack |>))
  | _ => None
  end.

Definition close_array (ps : parse_state) : option parse_state :=
  match ps_ref_stack ps with
  | FArray items :: stack => Some (handle_value (JArr items) (ps <| ps_ref_stack := stack |>))
  | _ => None
  end.

(** ** The parser *)

Definition get_token (ps : parse_state) : parse_state :=
  let '(last_token, rest) := scan (ps_rest ps) in ps <| ps_last_token := last_token |> <| ps_rest := rest |>.

(** How an iteration of the loop ends: it goes on, the document is complete, an
    exception is thrown or an assertion fails. *)
Inductive outcome :=
  | Continue (ps : parse_state)
  | Finished (ps : parse_state)
  | Failed (what : string)
  | AssertionFailed.

Definition asserting (o : option parse_state) (k : parse_state → outcome) : outcome :=
  match o with Some ps => k ps | None => AssertionFailed end.

(** A key that has just been read, its separator and the token after it. *)
Definition parse_key (val : string) (ps : parse_state) (k : parse_state → parse_state) : outcome :=
  asserting (key val ps) (λ ps,
    let ps := get_token ps in
    match ps_last_token ps with
    | name_separator => Continue (get_token (k ps))
    | _ => Failed "parse_error.101: object separator"
    end).

(** The part of the loop after a value. *)
Definition evaluate_state (ps : parse_state) : outcome :=
  match ps_states ps with
  | [] => Finished ps
  | true :: states =>
      let ps := get_token ps in
      match ps_last_token ps with
      | value_separator => Continue (get_token ps)
      | end_array => asserting (close_array ps) (λ ps, Continue (ps <| ps_states := states |> <| ps_skip := true |>))
      | _ => Failed "parse_error.101: array"
      end
  | false :: states =>
      let ps := get_token ps in
      match ps_last_token ps with
      | value_separator =>
          let ps := get_token ps in
          match ps_last_token ps with
          | value_string val => parse_key val ps id
          | _ => Failed "parse_error.101: object key"
          end
      | end_object => asserting (close_object ps) (λ ps, Continue (ps <| ps_states := states |> <| ps_skip := true |>))
      | _ => Failed "parse_error.101: object"
      end
  end.

Definition parse_iteration (ps : parse_state) : outcome :=
  if ps_skip ps then evaluate_state (ps <| ps_skip := false |>)
  else
    match ps_last_token ps with
    | begin_object =>
        let ps := get_token (start_object ps) in
        match ps_last_token ps with
        | end_object => asserting (close_object ps) evaluate_state
        | value_string val => parse_key val ps (λ ps, ps <| ps_states := false :: ps_states ps |>)
        | _ => Failed "parse_error.101: object key"
        end
    | begin_array =>
        let ps := get_token (start_array ps) in
        match ps_last_token ps with
        | end_array => asserting (close_array ps) evaluate_state
        | _ => Continue (ps <| ps_states := true :: ps_states ps |>)
        end
    | value_float res =>
        if d_is_finite res then evaluate_state (handle_value (JFloat res) ps) else Failed "out_of_range.406: number overflow"
    | literal_false => evaluate_state (handle_value (JBool false) ps)
    | literal_null => evaluate_state (handle_value JNull ps)
    | literal_true => evaluate_state (handle_value (JBool true) ps)
    | value_integer z | value_unsigned z => evaluate_state (handle_value (JInt z) ps)
    | value_string s => evaluate_state (handle_value (JStr s) ps)
    | parse_error error_message => Failed ("parse_error.101: " +:+ error_message)
    | end_of_input | end_array | end_object | name_separator | value_separator => Failed "parse_error.101: value"
    end.

(** [sax_parse_internal]; the answer is nothing when the fuel is used up or an
    assertion fails. *)
Fixpoint sax_parse_internal (fuel : nat) (ps : parse_state) : option (result parse_state) :=
  match fuel with
  | O => None
  | S fuel =>
      match parse_iteration ps with
      | Continue ps => sax_parse_internal fuel ps
      | Finished ps => Some (Ok ps)
      | Failed what => Some (Throw what)
      | AssertionFailed => None
      end
  end.

Definition parse_fuel (text : string) : nat := S (S (String.length text)).

(** [json::parse(text)]. *)
Definition parse (text : string) : option (result json) :=
  let '(last_token, rest) := first_scan text in
  match sax_parse_internal (parse_fuel text) (MkParseState [] [] JNull last_token rest false) with
  | None => None
  | Some (Throw what) => Some (Throw what)
  | Some (Ok ps) =>
      match (scan (ps_rest ps)).1 with
      | end_of_input => Some (Ok (ps_root ps))
      | _ => Some (Throw "parse_error.101: value")
      end
  end.

(** ** Lemmas: the lexer makes progress *)

Definition good_token (t : token) : bool := match t with parse_error _ | end_of_input => false | _ => true end.

Lemma skip_whitespace_length s : (String.length (skip_whitespace s) <= String.length s)%nat.
Proof. induction s as [|c s IH]; [done|]. cbn [skip_whitespace]. destruct (is_whitespace c); cbn [String.length]; lia. Qed.

Lemma scan_string_length s : ∀ st buf, (String.length (scan_string st buf s).2 <= String.length s)%nat.
Proof.
  induction s as [|c s IH]; intros st buf; [done|]. cbn [scan_string String.length].
  destruct (string_move_of st c) as [|bytes st'|]; cbn [snd]; [lia| |lia]. specialize (IH st' (buf +:+ bytes)). lia.
Qed.

Lemma scan_number_length s : ∀ st type buf, (String.length (scan_number_from st type buf s).2 <= String.length s)%nat.
Proof.
  induction s as [|c s IH]; intros st type buf; cbn [scan_number_from].
  - destruct (number_move_of st None); done.
  - destruct (number_move_of st (Some c)) as [st'| |]; cbn [snd str_drop String.length]; [|lia..].
    specialize (IH st' (type_after st' type) (buf +:+ String c "")). lia.
Qed.

Lemma scan_literal_length literal t : ∀ s, (String.length (scan_literal literal t s).2 <= String.length s)%nat.
Proof.
  induction literal as [|l literal IH]; intros [|c s]; cbn [scan_literal snd String.length]; try lia.
  destruct (c =? l)%char; cbn [snd]; [specialize (IH s)|]; lia.
Qed.

(** A token that is neither an error nor the end takes a byte. *)
Lemma scan_progress s :
  (String.length (scan s).2 + (if good_token (scan s).1 then 1 else 0) <= String.length s)%nat.
Proof.
  unfold scan. pose proof (skip_whitespace_length s) as Hw. destruct (skip_whitespace s) as [|c s']; [cbn; lia|]. cbn [String.length] in Hw.
  pose proof (scan_string_length s' InText ""). pose proof (λ l t, scan_literal_length l t s'). pose proof (λ st t b, scan_number_length s' st t b).
  assert (∀ t : token * string, (String.length t.2 <= String.length s')%nat →
    (String.length t.2 + (if good_token t.1 then 1 else 0) <= String.length s)%nat) as Hd.
  { intros [t r] Hr. cbn [fst snd] in *. destruct (good_token t); lia. }
  apply Hd. unfold scan_number. repeat case_match; eauto.
Qed.
