(* ===== verification/JsonNumbers.v ===== *)
(** * Texts of numbers

    What the lexer of [utils/json.hpp] and [strtod] make of the texts the
    printer writes for floating-point numbers: [to_chars] writes a numeral
    with a fraction or an exponent, and reading it gives the number back. *)
From S2P Require Import Prelude StdString Doubles Rounding JsonFloat JsonGrisu JsonParse.

(** ** Numerals *)

(** The automaton of numbers over a part of the text. *)
Fixpoint number_moves (st : number_state) (type : number_type) (s : string) : option (number_state * number_type) :=
  match s with
  | EmptyString => Some (st, type)
  | String c s => match number_move_of st (Some c) with MoveTo st => number_moves st (type_after st type) s | _ => None end
  end.

Definition accepting (st : number_state) : bool := match st with NZero | NAny1 | NDecimal2 | NAny2 => true | _ => false end.

(** The type of a numeral. *)
Definition numeral_type (text : string) : option number_type :=
  match text with
  | EmptyString => None
  | String c s =>
      if (c =? "-")%char || is_digit c then
        '(st, type) ← (if (c =? "-")%char then number_moves NMinus TInteger s
                       else if (c =? "0")%char then number_moves NZero TUnsigned s else number_moves NAny1 TUnsigned s);
        if accepting st then Some type else None
      else None
  end.

(** A text of decimal digits. *)
Definition all_digits (s : string) : Prop := ∀ c, char_in c s = true → is_digit c = true.

Lemma all_digits_cons c s : all_digits (String c s) ↔ is_digit c = true ∧ all_digits s.
Proof.
  split.
  - intros Hs. split; [apply Hs; cbn; by rewrite Ascii.eqb_refl|]. intros d Hd. apply Hs. cbn. by rewrite Hd, orb_true_r.
  - intros [Hc Hs] d Hd. cbn in Hd. apply orb_true_iff in Hd as [->%Ascii.eqb_eq|Hd]; [done|by apply Hs].
Qed.

Lemma all_digits_app s t : all_digits (s +:+ t) ↔ all_digits s ∧ all_digits t.
Proof.
  induction s as [|c s IH]; [split; [by split|by intros []]|]. rewrite str_app_cons, !all_digits_cons, IH. tauto.
Qed.

Lemma all_digits_zeros n : all_digits (zeros n).
Proof. induction n as [|n IH]; [done|]. by apply all_digits_cons. Qed.

Lemma number_moves_app s t : ∀ st type, number_moves st type (s +:+ t) = number_moves st type s ≫= λ p, number_moves p.1 p.2 t.
Proof.
  induction s as [|c s IH]; intros st type; [done|]. rewrite str_app_cons. cbn [number_moves]. by destruct (number_move_of st (Some c)).
Qed.

Lemma digits_moves s type : all_digits s → number_moves NAny1 type s = Some (NAny1, type).
Proof. induction s as [|c s IH]; [done|]. intros [Hc Hs]%all_digits_cons. cbn [number_moves number_move_of]. rewrite Hc. by apply IH. Qed.

Lemma fraction_moves s type : all_digits s → number_moves NDecimal2 type s = Some (NDecimal2, type).
Proof. induction s as [|c s IH]; [done|]. intros [Hc Hs]%all_digits_cons. cbn [number_moves number_move_of]. rewrite Hc. by apply IH. Qed.

(** ** Values of digits *)

Fixpoint text_value (acc : Z) (s : string) : Z :=
  match s with EmptyString => acc | String c s => text_value (acc * 10 + digit_value c) s end.

Lemma text_value_app s t acc : text_value acc (s +:+ t) = text_value (text_value acc s) t.
Proof. revert acc. induction s as [|c s IH]; intros acc; [done|]. rewrite str_app_cons. cbn [text_value]. apply IH. Qed.

Lemma text_value_zeros n acc : text_value acc (zeros n) = acc * 10 ^ Z.of_nat n.
Proof.
  revert acc. induction n as [|n IH]; intros acc; [cbn; lia|]. cbn [zeros text_value]. rewrite IH. change (digit_value "0") with 0.
  rewrite Nat2Z.inj_succ, Z.pow_succ_r by lia. lia.
Qed.

Lemma text_value_bounds s acc :
  all_digits s → acc * 10 ^ Z.of_nat (String.length s) <= text_value acc s < (acc + 1) * 10 ^ Z.of_nat (String.length s).
Proof.
  revert acc. induction s as [|c s IH]; intros acc; [cbn; lia|]. intros [Hc Hs]%all_digits_cons. cbn [text_value String.length].
  specialize (IH (acc * 10 + digit_value c) Hs). rewrite Nat2Z.inj_succ, Z.pow_succ_r by lia.
  assert (0 <= digit_value c <= 9) as Hd by (unfold digit_value, is_digit in *; lia). pose proof (Z.pow_pos_nonneg 10 (Z.of_nat (String.length s)) ltac:(lia) ltac:(lia)).
  nia.
Qed.

(** What [strtod] reads. *)
Lemma base_digit_10 c : base_digit 10 c = if is_digit c then Some (digit_value c) else None.
Proof. destruct c as [[] [] [] [] [] [] [] []]; reflexivity. Qed.

Lemma scan_base_digits s : ∀ acc count rest,
  all_digits s → match rest with String c _ => is_digit c = false | EmptyString => True end →
  scan_base 10 acc count (s +:+ rest) = (text_value acc s, count + Z.of_nat (String.length s), rest).
Proof.
  induction s as [|c s IH]; intros acc count rest Hs Hrest.
  - change ("" +:+ rest) with rest. cbn [text_value String.length]. rewrite Z.add_0_r. destruct rest as [|c rest]; [done|]. cbn [scan_base]. by rewrite base_digit_10, Hrest.
  - apply all_digits_cons in Hs as [Hc Hs]. rewrite str_app_cons. cbn [scan_base text_value String.length]. rewrite base_digit_10, Hc, IH by done. do 2 f_equal. lia.
Qed.

(** ** Numerals with a fraction or an exponent *)

Definition sign_text (neg : bool) : string := if neg then "-" else "".

(** The integral part of a numeral: no superfluous zero. *)
Definition integral (s : string) : Prop := all_digits s ∧ match s with EmptyString => False | String c s' => c = "0"%char → s' = "" end.

Lemma integral_sign neg s rest : integral s → scan_sign (sign_text neg +:+ s +:+ rest) = (neg, s +:+ rest).
Proof.
  intros [Hs Hi]. destruct s as [|c s]; [done|]. apply all_digits_cons in Hs as [Hc _]. destruct neg; [done|].
  change (sign_text false +:+ ?t) with t. rewrite str_app_cons. destruct c as [[] [] [] [] [] [] [] []]; done.
Qed.

(** The state of the automaton after the integral part. *)
Lemma integral_type neg s tail st :
  integral s → accepting st = true →
  (∀ type, number_moves NZero type tail = Some (st, TFloat)) → (∀ type, number_moves NAny1 type tail = Some (st, TFloat)) →
  numeral_type (sign_text neg +:+ s +:+ tail) = Some TFloat.
Proof.
  intros [Hs Hi] Ha Hz Hd. destruct s as [|c s]; [done|]. apply all_digits_cons in Hs as [Hc Hs].
  assert (∀ type, number_moves (if (c =? "0")%char then NZero else NAny1) type (s +:+ tail) = Some (st, TFloat)) as Hm.
  { intros type. destruct (Ascii.eqb_spec c "0") as [->|_]; [by rewrite Hi by done; apply Hz|].
    rewrite number_moves_app, digits_moves by done. apply Hd. }
  destruct (digit_not_space_sign c Hc) as (_ & Hminus & _). destruct neg.
  - change (sign_text true +:+ ?t) with (String "-" t). rewrite str_app_cons. cbn [numeral_type]. change (("-" =? "-")%char) with true. cbn [orb number_moves].
    assert (number_move_of NMinus (Some c) = MoveTo (if (c =? "0")%char then NZero else NAny1)) as ->.
    { cbn [number_move_of]. rewrite (Ascii.eqb_sym "0" c), Hc. by destruct (c =? "0")%char. }
    rewrite Hm. cbn. by rewrite Ha.
  - change (sign_text false +:+ ?t) with t. rewrite str_app_cons. cbn [numeral_type]. rewrite Hc, orb_true_r. destruct (Ascii.eqb_spec c "-") as [|_]; [done|].
    specialize (Hm TUnsigned). destruct (c =? "0")%char; rewrite Hm; cbn; by rewrite Ha.
Qed.

(** The reading of a text: a numeral of floating-point type, and the decimal
    number [strtod] converts. *)
Definition reads_as (text : string) (neg : bool) (M E : Z) : Prop := numeral_type text = Some TFloat ∧ strtod text = d_decimal neg M E.

Lemma fraction_reads neg s t : integral s → all_digits t → t ≠ "" → reads_as (sign_text neg +:+ s +:+ "." +:+ t) neg (text_value 0 (s +:+ t)) (- Z.of_nat (String.length t)).
Proof.
  intros Hs Ht Hne. change ("." +:+ t) with (String "." t). split.
  - assert (number_moves NDecimal1 TFloat t = Some (NDecimal2, TFloat)) as Hm.
    { destruct t as [|c t]; [done|]. apply all_digits_cons in Ht as [Hc Ht]. cbn [number_moves number_move_of]. rewrite Hc. by apply fraction_moves. }
    by apply (integral_type neg s _ NDecimal2).
  - unfold strtod. rewrite integral_sign by done. destruct Hs as [Hs _]. unfold scan_mantissa. rewrite scan_base_digits by done. cbv iota beta.
    rewrite <- (str_app_nil_r t) at 1. rewrite scan_base_digits, text_value_app by done. f_equal.
Qed.

(** The exponents of a [double]. *)
Lemma exponent_reads e :
  -400 <= e <= 400 → number_moves NExponent TFloat (append_exponent e) = Some (NAny2, TFloat) ∧ scan_exponent "e" (String "e" (append_exponent e)) = e.
Proof.
  intros He. assert (forallb (λ i, let e := Z.of_nat i - 400 in
    match number_moves NExponent TFloat (append_exponent e) with Some (NAny2, TFloat) => scan_exponent "e" (String "e" (append_exponent e)) =? e | _ => false end)
    (seq 0 801) = true) as Hall
    by (vm_compute; reflexivity).
  rewrite forallb_forall in Hall. specialize (Hall (Z.to_nat (e + 400)) ltac:(apply in_seq; lia)). cbv zeta in Hall.
  replace (Z.of_nat (Z.to_nat (e + 400)) - 400) with e in Hall by lia. destruct (number_moves _ _ _) as [[[] []]|]; try done. split; [done|lia].
Qed.

Lemma scientific_reads neg s e :
  -400 <= e <= 400 → integral s → reads_as (sign_text neg +:+ s +:+ "e" +:+ append_exponent e) neg (text_value 0 s) e.
Proof.
  intros He Hs. destruct (exponent_reads e He) as [Hm Hv]. change ("e" +:+ append_exponent e) with (String "e" (append_exponent e)).
  split; [by apply (integral_type neg s _ NAny2)|]. unfold strtod. rewrite integral_sign by done. destruct Hs as [Hs _]. unfold scan_mantissa. rewrite scan_base_digits by done.
  cbv iota beta. rewrite Hv. f_equal. lia.
Qed.

Lemma scientific_fraction_reads neg s t e :
  -400 <= e <= 400 → integral s → all_digits t → t ≠ "" →
  reads_as (sign_text neg +:+ s +:+ "." +:+ t +:+ "e" +:+ append_exponent e) neg (text_value 0 (s +:+ t)) (e - Z.of_nat (String.length t)).
Proof.
  intros He Hs Ht Hne. destruct (exponent_reads e He) as [Hm Hv]. change ("e" +:+ append_exponent e) with (String "e" (append_exponent e)).
  change ("." +:+ ?r) with (String "." r). split.
  - assert (number_moves NDecimal1 TFloat (t +:+ String "e" (append_exponent e)) = Some (NAny2, TFloat)) as Hm'.
    { destruct t as [|c t]; [done|]. apply all_digits_cons in Ht as [Hc Ht]. rewrite str_app_cons. cbn [number_moves number_move_of]. rewrite Hc.
      cbn [type_after]. rewrite number_moves_app, fraction_moves by done. exact Hm. }
    by apply (integral_type neg s _ NAny2).
  - unfold strtod. rewrite integral_sign by done. destruct Hs as [Hs _]. unfold scan_mantissa. rewrite scan_base_digits by done. cbv iota beta.
    rewrite scan_base_digits, text_value_app by done. cbv iota beta. rewrite Hv. done.
Qed.

(** ** Formatting *)

(** Digits, the first of which is not zero. *)
Definition lead (s : string) : Prop := all_digits s ∧ match s with EmptyString => False | String c _ => c ≠ "0"%char end.

Lemma lead_integral s t : lead s → all_digits t → integral (s +:+ t).
Proof.
  intros [Hs Hl] Ht. destruct s as [|c s]; [done|]. split; [by apply all_digits_app|]. by rewrite str_app_cons.
Qed.

Lemma lead_take n s : lead s → (0 < n)%nat → integral (str_take n s) ∧ all_digits (str_drop n s).
Proof.
  intros [Hs Hl] Hn. rewrite <- (str_take_drop n s), all_digits_app in Hs. destruct s as [|c s], n as [|n]; try done; try lia.
  split; [split; [apply Hs|by intros ->]|apply Hs].
Qed.

Lemma drop_nonempty n s : (n < String.length s)%nat → str_drop n s ≠ "".
Proof. intros Hn E. pose proof (str_drop_length n s) as Hl. rewrite E in Hl. cbn in Hl. lia. Qed.

Lemma zeros_length n : String.length (zeros n) = n.
Proof. induction n as [|n IH]; cbn; congruence. Qed.

Lemma take_length n s : String.length (str_take n s) = Nat.min n (String.length s).
Proof. revert n. induction s as [|c s IH]; intros [|n]; cbn; [done..|]. by rewrite IH. Qed.

(** A text of at most seventeen digits fits the buffer of 64 bytes. *)
Lemma format_length buf K : (String.length buf <= 17)%nat → (String.length (format_buffer buf K (-4) 15) <= 23)%nat.
Proof.
  intros Hk. unfold format_buffer. assert (∀ e, (String.length (append_exponent e) <= 4)%nat) as Hexp by (intros e; unfold append_exponent; cbn [String.length]; split_ifs; cbn; lia).
  pose proof (Hexp (Z.of_nat (String.length buf) + K - 1)).
  destruct ((_ <=? _) && _) eqn:E1; [|destruct ((0 <? _) && _) eqn:E2; [|destruct ((-4 <? _) && _) eqn:E3]].
  4: destruct (_ =? _).
  all: repeat (rewrite str_length_app || rewrite zeros_length || rewrite str_drop_length || rewrite take_length); cbn [String.length]; lia.
Qed.

(** The text denotes the digits times the power of ten. *)
Lemma format_reads neg buf K :
  lead buf → -400 <= Z.of_nat (String.length buf) + K - 1 <= 400 →
  ∃ M E, reads_as (sign_text neg +:+ format_buffer buf K (-4) 15) neg M E ∧
    ((M = text_value 0 buf ∧ E = K) ∨ (0 <= K ∧ M = text_value 0 buf * 10 ^ (K + 1) ∧ E = -1)).
Proof.
  intros Hl Hn. unfold format_buffer. set (k := Z.of_nat (String.length buf)) in *.
  destruct ((k <=? k + K) && (k + K <=? 15)) eqn:E1; [|destruct ((0 <? k + K) && (k + K <=? 15)) eqn:E2; [|destruct ((-4 <? k + K) && (k + K <=? 0)) eqn:E3]].
  - replace (Z.to_nat (k + K - k)) with (Z.to_nat K) by lia. eexists _, _. split.
    + rewrite <- (str_app_assoc buf). apply (fraction_reads neg (buf +:+ zeros (Z.to_nat K)) "0"); [by apply lead_integral, all_digits_zeros|by intros c; destruct c as [[] [] [] [] [] [] [] []]|done].
    + right. split; [lia|]. split; [|done]. rewrite !text_value_app, text_value_zeros. cbn [text_value]. change (digit_value "0") with 0.
      rewrite Z2Nat.id, Z.pow_add_r by lia. lia.
  - destruct (lead_take (Z.to_nat (k + K)) buf Hl ltac:(lia)) as [Hi Hd]. eexists _, _. split; [apply fraction_reads; [done|done|apply drop_nonempty; lia]|].
    left. rewrite str_take_drop, str_drop_length. split; [done|lia].
  - eexists _, _. split; [apply (fraction_reads neg "0" (zeros (Z.to_nat (- (k + K))) +:+ buf))|].
    + split; [|done]. intros c. by destruct c as [[] [] [] [] [] [] [] []].
    + apply all_digits_app. split; [apply all_digits_zeros|apply Hl].
    + destruct Hl as [_ Hl]. destruct buf as [|c s]; [done|]. by destruct (zeros _).
    + left. change ("0" +:+ ?t) with (String "0" t). cbn [text_value]. rewrite text_value_app, text_value_zeros. split; [done|].
      rewrite str_length_app, zeros_length. lia.
  - destruct (Z.eqb_spec k 1) as [Hk|Hk].
    + eexists _, _. split; [apply scientific_reads; [lia|]|left; split; [done|lia]]. rewrite <- (str_app_nil_r buf). by apply lead_integral.
    + destruct (lead_take 1 buf Hl ltac:(lia)) as [Hi Hd]. assert (String.length buf ≠ 0%nat) by (destruct Hl as [_ Hl]; by destruct buf). eexists _, _. split.
      * rewrite !str_app_assoc. apply scientific_fraction_reads; [lia|done|done|apply drop_nonempty; lia].
      * left. rewrite str_take_drop, str_drop_length. split; [done|lia].
Qed.

(** ** The digits in the buffer *)

Lemma buffer_text_cons d buf : buffer_text (d :: buf) = buffer_text buf +:+ String (digit_char d) "".
Proof.
  unfold buffer_text. cbn [rev]. induction (rev buf) as [|x l IH]; [done|]. rewrite <- app_comm_cons. cbn [foldr]. by rewrite IH, str_app_cons.
Qed.

Lemma buffer_text_digits buf : Forall (λ d, 0 <= d <= 9) buf → all_digits (buffer_text buf) ∧ text_value 0 (buffer_text buf) = buffer_value buf.
Proof.
  induction 1 as [|d buf Hd Hbuf [IH1 IH2]]; [done|]. destruct (digit_char_spec d ltac:(lia)) as [Hc Hv]. rewrite buffer_text_cons. split.
  - apply all_digits_app. split; [done|]. by apply all_digits_cons.
  - rewrite text_value_app, IH2. cbn [text_value buffer_value foldr]. by rewrite Hv.
Qed.

Lemma buffer_text_lead buf : digits_ok buf → lead (buffer_text buf).
Proof.
  intros [Hall (first & Hlast & Hne)]. split; [by apply buffer_text_digits|]. apply last_Some in Hlast as [l ->]. apply Forall_app in Hall as [_ Hf]. apply Forall_inv in Hf.
  unfold buffer_text. rewrite rev_app_distr. cbn [rev app foldr]. destruct (digit_char_spec first ltac:(lia)) as [_ Hv]. intros E. rewrite E in Hv. by apply Hne.
Qed.

Lemma lead_value s : lead s → 1 <= Z.of_nat (String.length s) ∧ 10 ^ (Z.of_nat (String.length s) - 1) <= text_value 0 s < 10 ^ Z.of_nat (String.length s).
Proof.
  intros [Hs Hl]. pose proof (text_value_bounds s 0 Hs) as [_ Hup]. destruct s as [|c s]; [done|]. apply all_digits_cons in Hs as [Hc Hs].
  split; [cbn; lia|]. split; [|lia]. cbn [text_value String.length]. pose proof (text_value_bounds s (0 * 10 + digit_value c) Hs) as [Hlow _].
  replace (Z.of_nat (S (String.length s)) - 1) with (Z.of_nat (String.length s)) by lia. etransitivity; [|exact Hlow].
  assert (1 <= digit_value c) as Hd by (unfold digit_value, is_digit in *; assert (nat_of_ascii c ≠ 48%nat) by (intros E; apply Hl; rewrite <- (ascii_nat_embedding c), E; done); lia).
  pose proof (Z.pow_pos_nonneg 10 (Z.of_nat (String.length s)) ltac:(lia) ltac:(lia)). nia.
Qed.

(** ** Numbers *)

(** The text of a finite number is a numeral with a fraction or an exponent
    that [strtod] reads back. *)
Definition reads_back (d : double) : Prop := numeral_type (to_chars d) = Some TFloat ∧ strtod (to_chars d) = d.

Lemma canonical_reads_back d : canonical d = true → reads_back d.
Proof.
  unfold canonical, reads_back. intros [Hf Hv]%andb_true_iff. destruct d as [s|s| |s m e]; [by destruct s|done|done|]. cbn [valid_binary] in Hv.
  destruct (grisu2_rounds m e Hv) as (Hdig & _ & Hr). cbn [to_chars]. destruct (grisu2 (Z.pos m) e) as [buf K]. cbn [fst snd] in *.
  pose proof (buffer_text_lead buf Hdig) as Hl. destruct (buffer_text_digits buf (proj1 Hdig)) as [_ Hval]. rewrite <- Hval in Hr.
  destruct (lead_value _ Hl) as [Hlen HD]. pose proof (decimal_magnitude _ _ _ m e Hv Hr Hlen HD) as HK.
  destruct (format_reads s (buffer_text buf) K Hl ltac:(lia)) as (M & E & [Ht Hs] & HME). split; [done|]. etransitivity; [exact Hs|].
  assert (0 < text_value 0 (buffer_text buf)) as Hpos by (pose proof (Z.pow_pos_nonneg 10 (Z.of_nat (String.length (buffer_text buf)) - 1) ltac:(lia) ltac:(lia)); lia).
  destruct HME as [[-> ->]|(HK0 & -> & ->)]; apply d_decimal_rounds; try done.
  - apply Z.mul_pos_pos; [done|apply Z.pow_pos_nonneg; lia].
  - rewrite <- (decimal_between _ K 1 (K + 1)) in Hr by lia. eapply (proj1 (decimal_between _ (-1) 1 0 m e ltac:(lia) ltac:(lia) ltac:(lia))). by rewrite Z.pow_0_r, Z.mul_1_r.
Qed.

Lemma buffer_text_length buf : String.length (buffer_text buf) = length buf.
Proof. induction buf as [|d buf IH]; [done|]. rewrite buffer_text_cons, str_length_app, IH. cbn. lia. Qed.

(** ** Property *)

(** C7.  Printing a floating-point number loses nothing.  For every finite [double]
    the digits of the Grisu2 algorithm and their formatting give a numeral
    that has a fraction or an exponent, so that it is read as floating-point
    again, and [strtod] delivers the same [double], the sign of a zero and
    subnormal numbers included; it has at most 17 digits and 24 bytes, within
    the buffer of the serializer. *)
Theorem float_round_trip (d : double) :
  canonical d = true →
  numeral_type (to_chars d) = Some TFloat ∧ strtod (to_chars d) = d ∧ (String.length (to_chars d) <= 24)%nat.
Proof.
  intros Hd. destruct (canonical_reads_back d Hd) as [Ht Hs]. split_and!; [done|done|]. unfold canonical in Hd. apply andb_true_iff in Hd as [Hf Hv].
  destruct d as [s|s| |s m e]; [by destruct s; vm_compute; lia|done|done|]. cbn [valid_binary] in Hv. destruct (grisu2_rounds m e Hv) as (_ & Hlen & _).
  cbn [to_chars]. destruct (grisu2 (Z.pos m) e) as [buf K]. cbn [fst] in Hlen. pose proof (format_length (buffer_text buf) K ltac:(rewrite buffer_text_length; lia)).
  rewrite str_length_app. destruct s; cbn [String.length]; lia.
Qed.

(** The smallest number and its text. *)
Lemma float_round_trip_witness :
  to_chars (S754_finite true 1 (-1074)) = "-5e-324" ∧ strtod (to_chars (S754_finite true 1 (-1074))) = S754_finite true 1 (-1074).
Proof. split; [vm_compute; reflexivity|]. apply (float_round_trip (S754_finite true 1 (-1074))). vm_compute. reflexivity. Defined.
