(* ===== verification/JsonStrings.v ===== *)
(** * UTF-8 in JSON texts

    What the string automata of [JsonDump] and [JsonParse] have to do with
    UTF-8.  The reference is the table of well-formed byte sequences of the
    Unicode standard, read from left to right ([utf8_run]).  The table-driven
    decoder of the printer accepts exactly these texts, the printer throws on
    all others, the scanner reads back what the printer has written, and what
    the scanner delivers is UTF-8, escapes included. *)
From S2P Require Import Prelude StdString Doubles Json JsonDump JsonParse.

(** ** The reference *)

(** One byte, with the ranges of the bytes that have to come. *)
Definition utf8_next (pending : list (Z * Z)) (byte : Z) : option (list (Z * Z)) :=
  match pending with
  | range :: pending => if in_range range byte then Some pending else None
  | [] => if byte <=? 0x1F then Some [] else following_ranges byte
  end.

Fixpoint utf8_run (pending : list (Z * Z)) (s : string) : option (list (Z * Z)) :=
  match s with
  | EmptyString => Some pending
  | String c s => pending ← utf8_next pending (byte_value c); utf8_run pending s
  end.

Definition utf8 (s : string) : bool := bool_decide (utf8_run [] s = Some []).

(** What the printer writes for a text. *)
Definition escape_char (c : ascii) : string := escape_of (byte_value c) c.
Fixpoint escape (s : string) : string :=
  match s with EmptyString => "" | String c s => escape_char c +:+ escape s end.

(** ** Checking all bytes *)

Lemma check_bytes (P : ascii → bool) : forallb P (map ascii_of_nat (seq 0 256)) = true → ∀ c, P c = true.
Proof.
  intros Hall c. rewrite forallb_forall in Hall. apply Hall. rewrite <- (ascii_nat_embedding c). apply in_map, in_seq.
  pose proof (nat_ascii_bounded c). lia.
Qed.

Lemma check_range (P : Z → bool) n : forallb (λ k, P (Z.of_nat k)) (seq 0 n) = true → ∀ z, 0 <= z < Z.of_nat n → P z = true.
Proof.
  intros Hall z Hz. rewrite forallb_forall in Hall. rewrite <- (Z2Nat.id z) by lia. apply Hall, in_seq. lia.
Qed.

Lemma byte_value_range c : 0 <= byte_value c < 256.
Proof. unfold byte_value. pose proof (N_ascii_bounded c). lia. Qed.

Lemma byte_value_char z : 0 <= z < 256 → byte_value (byte_char z) = z.
Proof. intros Hz. unfold byte_value, byte_char. rewrite N_ascii_embedding by lia. lia. Qed.

(** ** The decoder *)

(** The ranges a state of the decoder waits for. *)
Definition pending_of (state : Z) : option (list (Z * Z)) :=
  match state with
  | 0 => Some []
  | 2 => Some [(0x80, 0xBF)]
  | 3 => Some [(0x80, 0xBF); (0x80, 0xBF)]
  | 4 => Some [(0xA0, 0xBF); (0x80, 0xBF)]
  | 5 => Some [(0x80, 0x9F); (0x80, 0xBF)]
  | 6 => Some [(0x90, 0xBF); (0x80, 0xBF); (0x80, 0xBF)]
  | 7 => Some [(0x80, 0xBF); (0x80, 0xBF); (0x80, 0xBF)]
  | 8 => Some [(0x80, 0x8F); (0x80, 0xBF); (0x80, 0xBF)]
  | _ => None
  end.

(** The least code point so far and a bound. *)
Definition codepoint_bounds (state : Z) : option (Z * Z) :=
  match state with
  | 2 => Some (2, 2 ^ 16)
  | 3 => Some (1, 2 ^ 10)
  | 4 | 6 => Some (0, 2 ^ 4)
  | 5 | 7 | 8 => Some (1, 2 ^ 4)
  | _ => None
  end.

Definition codepoint_ok (state codep : Z) : bool :=
  match codepoint_bounds state with Some (lo, hi) => (lo <=? codep) && (codep <? hi) | None => true end.

Definition decoder_states : list Z := [0; 2; 3; 4; 5; 6; 7; 8].

Lemma pending_states state pending : pending_of state = Some pending → state ∈ decoder_states.
Proof.
  intros Hp. destruct state as [|p|p]; [apply list_elem_of_here| |done].
  repeat (destruct p as [p|p|]; try discriminate Hp); unfold decoder_states; set_solver.
Qed.

Lemma decode_transition state pending c codep :
  pending_of state = Some pending →
  match utf8_next pending (byte_value c) with
  | Some pending' => pending_of (decode state codep (byte_value c)).1 = Some pending'
  | None => (decode state codep (byte_value c)).1 = UTF8_REJECT
  end.
Proof.
  intros Hp. pose proof (pending_states _ _ Hp) as Hs. cbn [decode fst].
  set (next := default UTF8_REJECT (utf8_transitions !! Z.to_nat (state * 16 + utf8_class (byte_value c)))).
  assert (match utf8_next pending (byte_value c) with
          | Some pending' => bool_decide (pending_of next = Some pending') | None => next =? UTF8_REJECT end = true) as Hcheck.
  { subst next. revert c. apply check_bytes.
    repeat (apply elem_of_cons in Hs as [->|Hs]; [injection Hp as <-; vm_compute; reflexivity|]). by apply elem_of_nil in Hs. }
  destruct (utf8_next pending (byte_value c)); [by apply bool_decide_eq_true in Hcheck|by apply Z.eqb_eq in Hcheck].
Qed.

(** Six bits below a number. *)
Lemma lor_low_bits a c : 0 <= a < 64 → 0 <= c < 2 ^ 26 → Z.lor a (Z.shiftl c 6 mod 2 ^ 32) = a + 64 * c.
Proof.
  intros Ha Hc. rewrite Z.shiftl_mul_pow2, Z.mod_small by lia. pose proof (Z.add_lor_land a (c * 2 ^ 6)) as Hsum.
  assert (Z.land a (c * 2 ^ 6) = 0) as Hland; [|lia].
  replace a with (Z.land a (Z.ones 6)) by (rewrite Z.land_ones, Z.mod_small; lia).
  rewrite <- Z.land_assoc, (Z.land_comm (Z.ones 6)), Z.land_ones, Z.mod_mul, Z.land_0_r by lia. done.
Qed.

Lemma pending_of_inj state state' pending : pending_of state = Some pending → pending_of state' = Some pending → state = state'.
Proof.
  intros Hp Hp'. pose proof (pending_states _ _ Hp) as Hs. pose proof (pending_states _ _ Hp') as Hs'.
  repeat (apply elem_of_cons in Hs as [->|Hs]; [repeat (apply elem_of_cons in Hs' as [->|Hs']; [first [reflexivity|cbn in Hp, Hp'; congruence]|]); by apply elem_of_nil in Hs'|]).
  by apply elem_of_nil in Hs.
Qed.

(** The code point inside a character. *)
Lemma decode_inside state c codep :
  codepoint_ok state codep = true → state ≠ 0 → state ∈ decoder_states →
  (decode state codep (byte_value c)).2 = byte_value c mod 64 + 64 * codep ∧ 0 <= codep < 2 ^ 16.
Proof.
  intros Hc Hne Hs. assert (0 <= codep < 2 ^ 16) as Hr.
  { repeat (apply elem_of_cons in Hs as [->|Hs]; [first [done|cbn in Hc; lia]|]). by apply elem_of_nil in Hs. }
  split; [|done]. cbn [decode snd]. unfold UTF8_ACCEPT. rewrite (proj2 (Z.eqb_neq _ _) Hne). cbn [negb].
  change 0x3F with (Z.ones 6). rewrite Z.land_ones by lia. apply lor_low_bits; [apply Z.mod_pos_bound; lia|lia].
Qed.

(** The code point the decoder has read when it accepts decides the escape as
    the last byte does: only single bytes are escaped. *)
Lemma decode_codepoint state pending c codep pending' :
  pending_of state = Some pending → codepoint_ok state codep = true → utf8_next pending (byte_value c) = Some pending' →
  codepoint_ok (decode state codep (byte_value c)).1 (decode state codep (byte_value c)).2 = true ∧
  (pending' = [] → escape_of (decode state codep (byte_value c)).2 c = escape_char c).
Proof.
  intros Hp Hc Hn. pose proof (decode_transition state pending c codep Hp) as Ht. rewrite Hn in Ht.
  destruct (decide (state = 0)) as [->|Hne].
  - injection Hp as <-. clear Hc Ht.
    assert (match utf8_next [] (byte_value c) with
            | Some pending => codepoint_ok (decode 0 0 (byte_value c)).1 (decode 0 0 (byte_value c)).2 &&
                (negb (bool_decide (pending = [])) || (escape_of (decode 0 0 (byte_value c)).2 c =? escape_char c)%string)
            | None => true end = true) as Hcheck by (revert c Hn; intros c _; revert c; apply check_bytes; vm_compute; reflexivity).
    rewrite Hn in Hcheck. apply andb_true_iff in Hcheck as [H1 H2]. split; [exact H1|]. intros ->.
    apply orb_true_iff in H2 as [H2|H2]; [done|]. by apply String.eqb_eq in H2.
  - pose proof (pending_states _ _ Hp) as Hs. destruct (decode_inside state c codep Hc Hne Hs) as [Ecp Hcp]. rewrite Ecp.
    assert (∀ cp, 0x80 <= cp → escape_of cp c = String c "") as Hbig.
    { intros cp Hge. unfold escape_of. rewrite !(proj2 (Z.eqb_neq _ _)) by lia. by rewrite (proj2 (Z.leb_gt _ _)) by lia. }
    pose proof (byte_value_range c) as Hb. set (next := (decode state codep (byte_value c)).1) in *. clearbody next. clear Ecp.
    assert (∀ lo hi, in_range (lo, hi) (byte_value c) = true → lo <= byte_value c <= hi) as Hin by (intros lo hi; unfold in_range; cbn; lia).
    destruct pending as [|[lo hi] pending]; [by apply (pending_of_inj _ 0) in Hp|]. cbn [utf8_next] in Hn.
    destruct (in_range (lo, hi) (byte_value c)) eqn:Er; [|done]. injection Hn as ->. apply Hin in Er.
    unfold codepoint_ok in *. unfold decoder_states in Hs.
    repeat (apply elem_of_cons in Hs as [->|Hs]; [try done; injection Hp as <- <- <-; cbn [codepoint_bounds] in Hc;
      first [assert (next = 0) as -> by (by eapply pending_of_inj) | assert (next = 2) as -> by (by eapply pending_of_inj)
            |assert (next = 3) as -> by (by eapply pending_of_inj)]; cbn [codepoint_bounds];
      (split; [try done; Z.to_euclidean_division_equations; lia|])|]); [..|by apply elem_of_nil in Hs]; try done.
    intros _. unfold escape_char. rewrite !Hbig; [done|lia|]. Z.to_euclidean_division_equations. lia.
Qed.

(** ** The printer *)

(** Room in the buffer: between characters a whole escape and its final zero
    fit. *)
Definition buffer_ok (pending : list (Z * Z)) (ds : dump_state) : Prop :=
  (String.length (ds_buffer ds) <= match pending with [] => 499 | _ => 503 - length pending end)%nat.

Definition ds_ok (pending : list (Z * Z)) (ds : dump_state) : Prop :=
  pending_of (ds_state ds) = Some pending ∧ codepoint_ok (ds_state ds) (ds_codepoint ds) = true ∧ buffer_ok pending ds.

Lemma following_ranges_length byte pending : following_ranges byte = Some pending → (length pending <= 3)%nat.
Proof. unfold following_ranges. intros E. repeat case_match; simplify_eq; cbn; lia. Qed.

(** The bytes of longer characters are never escaped. *)
Lemma escape_char_high c : 0x80 <= byte_value c → escape_char c = String c "".
Proof.
  intros Hc. unfold escape_char, escape_of. rewrite !(proj2 (Z.eqb_neq _ _)) by lia. by rewrite (proj2 (Z.leb_gt _ _)) by lia.
Qed.

Lemma escape_char_length c : (String.length (escape_char c) <= 6)%nat.
Proof. apply Nat.leb_le. revert c. apply check_bytes. vm_compute. reflexivity. Qed.

Lemma following_high c range pending : following_ranges (byte_value c) = Some (range :: pending) → 0x80 <= byte_value c.
Proof.
  unfold following_ranges. intros E. destruct (in_range (0x20, 0x7F) (byte_value c)) eqn:E1; [done|].
  destruct (in_range (0xC2, 0xDF) (byte_value c)) eqn:E2; [unfold in_range in *; cbn in *; lia|].
  repeat case_match; simplify_eq; unfold in_range in *; cbn in *; lia.
Qed.

(** The ranges of the bytes that follow. *)
Definition continuations (pending : list (Z * Z)) : bool := forallb (λ r, (0x80 <=? r.1) && (r.2 <=? 0xBF)) pending.

Lemma pending_continuations state pending : pending_of state = Some pending → continuations pending = true ∧ (length pending <= 3)%nat.
Proof.
  intros Hp. pose proof (pending_states _ _ Hp) as Hs.
  repeat (apply elem_of_cons in Hs as [->|Hs]; [injection Hp as <-; split; [reflexivity|cbn; lia]|]). by apply elem_of_nil in Hs.
Qed.

(** A byte that does not complete a character is a high one. *)
Lemma incomplete_high pending c range pending' :
  continuations pending = true → utf8_next pending (byte_value c) = Some (range :: pending') → 0x80 <= byte_value c.
Proof.
  destruct pending as [|[lo hi] pending]; cbn [utf8_next]; intros Hp Hn.
  - destruct (byte_value c <=? 0x1F); [done|]. by eapply following_high.
  - cbn [continuations forallb fst] in Hp. apply andb_true_iff in Hp as [Hr _]. unfold in_range in Hn. cbn [fst snd] in Hn, Hr.
    destruct ((lo <=? byte_value c) && (byte_value c <=? hi)) eqn:E; [lia|done].
Qed.

Lemma dump_byte_spec pending c ds :
  ds_ok pending ds →
  match utf8_next pending (byte_value c) with
  | Some pending' => ∃ ds', dump_byte c ds = Ok ds' ∧ ds_ok pending' ds' ∧ ds_out ds' +:+ ds_buffer ds' = (ds_out ds +:+ ds_buffer ds) +:+ escape_char c
  | None => dump_byte c ds = Throw "type_error.316"
  end.
Proof.
  intros (Hp & Hc & Hb). pose proof (decode_transition _ _ c (ds_codepoint ds) Hp) as Ht. unfold dump_byte.
  destruct (utf8_next pending (byte_value c)) as [pending'|] eqn:En.
  - destruct (decode_codepoint _ _ c _ _ Hp Hc En) as (Hc' & He). destruct (pending_continuations _ _ Hp) as [Hcont Hlen].
    destruct (decode _ _ _) as [state' cp']. cbn [fst snd] in *. pose proof (escape_char_length c) as Hel. unfold buffer_ok in Hb.
    destruct pending' as [|range pending'].
    + rewrite (pending_of_inj state' 0 [] Ht eq_refl) in *. change (0 =? UTF8_ACCEPT) with true. cbv iota. rewrite (He eq_refl).
      destruct (string_buffer_size - String.length (ds_buffer ds +:+ escape_char c) <? 13)%nat eqn:Eflush;
        (eexists; split; [reflexivity|]; split; [split_and!; try done|]).
      * unfold buffer_ok. cbn. lia.
      * cbn [ds_out ds_buffer]. by rewrite str_app_nil_r, str_app_assoc.
      * unfold buffer_ok. cbn [ds_buffer]. apply Nat.ltb_ge in Eflush. unfold string_buffer_size in Eflush. lia.
      * cbn [ds_out ds_buffer]. by rewrite str_app_assoc.
    + assert (state' ≠ UTF8_ACCEPT ∧ state' ≠ UTF8_REJECT) as [Ha Hr] by (split; intros ->; cbn in Ht; discriminate Ht).
      rewrite (proj2 (Z.eqb_neq _ _) Ha), (proj2 (Z.eqb_neq _ _) Hr). eexists. split; [reflexivity|]. split.
      * split; [done|]. split; [done|]. unfold buffer_ok. cbn [ds_buffer]. rewrite str_length_app. cbn [String.length].
        destruct (pending_continuations _ _ Ht) as [_ Hlen']. destruct pending as [|r pending]; cbn [length] in *; [lia|].
        cbn [utf8_next] in En. destruct (in_range r (byte_value c)); [|done]. injection En as ->. cbn [length] in *. lia.
      * cbn [ds_out ds_buffer]. rewrite (escape_char_high c) by (by eapply incomplete_high). by rewrite str_app_assoc.
  - destruct (decode _ _ _) as [state' cp']. cbn [fst] in Ht. by subst.
Qed.

Lemma dump_bytes_spec s : ∀ pending ds,
  ds_ok pending ds →
  match utf8_run pending s with
  | Some pending' => ∃ ds', dump_bytes s ds = Ok ds' ∧ ds_ok pending' ds' ∧ ds_out ds' +:+ ds_buffer ds' = (ds_out ds +:+ ds_buffer ds) +:+ escape s
  | None => dump_bytes s ds = Throw "type_error.316"
  end.
Proof.
  induction s as [|c s IH]; intros pending ds Hds; cbn [utf8_run dump_bytes escape]; [exists ds; by rewrite str_app_nil_r|].
  pose proof (dump_byte_spec pending c ds Hds) as Hc. destruct (utf8_next pending (byte_value c)) as [pending'|]; cbn [mbind option_bind]; [|by rewrite Hc].
  destruct Hc as (ds1 & -> & Hds1 & E1). cbn [mbind result_bind]. specialize (IH pending' ds1 Hds1). destruct (utf8_run pending' s); [|done].
  destruct IH as (ds' & E & Hds' & Eo). exists ds'. by rewrite Eo, E1, str_app_assoc.
Qed.

Lemma dump_escaped_spec s : dump_escaped s = if utf8 s then Ok (escape s) else Throw "type_error.316".
Proof.
  unfold dump_escaped, utf8. pose proof (dump_bytes_spec s [] (MkDumpState UTF8_ACCEPT 0 "" "")) as Hs.
  destruct (utf8_run [] s) as [pending|].
  - destruct Hs as (ds' & -> & (Hp & _) & Eo); [split_and!; [done..|unfold buffer_ok; cbn; lia]|]. cbn [mbind result_bind].
    destruct pending as [|r pending].
    + rewrite (pending_of_inj (ds_state ds') 0 [] Hp eq_refl). cbn. by rewrite Eo.
    + rewrite (proj2 (Z.eqb_neq (ds_state ds') UTF8_ACCEPT)) by (intros Es; rewrite Es in Hp; discriminate Hp).
      by rewrite bool_decide_eq_false_2.
  - by rewrite Hs by (split_and!; [done..|unfold buffer_ok; cbn; lia]).
Qed.

(** ** The scanner reads what the printer wrote *)

(** The automaton over a part of a string that does not close it: what it adds
    and where it is afterwards. *)
Fixpoint string_moves (st : string_state) (s : string) : option (string * string_state) :=
  match s with
  | EmptyString => Some ("", st)
  | String c s =>
      match string_move_of st c with
      | Added bytes st => '(more, st) ← string_moves st s; Some (bytes +:+ more, st)
      | _ => None
      end
  end.

Lemma scan_string_moves s : ∀ st bytes st' buf rest,
  string_moves st s = Some (bytes, st') → scan_string st buf (s +:+ rest) = scan_string st' (buf +:+ bytes) rest.
Proof.
  induction s as [|c s IH]; intros st bytes st' buf rest E; cbn [string_moves] in E; [injection E as <- <-; by rewrite str_app_nil_r|].
  rewrite str_app_cons. cbn [scan_string]. destruct (string_move_of st c) as [|added st1|]; [done| |done].
  destruct (string_moves st1 s) as [[more st2]|] eqn:Em; [|done]. cbn in E. injection E as <- <-.
  rewrite (IH st1 more st2 (buf +:+ added) rest Em). by rewrite str_app_assoc.
Qed.

Lemma string_moves_app s t st bytes st' bytes' st'' :
  string_moves st s = Some (bytes, st') → string_moves st' t = Some (bytes', st'') →
  string_moves st (s +:+ t) = Some (bytes +:+ bytes', st'').
Proof.
  revert st bytes. induction s as [|c s IH]; intros st bytes E E'; cbn [string_moves] in E; [by injection E as <- <-|].
  rewrite str_app_cons. cbn [string_moves]. destruct (string_move_of st c) as [|added st1|]; [done| |done].
  destruct (string_moves st1 s) as [[more st2]|] eqn:Em; [|done]. cbn in E. injection E as <- <-.
  rewrite (IH st1 more Em E'). cbn. by rewrite str_app_assoc.
Qed.

(** Where the scanner is inside a text. *)
Definition text_state (pending : list (Z * Z)) : string_state := match pending with [] => InText | _ => InCharacter pending end.

(** A byte of the text, escaped or not. *)
Lemma escape_char_moves pending c pending' :
  continuations pending = true → utf8_next pending (byte_value c) = Some pending' →
  string_moves (text_state pending) (escape_char c) = Some (String c "", text_state pending').
Proof.
  intros Hp Hn. destruct pending as [|[lo hi] pending]; cbn [text_state].
  - assert (match utf8_next [] (byte_value c) with
            | Some [] => match string_moves InText (escape_char c) with Some (b, InText) => (b =? String c "")%string | _ => false end
            | _ => true end = true) as Hcheck by (clear Hn; revert c; apply check_bytes; vm_compute; reflexivity).
    rewrite Hn in Hcheck. destruct pending' as [|range pending'].
    + destruct (string_moves InText (escape_char c)) as [[b []]|]; try done. apply String.eqb_eq in Hcheck as ->. done.
    + cbn [utf8_next] in Hn. destruct (byte_value c <=? 0x1F) eqn:Elow; [done|]. pose proof (following_high c _ _ Hn) as Hhigh.
      rewrite escape_char_high by done. cbn [string_moves string_move_of].
      destruct (Ascii.eqb_spec c "034") as [->|_]; [done|]. destruct (Ascii.eqb_spec c "\") as [->|_]; [done|].
      by rewrite Elow, Hn.
  - cbn [continuations forallb fst] in Hp. apply andb_true_iff in Hp as [Hr _]. cbn [utf8_next] in Hn.
    destruct (in_range (lo, hi) (byte_value c)) eqn:Er; [|done]. injection Hn as ->.
    rewrite escape_char_high by (unfold in_range in Er; cbn in Er, Hr; lia). cbn [string_moves string_move_of]. rewrite Er. done.
Qed.

Lemma next_continuations pending byte pending' :
  continuations pending = true → utf8_next pending byte = Some pending' → continuations pending' = true.
Proof.
  destruct pending as [|r pending]; cbn [utf8_next]; intros Hp Hn.
  - destruct (byte <=? 0x1F); [by injection Hn as <-|]. unfold following_ranges in Hn. repeat case_match; simplify_eq; reflexivity.
  - destruct (in_range r byte); [|done]. injection Hn as ->. by apply andb_true_iff in Hp as [_ ?].
Qed.

Lemma escape_moves s : ∀ pending pending',
  continuations pending = true → utf8_run pending s = Some pending' →
  string_moves (text_state pending) (escape s) = Some (s, text_state pending').
Proof.
  induction s as [|c s IH]; intros pending pending' Hp Hs; cbn [utf8_run escape] in *; [by injection Hs as ->|].
  destruct (utf8_next pending (byte_value c)) as [p|] eqn:En; [|done]. cbn [mbind option_bind] in Hs.
  exact (string_moves_app _ _ _ _ _ _ _ (escape_char_moves _ _ _ Hp En) (IH p pending' (next_continuations _ _ _ Hp En) Hs)).
Qed.

Lemma scan_escaped s buf rest :
  utf8 s = true → scan_string InText buf (escape s +:+ String "034" rest) = (value_string (buf +:+ s), rest).
Proof.
  intros Hs. apply bool_decide_eq_true in Hs. rewrite (scan_string_moves _ InText s InText); [done|]. by apply (escape_moves s [] []).
Qed.

(** No byte of an escaped text is a control character. *)
Lemma escape_printable s c : byte_value c <= 0x1F → char_in c (escape s) = false.
Proof.
  intros Hc. induction s as [|d s IH]; [done|]. cbn [escape]. rewrite char_in_app, IH, orb_false_r. clear IH.
  assert (implb (byte_value c <=? 31) (forallb (λ d, negb (char_in c (escape_char d))) (map ascii_of_nat (seq 0 256))) = true) as Hcheck
    by (clear Hc; revert c; apply check_bytes; vm_compute; reflexivity).
  apply Z.leb_le in Hc. rewrite Hc in Hcheck. apply negb_true_iff. exact (check_bytes (λ d, negb (char_in c (escape_char d))) Hcheck d).
Qed.

(** ** The scanner delivers UTF-8 *)

Lemma utf8_run_app s : ∀ t pending, utf8_run pending (s +:+ t) = p ← utf8_run pending s; utf8_run p t.
Proof.
  induction s as [|c s IH]; intros t pending; [done|]. rewrite str_app_cons. cbn [utf8_run].
  destruct (utf8_next pending (byte_value c)); [apply IH|done].
Qed.

Lemma lor_trail x : Z.lor 0x80 (Z.land x 0x3F) = 0x80 + x mod 64.
Proof.
  change 0x3F with (Z.ones 6). rewrite Z.land_ones by lia. change (2 ^ 6) with 64. pose proof (Z.mod_pos_bound x 64 ltac:(lia)).
  apply Z.eqb_eq, (check_range (λ z, Z.lor 0x80 z =? 0x80 + z) 64); [vm_compute; reflexivity|lia].
Qed.

(** The lead bytes and what follows them. *)
Lemma lead_two k : 2 <= k < 32 → Z.lor 0xC0 k = 0xC0 + k ∧ following_ranges (0xC0 + k) = Some [(0x80, 0xBF)].
Proof.
  intros Hk. assert (∀ k, 0 <= k < Z.of_nat 32 → (k <? 2) || ((Z.lor 0xC0 k =? 0xC0 + k) &&
    bool_decide (following_ranges (0xC0 + k) = Some [(0x80, 0xBF)])) = true) as Hc by (apply check_range; vm_compute; reflexivity).
  specialize (Hc k ltac:(lia)). rewrite (proj2 (Z.ltb_ge k 2)) in Hc by lia. apply andb_true_iff in Hc as [Hl Hf].
  split; [lia|by apply bool_decide_eq_true in Hf].
Qed.

Lemma lead_three k :
  0 <= k < 16 →
  Z.lor 0xE0 k = 0xE0 + k ∧
  following_ranges (0xE0 + k) = Some [(if k =? 0 then 0xA0 else 0x80, if k =? 13 then 0x9F else 0xBF); (0x80, 0xBF)].
Proof.
  intros Hk. assert (∀ k, 0 <= k < Z.of_nat 16 → (Z.lor 0xE0 k =? 0xE0 + k) && bool_decide (following_ranges (0xE0 + k) =
    Some [(if k =? 0 then 0xA0 else 0x80, if k =? 13 then 0x9F else 0xBF); (0x80, 0xBF)]) = true) as Hc
    by (apply check_range; vm_compute; reflexivity).
  specialize (Hc k ltac:(lia)). apply andb_true_iff in Hc as [Hl Hf]. split; [lia|by apply bool_decide_eq_true in Hf].
Qed.

Lemma lead_four k :
  0 <= k < 5 →
  Z.lor 0xF0 k = 0xF0 + k ∧
  following_ranges (0xF0 + k) = Some [(if k =? 0 then 0x90 else 0x80, if k =? 4 then 0x8F else 0xBF); (0x80, 0xBF); (0x80, 0xBF)].
Proof.
  intros Hk. assert (∀ k, 0 <= k < Z.of_nat 5 → (Z.lor 0xF0 k =? 0xF0 + k) && bool_decide (following_ranges (0xF0 + k) =
    Some [(if k =? 0 then 0x90 else 0x80, if k =? 4 then 0x8F else 0xBF); (0x80, 0xBF); (0x80, 0xBF)]) = true) as Hc
    by (apply check_range; vm_compute; reflexivity).
  specialize (Hc k ltac:(lia)). apply andb_true_iff in Hc as [Hl Hf]. split; [lia|by apply bool_decide_eq_true in Hf].
Qed.

Lemma utf8_next_in lo hi pending byte : lo <= byte <= hi → utf8_next ((lo, hi) :: pending) byte = Some pending.
Proof. intros Hb. cbn [utf8_next]. unfold in_range. cbn [fst snd]. by rewrite !(proj2 (Z.leb_le _ _)) by lia. Qed.

Lemma utf8_next_lead byte : 0x20 <= byte → utf8_next [] byte = following_ranges byte.
Proof. intros Hb. cbn [utf8_next]. by rewrite (proj2 (Z.leb_gt _ _)) by lia. Qed.

Definition is_codepoint (codepoint : Z) : bool :=
  in_range (0, 0x10FFFF) codepoint && negb (in_range (0xD800, 0xDFFF) codepoint).

(** The bytes of a code point are a well-formed sequence. *)
Lemma utf8_encode_run codepoint : is_codepoint codepoint = true → utf8_run [] (utf8_encode codepoint) = Some [].
Proof.
  intros Hc. unfold is_codepoint, in_range in Hc. cbn [fst snd] in Hc.
  unfold utf8_encode. cbv zeta. rewrite !lor_trail, !Z.shiftr_div_pow2 by lia.
  change (2 ^ 6) with 64. change (2 ^ 12) with 4096. change (2 ^ 18) with 262144.
  assert (∀ x, 0 <= 0x80 + x mod 64 < 256 ∧ 0x80 <= 0x80 + x mod 64 <= 0xBF) as Ht by (intros x; pose proof (Z.mod_pos_bound x 64); lia).
  destruct (Z.ltb_spec codepoint 0x80); [|destruct (Z.leb_spec codepoint 0x7FF); [|destruct (Z.leb_spec codepoint 0xFFFF)]].
  - cbn [utf8_run]. rewrite byte_value_char by lia.
    assert (∀ z, 0 <= z < Z.of_nat 128 → bool_decide (utf8_next [] z = Some []) = true) as Hb by (apply check_range; vm_compute; reflexivity).
    specialize (Hb codepoint ltac:(lia)). by apply bool_decide_eq_true in Hb as ->.
  - assert (2 <= codepoint / 64 < 32) as Hk by (Z.to_euclidean_division_equations; lia). destruct (lead_two _ Hk) as [-> Hf].
    cbn [utf8_run]. rewrite !byte_value_char by (try apply Ht; lia). rewrite utf8_next_lead, Hf by lia. cbn [mbind option_bind].
    by rewrite utf8_next_in by apply Ht.
  - assert (0 <= codepoint / 4096 < 16) as Hk by (Z.to_euclidean_division_equations; lia). destruct (lead_three _ Hk) as [-> Hf].
    cbn [utf8_run]. rewrite !byte_value_char by (try apply Ht; lia). rewrite utf8_next_lead, Hf by lia. cbn [mbind option_bind].
    rewrite utf8_next_in; [cbn [mbind option_bind]; by rewrite utf8_next_in by apply Ht|].
    destruct (Z.eqb_spec (codepoint / 4096) 0), (Z.eqb_spec (codepoint / 4096) 13); Z.to_euclidean_division_equations; lia.
  - assert (0 <= codepoint / 262144 < 5) as Hk by (Z.to_euclidean_division_equations; lia). destruct (lead_four _ Hk) as [-> Hf].
    cbn [utf8_run]. rewrite !byte_value_char by (try apply Ht; lia). rewrite utf8_next_lead, Hf by lia. cbn [mbind option_bind].
    rewrite utf8_next_in; [cbn [mbind option_bind]; rewrite utf8_next_in by apply Ht; cbn [mbind option_bind]; by rewrite utf8_next_in by apply Ht|].
    destruct (Z.eqb_spec (codepoint / 262144) 0), (Z.eqb_spec (codepoint / 262144) 4); Z.to_euclidean_division_equations; lia.
Qed.

(** The invariant of the scanner: what it has collected is well-formed up to
    the character it is in, and an escape is on its way to a code point. *)
Definition high_ok (high : option Z) : Prop := match high with Some codepoint1 => is_high_surrogate codepoint1 = true | None => True end.

Definition scanning (st : string_state) (buf : string) : Prop :=
  utf8_run [] buf = Some (match st with InCharacter ranges => ranges | _ => [] end) ∧
  match st with
  | InText | InEscape | InCharacter _ => True
  | InHex digits codepoint high => 0 <= codepoint <= 0x10000 - 2 ^ (4 * Z.of_nat digits + 4) ∧ high_ok high
  | AfterHigh codepoint1 | AfterHighBackslash codepoint1 => is_high_surrogate codepoint1 = true
  end.

Lemma end_escape_ok codepoint high :
  0 <= codepoint < 0x10000 → high_ok high →
  match end_escape codepoint high with
  | Ok (inl codepoint) => is_codepoint codepoint = true
  | Ok (inr codepoint1) => is_high_surrogate codepoint1 = true
  | Throw _ => True
  end.
Proof.
  intros Hc Hh. unfold end_escape. destruct high as [codepoint1|].
  - cbn [high_ok] in Hh. destruct (is_low_surrogate codepoint) eqn:El; [|done].
    rewrite Z.shiftl_mul_pow2 by lia. unfold is_high_surrogate, is_low_surrogate, is_codepoint, in_range in *. cbn [fst snd] in *. lia.
  - destruct (is_high_surrogate codepoint) eqn:Eh; [done|]. destruct (is_low_surrogate codepoint) eqn:El; [done|].
    unfold is_high_surrogate, is_low_surrogate, is_codepoint, in_range in *. cbn [fst snd] in *. lia.
Qed.

Lemma hex_value_range byte v : hex_value byte = Some v → 0 <= v < 16.
Proof. unfold hex_value, in_range. cbn [fst snd]. intros E. repeat case_match; simplify_eq; lia. Qed.

(** The simple escapes give single bytes. *)
Lemma unescape_valid c d : unescape c = Some d → utf8_run [] (String d "") = Some [].
Proof. unfold unescape. intros E. repeat case_match; simplify_eq; reflexivity. Qed.

Lemma hex_move digits codepoint high v buf c :
  scanning (InHex digits codepoint high) buf → hex_value (byte_value c) = Some v →
  match string_move_of (InHex digits codepoint high) c with
  | Added bytes st => scanning st (buf +:+ bytes)
  | _ => True
  end.
Proof.
  intros (Hr & Hc & Hh) Ev. cbn [string_move_of]. rewrite Ev. pose proof (hex_value_range _ _ Ev) as Hv. rewrite Z.shiftl_mul_pow2 by lia.
  destruct digits as [|digits].
  - change (2 ^ (4 * Z.of_nat 0)) with 1. change (2 ^ (4 * Z.of_nat 0 + 4)) with 16 in Hc.
    pose proof (end_escape_ok (codepoint + v * 1) high ltac:(lia) Hh) as He.
    destruct (end_escape (codepoint + v * 1) high) as [[cp|cp1]|]; [| |done].
    + split; [|done]. rewrite utf8_run_app, Hr. cbn [mbind option_bind]. by apply utf8_encode_run.
    + split; [|done]. by rewrite str_app_nil_r.
  - split; [by rewrite str_app_nil_r|]. split; [|done]. rewrite Nat2Z.inj_succ in *.
    replace (4 * Z.succ (Z.of_nat digits) + 4) with (4 * Z.of_nat digits + 4 + 4) in Hc by lia.
    replace (4 * Z.succ (Z.of_nat digits)) with (4 * Z.of_nat digits + 4) by lia.
    rewrite (Z.pow_add_r 2 (4 * Z.of_nat digits + 4) 4) in Hc by lia. change (2 ^ 4) with 16 in Hc. nia.
Qed.

Lemma string_move_ok st buf c :
  scanning st buf →
  match string_move_of st c with
  | Added bytes st => scanning st (buf +:+ bytes)
  | Closed => st = InText
  | Refused _ => True
  end.
Proof.
  intros Hs. pose proof Hs as [Hr Hst]. destruct st as [|[|[lo hi] ranges]| |digits cp high|cp|cp]; cbn [string_move_of].
  - destruct (c =? "034")%char; [done|]. destruct (c =? "\")%char; [split; [by rewrite str_app_nil_r|done]|].
    destruct (Z.leb_spec (byte_value c) 0x1F); [done|]. destruct (following_ranges (byte_value c)) as [ranges|] eqn:Ef; [|done].
    assert (utf8_run [] (buf +:+ String c "") = Some ranges) as Hnew.
    { rewrite utf8_run_app, Hr. cbn [mbind option_bind utf8_run]. rewrite utf8_next_lead by lia. by rewrite Ef. }
    destruct ranges; split; done.
  - done.
  - destruct (in_range (lo, hi) (byte_value c)) eqn:Er; [|done].
    assert (utf8_run [] (buf +:+ String c "") = Some ranges) as Hnew.
    { rewrite utf8_run_app, Hr. cbn [mbind option_bind utf8_run utf8_next]. by rewrite Er. }
    destruct ranges; split; done.
  - destruct (c =? "u")%char; [split; [by rewrite str_app_nil_r|split; [cbn; lia|done]]|].
    destruct (unescape c) as [d|] eqn:Eu; [|done]. split; [|done]. rewrite utf8_run_app, Hr. cbn [mbind option_bind].
    by eapply unescape_valid.
  - destruct (hex_value (byte_value c)) as [v|] eqn:Ev; [|done]. pose proof (hex_move _ _ _ _ _ _ Hs Ev) as Hm.
    cbn [string_move_of] in Hm. rewrite Ev in Hm. destruct digits; [|done].
    destruct (end_escape _ high) as [[]|]; done.
  - destruct (c =? "\")%char; [|done]. split; [by rewrite str_app_nil_r|done].
  - destruct (c =? "u")%char; [|done]. split; [by rewrite str_app_nil_r|split; [cbn; lia|done]].
Qed.
