(* ===== verification/JsonDocument.v ===== *)
(** * Documents that the JSON parser builds

    The invariant of the loop of [sax_parse_internal]: the open brackets it
    remembers are those of the document, every token it has not used up is paid
    for by a byte it has read, and all it has built is [clean]: strings and
    keys in UTF-8, integers of 64 bits and finite canonical numbers.  So the loop ends,
    and no assertion of the document builder fails. *)
From S2P Require Import Prelude StdString Doubles Rounding Json JsonDump JsonParse JsonStrings.

(** ** Values *)

Fixpoint json_size (j : json) : nat :=
  match j with
  | JArr l => S (foldr (λ v rest, json_size v + rest)%nat O l)
  | JObj m => S (map_fold (λ _ v rest, json_size v + rest)%nat O m)
  | _ => 1
  end.

Fixpoint clean (j : json) : bool :=
  match j with
  | JNull | JBool _ => true
  | JInt z => (- 2 ^ 63 <=? z) && (z <? 2 ^ 64)
  | JFloat d => canonical d
  | JStr s => utf8 s
  | JArr l => forallb clean l
  | JObj m => map_fold (λ k v rest, utf8 k && clean v && rest) true m
  end.

(** All that [dump] asks for: strings and keys in UTF-8. *)
Fixpoint encodable (j : json) : bool :=
  match j with
  | JStr s => utf8 s
  | JArr l => forallb encodable l
  | JObj m => map_fold (λ k v rest, utf8 k && encodable v && rest) true m
  | _ => true
  end.

Lemma json_size_array l j : j ∈ l → (json_size j < json_size (JArr l))%nat.
Proof.
  cbn [json_size]. induction l as [|x l IH]; intros Hj; [by apply elem_of_nil in Hj|].
  apply elem_of_cons in Hj as [->|Hj]; cbn [foldr]; [lia|]. specialize (IH Hj). lia.
Qed.

Lemma json_size_object m k j : m !! k = Some j → (json_size j < json_size (JObj m))%nat.
Proof.
  cbn [json_size]. revert k j. apply (map_fold_weak_ind (λ n m, ∀ k j, m !! k = Some j → (json_size j < S n)%nat)); [done|].
  intros i x m' r Hi IH k j. rewrite lookup_insert_Some. intros [[_ ->]|[_ Hk]]; [lia|]. specialize (IH k j Hk). lia.
Qed.

Definition is_leaf (j : json) : bool := match j with JArr _ | JObj _ => false | _ => true end.

Lemma json_induction (P : json → Prop) :
  (∀ j, is_leaf j = true → P j) →
  (∀ l, Forall P l → P (JArr l)) → (∀ m, map_Forall (λ _, P) m → P (JObj m)) → ∀ j, P j.
Proof.
  intros Hleaf Harr Hobj j. remember (json_size j) as n eqn:En. revert j En. induction (lt_wf n) as [n _ IH]. intros j ->.
  destruct j as [|b|z|d|s|l|m]; try (by apply Hleaf).
  - apply Harr, Forall_forall. intros j Hj. by eapply IH; [by apply json_size_array|].
  - apply Hobj. intros k j Hj. by eapply IH; [by eapply json_size_object|].
Qed.

Lemma clean_array l : clean (JArr l) = true ↔ Forall (λ j, clean j = true) l.
Proof. cbn [clean]. rewrite forallb_forall, Forall_forall. split; intros Hl j Hj; apply Hl; by apply list_elem_of_In. Qed.

Definition member_clean (k : string) (j : json) : Prop := utf8 k = true ∧ clean j = true.

Lemma clean_object m : clean (JObj m) = true ↔ map_Forall member_clean m.
Proof.
  cbn [clean]. apply (map_fold_weak_ind (λ b m, b = true ↔ map_Forall member_clean m)).
  - split; [intros _; apply map_Forall_empty|done].
  - intros k j m' b Hk IH. rewrite map_Forall_insert by done. rewrite !andb_true_iff, IH. unfold member_clean. tauto.
Qed.

Lemma encodable_object m :
  encodable (JObj m) = forallb (λ member, utf8 member.1 && encodable member.2) (map_to_list m).
Proof. cbn [encodable]. rewrite map_fold_foldr. induction (map_to_list m) as [|[k v] l IH]; [done|]. cbn [foldr forallb uncurry fst snd]. by rewrite IH. Qed.

Lemma clean_encodable j : clean j = true → encodable j = true.
Proof.
  induction j as [j Hj|l IH|m IH] using json_induction; [by destruct j|..].
  - intros Hc%clean_array. cbn [encodable]. apply forallb_forall. intros j Hj%list_elem_of_In. rewrite Forall_forall in IH, Hc. eauto.
  - intros Hc%clean_object. rewrite encodable_object. apply forallb_forall. intros [k v] Hj%list_elem_of_In%elem_of_map_to_list.
    destruct (Hc k v Hj) as [Hk Hv]. cbn [fst snd]. by rewrite Hk, (IH k v Hj Hv).
Qed.

(** ** The loop of the parser *)

Definition token_clean (t : token) : Prop :=
  match t with
  | value_string s => utf8 s = true
  | value_unsigned z | value_integer z => - 2 ^ 63 <= z < 2 ^ 64
  | value_float d => valid_binary 53 1024 d = true
  | _ => True
  end.

Lemma strtod_valid text : valid_binary 53 1024 (strtod text) = true.
Proof. unfold strtod. repeat case_match. apply d_decimal_valid. Qed.

Lemma number_token_clean type text : token_clean (number_token type text).
Proof.
  unfold number_token. cbv zeta. destruct type; cbn [token_clean].
  - pose proof (scan_digits_nonneg text 0 0 ltac:(lia)). case_match; cbn [token_clean]; [lia|apply strtod_valid].
  - pose proof (scan_digits_nonneg (str_drop 1 text) 0 0 ltac:(lia)). case_match; cbn [token_clean]; [lia|apply strtod_valid].
  - apply strtod_valid.
Qed.

Lemma scan_number_clean s : ∀ st type buf, token_clean (scan_number_from st type buf s).1.
Proof.
  induction s as [|c s IH]; intros st type buf; cbn [scan_number_from].
  - destruct (number_move_of st None); [done|apply number_token_clean|done].
  - destruct (number_move_of st (Some c)); [apply IH|apply number_token_clean|done].
Qed.

Lemma scan_literal_clean literal t : token_clean t → ∀ s, token_clean (scan_literal literal t s).1.
Proof. intros Ht. induction literal as [|l literal IH]; intros [|c s]; cbn [scan_literal]; try done. by destruct (c =? l)%char. Qed.

Lemma scan_string_clean s : ∀ st buf, scanning st buf → token_clean (scan_string st buf s).1.
Proof.
  induction s as [|c s IH]; intros st buf Hs; cbn [scan_string]; [done|]. pose proof (string_move_ok st buf c Hs) as Hm.
  destruct (string_move_of st c) as [|bytes st'|]; [|by apply IH|done]. subst st. apply bool_decide_eq_true, Hs.
Qed.

Lemma scan_clean s : token_clean (scan s).1.
Proof.
  unfold scan. destruct (skip_whitespace s) as [|c s']; [done|]. unfold scan_number.
  repeat case_match; try done; first [by apply scan_literal_clean|by apply scan_string_clean|apply scan_number_clean].
Qed.

(** The open brackets the parser remembers are those of the document, and all
    it has built is clean. *)
Definition frame_ok (array : bool) (f : frame) : Prop :=
  match f with
  | FArray items => array = true ∧ Forall (λ j, clean j = true) items
  | FObject members object_element => array = false ∧ map_Forall member_clean members ∧ utf8 object_element = true
  end.

Definition stacks_ok (ps : parse_state) : Prop := Forall2 frame_ok (ps_states ps) (ps_ref_stack ps) ∧ clean (ps_root ps) = true.

Definition parse_ok (ps : parse_state) : Prop :=
  stacks_ok ps ∧ token_clean (ps_last_token ps) ∧ (ps_skip ps = true → good_token (ps_last_token ps) = true).

Definition parse_measure (ps : parse_state) : nat :=
  (String.length (ps_rest ps) + (if good_token (ps_last_token ps) then 1 else 0))%nat.

Lemma get_token_eq states stack root t s skip :
  get_token (MkParseState states stack root t s skip) = MkParseState states stack root (scan s).1 (scan s).2 skip.
Proof. unfold get_token. cbn [ps_rest]. by destruct (scan s). Qed.

Lemma get_token_ok ps :
  stacks_ok ps → ps_skip ps = false → parse_ok (get_token ps) ∧ (parse_measure (get_token ps) <= String.length (ps_rest ps))%nat.
Proof.
  destruct ps as [states stack root t s skip]. intros Hs Hk. rewrite get_token_eq. pose proof (scan_progress s).
  split; [|unfold parse_measure; cbn [ps_rest ps_last_token]; lia].
  split; [exact Hs|]. split; [apply scan_clean|]. cbn in *. congruence.
Qed.

Lemma handle_value_ok v ps :
  stacks_ok ps → clean v = true → stacks_ok (handle_value v ps) ∧
  ps_rest (handle_value v ps) = ps_rest ps ∧ ps_skip (handle_value v ps) = ps_skip ps ∧ ps_last_token (handle_value v ps) = ps_last_token ps ∧
  ps_states (handle_value v ps) = ps_states ps.
Proof.
  destruct ps as [states stack root t s skip]. intros [Hf Hr] Hv. unfold handle_value, stacks_ok. cbn in Hf, Hr |- *.
  destruct stack as [|[items|members key] stack]; cbn; split; try done.
  - apply Forall2_cons_inv_r in Hf as (b & bs & [Hb Hi] & Hf & ->). split; [|done]. constructor; [|done]. split; [done|]. apply Forall_app_2; auto.
  - apply Forall2_cons_inv_r in Hf as (b & bs & (Hb & Hm & Hk) & Hf & ->). split; [|done]. constructor; [|done]. split; [done|]. split; [|done].
    by apply map_Forall_insert_2.
Qed.

(** A closed array or object becomes a value of what is around it. *)
Definition closes (states : list bool) (ps : parse_state) (o : option parse_state) : Prop :=
  ∃ ps', o = Some ps' ∧ stacks_ok (ps' <| ps_states := states |>) ∧ ps_rest ps' = ps_rest ps ∧
    ps_skip ps' = ps_skip ps ∧ ps_last_token ps' = ps_last_token ps ∧ ps_states ps' = ps_states ps.

Lemma handle_value_states v ps states : (handle_value v ps) <| ps_states := states |> = handle_value v (ps <| ps_states := states |>).
Proof. destruct ps as [states' stack root t s skip]. unfold handle_value. cbn. by destruct stack as [|[]]. Qed.

Lemma closes_value v stack states ps :
  Forall2 frame_ok states stack → clean (ps_root ps) = true → clean v = true →
  closes states ps (Some (handle_value v (ps <| ps_ref_stack := stack |>))).
Proof.
  intros Hf Hr Hv. eexists. split; [reflexivity|]. rewrite handle_value_states. split.
  - apply handle_value_ok; [split; [exact Hf|exact Hr]|done].
  - destruct ps as [states' stack' root t s skip]. unfold handle_value. cbn. by destruct stack as [|[]].
Qed.

Lemma close_object_ok members object_element stack states ps :
  ps_ref_stack ps = FObject members object_element :: stack → frame_ok false (FObject members object_element) →
  Forall2 frame_ok states stack → clean (ps_root ps) = true → closes states ps (close_object ps).
Proof.
  intros Es (_ & Hm & _) Hf Hr. unfold close_object. rewrite Es. apply closes_value; [done..|]. by apply clean_object.
Qed.

Lemma close_array_ok items stack states ps :
  ps_ref_stack ps = FArray items :: stack → frame_ok true (FArray items) →
  Forall2 frame_ok states stack → clean (ps_root ps) = true → closes states ps (close_array ps).
Proof.
  intros Es (_ & Hi) Hf Hr. unfold close_array. rewrite Es. apply closes_value; [done..|]. by apply clean_array.
Qed.

(** What an iteration promises, with [bound] bytes still to read. *)
Definition promises (bound : nat) (o : outcome) : Prop :=
  match o with
  | Continue ps => parse_ok ps ∧ (parse_measure ps <= bound)%nat
  | Finished ps => clean (ps_root ps) = true
  | Failed _ => True
  | AssertionFailed => False
  end.

Lemma promises_le bound bound' o : promises bound o → (bound <= bound')%nat → promises bound' o.
Proof. destruct o; cbn; intuition lia. Qed.

(** The bracket that closes the innermost array or object. *)
Lemma closed_promises states ps o :
  closes states ps o → good_token (ps_last_token ps) = true → token_clean (ps_last_token ps) →
  promises (S (String.length (ps_rest ps))) (asserting o (λ ps, Continue (ps <| ps_states := states |> <| ps_skip := true |>))).
Proof.
  intros ([states' stack root t s skip] & -> & Hs & Er & Ek & Et & _) Hg Hc. cbn [asserting promises]. split.
  - split; [exact Hs|]. cbn in *. by rewrite Et.
  - cbn in *. unfold parse_measure. cbn. rewrite Er, Et, Hg. lia.
Qed.

Lemma parse_key_promises val ps k states :
  (∃ members object_element stack, ps_ref_stack ps = FObject members object_element :: stack ∧
     frame_ok false (FObject members object_element) ∧ Forall2 frame_ok states stack) →
  clean (ps_root ps) = true → utf8 val = true → ps_skip ps = false →
  (∀ ps', ps_states ps' = ps_states ps → k ps' = ps' <| ps_states := false :: states |>) →
  promises (String.length (ps_rest ps)) (parse_key val ps k).
Proof.
  destruct ps as [states' stack' root t s skip]. cbn. intros (members & object_element & stack & -> & (_ & Hm & _) & Hf) Hr Hv -> Hk.
  unfold parse_key, key. cbn. rewrite get_token_eq. cbn. pose proof (scan_progress s) as Hp.
  destruct (scan s) as [t' s']. cbn in *. destruct t'; try done. rewrite Hk by done. cbn in *.
  destruct (get_token_ok (MkParseState (false :: states) (FObject members val :: stack) root name_separator s' false)) as [H1 H2].
  - split; [constructor; done|done].
  - done.
  - split; [done|]. cbn in H2. lia.
Qed.

Lemma evaluate_state_promises ps :
  stacks_ok ps → ps_skip ps = false → promises (String.length (ps_rest ps)) (evaluate_state ps).
Proof.
  intros Hs Hk. unfold evaluate_state. destruct (get_token_ok ps Hs Hk) as [[Hs1 [Ht1 _]] Hm1].
  pose proof (get_token_eq (ps_states ps) (ps_ref_stack ps) (ps_root ps) (ps_last_token ps) (ps_rest ps) (ps_skip ps)) as Eg.
  destruct ps as [states stack root t s skip]. cbn in Hk, Eg. subst skip. rewrite Eg in *. clear Eg. cbn [ps_states ps_rest] in *.
  destruct states as [|b states]; [apply Hs|]. destruct Hs as [Hf Hr]. cbn in Hf, Hr.
  apply Forall2_cons_inv_l in Hf as (f & stack' & Hfr & Hf & ->). unfold parse_measure in Hm1. cbn in Hm1, Ht1.
  destruct (scan s) as [t' s']. cbn [fst snd ps_last_token] in *. destruct b, f as [items|members object_element]; cbn in Hfr; try (by destruct Hfr).
  - destruct t'; try done.
    + eapply promises_le; [eapply closed_promises; [by eapply close_array_ok|done..]|cbn in *; lia].
    + cbn [promises]. destruct (get_token_ok _ Hs1 eq_refl) as [H1 H2]. split; [done|]. cbn [ps_rest] in H2. cbn in Hm1. lia.
  - destruct t'; try done.
    + eapply promises_le; [eapply closed_promises; [by eapply close_object_ok|done..]|cbn in *; lia].
    + destruct (get_token_ok _ Hs1 eq_refl) as [(H1 & H1' & _) H2]. rewrite get_token_eq in *. cbn [ps_rest ps_last_token] in *.
      unfold parse_measure in H2. cbn [ps_rest ps_last_token] in *. destruct (scan s') as [t2 s2]. cbn [fst snd] in *. destruct t2; try done.
      eapply promises_le; [apply (parse_key_promises _ _ _ states)|cbn in *; lia]; try done.
      * exists members, object_element, stack'. done.
      * by intros [] [= <-].
Qed.

Lemma value_promises v ps :
  stacks_ok ps → ps_skip ps = false → clean v = true → promises (String.length (ps_rest ps)) (evaluate_state (handle_value v ps)).
Proof.
  intros Hs Hk Hv. destruct (handle_value_ok v ps Hs Hv) as (H1 & <- & H3 & _). apply evaluate_state_promises; [done|congruence].
Qed.

Lemma empty_promises ps o :
  closes (ps_states ps) ps o → ps_skip ps = false → promises (String.length (ps_rest ps)) (asserting o evaluate_state).
Proof.
  intros ([states' stack root t s skip] & -> & Hs & Er & Ek & Et & Est) Hk. cbn in *. rewrite <- Est in Hs. rewrite <- Er.
  apply (evaluate_state_promises (MkParseState states' stack root t s skip)); [exact Hs|cbn; congruence].
Qed.

Lemma parse_iteration_promises ps :
  parse_ok ps → (if good_token (ps_last_token ps) then promises (String.length (ps_rest ps)) (parse_iteration ps)
                 else ∃ what, parse_iteration ps = Failed what).
Proof.
  intros (Hs & Ht & Hg). unfold parse_iteration. destruct (ps_skip ps) eqn:Ek.
  { rewrite Hg by done. destruct ps as [states stack root t s skip].
    apply (evaluate_state_promises (MkParseState states stack root t s false)); [exact Hs|done]. }
  destruct (ps_last_token ps) eqn:Et; cbn [good_token token_clean] in *; try (by eexists); try done; try (apply value_promises; try done; cbn; lia).
  - destruct ps as [states stack root t s skip]. destruct Hs as [Hf Hr]. cbn in Hf, Hr, Et, Ek. subst.
    change (start_array (MkParseState states stack root begin_array s false))
      with (MkParseState states (FArray [] :: stack) root begin_array s false). rewrite get_token_eq. cbn [ps_last_token].
    destruct (get_token_ok (MkParseState (true :: states) (FArray [] :: stack) root begin_array s false)) as [H1 H2];
      [split; [by repeat constructor|done]|done|]. rewrite get_token_eq in H1, H2. unfold parse_measure in H2. cbn [ps_rest ps_last_token] in H2 |- *.
    pose proof (scan_progress s). destruct (scan s) as [t' s']. cbn [fst snd] in *. destruct t'; try (split; [exact H1|exact H2]).
    eapply promises_le; [apply (empty_promises (MkParseState states (FArray [] :: stack) root end_array s' false)); [|done]|cbn in *; lia].
    by eapply close_array_ok; [reflexivity|repeat constructor|..].
  - destruct ps as [states stack root t s skip]. destruct Hs as [Hf Hr]. cbn in Hf, Hr, Et, Ek. subst.
    change (start_object (MkParseState states stack root begin_object s false))
      with (MkParseState states (FObject ∅ "" :: stack) root begin_object s false). rewrite get_token_eq. cbn [ps_last_token].
    assert (frame_ok false (FObject ∅ "")) as Hempty by (split; [done|split; [apply map_Forall_empty|done]]).
    pose proof (scan_progress s) as Hp. pose proof (scan_clean s) as Hc. cbn [ps_rest]. destruct (scan s) as [t' s']. cbn [fst snd] in *. destruct t'; try done.
    + eapply promises_le; [apply (empty_promises (MkParseState states (FObject ∅ "" :: stack) root end_object s' false)); [|done]|cbn in *; lia].
      by eapply close_object_ok.
    + eapply promises_le; [apply (parse_key_promises _ _ _ states)|cbn in *; lia]; try done.
      * by exists ∅, "", stack.
      * by intros [] [= ->].
  - destruct (d_is_finite d) eqn:Ed; [|done]. apply value_promises; [done..|]. cbn [clean]. unfold canonical. by rewrite Ed.
Qed.

(** The loop ends, without a failed assertion, and what it delivers is
    clean. *)
Lemma sax_parse_total fuel : ∀ ps,
  parse_ok ps → (parse_measure ps < fuel)%nat →
  ∃ r, sax_parse_internal fuel ps = Some r ∧ ∀ ps', r = Ok ps' → clean (ps_root ps') = true.
Proof.
  induction fuel as [|fuel IH]; intros ps Hps Hm; [lia|]. cbn [sax_parse_internal]. pose proof (parse_iteration_promises ps Hps) as Hit.
  unfold parse_measure in Hm. destruct (good_token (ps_last_token ps)).
  - destruct (parse_iteration ps) as [ps'|ps'|what|]; cbn [promises] in Hit.
    + destruct Hit as [Hps' Hm']. apply IH; [done|lia].
    + exists (Ok ps'). split; [done|]. by intros ? [= <-].
    + by exists (Throw what).
    + done.
  - destruct Hit as [what ->]. by exists (Throw what).
Qed.

Lemma first_scan_ok text :
  token_clean (first_scan text).1 ∧
  (String.length (first_scan text).2 + (if good_token (first_scan text).1 then 1 else 0) <= String.length text)%nat.
Proof.
  unfold first_scan. destruct (skip_bom text) as [s|] eqn:Eb; [|cbn; lia]. split; [apply scan_clean|].
  assert (String.length s <= String.length text)%nat as Hlen; [|pose proof (scan_progress s); lia].
  unfold skip_bom in Eb. repeat case_match; simplify_eq; cbn [String.length]; lia.
Qed.

Lemma parse_answers text : ∃ r, parse text = Some r ∧ ∀ j, r = Ok j → clean j = true.
Proof.
  unfold parse. destruct (first_scan_ok text) as [Hc Hm]. destruct (first_scan text) as [t rest]. cbn [fst snd] in *.
  destruct (sax_parse_total (parse_fuel text) (MkParseState [] [] JNull t rest false)) as (r & -> & Hr).
  - split; [by split; [constructor|]|]. split; [done|]. done.
  - unfold parse_measure, parse_fuel. cbn [ps_rest ps_last_token]. lia.
  - destruct r as [ps|what]; [|by exists (Throw what)].
    destruct (scan (ps_rest ps)) as [t' s']. cbn [fst]. destruct t'; eexists; (split; [reflexivity|]); try done. intros j [= <-]. by apply Hr.
Qed.

Lemma sax_parse_mono fuel : ∀ fuel' ps r, sax_parse_internal fuel ps = Some r → (fuel <= fuel')%nat → sax_parse_internal fuel' ps = Some r.
Proof.
  induction fuel as [|fuel IH]; intros fuel' ps r E Hle; [done|]. destruct fuel' as [|fuel']; [lia|]. cbn [sax_parse_internal] in *.
  destruct (parse_iteration ps); try done. apply IH; [done|lia].
Qed.
