(* ===== verification/JsonRoundTrip.v ===== *)
(** * JSON texts and values

    What [parse] and [dump] of [utils/json.hpp] have to do with each other:
    the texts of numbers, strings, arrays and objects that the printer writes,
    and the steps of the parser over them. *)
From S2P Require Import Prelude StdString Doubles Rounding JsonFloat Json JsonDump JsonParse JsonNumbers JsonStrings JsonDocument.

(** ** Numbers *)

(** What may stand after a value. *)
Definition delimited (rest : string) : bool :=
  match rest with
  | EmptyString => true
  | String c _ => (c =? ",")%char || (c =? "]")%char || (c =? "}")%char || (c =? "010")%char
  end.

Lemma delimited_done st rest :
  accepting st = true → delimited rest = true → number_move_of st (match rest with String c _ => Some c | EmptyString => None end) = NumberDone.
Proof.
  intros Ha Hd. destruct rest as [|c rest]; [by destruct st|]. cbn [delimited] in Hd.
  repeat (apply orb_true_iff in Hd as [Hd|Hd]; [|apply Ascii.eqb_eq in Hd as ->; by destruct st]). apply Ascii.eqb_eq in Hd as ->. by destruct st.
Qed.

Lemma scan_number_moves s : ∀ st type st' type' buf rest,
  number_moves st type s = Some (st', type') → accepting st' = true → delimited rest = true →
  scan_number_from st type buf (s +:+ rest) = (number_token type' (buf +:+ s), rest).
Proof.
  induction s as [|c s IH]; intros st type st' type' buf rest E Ha Hd; cbn [number_moves] in E.
  - injection E as <- <-. rewrite str_app_nil_r. change ("" +:+ rest) with rest.
    pose proof (delimited_done st rest Ha Hd) as Hdone. destruct rest; cbn [scan_number_from]; by rewrite Hdone.
  - rewrite str_app_cons. cbn [scan_number_from]. destruct (number_move_of st (Some c)) as [st1| |]; [|done..].
    rewrite (IH _ _ _ _ _ _ E Ha Hd), str_app_assoc. done.
Qed.

Lemma scan_digit c s : is_digit c = true → scan (String c s) = scan_number c s.
Proof. intros Hc. destruct c as [[] [] [] [] [] [] [] []]; try discriminate Hc; reflexivity. Qed.

Lemma scan_numeral text type rest :
  numeral_type text = Some type → delimited rest = true → scan (text +:+ rest) = (number_token type text, rest).
Proof.
  intros Ht Hd. destruct text as [|c s]; [done|]. cbn [numeral_type] in Ht. rewrite str_app_cons.
  destruct ((c =? "-")%char || is_digit c) eqn:Ec; [|done].
  assert (scan (String c (s +:+ rest)) = scan_number c (s +:+ rest)) as ->.
  { apply orb_true_iff in Ec as [Ec|Ec]; [apply Ascii.eqb_eq in Ec as ->; done|by apply scan_digit]. }
  unfold scan_number. destruct (c =? "-")%char, (c =? "0")%char; cbn [mbind option_bind] in Ht;
    (destruct (number_moves _ _ s) as [[st' type']|] eqn:Em; cbn in Ht; [|done]; destruct (accepting st') eqn:Ea; [|done]; injection Ht as ->;
     by rewrite (scan_number_moves s _ _ _ _ _ rest Em Ea Hd)).
Qed.

(** The digits of a positive number. *)
Lemma to_string_lead n :
  0 < n → ∃ c s, to_string n = String c s ∧ c ≠ "0"%char ∧ is_digit c = true ∧
    (∀ type, number_moves NAny1 type s = Some (NAny1, type)) ∧ (scan_digits 0 0 (to_string n)).1.1 = n.
Proof.
  intros Hn. unfold to_string. rewrite (proj2 (Z.ltb_ge n 0)) by lia. pose proof (log2_fuel_enough n ltac:(lia)) as Hf.
  destruct (decimal_digits_head (Z.to_nat (Z.log2 n)) n ltac:(lia)) as (c & s & E & Hd).
  pose proof (decimal_digits_lead _ n c s ltac:(split; [lia|exact Hf]) E) as Hc.
  pose proof (λ c, decimal_digits_are_digits (S (Z.to_nat (Z.log2 n))) n c ltac:(lia)) as Hds.
  pose proof (scan_decimal_digits (S (Z.to_nat (Z.log2 n))) n ltac:(split; [lia|exact Hf])) as Hv. cbv zeta. rewrite E in *. exists c, s. split_and!; try done.
  intros type. apply digits_moves. intros d Hin. apply Hds. cbn. by rewrite Hin, orb_true_r.
Qed.

Lemma to_string_neg z : z < 0 → to_string z = String "-" (to_string (- z)).
Proof. intros Hz. unfold to_string. destruct (Z.ltb_spec z 0), (Z.ltb_spec (- z) 0); try lia. done. Qed.

Lemma scan_integer z rest :
  - 2 ^ 63 <= z < 2 ^ 64 → delimited rest = true →
  scan (to_string z +:+ rest) = (if z <? 0 then value_integer z else value_unsigned z, rest).
Proof.
  intros Hz Hd. destruct (Z.ltb_spec z 0) as [Hneg|Hpos].
  - destruct (to_string_lead (- z) ltac:(lia)) as (c & s & E & Hc & Hdc & Hm & Hv).
    rewrite (scan_numeral (to_string z) TInteger rest); [|rewrite to_string_neg, E by done|done].
    + f_equal. unfold number_token. rewrite to_string_neg by done. cbn [str_drop]. rewrite Hv. cbv zeta.
      rewrite Z.opp_involutive. by rewrite (proj2 (Z.leb_le _ _)) by lia.
    + cbn [numeral_type]. change (("-" =? "-")%char) with true. cbn [orb number_moves number_move_of].
      destruct (Ascii.eqb_spec "0" c) as [<-|_]; [done|]. rewrite Hdc. cbn [type_after]. by rewrite Hm.
  - destruct (decide (z = 0)) as [->|Hne].
    { by apply (scan_numeral "0" TUnsigned). }
    destruct (to_string_lead z ltac:(lia)) as (c & s & E & Hc & Hdc & Hm & Hv).
    rewrite (scan_numeral (to_string z) TUnsigned rest); [|rewrite E|done].
    + f_equal. unfold number_token. rewrite Hv. cbv zeta. by rewrite (proj2 (Z.ltb_lt _ _)) by lia.
    + cbn [numeral_type]. rewrite Hdc, orb_true_r. destruct (digit_not_space_sign c Hdc) as (_ & Hm' & _).
      destruct (Ascii.eqb_spec c "-") as [|_]; [done|]. destruct (Ascii.eqb_spec c "0") as [|_]; [done|]. by rewrite Hm.
Qed.

(** ** Texts *)

Lemma mapM_Ok {A B} (f : A → result B) l k : mapM f l = Ok k ↔ Forall2 (λ x y, f x = Ok y) l k.
Proof.
  revert k. induction l as [|x l IH]; intros k; cbn [mapM].
  - split; [by intros [= <-]|]. by intros ->%Forall2_nil_inv_l.
  - split.
    + destruct (f x) as [y|] eqn:Ex; cbn; [|done]. destruct (mapM f l) as [ys|] eqn:El; cbn; [|done]. intros [= <-]. constructor; [done|]. by apply IH.
    + intros (y & ys & Hy & Hys & ->)%Forall2_cons_inv_l. rewrite Hy. cbn. apply IH in Hys as ->. done.
Qed.

Lemma dump_array_text l text :
  dump (JArr l) = Ok text ↔ ∃ texts, Forall2 (λ j t, dump j = Ok t) l texts ∧ text = "[" +:+ String.concat "," texts +:+ "]".
Proof.
  cbn [dump]. unfold dump_array, dump_object. split.
  - destruct (mapM id (map dump l)) as [texts|] eqn:E; cbn; [|done]. intros [= <-]. exists texts. split; [|done].
    apply mapM_Ok in E. by apply Forall2_fmap_l in E.
  - intros (texts & Ht & ->). assert (mapM id (map dump l) = Ok texts) as -> by (by apply mapM_Ok, Forall2_fmap_l). done.
Qed.

Lemma dumped_members (m : gmap string json) : map_fold (λ key value rest, (key, dump value) :: rest) [] m = prod_map id dump <$> map_to_list m.
Proof. rewrite map_fold_foldr. induction (map_to_list m) as [|[k v] l IH]; [done|]. cbn. by rewrite IH. Qed.

(** The text of a member. *)
Definition member_text (member : string * json) (text : string) : Prop :=
  utf8 member.1 = true ∧ ∃ value, dump member.2 = Ok value ∧ text = in_quotes (escape member.1) +:+ ":" +:+ value.

Lemma dump_member_text k v text : dump_member (k, dump v) = Ok text ↔ member_text (k, v) text.
Proof.
  unfold dump_member, member_text. cbn [fst snd]. rewrite dump_escaped_spec. destruct (utf8 k); cbn; [|by split; [|intros [? _]]].
  destruct (dump v) as [value|]; cbn; split; try done.
  - intros [= <-]. eauto.
  - intros (_ & v' & [= <-] & ->). done.
  - by intros (_ & v' & ? & _).
Qed.

Lemma dump_object_text m text :
  dump (JObj m) = Ok text ↔
  ∃ texts, Forall2 (λ member t, dump_member member = Ok t) (merge_sort (rel_of by_key) (prod_map id dump <$> map_to_list m)) texts ∧
    text = "{" +:+ String.concat "," texts +:+ "}".
Proof.
  cbn [dump]. unfold dump_array, dump_object. rewrite dumped_members. split.
  - destruct (mapM dump_member _) as [texts|] eqn:E; cbn; [|done]. intros [= <-]. exists texts. split; [|done]. by apply mapM_Ok.
  - intros (texts & Ht & ->). apply mapM_Ok in Ht as ->. done.
Qed.

(** The members in the order they are written. *)
Lemma sorted_members m :
  ∃ members, members ≡ₚ map_to_list m ∧ merge_sort (rel_of by_key) (prod_map id dump <$> map_to_list m) = prod_map id dump <$> members.
Proof.
  pose proof (merge_sort_Permutation (rel_of by_key) (prod_map id dump <$> map_to_list m)) as Hp.
  apply Permutation_map_inv in Hp as (members & E & Hp). exists members. split; [by symmetry|done].
Qed.

Lemma dump_object_members m text :
  dump (JObj m) = Ok text →
  ∃ members texts, members ≡ₚ map_to_list m ∧ Forall2 member_text members texts ∧ text = "{" +:+ String.concat "," texts +:+ "}".
Proof.
  intros (texts & Ht & ->)%dump_object_text. destruct (sorted_members m) as (members & Hp & E). rewrite E in Ht.
  exists members, texts. split_and!; [done| |done]. apply Forall2_fmap_l in Ht.
  eapply Forall2_impl; [exact Ht|]. intros [k v] t. apply dump_member_text.
Qed.

(** A traversal that fails on some items only, always in the same way. *)
Lemma mapM_or_throw {A B C} (f : B → result C) (g : A → B) (ok : A → bool) e l :
  Forall (λ x, ∃ y, f (g x) = if ok x then Ok y else Throw e) l → ∃ k, mapM f (g <$> l) = if forallb ok l then Ok k else Throw e.
Proof.
  induction 1 as [|x l (y & Hy) _ (k & IH)]; [by exists []|]. exists (y :: k). cbn [fmap list_fmap mapM forallb].
  rewrite Hy. destruct (ok x); cbn; [|done]. rewrite IH. by destruct (forallb ok l).
Qed.

Lemma forallb_Permutation {A} (f : A → bool) l l' : l ≡ₚ l' → forallb f l = forallb f l'.
Proof. induction 1; cbn; [done|congruence| |congruence]. by rewrite !andb_assoc, (andb_comm (f y)). Qed.

Lemma dump_or_throw j : ∃ text, dump j = if encodable j then Ok text else Throw "type_error.316".
Proof.
  induction j as [j Hj|l IH|m IH] using json_induction; [destruct j; try done; cbn [dump encodable]; unfold dump_array, dump_object; try (by eexists)|..].
  - rewrite dump_escaped_spec. destruct (utf8 s); cbn; by eexists.
  - destruct (mapM_or_throw id dump encodable "type_error.316" l IH) as [texts E]. cbn [dump encodable]; unfold dump_array, dump_object. change (map dump l) with (dump <$> l).
    rewrite E. eexists. by destruct (forallb encodable l).
  - rewrite encodable_object. cbn [dump]. unfold dump_array, dump_object. rewrite dumped_members. destruct (sorted_members m) as (members & Hp & ->).
    rewrite <- (forallb_Permutation _ _ _ Hp).
    destruct (mapM_or_throw dump_member (prod_map id dump) (λ member, utf8 member.1 && encodable member.2) "type_error.316" members) as [texts ->].
    + apply Forall_forall. intros [k v] Hm. rewrite Hp in Hm. apply elem_of_map_to_list in Hm. destruct (IH k v Hm) as [text Ht].
      unfold dump_member. cbn [prod_map fst snd id]. rewrite dump_escaped_spec, Ht. destruct (utf8 k), (encodable v); cbn; by eexists.
    + eexists. by destruct (forallb _ members).
Qed.

(** ** The parser over a text *)

(** Some iterations of the loop and the outcome of the last one. *)
Inductive reaches : parse_state → outcome → Prop :=
  | reaches_now ps o : parse_iteration ps = o → reaches ps o
  | reaches_later ps ps' o : parse_iteration ps = Continue ps' → reaches ps' o → reaches ps o.

Lemma reaches_trans ps ps' o : reaches ps (Continue ps') → reaches ps' o → reaches ps o.
Proof.
  intros Hr Ho. remember (Continue ps') as o' eqn:Eo. induction Hr as [ps1 o1 E|ps1 ps2 o1 E Hr IH]; subst.
  - by eapply reaches_later.
  - eapply reaches_later; [exact E|]. by apply IH.
Qed.

Lemma reaches_finished ps ps' : reaches ps (Finished ps') → ∃ fuel, sax_parse_internal fuel ps = Some (Ok ps').
Proof.
  intros Hr. remember (Finished ps') as o eqn:Eo. induction Hr as [ps1 o1 E|ps1 ps2 o1 E Hr IH]; subst.
  - exists 1%nat. cbn [sax_parse_internal]. by rewrite E.
  - destruct IH as [fuel IH]; [done|]. exists (S fuel). cbn [sax_parse_internal]. by rewrite E.
Qed.

(** The parser when the first token of [s] has just been read. *)
Definition reading (states : list bool) (stack : list frame) (root : json) (s : string) : parse_state :=
  MkParseState states stack root (scan s).1 (scan s).2 false.

Lemma get_token_reading states stack root t s : get_token (MkParseState states stack root t s false) = reading states stack root s.
Proof. apply get_token_eq. Qed.

(** After an item or a member. *)
Lemma item_separator states stack items root t s :
  evaluate_state (MkParseState (true :: states) (FArray items :: stack) root t (String "," s) false) =
    Continue (reading (true :: states) (FArray items :: stack) root s).
Proof.
  unfold evaluate_state. cbn [ps_states]. rewrite get_token_eq. change (scan (String "," s)) with (value_separator, s).
  cbn [fst snd ps_last_token]. by rewrite get_token_reading.
Qed.

Lemma array_closed states stack items root t s o :
  evaluate_state (handle_value (JArr items) (MkParseState states stack root end_array s false)) = o →
  ∃ ps, evaluate_state (MkParseState (true :: states) (FArray items :: stack) root t (String "]" s) false) = Continue ps ∧ reaches ps o.
Proof.
  intros E. unfold evaluate_state at 1. cbn [ps_states]. rewrite get_token_eq. change (scan (String "]" s)) with (end_array, s).
  cbn [fst snd ps_last_token]. eexists. split; [reflexivity|]. apply reaches_now. rewrite <- E. by destruct stack as [|[]].
Qed.

Lemma object_closed states stack members k root t s o :
  evaluate_state (handle_value (JObj members) (MkParseState states stack root end_object s false)) = o →
  ∃ ps, evaluate_state (MkParseState (false :: states) (FObject members k :: stack) root t (String "}" s) false) = Continue ps ∧ reaches ps o.
Proof.
  intros E. unfold evaluate_state at 1. cbn [ps_states]. rewrite get_token_eq. change (scan (String "}" s)) with (end_object, s).
  cbn [fst snd ps_last_token]. eexists. split; [reflexivity|]. apply reaches_now. rewrite <- E. by destruct stack as [|[]].
Qed.

Lemma scan_quoted k rest : utf8 k = true → scan (in_quotes (escape k) +:+ rest) = (value_string k, rest).
Proof.
  intros Hk. unfold in_quotes. rewrite str_app_cons, str_app_assoc. exact (scan_escaped k "" rest Hk).
Qed.

(** A key and its colon. *)
Lemma key_read states' states stack members k0 k root t s f :
  utf8 k = true → f (MkParseState states' (FObject members k :: stack) root name_separator s false) =
                  MkParseState (false :: states) (FObject members k :: stack) root name_separator s false →
  parse_key k (MkParseState states' (FObject members k0 :: stack) root t (String ":" s) false) f =
    Continue (reading (false :: states) (FObject members k :: stack) root s).
Proof.
  intros Hk Hf. unfold parse_key, key. cbn [ps_ref_stack asserting].
  change ((MkParseState states' (FObject members k0 :: stack) root t (String ":" s) false) <| ps_ref_stack := FObject members k :: stack |>)
    with (MkParseState states' (FObject members k :: stack) root t (String ":" s) false).
  rewrite get_token_eq. change (scan (String ":" s)) with (name_separator, s). cbn [fst snd ps_last_token]. by rewrite Hf, get_token_reading.
Qed.

Lemma member_separator states stack members k0 k root t s :
  utf8 k = true →
  evaluate_state (MkParseState (false :: states) (FObject members k0 :: stack) root t (String "," (in_quotes (escape k) +:+ String ":" s)) false) =
    Continue (reading (false :: states) (FObject members k :: stack) root s).
Proof.
  intros Hk. unfold evaluate_state. cbn [ps_states]. rewrite get_token_eq.
  change (scan (String "," ?rest)) with (value_separator, rest). cbn [fst snd ps_last_token]. rewrite get_token_eq. cbn [ps_last_token].
  rewrite scan_quoted by done. cbn [fst snd]. by apply (key_read _ states).
Qed.

Lemma str_concat_cons sep x y l : String.concat sep (x :: y :: l) = x +:+ (sep +:+ String.concat sep (y :: l)).
Proof. reflexivity. Qed.

(** The text of the members after the colon of the first one. *)
Lemma members_text k tv texts rest :
  String.concat "," ((in_quotes (escape k) +:+ ":" +:+ tv) :: texts) +:+ rest =
    in_quotes (escape k) +:+ String ":" (tv +:+ match texts with [] => "" | _ => String "," (String.concat "," texts) end +:+ rest).
Proof. destruct texts as [|t texts]; [cbn [String.concat]|rewrite str_concat_cons]; by rewrite !str_app_assoc. Qed.

(** The text of [j] is read as [j], wherever it stands. *)
Definition read_as (j : json) : Prop := ∀ text rest states stack root,
  dump j = Ok text → delimited rest = true →
  ∃ t, reaches (reading states stack root (text +:+ rest)) (evaluate_state (handle_value j (MkParseState states stack root t rest false))).

(** The items of an open array, the first of which is being read. *)
Lemma items_read states stack root rest l : ∀ texts pre,
  Forall2 (λ j t, dump j = Ok t) l texts → Forall read_as l → l ≠ [] →
  reaches (reading (true :: states) (FArray pre :: stack) root (String.concat "," texts +:+ String "]" rest))
          (evaluate_state (handle_value (JArr (pre ++ l)) (MkParseState states stack root end_array rest false))).
Proof.
  induction l as [|x l IH]; intros texts pre Ht Hr Hne; [done|]. apply Forall2_cons_inv_l in Ht as (tx & texts' & Hx & Ht & ->).
  apply Forall_cons in Hr as [Hrx Hr]. destruct l as [|y l].
  - apply Forall2_nil_inv_l in Ht as ->. cbn [String.concat].
    destruct (Hrx tx (String "]" rest) (true :: states) (FArray pre :: stack) root Hx eq_refl) as [t Hreach].
    destruct (array_closed states stack (pre ++ [x]) root t rest _ eq_refl) as (ps & Eps & Hps).
    eapply reaches_trans; [|exact Hps]. rewrite <- Eps. exact Hreach.
  - pose proof Ht as (ty & texts & _ & _ & ->)%Forall2_cons_inv_l. rewrite str_concat_cons.
    destruct (Hrx tx (String "," (String.concat "," (ty :: texts) +:+ String "]" rest)) (true :: states) (FArray pre :: stack) root Hx eq_refl) as [t Hreach].
    apply (reaches_trans _ (reading (true :: states) (FArray (pre ++ [x]) :: stack) root (String.concat "," (ty :: texts) +:+ String "]" rest))).
    + rewrite <- (item_separator states stack (pre ++ [x]) root t), !str_app_assoc. exact Hreach.
    + rewrite (cons_middle x pre (y :: l)), app_assoc. by apply IH.
Qed.

(** The members of an open object, the value of the first of which is being
    read. *)
Lemma members_read states stack root rest members : ∀ texts k v tv before,
  Forall2 member_text members texts → Forall (λ member, read_as member.2) members → read_as v → dump v = Ok tv →
  reaches (reading (false :: states) (FObject before k :: stack) root
             (tv +:+ match texts with [] => "" | _ => String "," (String.concat "," texts) end +:+ String "}" rest))
          (evaluate_state (handle_value (JObj (foldl (λ m member, <[member.1 := member.2]> m) (<[k := v]> before) members))
             (MkParseState states stack root end_object rest false))).
Proof.
  induction members as [|[k' v'] members IH]; intros texts k v tv before Ht Hr Hrv Hv.
  - apply Forall2_nil_inv_l in Ht as ->. change ("" +:+ ?r) with r.
    destruct (Hrv tv (String "}" rest) (false :: states) (FObject before k :: stack) root Hv eq_refl) as [t Hreach].
    destruct (object_closed states stack (<[k := v]> before) k root t rest _ eq_refl) as (ps & Eps & Hps).
    eapply reaches_trans; [|exact Hps]. rewrite <- Eps. exact Hreach.
  - apply Forall2_cons_inv_l in Ht as (tx & texts' & (Hk' & tv' & Hv' & ->) & Ht & ->). apply Forall_cons in Hr as [Hrx Hr]. cbn [fst snd] in *.
    specialize (IH texts' k' v' tv' (<[k := v]> before) Ht Hr Hrx Hv'). cbn [foldl]. set (tail := match texts' with [] => "" | _ => _ end +:+ String "}" rest) in IH.
    rewrite str_app_cons, members_text. fold tail.
    destruct (Hrv tv (String "," (in_quotes (escape k') +:+ String ":" (tv' +:+ tail))) (false :: states) (FObject before k :: stack) root Hv eq_refl) as [t Hreach].
    eapply reaches_trans; [|exact IH]. rewrite <- (member_separator states stack (<[k := v]> before) k k' root t) by done. exact Hreach.
Qed.

Lemma leaf_read j t text rest states stack root :
  scan (text +:+ rest) = (t, rest) →
  (∀ ps, ps_last_token ps = t → ps_skip ps = false → parse_iteration ps = evaluate_state (handle_value j ps)) →
  ∃ t, reaches (reading states stack root (text +:+ rest)) (evaluate_state (handle_value j (MkParseState states stack root t rest false))).
Proof. intros Es Hit. exists t. apply reaches_now. unfold reading. rewrite Es. by apply Hit. Qed.

Ltac leaf t := apply (leaf_read _ t); [|by intros ps Hlast Hskip; unfold parse_iteration; rewrite Hlast, Hskip].

Lemma leaf_read_as j : is_leaf j = true → clean j = true → read_as j.
Proof.
  intros Hleaf Hc text rest states stack root Hd Hrest. destruct j as [|b|z|d|s|l|m]; try done; cbn [dump] in Hd.
  - injection Hd as <-. by leaf literal_null.
  - injection Hd as <-. destruct b; [by leaf literal_true|by leaf literal_false].
  - cbn [clean] in Hc. destruct (dump_integer_text z ltac:(lia)) as [Ez _]. rewrite Ez in Hd. injection Hd as <-.
    pose proof (scan_integer z rest ltac:(lia) Hrest) as Es. destruct (z <? 0); [by leaf (value_integer z)|by leaf (value_unsigned z)].
  - cbn [clean] in Hc. destruct (canonical_reads_back d Hc) as [Ht Hs]. apply andb_true_iff in Hc as [Hc _].
    unfold dump_float in Hd. rewrite Hc in Hd. injection Hd as <-. apply (leaf_read _ (value_float d)).
    + rewrite (scan_numeral _ TFloat) by done. cbn [number_token]. by rewrite Hs.
    + intros ps Hlast Hskip. unfold parse_iteration. by rewrite Hlast, Hskip, Hc.
  - cbn [clean] in Hc. rewrite dump_escaped_spec, Hc in Hd. injection Hd as <-. leaf (value_string s). by apply scan_quoted.
Qed.

(** A text that is read as a value does not begin with a closing bracket. *)
Lemma read_as_token j text rest : read_as j → dump j = Ok text → delimited rest = true → (scan (text +:+ rest)).1 ≠ end_array.
Proof.
  intros Hr Hd Hrest Et. destruct (Hr text rest [] [] JNull Hd Hrest) as [t Hreach]. unfold reading in Hreach. rewrite Et in Hreach.
  by inversion Hreach.
Qed.

Lemma array_read_as l : Forall read_as l → read_as (JArr l).
Proof.
  intros Hl text rest states stack root (texts & Ht & ->)%dump_array_text Hrest. destruct l as [|x l].
  - apply Forall2_nil_inv_l in Ht as ->. exists end_array. by apply reaches_now.
  - exists end_array. rewrite !str_app_assoc. change ("[" +:+ ?r) with (String "[" r). change ("]" +:+ ?r) with (String "]" r).
    apply (reaches_later _ (reading (true :: states) (FArray [] :: stack) root (String.concat "," texts +:+ String "]" rest))).
    + unfold reading at 1. change (scan (String "[" ?r)) with (begin_array, r). cbn [fst snd]. unfold parse_iteration. cbn [ps_skip ps_last_token].
      change (start_array (MkParseState states stack root begin_array ?r false)) with (MkParseState states (FArray [] :: stack) root begin_array r false).
      rewrite get_token_reading.
      apply Forall2_cons_inv_l in Ht as (tx & texts' & Hx & _ & ->). apply Forall_cons in Hl as [Hrx _].
      assert ((scan (String.concat "," (tx :: texts') +:+ String "]" rest)).1 ≠ end_array) as Hne.
      { destruct texts' as [|ty texts']; [by eapply read_as_token|]. rewrite str_concat_cons, !str_app_assoc. by eapply read_as_token. }
      unfold reading. cbn [ps_last_token]. by destruct (scan _).1.
    + by apply (items_read states stack root rest (x :: l) texts []).
Qed.

(** Inserting the members one after the other. *)
Lemma insert_members (m : gmap string json) members :
  members ≡ₚ map_to_list m → foldl (λ m member, <[member.1 := member.2]> m) ∅ members = m.
Proof.
  intros Hp. assert (foldl (λ m member, <[member.1 := member.2]> m) ∅ members = list_to_map (rev members)) as ->.
  { clear Hp. induction members as [|[k v] l IH] using rev_ind; [done|]. rewrite foldl_snoc, rev_app_distr, IH. done. }
  rewrite <- (list_to_map_to_list m). apply list_to_map_proper.
  - rewrite <- Permutation_rev, Hp. apply NoDup_fst_map_to_list.
  - by rewrite <- Permutation_rev.
Qed.

Lemma object_read_as m : map_Forall (λ _, read_as) m → read_as (JObj m).
Proof.
  intros Hm text rest states stack root (members & texts & Hp & Ht & ->)%dump_object_members Hrest. exists end_object.
  rewrite <- (insert_members m members Hp). assert (Forall (λ member, read_as member.2) members) as Hr.
  { rewrite Hp. apply Forall_forall. intros [k v] Hkv%elem_of_map_to_list. by apply (Hm k v). }
  clear Hm Hp m. rewrite !str_app_assoc. change ("{" +:+ ?r) with (String "{" r). change ("}" +:+ ?r) with (String "}" r). destruct members as [|[k v] members].
  - apply Forall2_nil_inv_l in Ht as ->. by apply reaches_now.
  - apply Forall2_cons_inv_l in Ht as (tx & texts' & (Hk & tv & Hv & ->) & Ht & ->). apply Forall_cons in Hr as [Hrv Hr]. cbn [fst snd] in *.
    eapply reaches_later; [|by apply (members_read states stack root rest members texts' k v tv ∅)].
    rewrite members_text. unfold reading at 1. change (scan (String "{" ?r)) with (begin_object, r). cbn [fst snd]. unfold parse_iteration. cbn [ps_skip ps_last_token].
    change (start_object (MkParseState states stack root begin_object ?r false)) with (MkParseState states (FObject ∅ "" :: stack) root begin_object r false).
    rewrite get_token_eq. cbn [ps_last_token]. rewrite scan_quoted by done. cbn [fst snd]. by apply key_read.
Qed.

Lemma clean_read_as j : clean j = true → read_as j.
Proof.
  induction j as [j Hj|l IH|m IH] using json_induction; [by apply leaf_read_as|..].
  - intros Hc%clean_array. apply array_read_as, Forall_forall. intros j Hj. rewrite Forall_forall in IH, Hc. auto.
  - intros Hc%clean_object. apply object_read_as. intros k j Hj. destruct (Hc k j Hj). by apply (IH k j Hj).
Qed.

(** ** Whole texts *)

(** No control character. *)
Definition printable (s : string) : Prop := ∀ c, byte_value c <= 0x1F → char_in c s = false.

Lemma printable_app s t : printable s → printable t → printable (s +:+ t).
Proof. intros Hs Ht c Hc. by rewrite char_in_app, Hs, Ht. Qed.

Lemma printable_cons c s : 0x1F < byte_value c → printable s → printable (String c s).
Proof.
  intros Hc Hs d Hd. cbn [char_in]. rewrite Hs by done. destruct (Ascii.eqb_spec d c) as [->|_]; [lia|done].
Qed.

Lemma printable_concat texts : Forall printable texts → printable (String.concat "," texts).
Proof.
  induction texts as [|t [|t' texts] IH]; intros Ht; [done|by apply Forall_inv in Ht|].
  apply Forall_cons in Ht as [Ht Hts]. rewrite str_concat_cons. apply printable_app; [done|]. apply printable_cons; [by vm_compute|]. by apply IH.
Qed.

Lemma number_moves_printable s : ∀ st type p, number_moves st type s = Some p → printable s.
Proof.
  induction s as [|c s IH]; intros st type p E; [done|]. cbn [number_moves] in E.
  assert (match number_move_of st (Some c) with MoveTo _ => 0x1F <? byte_value c | _ => true end = true) as Hc
    by (clear; revert c; apply check_bytes; by destruct st; vm_compute).
  destruct (number_move_of st (Some c)); [|done..]. apply printable_cons; [lia|]. by eapply IH.
Qed.

Lemma numeral_printable text type : numeral_type text = Some type → printable text.
Proof.
  intros E. destruct text as [|c s]; [done|]. cbn [numeral_type] in E. destruct ((c =? "-")%char || is_digit c) eqn:Ec; [|done].
  assert (implb ((c =? "-")%char || is_digit c) (0x1F <? byte_value c) = true) as Hc by (clear; revert c; apply check_bytes; by vm_compute).
  rewrite Ec in Hc. cbn [implb] in Hc. apply printable_cons; [lia|].
  destruct (c =? "-")%char, (c =? "0")%char; cbn [mbind option_bind] in E;
    (destruct (number_moves _ _ s) as [p|] eqn:Em; [by eapply number_moves_printable|done]).
Qed.

Lemma to_string_printable z : printable (to_string z).
Proof.
  intros c Hc. assert (implb (byte_value c <=? 31) (negb (is_digit c) && negb (c =? "-")%char) = true) as Hcheck by (clear; revert c; apply check_bytes; by vm_compute).
  apply Z.leb_le in Hc. rewrite Hc in Hcheck. cbn [implb] in Hcheck. apply andb_true_iff in Hcheck as [Hd Hm].
  apply to_string_no_char; [by destruct (is_digit c)|]. by intros ->.
Qed.

Lemma quoted_printable s : printable (in_quotes (escape s)).
Proof.
  unfold in_quotes. apply printable_cons; [by vm_compute|]. apply printable_app; [intros c Hc; by apply escape_printable|]. by apply printable_cons; [vm_compute|].
Qed.

Lemma dump_printable j : clean j = true → ∀ text, dump j = Ok text → printable text.
Proof.
  induction j as [j Hj|l IH|m IH] using json_induction; intros Hc text Hd.
  - destruct j as [|b|z|d|s|l|m]; try done; cbn [dump] in Hd.
    + injection Hd as <-. repeat (apply printable_cons; [by vm_compute|]); done.
    + injection Hd as <-. destruct b; repeat (apply printable_cons; [by vm_compute|]); done.
    + cbn [clean] in Hc. destruct (dump_integer_text z ltac:(lia)) as [Ez _]. rewrite Ez in Hd. injection Hd as <-. apply to_string_printable.
    + cbn [clean] in Hc. destruct (canonical_reads_back d Hc) as [Ht _]. apply andb_true_iff in Hc as [Hc _].
      unfold dump_float in Hd. rewrite Hc in Hd. injection Hd as <-. by eapply numeral_printable.
    + cbn [clean] in Hc. rewrite dump_escaped_spec, Hc in Hd. injection Hd as <-. apply quoted_printable.
  - apply clean_array in Hc. apply dump_array_text in Hd as (texts & Ht & ->).
    apply printable_cons; [by vm_compute|]. apply printable_app; [|by apply printable_cons; [vm_compute|]]. apply printable_concat.
    revert texts Ht. induction l as [|x l IHl]; intros texts Ht; [by apply Forall2_nil_inv_l in Ht as ->|].
    apply Forall2_cons_inv_l in Ht as (t & texts' & Hx & Ht & ->). apply Forall_cons in IH as [IH1 IH2], Hc as [Hc1 Hc2].
    constructor; [by eapply IH1|]. by apply IHl.
  - apply clean_object in Hc. apply dump_object_members in Hd as (members & texts & Hp & Ht & ->).
    apply printable_cons; [by vm_compute|]. apply printable_app; [|by apply printable_cons; [vm_compute|]]. apply printable_concat.
    assert (Forall (λ member, ∀ t, dump member.2 = Ok t → printable t) members) as Hall.
    { rewrite Hp. apply Forall_forall. intros [k v] Hkv%elem_of_map_to_list. destruct (Hc k v Hkv). by apply (IH k v Hkv). }
    clear -Hall Ht. induction Ht as [|[k v] t members texts (_ & tv & Hv & ->) Ht IH]; [done|]. apply Forall_cons in Hall as [Hkv Hall].
    constructor; [|by apply IH]. apply printable_app; [apply quoted_printable|]. apply printable_cons; [by vm_compute|]. by apply Hkv.
Qed.

(** The text has no byte order mark. *)
Lemma read_as_first j text rest :
  read_as j → dump j = Ok text → delimited rest = true → first_scan (text +:+ rest) = scan (text +:+ rest).
Proof.
  intros Hr Hd Hrest. destruct (Hr text rest [] [] JNull Hd Hrest) as [t Hreach]. revert Hreach. unfold first_scan.
  destruct (text +:+ rest) as [|c s]; [done|]. destruct (Ascii.eqb_spec c "239") as [->|Hne].
  - intros Hreach. by inversion Hreach.
  - intros _. assert (skip_bom (String c s) = Some (String c s)) as ->; [|done].
    destruct c as [[] [] [] [] [] [] [] []]; try reflexivity. done.
Qed.

Lemma parse_dumped j text rest :
  clean j = true → dump j = Ok text → delimited rest = true → (scan rest).1 = end_of_input →
  parse (text +:+ rest) = Some (Ok j).
Proof.
  intros Hc Hd Hrest Hend. pose proof (clean_read_as j Hc) as Hr. destruct (Hr text rest [] [] JNull Hd Hrest) as [t Hreach].
  apply reaches_finished in Hreach as [fuel E]. unfold parse. pose proof (first_scan_ok (text +:+ rest)) as [Htc Hm].
  rewrite (read_as_first j text rest Hr Hd Hrest) in *. unfold reading in E. destruct (scan (text +:+ rest)) as [t' s']. cbn [fst snd] in *.
  destruct (sax_parse_total (parse_fuel (text +:+ rest)) (MkParseState [] [] JNull t' s' false)) as (r & Er & _).
  - split; [by split; [constructor|]|]. by split.
  - unfold parse_measure, parse_fuel. cbn [ps_rest ps_last_token]. lia.
  - pose proof (sax_parse_mono _ (fuel + parse_fuel (text +:+ rest)) _ _ E ltac:(lia)) as E1.
    pose proof (sax_parse_mono _ (fuel + parse_fuel (text +:+ rest)) _ _ Er ltac:(lia)) as E2. rewrite E1 in E2. injection E2 as <-.
    rewrite Er. cbn. by rewrite Hend.
Qed.

(** ** Properties *)

(** A value with a text that is read back. *)
Lemma clean_text j : clean j = true → ∃ text, dump j = Ok text ∧ printable text ∧ ∀ rest, delimited rest = true → (scan rest).1 = end_of_input → parse (text +:+ rest) = Some (Ok j).
Proof.
  intros Hc. destruct (dump_or_throw j) as [text Hd]. rewrite (clean_encodable j Hc) in Hd. exists text. split_and!; [done|by eapply dump_printable|]. intros rest. by apply parse_dumped.
Qed.

(** C6.  Every clean value survives its text: [dump] prints it without throwing and
    without a control character, and [json::parse] reads the text, with or
    without a newline after it, as that value.  Strings may hold any character,
    integers may be any of 64 bits and floating-point numbers any finite
    [double]; each number keeps its type and its value. *)
Theorem json_round_trip (j : json) :
  clean j = true →
  ∃ text, dump j = Ok text ∧ printable text ∧
    parse text = Some (Ok j) ∧ parse (text +:+ String "010" "") = Some (Ok j).
Proof.
  intros Hc. destruct (clean_text j Hc) as (text & Hd & Hp & Hr). exists text. split_and!; [done..| |by apply Hr]. rewrite <- (str_app_nil_r text). by apply Hr.
Qed.

(** C11.  The parser answers on every input: it throws or delivers a value,
    its loop ends, and no assertion of the document builder fails.  A value it
    delivers is clean, whatever escapes, surrogates or numbers the text has;
    so it can be printed, and the printed text is read as the same value: a
    second pass through the library changes nothing.  The printer throws on one
    condition only, a string or key that is not UTF-8. *)
Theorem parse_total_and_clean (text : string) :
  (∃ r, parse text = Some r ∧ ∀ j, r = Ok j → clean j = true ∧ ∃ text', dump j = Ok text' ∧ printable text' ∧ parse text' = Some (Ok j)) ∧
  ∀ j, (∃ text', dump j = Ok text') ∨ (dump j = Throw "type_error.316" ∧ encodable j = false).
Proof.
  split.
  - destruct (parse_answers text) as (r & E & Hr). exists r. split; [done|]. intros j Ej. specialize (Hr j Ej). split; [done|].
    destruct (clean_text j Hr) as (text' & Hd & Hprint & Hp). exists text'. split; [done|]. split; [done|]. rewrite <- (str_app_nil_r text'). by apply Hp.
  - intros j. destruct (dump_or_throw j) as [text' Hd]. destruct (encodable j); [left; eauto|by right].
Qed.

Definition sample_value : json :=
  mk_obj [("b", JArr [JInt (- 2 ^ 63); JFloat (strtod "2.5e-7"); JStr "line
\end"]); ("a", JObj ∅)].

Lemma json_round_trip_witness :
  ∃ text, dump sample_value = Ok text ∧ parse text = Some (Ok sample_value) ∧ printable text.
Proof.
  destruct (json_round_trip sample_value) as (text & Hd & Hp & E & _); [vm_compute; reflexivity|].
  exact (ex_intro _ text (conj Hd (conj E Hp))).
Defined.
