(* ===== verification/Observability.v ===== *)
(** * Observability metrics

    [node/vllm-client/src/observability_metrics.{h,cpp}]: events of the
    scheduler are folded into named series, a background thread flushes the
    series into a time-series store and queries read the store back.

    The store (mini-tsdb) is a separate library: the class [TimeSeriesStore]
    is its interface. *)
From S2P Require Import Prelude StdString Doubles Json.

(** ** The time-series store *)

Inductive Agg := kAvg | kMax | kMin | kLast.

Record tsdb_options := TsdbOptions {
  opt_memtable_limit : Z;
  opt_sync_wal : bool;
  opt_block_cache_bytes : Z;
}.

Record tsdb_record := TsdbRecord {
  rec_measurement : string;
  rec_timestamp : Z;
  rec_value : string;
}.

(** What the sources use of [minitsdb::TsdbEngine]; a constructor or a query
    may throw, a write reports a status. *)
Class TimeSeriesStore := {
  engine : Type;
  engine_open : string → tsdb_options → result engine;
  engine_write : engine → list tsdb_record → engine * (bool * string);
  engine_range_query : engine → string → Z → Z → result (list tsdb_record);
  engine_downsample : engine → string → Z → Z → Z → Agg → result (list tsdb_record);
}.

(** ** Configuration and events *)

Record ObservabilityConfig := MkObservabilityConfig {
  oc_enabled : bool;
  oc_db_dir : string;
  oc_flush_interval_ms : Z;
  oc_sync_wal : bool;
  oc_memtable_limit_bytes : Z;
  oc_block_cache_bytes : Z;
  oc_max_samples_per_series : Z;
}.
#[export] Instance eta_oc : Eta ObservabilityConfig := fun c =>
  MkObservabilityConfig (oc_enabled c) (oc_db_dir c) (oc_flush_interval_ms c)
    (oc_sync_wal c) (oc_memtable_limit_bytes c) (oc_block_cache_bytes c)
    (oc_max_samples_per_series c).

Definition default_observability_config : ObservabilityConfig :=
  MkObservabilityConfig false "runtime/observability-tsdb" 1000 false
    (4 * 1024 * 1024) (512 * 1024) 4096.

Record RequestMetricsEvent := MkRequestMetricsEvent {
  rme_action : string;
  rme_endpoint : string;
  rme_ok : bool;
  rme_timeout : bool;
  rme_degraded : bool;
  rme_error_code : Z;
  rme_total_latency_ms : Z;
  rme_queue_wait_ms : Z;
  rme_first_token_latency_ms : Z;
}.

Record QueueMetricsEvent := MkQueueMetricsEvent {
  qme_pending : Z;
  qme_high : Z;
  qme_normal : Z;
  qme_background : Z;
  qme_max_queue_size : Z;
}.
#[export] Instance eta_qme : Eta QueueMetricsEvent := fun e =>
  MkQueueMetricsEvent (qme_pending e) (qme_high e) (qme_normal e) (qme_background e)
    (qme_max_queue_size e).

Record EndpointMetricsEvent := MkEndpointMetricsEvent {
  eme_endpoint : string;
  eme_inflight : Z;
  eme_available_capacity : Z;
  eme_avg_latency_ms : double;
  eme_healthy : bool;
  eme_circuit_state : Z;
  eme_success_count : Z;
  eme_failure_count : Z;
  eme_timeout_count : Z;
  eme_circuit_open_count : Z;
}.

Inductive SeriesMode := Sum | Avg | Max | Last | P95.
#[export] Instance SeriesMode_eq_dec : EqDecision SeriesMode.
Proof. solve_decision. Defined.

Record SeriesState := MkSeriesState {
  ss_mode : SeriesMode;
  ss_sum : double;
  ss_count : Z;
  ss_max : double;
  ss_last : double;
  ss_samples : list double;
}.
#[export] Instance eta_ss : Eta SeriesState := fun s =>
  MkSeriesState (ss_mode s) (ss_sum s) (ss_count s) (ss_max s) (ss_last s) (ss_samples s).

Definition empty_series : SeriesState := MkSeriesState Last d_zero 0 d_zero d_zero [].

(** ** Readers of the query body *)

(** Undefined outside the range of the type; the value is that of the x86-64
    conversion instruction. *)
Definition d_to_int64 (d : double) : Z :=
  match d_trunc d with
  | Some z => if z =? to_int64 z then z else -9223372036854775808
  | None => -9223372036854775808
  end.

Definition json_int64_value (body : json) (key : string) (default_value : Z) : Z :=
  match json_get body key with
  | None => default_value
  | Some (JInt z) => to_int64 z
  | Some (JFloat d) => d_to_int64 d
  | Some (JStr s) =>
      let '(neg, digits) := scan_sign (skip_spaces s) in
      let '(v, count, _) := scan_digits 0 0 digits in
      let z := if (neg : bool) then - v else v in
      if (count =? 0)%nat then default_value
      else if (z =? to_int64 z) then z else default_value
  | Some _ => default_value
  end.

Definition parse_agg (agg : string) : Agg :=
  if (agg =? "avg")%string then kAvg
  else if (agg =? "max")%string then kMax
  else if (agg =? "min")%string then kMin
  else kLast.

(** ** Series *)

Definition is_segment_char (c : ascii) : bool :=
  let n := Z.of_nat (nat_of_ascii c) in
  ((97 <=? n) && (n <=? 122)) || ((65 <=? n) && (n <=? 90)) || ((48 <=? n) && (n <=? 57))
  || Ascii.eqb c "_" || Ascii.eqb c "-".

Fixpoint sanitize_chars (value : string) : string :=
  match value with
  | EmptyString => EmptyString
  | String c rest => String (if is_segment_char c then c else "_"%char) (sanitize_chars rest)
  end.

Definition sanitize_segment (value : string) : string :=
  let out := sanitize_chars value in
  if str_empty out then "unknown" else out.

Abbreviation series_map := (gmap string SeriesState).

(** [series_[measurement]], default-constructed when absent. *)
Definition series_at (measurement : string) (series : series_map) : SeriesState :=
  default empty_series (series !! measurement).

(** The common prologue of the five [add_*_locked] functions: an untouched
    series takes the mode, a series of another mode is reset. *)
Definition enter_mode (mode : SeriesMode) (s : SeriesState) : SeriesState :=
  let s := if (ss_count s =? 0) && (length (ss_samples s) =? 0)%nat
           then s <| ss_mode := mode |> else s in
  if decide (ss_mode s = mode) then s else empty_series <| ss_mode := mode |>.

Definition add_sum_locked (measurement : string) (value : double) (series : series_map) :=
  let s := enter_mode Sum (series_at measurement series) in
  <[measurement := s <| ss_sum := d_add (ss_sum s) value |>
                     <| ss_count := uint64_add (ss_count s) 1 |>]> series.

Definition add_avg_locked (measurement : string) (value : double) (series : series_map) :=
  let s := enter_mode Avg (series_at measurement series) in
  <[measurement := s <| ss_sum := d_add (ss_sum s) value |>
                     <| ss_count := uint64_add (ss_count s) 1 |>]> series.

Definition add_max_locked (measurement : string) (value : double) (series : series_map) :=
  let s := series_at measurement series in
  let s := if (ss_count s =? 0) && (length (ss_samples s) =? 0)%nat
           then s <| ss_mode := Max |> <| ss_max := value |> else s in
  let s := if decide (ss_mode s = Max) then s
           else empty_series <| ss_mode := Max |> <| ss_max := value |> in
  let s := if (ss_count s =? 0) || d_lt (ss_max s) value
           then s <| ss_max := value |> else s in
  <[measurement := s <| ss_count := uint64_add (ss_count s) 1 |>]> series.

Definition add_last_locked (measurement : string) (value : double) (series : series_map) :=
  let s := enter_mode Last (series_at measurement series) in
  <[measurement := s <| ss_last := value |>
                     <| ss_count := uint64_add (ss_count s) 1 |>]> series.

Definition add_p95_locked (sample_limit : Z) (measurement : string) (value : double)
    (series : series_map) :=
  let s := enter_mode P95 (series_at measurement series) in
  let s := if Z.of_nat (length (ss_samples s)) <? sample_limit
           then s <| ss_samples := ss_samples s ++ [value] |> else s in
  <[measurement := s <| ss_count := uint64_add (ss_count s) 1 |>]> series.

(** [std::sort] on doubles that are never NaN. *)
Definition sort_doubles (l : list double) : list double :=
  merge_sort (rel_of d_le) l.

Definition series_flush_value (s : SeriesState) : option double :=
  if (ss_count s =? 0) && (length (ss_samples s) =? 0)%nat then None
  else match ss_mode s with
  | Sum => Some (ss_sum s)
  | Avg => if ss_count s =? 0 then None else Some (d_div (ss_sum s) (d_of_Z (ss_count s)))
  | Max => Some (ss_max s)
  | Last => Some (ss_last s)
  | P95 =>
      if (length (ss_samples s) =? 0)%nat then None
      else
        let sorted := sort_doubles (ss_samples s) in
        sorted !! Z.to_nat (percentile_index p95 (Z.of_nat (length sorted)))
  end.

(** ** Printing a value *)

(** [std::round]: halves away from zero. *)
Definition d_round (d : double) : double :=
  match d with
  | S754_finite s m e =>
      if 0 <=? e then d
      else let q := (Z.pos m + 2 ^ (- e - 1)) / 2 ^ (- e) in
           if q =? 0 then S754_zero s else d_of_Z (if s then - q else q)
  | _ => d
  end.

Definition d_abs (d : double) : double := SFabs d.

(** [value * 1000] rounded to the nearest integer, ties to even: what
    [std::fixed << std::setprecision(3)] prints. *)
Definition d_milli (m : positive) (e : Z) : Z :=
  if 0 <=? e then Z.pos m * 1000 * 2 ^ e
  else
    let n := Z.pos m * 1000 in
    let q := n / 2 ^ (- e) in
    let r := n mod 2 ^ (- e) in
    match Z.compare (2 * r) (2 ^ (- e)) with
    | Lt => q
    | Gt => q + 1
    | Eq => if Z.even q then q else q + 1
    end.

Definition pad3 (n : Z) : string :=
  String (digit_char (n / 100)) (String (digit_char (n / 10 mod 10))
    (String (digit_char (n mod 10)) EmptyString)).

Definition format_value (value : double) : string :=
  if negb (d_is_finite value) then "0"
  else
    let rounded := d_round value in
    if d_lt (d_abs (d_sub value rounded)) (d_lit 1 1000000) then
      to_string (d_to_int64 rounded)
    else match value with
    | S754_finite s m e =>
        let milli := d_milli m e in
        (if s then "-" else "") +:+ to_string (milli / 1000) +:+ "." +:+ pad3 (milli mod 1000)
    | _ => "0.000"
    end.

Fixpoint unique_adjacent (l : list string) : list string :=
  match l with
  | [] => []
  | x :: l' =>
      match l' with
      | y :: _ => if (x =? y)%string then unique_adjacent l' else x :: unique_adjacent l'
      | [] => [x]
      end
  end.

Definition sort_strings (l : list string) : list string :=
  merge_sort (rel_of String.leb) l.

Definition measurements_from_query (query_body : json) : list string :=
  if negb (is_object query_body) then []
  else
    let one := match json_get query_body "measurement" with Some (JStr s) => [s] | _ => [] end in
    let many := match json_get query_body "measurements" with Some (JArr l) => strings_of l | _ => [] end in
    unique_adjacent (sort_strings (List.filter (λ s, negb (str_empty s)) (one ++ many))).

(** ** The metrics object *)

Section metrics_object.
Context `{TimeSeriesStore}.

Record ObservabilityMetrics := MkObservabilityMetrics {
  enabled_ : bool;
  running_ : bool;
  max_samples_per_series_ : Z;
  config_ : ObservabilityConfig;
  last_flush_ms_ : Z;
  last_flush_points_ : Z;
  total_flush_points_ : Z;
  flush_failures_ : Z;
  last_status_ : string;
  last_error_ : string;
  series_ : series_map;
  engine_ : option engine;
}.

#[export] Instance eta_om : Eta ObservabilityMetrics := fun o =>
  MkObservabilityMetrics (enabled_ o) (running_ o) (max_samples_per_series_ o) (config_ o)
    (last_flush_ms_ o) (last_flush_points_ o) (total_flush_points_ o) (flush_failures_ o)
    (last_status_ o) (last_error_ o) (series_ o) (engine_ o).

(** The default-constructed object. *)
Definition new_observability : ObservabilityMetrics :=
  MkObservabilityMetrics false false 4096 default_observability_config 0 0 0 0
    "disabled" "" ∅ None.

(** The batch of one flush.  The code walks an unordered map; the order of
    the points of a batch is not specified. *)
Definition flush_batch (timestamp_ms : Z) (snapshot : series_map) : list tsdb_record :=
  omap (λ item : string * SeriesState,
          match series_flush_value item.2 with
          | Some value => Some (TsdbRecord item.1 timestamp_ms (format_value value))
          | None => None
          end) (map_to_list snapshot).

Definition flush_once (timestamp_ms : Z) (o : ObservabilityMetrics) : ObservabilityMetrics :=
  if decide (series_ o = ∅) then o
  else
    let batch := flush_batch timestamp_ms (series_ o) in
    let o := o <| series_ := ∅ |> in
    if (length batch =? 0)%nat then o
    else
      let '(eng, ok, status) :=
        match engine_ o with
        | None => (None, false, "observability store is not open")
        | Some eng => let '(eng', (ok, status)) := engine_write eng batch in (Some eng', ok, status)
        end in
      let o := o <| engine_ := eng |> <| last_flush_ms_ := timestamp_ms |>
                 <| last_flush_points_ := Z.of_nat (length batch) |> in
      if ok then
        o <| total_flush_points_ := uint64_add (total_flush_points_ o) (Z.of_nat (length batch)) |>
          <| last_status_ := "running" |> <| last_error_ := "" |>
      else
        o <| flush_failures_ := uint64_add (flush_failures_ o) 1 |>
          <| last_status_ := "error" |> <| last_error_ := status |>.

(** One turn of the background thread after its wait. *)
Definition worker_iteration (timestamp_ms : Z) (o : ObservabilityMetrics) : ObservabilityMetrics :=
  if running_ o then flush_once timestamp_ms o else o.

(** The worker is joined, which runs its last flush, then [stop] flushes once
    more itself and closes the store.  The thread exists exactly while
    [running_] is set: [configure] starts it and only [stop] clears the flag. *)
Definition stop (worker_flush_ms own_flush_ms : Z) (o : ObservabilityMetrics)
    : ObservabilityMetrics :=
  let worker_joinable := running_ o in
  let o := o <| enabled_ := false |> <| running_ := false |> in
  let o := if worker_joinable then flush_once worker_flush_ms o else o in
  let o := flush_once own_flush_ms o in
  let o := o <| engine_ := None |> in
  o <| last_status_ := if oc_enabled (config_ o) then "stopped" else "disabled" |>.

Definition normalize_config (config : ObservabilityConfig) : ObservabilityConfig :=
  let n := config in
  let n := if oc_flush_interval_ms n <? 100 then n <| oc_flush_interval_ms := 100 |> else n in
  let n := if oc_memtable_limit_bytes n <=? 0
           then n <| oc_memtable_limit_bytes := 4 * 1024 * 1024 |> else n in
  let n := if oc_block_cache_bytes n =? 0
           then n <| oc_block_cache_bytes := 512 * 1024 |> else n in
  if oc_max_samples_per_series n =? 0 then n <| oc_max_samples_per_series := 4096 |> else n.

(** [configure]: stop, install the normalized configuration, open the store.
    The boolean result is the function's; [Some] is the error message. *)
Definition configure (worker_flush_ms own_flush_ms : Z) (config : ObservabilityConfig)
    (o : ObservabilityMetrics) : ObservabilityMetrics * bool * option string :=
  let o := stop worker_flush_ms own_flush_ms o in
  let n := normalize_config config in
  let o := o <| max_samples_per_series_ := oc_max_samples_per_series n |>
             <| config_ := n |> <| last_flush_ms_ := 0 |> <| last_flush_points_ := 0 |>
             <| total_flush_points_ := 0 |> <| flush_failures_ := 0 |> <| last_error_ := "" |>
             <| last_status_ := if oc_enabled n then "starting" else "disabled" |> in
  if negb (oc_enabled n) then (o, true, None)
  else if str_empty (oc_db_dir n) then
    let message := "observability db_dir is empty" in
    (o <| last_status_ := "error" |> <| last_error_ := message |>, false, Some message)
  else match engine_open (oc_db_dir n)
              (TsdbOptions (oc_memtable_limit_bytes n) (oc_sync_wal n) (oc_block_cache_bytes n)) with
  | Ok eng =>
      (o <| engine_ := Some eng |> <| enabled_ := true |> <| running_ := true |>
         <| last_status_ := "running" |>, true, None)
  | Throw what =>
      (o <| enabled_ := false |> <| running_ := false |>
         <| last_status_ := "error" |> <| last_error_ := what |>, false, Some what)
  end.

(** *** Events *)

Definition one : double := d_of_Z 1.

(** The outcome counters of a request. *)
Definition add_outcome_locked (action : string) (event : RequestMetricsEvent) (s : series_map) : series_map :=
  if rme_ok event then add_sum_locked ("llm.request.success.count.action." +:+ action) one s
  else
    let s := add_sum_locked ("llm.request.error.count.action." +:+ action +:+ ".code."
               +:+ sanitize_segment (to_string (rme_error_code event))) one s in
    if rme_timeout event
    then add_sum_locked ("llm.request.timeout.count.action." +:+ action) one s else s.

(** A duration of a request, when it was measured. *)
Definition add_duration_locked (limit : Z) (stem action : string) (ms : Z) (s : series_map) : series_map :=
  if 0 <=? ms then
    let s := add_avg_locked ("llm.request." +:+ stem +:+ ".avg_ms.action." +:+ action) (d_of_Z ms) s in
    add_p95_locked limit ("llm.request." +:+ stem +:+ ".p95_ms.action." +:+ action) (d_of_Z ms) s
  else s.

(** The counters of the endpoint that served the request. *)
Definition add_endpoint_outcome_locked (endpoint : string) (event : RequestMetricsEvent) (s : series_map) : series_map :=
  if negb (endpoint =? "unknown")%string then
    let s := add_sum_locked ("llm.endpoint.request.count." +:+ endpoint) one s in
    add_sum_locked ("llm.endpoint.request." +:+
      (if rme_ok event then "success.count." else "error.count.") +:+ endpoint) one s
  else s.

Definition observe_request_finish (event : RequestMetricsEvent) (o : ObservabilityMetrics)
    : ObservabilityMetrics :=
  if negb (enabled_ o) then o
  else
    let action := sanitize_segment (rme_action event) in
    let endpoint := sanitize_segment (rme_endpoint event) in
    let limit := max_samples_per_series_ o in
    let s := add_sum_locked ("llm.request.count.action." +:+ action) one (series_ o) in
    let s := add_outcome_locked action event s in
    let s := if rme_degraded event
             then add_sum_locked ("llm.request.degraded.count.action." +:+ action) one s else s in
    let s := add_duration_locked limit "latency" action (rme_total_latency_ms event) s in
    let s := add_duration_locked limit "queue_wait" action (rme_queue_wait_ms event) s in
    let s := add_duration_locked limit "ttft" action (rme_first_token_latency_ms event) s in
    o <| series_ := add_endpoint_outcome_locked endpoint event s |>.

Definition observe_queue_reject (action : string) (o : ObservabilityMetrics)
    : ObservabilityMetrics :=
  if negb (enabled_ o) then o
  else o <| series_ := add_sum_locked
              ("llm.queue.reject.count.action." +:+ sanitize_segment action) (d_of_Z 1) (series_ o) |>.

Definition observe_queue_snapshot (event : QueueMetricsEvent) (o : ObservabilityMetrics)
    : ObservabilityMetrics :=
  if negb (enabled_ o) then o
  else
    let s := series_ o in
    let s := add_last_locked "llm.queue.pending" (d_of_Z (qme_pending event)) s in
    let s := add_last_locked "llm.queue.high" (d_of_Z (qme_high event)) s in
    let s := add_last_locked "llm.queue.normal" (d_of_Z (qme_normal event)) s in
    let s := add_last_locked "llm.queue.background" (d_of_Z (qme_background event)) s in
    let s := add_last_locked "llm.queue.max_size" (d_of_Z (qme_max_queue_size event)) s in
    o <| series_ := s |>.

Definition observe_endpoint (event : EndpointMetricsEvent) (o : ObservabilityMetrics)
    : ObservabilityMetrics :=
  if negb (enabled_ o) then o
  else
    let endpoint := sanitize_segment (eme_endpoint event) in
    let s := series_ o in
    let s := add_last_locked ("llm.endpoint.inflight." +:+ endpoint) (d_of_Z (eme_inflight event)) s in
    let s := add_last_locked ("llm.endpoint.available_capacity." +:+ endpoint)
               (d_of_Z (eme_available_capacity event)) s in
    let s := add_last_locked ("llm.endpoint.avg_latency_ms." +:+ endpoint) (eme_avg_latency_ms event) s in
    let s := add_last_locked ("llm.endpoint.healthy." +:+ endpoint)
               (if eme_healthy event then d_of_Z 1 else d_zero) s in
    let s := add_last_locked ("llm.endpoint.circuit_state." +:+ endpoint)
               (d_of_Z (eme_circuit_state event)) s in
    let s := add_last_locked ("llm.endpoint.success.total." +:+ endpoint)
               (d_of_Z (eme_success_count event)) s in
    let s := add_last_locked ("llm.endpoint.failure.total." +:+ endpoint)
               (d_of_Z (eme_failure_count event)) s in
    let s := add_last_locked ("llm.endpoint.timeout.total." +:+ endpoint)
               (d_of_Z (eme_timeout_count event)) s in
    let s := add_last_locked ("llm.endpoint.circuit_open.total." +:+ endpoint)
               (d_of_Z (eme_circuit_open_count event)) s in
    o <| series_ := s |>.

(** *** Reading back *)

Definition snapshot_fields (o : ObservabilityMetrics) : gmap string json :=
  let base := list_to_map [
    ("enabled", JBool (enabled_ o));
    ("configured", JBool (oc_enabled (config_ o)));
    ("db_dir", JStr (oc_db_dir (config_ o)));
    ("flush_interval_ms", JInt (oc_flush_interval_ms (config_ o)));
    ("sync_wal", JBool (oc_sync_wal (config_ o)));
    ("memtable_limit_bytes", JInt (oc_memtable_limit_bytes (config_ o)));
    ("block_cache_bytes", JInt (oc_block_cache_bytes (config_ o)));
    ("buffered_series", JInt (Z.of_nat (size (series_ o))));
    ("last_flush_ms", JInt (last_flush_ms_ o));
    ("last_flush_points", JInt (last_flush_points_ o));
    ("total_flush_points", JInt (total_flush_points_ o));
    ("flush_failures", JInt (flush_failures_ o));
    ("status", JStr (last_status_ o))] in
  if str_empty (last_error_ o) then base else <["last_error" := JStr (last_error_ o)]> base.

Definition snapshot (o : ObservabilityMetrics) : json := JObj (snapshot_fields o).

Definition point_json (r : tsdb_record) : json :=
  mk_obj [("measurement", JStr (rec_measurement r)); ("timestamp_ms", JInt (rec_timestamp r));
          ("value", JStr (rec_value r))].

(** Points of the measurements in order; a throwing read keeps the points
    gathered before it. *)
Fixpoint query_points (read : string → result (list tsdb_record)) (measurements : list string)
    : list json * option string :=
  match measurements with
  | [] => ([], None)
  | m :: rest =>
      match read m with
      | Ok records => let '(pts, err) := query_points read rest in ((point_json <$> records) ++ pts, err)
      | Throw what => ([], Some what)
      end
  end.

Definition query (wall_now_ms : Z) (query_body : json) (o : ObservabilityMetrics) : json :=
  let out := <["points" := JArr []]> (snapshot_fields o) in
  let measurements := measurements_from_query query_body in
  if (length measurements =? 0)%nat then
    JObj (<["error" := JStr "measurement is required"]> out)
  else
    let end_ms := json_int64_value query_body "end_ms"
                    (json_int64_value query_body "end" wall_now_ms) in
    let lookback_ms := json_int64_value query_body "lookback_ms" (10 * 60 * 1000) in
    let start_ms := json_int64_value query_body "start_ms"
                      (json_int64_value query_body "start" (to_int64 (end_ms - lookback_ms))) in
    let downsample_ms := json_int64_value query_body "downsample_ms" 0 in
    let agg := json_string_value query_body "agg" "last" in
    let out := <["start_ms" := JInt start_ms]> (<["end_ms" := JInt end_ms]>
               (<["downsample_ms" := JInt downsample_ms]> (<["agg" := JStr agg]>
               (<["measurements" := JStrs measurements]> out)))) in
    if end_ms <? start_ms then
      JObj (<["error" := JStr "end_ms must be greater than or equal to start_ms"]> out)
    else match engine_ o with
    | None => JObj (<["error" := JStr "observability store is not open"]> out)
    | Some eng =>
        let read m := if 0 <? downsample_ms
                      then engine_downsample eng m start_ms end_ms downsample_ms (parse_agg agg)
                      else engine_range_query eng m start_ms end_ms in
        let '(points, err) := query_points read measurements in
        let out := <["points" := JArr points]> out in
        JObj (match err with Some what => <["error" := JStr what]> out | None => out end)
    end.
End metrics_object.

(** ** Lemmas *)

(** The mode a measurement is recorded in: the prefixes of the names the
    events use. *)
Definition recorded_modes : list (string * SeriesMode) :=
  [("llm.request.latency.avg_ms.action", Avg); ("llm.request.latency.p95_ms.action", P95);
   ("llm.request.queue_wait.avg_ms.action", Avg); ("llm.request.queue_wait.p95_ms.action", P95);
   ("llm.request.ttft.avg_ms.action", Avg); ("llm.request.ttft.p95_ms.action", P95);
   ("llm.request", Sum); ("llm.endpoint.request", Sum); ("llm.queue.reject", Sum)].

Definition mode_of (measurement : string) : SeriesMode :=
  match List.find (λ item, String.prefix item.1 measurement) recorded_modes with
  | Some (_, mode) => mode
  | None => Last
  end.

Definition series_ok (limit : Z) (series : series_map) : Prop :=
  map_Forall (λ name s, ss_mode s = mode_of name ∧
    0 <= ss_count s < 18446744073709551616 ∧ Z.of_nat (length (ss_samples s)) <= limit) series.

(** The values of one measurement, in order. *)
Definition values_of (name : string) (points : list (string * double)) : list double :=
  omap (λ p : string * double, if (p.1 =? name)%string then Some p.2 else None) points.

(** [s'] is [s] with further values of its measurement: one more observation
    counted for each, every value added to the sum of a sum or an average, the
    latest kept as the last, the first [limit] samples kept for a percentile. *)
Definition accumulates (limit : Z) (values : list double) (s s' : SeriesState) : Prop :=
  ss_mode s' = ss_mode s ∧
  ss_count s' = (ss_count s + Z.of_nat (length values)) mod 18446744073709551616 ∧
  ss_sum s' = (if decide (ss_mode s = Sum ∨ ss_mode s = Avg)
               then fold_left d_add values (ss_sum s) else ss_sum s) ∧
  ss_last s' = (if decide (ss_mode s = Last) then List.last values (ss_last s) else ss_last s) ∧
  ss_samples s' = (if decide (ss_mode s = P95)
                   then take (Z.to_nat limit) (ss_samples s ++ values) else ss_samples s).

(** The series of a measurement before its first value. *)
Definition series_before (name : string) (series : series_map) : SeriesState :=
  default (empty_series <| ss_mode := mode_of name |>) (series !! name).

(** The update each [add_*_locked] makes, as a function of the mode. *)
Definition put (limit : Z) (value : double) (s : SeriesState) : SeriesState :=
  let s := match ss_mode s with
           | Sum | Avg => s <| ss_sum := d_add (ss_sum s) value |>
           | Last => s <| ss_last := value |>
           | P95 => if Z.of_nat (length (ss_samples s)) <? limit
                    then s <| ss_samples := ss_samples s ++ [value] |> else s
           | Max => s
           end in
  s <| ss_count := uint64_add (ss_count s) 1 |>.

Definition record (limit : Z) (series : series_map) (p : string * double) : series_map :=
  <[p.1 := put limit p.2 (series_before p.1 series)]> series.

Lemma enter_own_mode mode s : ss_mode s = mode → enter_mode mode s = s.
Proof.
  intros <-. unfold enter_mode. destruct (_ && _); cbn; rewrite decide_True by done; [|done]. by destruct s.
Qed.

(** Under the invariant no series is ever reset: it is entered as it is. *)
Lemma enter_series limit m series :
  series_ok limit series → enter_mode (mode_of m) (series_at m series) = series_before m series.
Proof.
  intros Hok. unfold series_at, series_before. destruct (series !! m) as [s|] eqn:Es; cbn [from_option id].
  - apply enter_own_mode. by destruct (Hok m s Es).
  - unfold enter_mode. cbn. by rewrite decide_True.
Qed.

Lemma series_before_mode limit m series :
  series_ok limit series → ss_mode (series_before m series) = mode_of m.
Proof.
  intros Hok. unfold series_before. destruct (series !! m) as [s|] eqn:Es; [|done]. by destruct (Hok m s Es).
Qed.

Lemma series_before_range limit m series :
  0 <= limit → series_ok limit series →
  0 <= ss_count (series_before m series) < 18446744073709551616 ∧
  Z.of_nat (length (ss_samples (series_before m series))) <= limit.
Proof.
  intros Hl Hok. unfold series_before. destruct (series !! m) as [s|] eqn:Es; [|done].
  by destruct (Hok m s Es) as (_ & ? & ?).
Qed.

(** *** The additions are [record] *)

Ltac add_is_record Hok Hm :=
  unfold record, put; cbn [fst snd]; rewrite (series_before_mode _ _ _ Hok), Hm;
  rewrite <- (enter_series _ _ _ Hok), Hm; reflexivity.

Lemma add_sum_record limit m v series :
  mode_of m = Sum → series_ok limit series → add_sum_locked m v series = record limit series (m, v).
Proof. intros Hm Hok. add_is_record Hok Hm. Qed.

Lemma add_avg_record limit m v series :
  mode_of m = Avg → series_ok limit series → add_avg_locked m v series = record limit series (m, v).
Proof. intros Hm Hok. add_is_record Hok Hm. Qed.

Lemma add_last_record limit m v series :
  mode_of m = Last → series_ok limit series → add_last_locked m v series = record limit series (m, v).
Proof. intros Hm Hok. add_is_record Hok Hm. Qed.

Lemma add_p95_record limit m v series :
  mode_of m = P95 → series_ok limit series → add_p95_locked limit m v series = record limit series (m, v).
Proof. intros Hm Hok. add_is_record Hok Hm. Qed.

Lemma put_count limit v s : ss_count (put limit v s) = uint64_add (ss_count s) 1.
Proof. unfold put. destruct s as [[] sum count mx lst samples]; by repeat case_match. Qed.

Lemma put_fields limit v s :
  ss_mode (put limit v s) = ss_mode s ∧ 0 <= ss_count (put limit v s) < 18446744073709551616 ∧
  (Z.of_nat (length (ss_samples s)) <= limit → Z.of_nat (length (ss_samples (put limit v s))) <= limit).
Proof.
  split; [by unfold put; destruct s as [[] sum count mx lst samples]; repeat case_match|]. split.
  - rewrite put_count. by apply Z.mod_pos_bound.
  - unfold put. destruct s as [[] sum count mx lst samples]; cbn; try done.
    destruct (Z.ltb_spec (Z.of_nat (length samples)) limit); cbn; [|done]. rewrite length_app. simpl. lia.
Qed.

Lemma record_ok limit series p : 0 <= limit → series_ok limit series → series_ok limit (record limit series p).
Proof.
  intros Hl Hok. apply map_Forall_insert_2; [|done].
  destruct (put_fields limit p.2 (series_before p.1 series)) as (Hm & Hc & Hs).
  rewrite Hm, (series_before_mode _ _ _ Hok). split_and!; [done|lia|lia|]. apply Hs.
  by apply series_before_range.
Qed.

Lemma records_ok limit points series :
  0 <= limit → series_ok limit series → series_ok limit (fold_left (record limit) points series).
Proof.
  intros Hl. revert series. induction points as [|p points IH]; intros series Hok; [done|].
  simpl. apply IH. by apply record_ok.
Qed.

(** *** Recording a list of values *)

Lemma last_cons_default {A} (l : list A) x d : List.last (x :: l) d = List.last l x.
Proof. revert x d. induction l as [|y l IH]; intros x d; [done|]. change (List.last (y :: l) d = List.last (y :: l) x). by rewrite !IH. Qed.

Lemma put_accumulates limit v values s s' :
  0 <= limit → Z.of_nat (length (ss_samples s)) <= limit →
  accumulates limit values (put limit v s) s' → accumulates limit (v :: values) s s'.
Proof.
  intros Hl Hlen (Hm & Hc & Hsum & Hlast & Hsam).
  destruct (put_fields limit v s) as (Em & _). rewrite Em in *.
  split_and!; [done| | | |].
  - rewrite Hc, put_count. unfold uint64_add. rewrite Zplus_mod_idemp_l. f_equal. simpl length. lia.
  - rewrite Hsum. unfold put. destruct s as [[] sum count mx lst samples]; cbn; by repeat case_match.
  - rewrite Hlast. rewrite last_cons_default. unfold put. destruct s as [[] sum count mx lst samples]; cbn; by repeat case_match.
  - rewrite Hsam. unfold put. destruct s as [[] sum count mx lst samples]; cbn in *; try done.
    destruct (Z.ltb_spec (Z.of_nat (length samples)) limit); cbn; [by rewrite <- app_assoc|].
    rewrite !take_app_le by lia. done.
Qed.

Lemma accumulates_nil limit s :
  0 <= ss_count s < 18446744073709551616 → Z.of_nat (length (ss_samples s)) <= limit →
  accumulates limit [] s s.
Proof.
  intros Hc Hl. split_and!; [done| | | |].
  - simpl. rewrite Z.add_0_r. symmetry. by apply Z.mod_small.
  - by case_decide.
  - by case_decide.
  - case_decide; [|done]. rewrite app_nil_r, take_ge by lia. done.
Qed.

Lemma records_accumulate limit points series name :
  0 <= limit → series_ok limit series →
  let series' := fold_left (record limit) points series in
  (values_of name points = [] → series' !! name = series !! name) ∧
  (values_of name points ≠ [] → is_Some (series' !! name)) ∧
  accumulates limit (values_of name points) (series_before name series) (series_before name series').
Proof.
  intros Hl. revert series. induction points as [|[m v] points IH]; intros series Hok; cbv zeta.
  { split_and!; [done|done|]. destruct (series_before_range limit name series Hl Hok).
    by apply accumulates_nil. }
  cbn [fold_left]. destruct (IH (record limit series (m, v))) as (Hnone & Hsome & Hacc).
  { by apply record_ok. }
  set (series' := fold_left _ points _) in *. clearbody series'.
  unfold values_of in *. cbn [omap list_omap fst snd]. destruct (String.eqb_spec m name) as [->|Hne].
  - unfold record in Hnone, Hacc. cbn [fst snd] in Hnone, Hacc. rewrite lookup_insert_eq in Hnone.
    split_and!; [done| |].
    + intros _. destruct (omap _ points); [|by apply Hsome]. rewrite Hnone by done. eauto.
    + destruct (series_before_range limit name series Hl Hok). apply put_accumulates; [done..|].
      revert Hacc. unfold series_before at 1. by rewrite lookup_insert_eq.
  - assert (record limit series (m, v) !! name = series !! name) as E by (by apply lookup_insert_ne).
    assert (series_before name (record limit series (m, v)) = series_before name series) as E'
      by (by unfold series_before; rewrite E).
    rewrite E in Hnone. rewrite E' in Hacc. done.
Qed.

Section events.
Context `{TimeSeriesStore}.

(** What the scheduler reports. *)
Inductive observation :=
  | Finished (event : RequestMetricsEvent)
  | Rejected (action : string)
  | QueueSeen (event : QueueMetricsEvent)
  | EndpointSeen (event : EndpointMetricsEvent).

Definition observe (e : observation) (o : ObservabilityMetrics) : ObservabilityMetrics :=
  match e with
  | Finished event => observe_request_finish event o
  | Rejected action => observe_queue_reject action o
  | QueueSeen event => observe_queue_snapshot event o
  | EndpointSeen event => observe_endpoint event o
  end.

(** The table of measurements: what each event means, as named values. *)
Definition duration (stem action : string) (ms : Z) : list (string * double) :=
  if 0 <=? ms
  then [("llm.request." +:+ stem +:+ ".avg_ms.action." +:+ action, d_of_Z ms);
        ("llm.request." +:+ stem +:+ ".p95_ms.action." +:+ action, d_of_Z ms)]
  else [].

Definition measured (e : observation) : list (string * double) :=
  match e with
  | Finished event =>
      let action := sanitize_segment (rme_action event) in
      let endpoint := sanitize_segment (rme_endpoint event) in
      [("llm.request.count.action." +:+ action, one)]
      ++ (if rme_ok event then [("llm.request.success.count.action." +:+ action, one)]
          else ("llm.request.error.count.action." +:+ action +:+ ".code."
                +:+ sanitize_segment (to_string (rme_error_code event)), one)
               :: (if rme_timeout event then [("llm.request.timeout.count.action." +:+ action, one)] else []))
      ++ (if rme_degraded event then [("llm.request.degraded.count.action." +:+ action, one)] else [])
      ++ duration "latency" action (rme_total_latency_ms event)
      ++ duration "queue_wait" action (rme_queue_wait_ms event)
      ++ duration "ttft" action (rme_first_token_latency_ms event)
      ++ (if (endpoint =? "unknown")%string then []
          else [("llm.endpoint.request.count." +:+ endpoint, one);
                ("llm.endpoint.request." +:+
                   (if rme_ok event then "success.count." else "error.count.") +:+ endpoint, one)])
  | Rejected action => [("llm.queue.reject.count.action." +:+ sanitize_segment action, one)]
  | QueueSeen event =>
      [("llm.queue.pending", d_of_Z (qme_pending event)); ("llm.queue.high", d_of_Z (qme_high event));
       ("llm.queue.normal", d_of_Z (qme_normal event));
       ("llm.queue.background", d_of_Z (qme_background event));
       ("llm.queue.max_size", d_of_Z (qme_max_queue_size event))]
  | EndpointSeen event =>
      let endpoint := sanitize_segment (eme_endpoint event) in
      (λ p : string * double, ("llm.endpoint." +:+ p.1 +:+ "." +:+ endpoint, p.2)) <$>
      [("inflight", d_of_Z (eme_inflight event));
       ("available_capacity", d_of_Z (eme_available_capacity event));
       ("avg_latency_ms", eme_avg_latency_ms event);
       ("healthy", if eme_healthy event then one else d_zero);
       ("circuit_state", d_of_Z (eme_circuit_state event));
       ("success.total", d_of_Z (eme_success_count event));
       ("failure.total", d_of_Z (eme_failure_count event));
       ("timeout.total", d_of_Z (eme_timeout_count event));
       ("circuit_open.total", d_of_Z (eme_circuit_open_count event))]
  end.

(** A program on series that records some values. *)
Definition records (limit : Z) (f : series_map → series_map) (points : list (string * double)) : Prop :=
  ∀ series, series_ok limit series → f series = fold_left (record limit) points series.

Lemma records_seq limit f g ps qs :
  0 <= limit → records limit f ps → records limit g qs → records limit (λ s, g (f s)) (ps ++ qs).
Proof.
  intros Hl Hf Hg series Hok. rewrite fold_left_app, <- (Hf series Hok). apply Hg.
  rewrite (Hf series Hok). by apply records_ok.
Qed.

Lemma records_nil limit : records limit (λ s, s) [].
Proof. done. Qed.
Lemma records_sum limit m v : mode_of m = Sum → records limit (add_sum_locked m v) [(m, v)].
Proof. intros Hm series Hok. by apply add_sum_record. Qed.
Lemma records_avg limit m v : mode_of m = Avg → records limit (add_avg_locked m v) [(m, v)].
Proof. intros Hm series Hok. by apply add_avg_record. Qed.
Lemma records_last limit m v : mode_of m = Last → records limit (add_last_locked m v) [(m, v)].
Proof. intros Hm series Hok. by apply add_last_record. Qed.
Lemma records_p95 limit m v : mode_of m = P95 → records limit (add_p95_locked limit m v) [(m, v)].
Proof. intros Hm series Hok. by apply add_p95_record. Qed.

Lemma records_duration limit stem action ms :
  0 <= limit → mode_of ("llm.request." +:+ stem +:+ ".avg_ms.action." +:+ action) = Avg →
  mode_of ("llm.request." +:+ stem +:+ ".p95_ms.action." +:+ action) = P95 →
  records limit (add_duration_locked limit stem action ms) (duration stem action ms).
Proof.
  intros Hl Ha Hp. unfold add_duration_locked, duration. destruct (0 <=? ms); [|apply records_nil].
  eapply (records_seq limit _ _ [_] [_]); [done|by apply records_avg|by apply records_p95].
Qed.

Lemma records_lasts limit points :
  0 <= limit → Forall (λ p, mode_of p.1 = Last) points →
  records limit (fold_left (λ s p, add_last_locked p.1 p.2 s) points) points.
Proof.
  intros Hl. induction points as [|[m v] points IH]; intros Hall; [apply records_nil|].
  apply Forall_cons in Hall as [Hm Hall].
  exact (records_seq limit _ _ [(m, v)] points Hl (records_last _ _ _ Hm) (IH Hall)).
Qed.

Lemma request_finish_records limit event :
  0 <= limit →
  records limit (λ s,
    let action := sanitize_segment (rme_action event) in
    let s := add_outcome_locked action event (add_sum_locked ("llm.request.count.action." +:+ action) one s) in
    let s := if rme_degraded event
             then add_sum_locked ("llm.request.degraded.count.action." +:+ action) one s else s in
    let s := add_duration_locked limit "latency" action (rme_total_latency_ms event) s in
    let s := add_duration_locked limit "queue_wait" action (rme_queue_wait_ms event) s in
    let s := add_duration_locked limit "ttft" action (rme_first_token_latency_ms event) s in
    add_endpoint_outcome_locked (sanitize_segment (rme_endpoint event)) event s)
    (measured (Finished event)).
Proof.
  intros Hl. cbn [measured]. cbv zeta. rewrite !app_assoc.
  eapply (records_seq limit _ (λ s, add_endpoint_outcome_locked _ event s)); [done| |].
  - do 3 (eapply (records_seq limit _ (add_duration_locked limit _ _ _)); [done| |by apply records_duration]).
    eapply (records_seq limit _ (λ s, if rme_degraded event then _ s else s)); [done| |].
    + eapply (records_seq limit _ (add_outcome_locked _ event)); [done|by apply records_sum|].
      unfold add_outcome_locked. destruct (rme_ok event); [by apply records_sum|].
      destruct (rme_timeout event); [|by apply records_sum].
      eapply (records_seq limit _ _ [_] [_]); [done|by apply records_sum|by apply records_sum].
    + destruct (rme_degraded event); [by apply records_sum|apply records_nil].
  - unfold add_endpoint_outcome_locked. destruct (_ =? _)%string; [apply records_nil|].
    eapply (records_seq limit _ _ [_] [_]); [done|by apply records_sum|].
    destruct (rme_ok event); by apply records_sum.
Qed.

Lemma observe_records e o :
  enabled_ o = true → 0 <= max_samples_per_series_ o →
  series_ok (max_samples_per_series_ o) (series_ o) →
  series_ (observe e o) = fold_left (record (max_samples_per_series_ o)) (measured e) (series_ o).
Proof.
  intros He Hl Hok. destruct e as [event|action|event|event]; cbn [observe];
    unfold observe_request_finish, observe_queue_reject, observe_queue_snapshot, observe_endpoint;
    rewrite He; cbn [negb]; cbv zeta; cbn [series_ update_field].
  - exact (request_finish_records _ event Hl _ Hok).
  - by apply records_sum.
  - refine (records_lasts _ (measured (QueueSeen event)) Hl _ _ Hok). by repeat constructor.
  - refine (records_lasts _ (measured (EndpointSeen event)) Hl _ _ Hok). by repeat constructor.
Qed.

Lemma observe_frame e o :
  max_samples_per_series_ (observe e o) = max_samples_per_series_ o ∧ enabled_ (observe e o) = enabled_ o.
Proof.
  destruct e; cbn [observe];
    unfold observe_request_finish, observe_queue_reject, observe_queue_snapshot, observe_endpoint;
    by destruct (negb (enabled_ o)).
Qed.

Lemma observations_record events o :
  enabled_ o = true → 0 <= max_samples_per_series_ o →
  series_ok (max_samples_per_series_ o) (series_ o) →
  series_ (fold_left (λ o e, observe e o) events o) =
  fold_left (record (max_samples_per_series_ o)) (events ≫= measured) (series_ o).
Proof.
  revert o. induction events as [|e events IH]; intros o He Hl Hok; [done|].
  destruct (observe_frame e o) as [Em Ee]. cbn [fold_left]. rewrite bind_cons, fold_left_app.
  pose proof (observe_records e o He Hl Hok) as Er.
  rewrite IH, Em, Er; [done|by rewrite Ee|by rewrite Em|]. rewrite Em, Er. by apply records_ok.
Qed.

(** C36.  Between two flushes no observation is lost or counted twice: after
    any events, in any order, the series of every measurement holds exactly
    the values these events mean for it ([measured]) on top of what it held.
    A measurement with no value is untouched.  Otherwise its series is there;
    its count has grown by the number of values (modulo 2^64), the sum of a sum
    or an average has had every value added to it in order, a last value is the
    latest, and a percentile keeps the samples in order up to the configured
    limit.  Every measurement stays in the one mode its name stands for, so the
    reset of a series whose mode changes never happens. *)
Theorem observations_accumulate (events : list observation) (o : ObservabilityMetrics) (name : string) :
  enabled_ o = true → 0 <= max_samples_per_series_ o →
  series_ok (max_samples_per_series_ o) (series_ o) →
  let limit := max_samples_per_series_ o in
  let o' := fold_left (λ o e, observe e o) events o in
  let values := values_of name (events ≫= measured) in
  series_ok limit (series_ o') ∧
  (values = [] → series_ o' !! name = series_ o !! name) ∧
  (values ≠ [] → is_Some (series_ o' !! name)) ∧
  accumulates limit values (series_before name (series_ o)) (series_before name (series_ o')).
Proof.
  intros He Hl Hok. cbv zeta. rewrite (observations_record events o He Hl Hok).
  split; [by apply records_ok|]. by apply records_accumulate.
Qed.
End events.

(** ** Witnesses *)

(** A store that keeps nothing. *)
Definition null_store : TimeSeriesStore := {|
  engine := unit;
  engine_open _ _ := Ok tt;
  engine_write e _ := (e, (true, "OK"));
  engine_range_query _ _ _ _ := Ok [];
  engine_downsample _ _ _ _ _ _ := Ok [];
|}.

Definition switched_on : @ObservabilityMetrics null_store :=
  (configure (H := null_store) 0 0 (default_observability_config <| oc_enabled := true |>)
     (new_observability (H := null_store))).1.1.

Definition two_chats : list observation :=
  let chat := MkRequestMetricsEvent "chat" "gpu-0" true false false 0 120 5 30 in
  [Finished chat; Rejected "qa"; Finished chat].

Lemma observations_accumulate_witness :
  let o' := fold_left (λ o e, observe e o) two_chats switched_on in
  series_ok 4096 (series_ o') ∧
  is_Some (series_ o' !! "llm.queue.reject.count.action.qa") ∧
  (ss_sum <$> series_ o' !! "llm.request.latency.avg_ms.action.chat") = Some (d_of_Z 240) ∧
  (ss_count <$> series_ o' !! "llm.request.count.action.chat") = Some 2 ∧
  (length ∘ ss_samples <$> series_ o' !! "llm.request.latency.p95_ms.action.chat") = Some 2%nat.
Proof.
  cbv zeta. assert (max_samples_per_series_ switched_on = 4096) as E by (vm_compute; reflexivity).
  destruct (observations_accumulate two_chats switched_on "llm.queue.reject.count.action.qa")
    as (Hok & _ & Hin & _); [vm_compute; reflexivity|by rewrite E|apply map_Forall_empty|].
  rewrite E in Hok. split_and!; [exact Hok|apply Hin; vm_compute; discriminate|vm_compute; reflexivity..].
Defined.
