(* ===== verification/Metrics.v ===== *)
(** * The scheduler's own request metrics

    [class MetricsCollector] of [node/vllm-client/src/main.cpp]: request
    counters, a one-minute window of arrival times and three bounded windows
    of latency samples with their average and 95th percentile. *)
From S2P Require Import Prelude StdString Doubles Json.

Definition kMaxSamples : nat := 1024.

Record MetricsCollector := MkMetricsCollector {
  total_requests_ : Z;
  success_requests_ : Z;
  failed_requests_ : Z;
  timeout_requests_ : Z;
  degraded_requests_ : Z;
  queue_reject_count_ : Z;
  request_times_ : list Z;
  latencies_ : list Z;
  queue_waits_ : list Z;
  first_token_latencies_ : list Z;
}.
#[export] Instance eta_mc : Eta MetricsCollector := fun m =>
  MkMetricsCollector (total_requests_ m) (success_requests_ m) (failed_requests_ m)
    (timeout_requests_ m) (degraded_requests_ m) (queue_reject_count_ m)
    (request_times_ m) (latencies_ m) (queue_waits_ m) (first_token_latencies_ m).

Definition new_metrics : MetricsCollector := MkMetricsCollector 0 0 0 0 0 0 [] [] [] [].

(** ** Operations *)

(** [while (values.size() > kMaxSamples) values.pop_front();] *)
Fixpoint pop_to_limit (values : list Z) : list Z :=
  match values with
  | [] => []
  | _ :: rest => if (kMaxSamples <? length values)%nat then pop_to_limit rest else values
  end.

Definition push_sample_locked (values : list Z) (value : Z) : list Z :=
  if value <? 0 then values else pop_to_limit (values ++ [value]).

Fixpoint trim_times_locked (times : list Z) (current_ms : Z) : list Z :=
  match times with
  | [] => []
  | t :: rest => if 60000 <? current_ms - t then trim_times_locked rest current_ms else times
  end.

Definition on_request_accepted (time_ms : Z) (m : MetricsCollector) : MetricsCollector :=
  m <| total_requests_ := uint64_add (total_requests_ m) 1 |>
    <| request_times_ := trim_times_locked (request_times_ m ++ [time_ms]) time_ms |>.

Definition on_queue_reject (m : MetricsCollector) : MetricsCollector :=
  m <| queue_reject_count_ := uint64_add (queue_reject_count_ m) 1 |>
    <| failed_requests_ := uint64_add (failed_requests_ m) 1 |>.

Definition on_request_finish (ok timeout degraded : bool)
    (total_latency_ms queue_wait_ms first_token_latency_ms : Z) (m : MetricsCollector)
    : MetricsCollector :=
  let m :=
    if ok then m <| success_requests_ := uint64_add (success_requests_ m) 1 |>
    else if timeout then
      m <| timeout_requests_ := uint64_add (timeout_requests_ m) 1 |>
        <| failed_requests_ := uint64_add (failed_requests_ m) 1 |>
    else m <| failed_requests_ := uint64_add (failed_requests_ m) 1 |> in
  let m := if degraded then m <| degraded_requests_ := uint64_add (degraded_requests_ m) 1 |> else m in
  let m := m <| latencies_ := push_sample_locked (latencies_ m) total_latency_ms |>
             <| queue_waits_ := push_sample_locked (queue_waits_ m) queue_wait_ms |> in
  if 0 <=? first_token_latency_ms
  then m <| first_token_latencies_ := push_sample_locked (first_token_latencies_ m) first_token_latency_ms |>
  else m.

Definition sum_samples (values : list Z) : Z := fold_left Z.add values 0.

(** [sum / static_cast<int64_t>(values.size())]: C division truncates. *)
Definition average_locked (values : list Z) : Z :=
  match values with
  | [] => 0
  | _ => Z.quot (sum_samples values) (Z.of_nat (length values))
  end.

Definition percentile_locked (values : list Z) (pct : double) : Z :=
  match values with
  | [] => 0
  | _ =>
      let sorted := merge_sort Z.le values in
      default 0 (sorted !! Z.to_nat (percentile_index pct (Z.of_nat (length sorted))))
  end.

(** Arrivals of the last minute, for [qps_1m]. *)
Definition recent_count (current_ms : Z) (times : list Z) : Z :=
  Z.of_nat (length (List.filter (λ t, current_ms - t <=? 60000) times)).

Definition snapshot (current_ms queue_size max_queue_size : Z) (m : MetricsCollector) : json :=
  mk_obj [
    ("total_requests", JInt (total_requests_ m));
    ("success_requests", JInt (success_requests_ m));
    ("failed_requests", JInt (failed_requests_ m));
    ("timeout_requests", JInt (timeout_requests_ m));
    ("degraded_requests", JInt (degraded_requests_ m));
    ("queue_reject_count", JInt (queue_reject_count_ m));
    ("qps_1m", JFloat (d_div (d_of_Z (recent_count current_ms (request_times_ m))) (d_of_Z 60)));
    ("queue_size", JInt queue_size);
    ("max_queue_size", JInt max_queue_size);
    ("avg_latency_ms", JInt (average_locked (latencies_ m)));
    ("p95_latency_ms", JInt (percentile_locked (latencies_ m) p95));
    ("queue_wait_avg_ms", JInt (average_locked (queue_waits_ m)));
    ("queue_wait_p95_ms", JInt (percentile_locked (queue_waits_ m) p95));
    ("first_token_avg_ms", JInt (average_locked (first_token_latencies_ m)));
    ("first_token_p95_ms", JInt (percentile_locked (first_token_latencies_ m) p95))].

(** ** Well-formedness of the sample windows *)

Definition window_ok (values : list Z) : Prop :=
  (length values <= kMaxSamples)%nat ∧ Forall (λ v, 0 <= v) values.

Definition metrics_ok (m : MetricsCollector) : Prop :=
  window_ok (latencies_ m) ∧ window_ok (queue_waits_ m) ∧ window_ok (first_token_latencies_ m).

Lemma pop_to_limit_bound values : (length (pop_to_limit values) <= kMaxSamples)%nat.
Proof.
  induction values as [|v values IH]; simpl; [unfold kMaxSamples; lia|].
  destruct (Nat.ltb_spec kMaxSamples (S (length values))); [done|]. simpl. lia.
Qed.

(** The window drops from the front only: the newest samples are kept. *)
Lemma pop_to_limit_drop values :
  pop_to_limit values = drop (length values - kMaxSamples) values.
Proof.
  induction values as [|v values IH]; [done|].
  cbn [pop_to_limit length]. destruct (Nat.ltb_spec kMaxSamples (S (length values))) as [Hlt|Hge].
  - rewrite IH. replace (S (length values) - kMaxSamples)%nat
      with (S (length values - kMaxSamples)) by lia. done.
  - replace (S (length values) - kMaxSamples)%nat with 0%nat by lia. done.
Qed.

Lemma push_sample_ok values value : window_ok values → window_ok (push_sample_locked values value).
Proof.
  intros [Hlen Hpos]. unfold push_sample_locked.
  destruct (Z.ltb_spec value 0) as [Hneg|Hnn]; [done|]. split; [apply pop_to_limit_bound|].
  rewrite pop_to_limit_drop. apply Forall_drop, Forall_app. split; [done|].
  apply Forall_singleton. lia.
Qed.
#[export] Hint Resolve push_sample_ok : vroute.

(** The three mutators of the collector. *)
Inductive metrics_op :=
  | OpAccepted (time_ms : Z)
  | OpReject
  | OpFinish (ok timeout degraded : bool) (total wait first : Z).

Definition run_op (m : MetricsCollector) (op : metrics_op) : MetricsCollector :=
  match op with
  | OpAccepted t => on_request_accepted t m
  | OpReject => on_queue_reject m
  | OpFinish ok timeout degraded total wait first =>
      on_request_finish ok timeout degraded total wait first m
  end.

Lemma run_op_ok m op : metrics_ok m → metrics_ok (run_op m op).
Proof.
  intros (Hl & Hq & Hf). destruct op; unfold metrics_ok; simpl; auto.
  unfold on_request_finish. split_ifs; simpl; eauto 6 with vroute.
Qed.

Lemma run_ops_ok ops m : metrics_ok m → metrics_ok (fold_left run_op ops m).
Proof. revert m. induction ops as [|op ops IH]; simpl; eauto using run_op_ok. Qed.

Lemma new_metrics_ok : metrics_ok new_metrics.
Proof. repeat split; simpl; unfold kMaxSamples; try lia; constructor. Qed.

(** ** Percentile and average *)

Lemma sorted_le_index (l : list Z) i j x y :
  StronglySorted Z.le l → l !! i = Some x → l !! j = Some y → (i <= j)%nat → x <= y.
Proof.
  intros Hs. revert i j. induction Hs as [|a l Hs IH Hall]; intros i j; [done|].
  intros Hi Hj Hij. destruct i as [|i], j as [|j]; simpl in *; simplify_eq; try lia.
  - rewrite Forall_forall in Hall. apply Hall. apply list_elem_of_lookup. eauto.
  - eapply IH; [done|done|lia].
Qed.

Definition count_if (f : Z → bool) (l : list Z) : Z := Z.of_nat (length (List.filter f l)).

Lemma count_if_perm f l l' : l ≡ₚ l' → count_if f l = count_if f l'.
Proof.
  unfold count_if. induction 1; simpl; try (split_ifs; simpl; lia); lia.
Qed.

Lemma count_if_app f l l' : count_if f (l ++ l') = count_if f l + count_if f l'.
Proof. unfold count_if. rewrite List.filter_app, length_app. lia. Qed.

Lemma count_if_all f l : Forall (λ x, f x = true) l → count_if f l = Z.of_nat (length l).
Proof.
  unfold count_if. induction 1 as [|x l Hx Hl IH]; simpl; [done|]. rewrite Hx. simpl. lia.
Qed.

Lemma count_if_nonneg f l : 0 <= count_if f l.
Proof. unfold count_if. lia. Qed.

(** In a sorted list the element at rank [i] has at least [i + 1] elements not
    above it and [n - i] not below it. *)
Lemma sorted_rank_counts (l : list Z) i x :
  StronglySorted Z.le l → l !! i = Some x →
  Z.of_nat i + 1 <= count_if (λ y, y <=? x) l ∧
  Z.of_nat (length l) - Z.of_nat i <= count_if (λ y, x <=? y) l.
Proof.
  intros Hs Hi. pose proof (lookup_lt_Some _ _ _ Hi) as Hlt.
  split.
  - rewrite <- (take_drop (S i) l) at 1. rewrite count_if_app, (count_if_all _ (take (S i) l)).
    + rewrite length_take. pose proof (count_if_nonneg (λ y, y <=? x) (drop (S i) l)). lia.
    + apply Forall_lookup. intros k y Hk. apply Z.leb_le.
      apply lookup_take_Some in Hk as [Hk Hki].
      eapply sorted_le_index; [done|exact Hk|exact Hi|lia].
  - replace (count_if (λ y, x <=? y) l) with (count_if (λ y, x <=? y) (take i l ++ drop i l))
      by (by rewrite take_drop).
    rewrite count_if_app, (count_if_all _ (drop i l)).
    + rewrite length_drop. pose proof (count_if_nonneg (λ y, x <=? y) (take i l)). lia.
    + apply Forall_lookup. intros k y Hk. apply Z.leb_le.
      rewrite lookup_drop in Hk. eapply sorted_le_index; [done|exact Hi|exact Hk|lia].
Qed.

Lemma percentile_lookup values :
  values ≠ [] → (length values <= kMaxSamples)%nat →
  merge_sort Z.le values !! Z.to_nat (95 * (Z.of_nat (length values) - 1) / 100)
    = Some (percentile_locked values p95).
Proof.
  intros Hne Hlen. unfold kMaxSamples in Hlen.
  pose proof (Permutation_length (merge_sort_Permutation Z.le values)) as Hp.
  assert (1 <= Z.of_nat (length values) <= 4096) as Hr by (destruct values; simpl in *; [done|lia]).
  pose proof (p95_index_in_range _ Hr) as Hin.
  unfold percentile_locked. destruct values as [|v values']; [done|].
  set (values := v :: values') in *. cbv zeta. rewrite Hp, p95_index_exact by done.
  rewrite p95_index_exact in Hin by done.
  destruct (merge_sort Z.le values !! Z.to_nat (95 * (Z.of_nat (length values) - 1) / 100)) eqn:E; [done|].
  apply lookup_ge_None in E. lia.
Qed.

Lemma sum_samples_cons v values : sum_samples (v :: values) = v + sum_samples values.
Proof.
  unfold sum_samples. simpl.
  assert (∀ l a, fold_left Z.add l a = a + fold_left Z.add l 0) as Hacc.
  { induction l as [|x l IH]; intros a; simpl; [lia|]. rewrite (IH (a + x)), (IH (0 + x)). lia. }
  rewrite Hacc. lia.
Qed.

Lemma sum_samples_bounds lo hi values :
  Forall (λ v, lo <= v <= hi) values →
  lo * Z.of_nat (length values) <= sum_samples values <= hi * Z.of_nat (length values).
Proof.
  induction 1 as [|v values Hv Hvs IH].
  - unfold sum_samples. simpl. lia.
  - rewrite sum_samples_cons. cbn [length]. lia.
Qed.

(** With arrival times in order, dropping expired times from the front is
    keeping exactly those of the last minute. *)
Lemma trim_times_filter times current_ms :
  StronglySorted Z.le times →
  trim_times_locked times current_ms = List.filter (λ t, current_ms - t <=? 60000) times.
Proof.
  induction 1 as [|t times Hs IH Hall]; [done|]. simpl.
  destruct (Z.ltb_spec 60000 (current_ms - t)), (Z.leb_spec (current_ms - t) 60000); try lia.
  - exact IH.
  - f_equal. symmetry. clear IH Hs. induction Hall as [|u times Hu Hall IH']; [done|].
    simpl. destruct (Z.leb_spec (current_ms - u) 60000); [|lia]. by f_equal.
Qed.

(** ** Accounting *)

Definition count_ops (f : metrics_op → bool) (ops : list metrics_op) : Z :=
  Z.of_nat (length (List.filter f ops)).
Definition is_accept (op : metrics_op) : bool := match op with OpAccepted _ => true | _ => false end.
Definition is_reject (op : metrics_op) : bool := match op with OpReject => true | _ => false end.
Definition is_finish (op : metrics_op) : bool := match op with OpFinish _ _ _ _ _ _ => true | _ => false end.
Definition is_ok_finish (op : metrics_op) : bool :=
  match op with OpFinish true _ _ _ _ _ => true | _ => false end.

(** The counters after a history of operations on a fresh collector. *)
Definition counted (m : MetricsCollector) (ops : list metrics_op) : Prop :=
  total_requests_ m = uint64_add 0 (count_ops is_accept ops) ∧
  queue_reject_count_ m = uint64_add 0 (count_ops is_reject ops) ∧
  success_requests_ m = uint64_add 0 (count_ops is_ok_finish ops) ∧
  failed_requests_ m = uint64_add 0
    (count_ops is_reject ops + count_ops is_finish ops - count_ops is_ok_finish ops).

Lemma uint64_add_assoc a b c : uint64_add (uint64_add a b) c = uint64_add a (b + c).
Proof. unfold uint64_add. rewrite Zplus_mod_idemp_l. f_equal. lia. Qed.

Lemma count_ops_snoc f ops op :
  count_ops f (ops ++ [op]) = count_ops f ops + (if f op then 1 else 0).
Proof. unfold count_ops. rewrite List.filter_app, length_app. simpl. destruct (f op); simpl; lia. Qed.

Lemma counted_snoc m ops op : counted m ops → counted (run_op m op) (ops ++ [op]).
Proof.
  intros (Ht & Hr & Hs & Hf). unfold counted. rewrite !count_ops_snoc.
  destruct op as [t| |[] [] degraded total wait first]; simpl;
    unfold on_request_finish; split_ifs; simpl;
    rewrite ?Ht, ?Hr, ?Hs, ?Hf, ?uint64_add_assoc; repeat split; f_equal; lia.
Qed.

Lemma counted_run ops : counted (fold_left run_op ops new_metrics) ops.
Proof.
  induction ops as [|op ops IH] using rev_ind; [done|].
  rewrite fold_left_app. by apply counted_snoc.
Qed.

(** ** Properties *)

(** Whatever sequence of arrivals, rejections and completions a
    collector has seen, each of its three sample windows holds at most 1024
    samples and no negative one. *)
Theorem sample_windows_bounded ops : metrics_ok (fold_left run_op ops new_metrics).
Proof. apply run_ops_ok, new_metrics_ok. Qed.

(** The counters account for the whole history: accepted,
    rejected and successful requests are counted once each, and the failure
    counter is the rejections plus the unsuccessful completions (all modulo
    the width of [uint64_t]). *)
Theorem counters_account_for_history ops :
  counted (fold_left run_op ops new_metrics) ops.
Proof. apply counted_run. Qed.

(** The reported 95th percentile of a window is one of its samples;
    at least [95 * (n - 1) / 100 + 1] samples are not above it and at least
    [n - 95 * (n - 1) / 100] are not below it. *)
Theorem percentile_locked_rank values :
  values ≠ [] → window_ok values →
  let n := Z.of_nat (length values) in
  let p := percentile_locked values p95 in
  p ∈ values ∧
  95 * (n - 1) / 100 + 1 <= count_if (λ v, v <=? p) values ∧
  n - 95 * (n - 1) / 100 <= count_if (λ v, p <=? v) values.
Proof.
  intros Hne [Hlen _] n p.
  pose proof (percentile_lookup values Hne Hlen) as Hl. fold n p in Hl.
  pose proof (merge_sort_Permutation Z.le values) as Hperm.
  assert (0 <= 95 * (n - 1) / 100) as Hrank.
  { apply Z.div_pos; [|lia]. destruct values; simpl in *; [done|lia]. }
  destruct (sorted_rank_counts _ _ _ (StronglySorted_merge_sort Z.le values) Hl) as [Hle Hge].
  rewrite (count_if_perm _ _ _ Hperm) in Hle. rewrite (count_if_perm _ _ _ Hperm) in Hge.
  rewrite (Permutation_length Hperm) in Hge.
  split; [rewrite <- Hperm; apply list_elem_of_lookup; eauto|].
  subst n. lia.
Qed.

Lemma percentile_locked_rank_witness :
  let values := [30; 10; 20; 50; 40] in
  percentile_locked values p95 ∈ values ∧
  4 <= count_if (λ v, v <=? percentile_locked values p95) values ∧
  2 <= count_if (λ v, percentile_locked values p95 <=? v) values.
Proof.
  apply (percentile_locked_rank [30; 10; 20; 50; 40]); [done|].
  split; [simpl; unfold kMaxSamples; lia|]. repeat constructor; lia.
Defined.

(** The reported average of a non-empty window lies between its
    smallest and its largest sample. *)
Theorem average_locked_between lo hi values :
  values ≠ [] → 0 <= lo → Forall (λ v, lo <= v <= hi) values →
  lo <= average_locked values <= hi.
Proof.
  intros Hne Hlo Hall. pose proof (sum_samples_bounds lo hi values Hall) as Hsum.
  destruct values as [|v values]; [done|]. unfold average_locked.
  set (n := Z.of_nat (length (v :: values))) in *.
  assert (0 < n) by (subst n; simpl; lia).
  rewrite Z.quot_div_nonneg by nia.
  split; [apply Z.div_le_lower_bound; lia|].
  apply Z.lt_succ_r, Z.div_lt_upper_bound; nia.
Qed.

Lemma average_locked_between_witness : 10 <= average_locked [10; 25; 40] <= 40.
Proof.
  apply (average_locked_between 10 40); [done|lia|]. repeat constructor; lia.
Defined.
