(* ===== verification/Types.v ===== *)
(** * Data types of the scheduler

    The structs and enums of [node/vllm-client/src/main.cpp] that its
    components pass around.  Member names keep the source's with a prefix per
    struct ([req_], [ep_], [mp_], [rr_], [opt_]). *)
From S2P Require Import Prelude StdString Doubles Json Observability.

(** ** Status enums *)

Inductive TaskStatus :=
  TaskCreated | TaskStarting | TaskReady | TaskRunning | TaskStopping | TaskStopped | TaskFailed.
#[export] Instance TaskStatus_eq_dec : EqDecision TaskStatus.
Proof. solve_decision. Defined.

Definition status_to_string (status : TaskStatus) : string :=
  match status with
  | TaskCreated => "created"
  | TaskStarting => "starting"
  | TaskReady => "ready"
  | TaskRunning => "running"
  | TaskStopping => "stopping"
  | TaskStopped => "stopped"
  | TaskFailed => "failed"
  end.

Inductive CircuitState := Closed | Open | HalfOpen.
#[export] Instance CircuitState_eq_dec : EqDecision CircuitState.
Proof. solve_decision. Defined.

Definition circuit_to_string (state : CircuitState) : string :=
  match state with
  | Closed => "closed"
  | Open => "open"
  | HalfOpen => "half_open"
  end.

Definition circuit_to_metric_value (state : CircuitState) : Z :=
  match state with
  | Closed => 0
  | HalfOpen => 1
  | Open => 2
  end.

Inductive RequestStatus := Pending | Running | Success | Failed | Timeout | Cancelled.
#[export] Instance RequestStatus_eq_dec : EqDecision RequestStatus.
Proof. solve_decision. Defined.

Definition request_status_to_string (status : RequestStatus) : string :=
  match status with
  | Pending => "pending"
  | Running => "running"
  | Success => "success"
  | Failed => "failed"
  | Timeout => "timeout"
  | Cancelled => "cancelled"
  end.

(** ** Requests *)

Record InferenceRequest := MkInferenceRequest {
  req_task_id : Z;
  req_request_id : string;
  req_work_id : string;
  req_output_url : string;
  req_object : string;
  req_action : string;
  req_profile_name : string;
  req_prompt : string;
  req_system_prompt : string;
  req_response_format : string;
  req_session_default_action : string;
  req_logical_model : string;
  req_served_model : string;
  req_endpoint_name : string;
  req_fallback_chain : list string;
  req_priority : Z;
  req_timeout_ms : Z;
  req_deadline_ms : Z;
  req_max_retries : Z;
  req_max_tokens : Z;
  req_retry_count : Z;
  req_created_ms : Z;
  req_started_ms : Z;
  req_finished_ms : Z;
  req_deadline_at_ms : Z;
  req_queue_wait_ms : Z;
  req_first_token_latency_ms : Z;
  req_total_latency_ms : Z;
  req_allow_degrade : bool;
  req_degraded : bool;
  req_enoutput : bool;
  req_enstream : bool;
  req_degrade_reason : string;
}.
#[export] Instance eta_req : Eta InferenceRequest := fun r =>
  MkInferenceRequest (req_task_id r) (req_request_id r) (req_work_id r) (req_output_url r)
    (req_object r) (req_action r) (req_profile_name r) (req_prompt r) (req_system_prompt r)
    (req_response_format r) (req_session_default_action r) (req_logical_model r)
    (req_served_model r) (req_endpoint_name r) (req_fallback_chain r) (req_priority r)
    (req_timeout_ms r) (req_deadline_ms r) (req_max_retries r) (req_max_tokens r)
    (req_retry_count r) (req_created_ms r) (req_started_ms r) (req_finished_ms r)
    (req_deadline_at_ms r) (req_queue_wait_ms r) (req_first_token_latency_ms r)
    (req_total_latency_ms r) (req_allow_degrade r) (req_degraded r) (req_enoutput r)
    (req_enstream r) (req_degrade_reason r).

(** The member initializers of the struct. *)
Definition default_request : InferenceRequest :=
  MkInferenceRequest 0 "" "" "" "" "" "" "" "" "llm.utf-8.stream" "chat" "" "" "" []
    5 30000 70000 0 1024 0 0 0 0 0 0 (-1) (-1) true false true true "".

Record RequestOptions := MkRequestOptions {
  opt_response_format : string;
  opt_system_prompt : string;
  opt_default_action : string;
  opt_enoutput : bool;
  opt_enstream : bool;
}.

Record RequestRecord := MkRequestRecord {
  rr_task_id : Z;
  rr_request_id : string;
  rr_work_id : string;
  rr_action : string;
  rr_profile_name : string;
  rr_logical_model : string;
  rr_served_model : string;
  rr_endpoint_name : string;
  rr_status : RequestStatus;
  rr_priority : Z;
  rr_retry_count : Z;
  rr_degraded : bool;
  rr_error_message : string;
  rr_created_ms : Z;
  rr_started_ms : Z;
  rr_finished_ms : Z;
  rr_queue_wait_ms : Z;
  rr_first_token_latency_ms : Z;
  rr_total_latency_ms : Z;
}.

(** ** Endpoints and profiles *)

Record VllmEndpoint := MkVllmEndpoint {
  ep_name : string;
  ep_base_url : string;
  ep_served_model : string;
  ep_role : string;
  ep_health_path : string;
  ep_api_key : string;
  ep_logical_models : list string;
  ep_weight : Z;
  ep_max_context_len : Z;
  ep_max_concurrency : Z;
  ep_healthy : bool;
  ep_circuit_state : CircuitState;
  ep_inflight : Z;
  ep_consecutive_failures : Z;
  ep_consecutive_successes : Z;
  ep_half_open_inflight : Z;
  ep_circuit_open_until_ms : Z;
  ep_last_health_check_ms : Z;
  ep_last_latency_ms : Z;
  ep_avg_latency_ms : double;
  ep_success_count : Z;
  ep_failure_count : Z;
  ep_timeout_count : Z;
  ep_circuit_open_count : Z;
}.
#[export] Instance eta_ep : Eta VllmEndpoint := fun e =>
  MkVllmEndpoint (ep_name e) (ep_base_url e) (ep_served_model e) (ep_role e) (ep_health_path e)
    (ep_api_key e) (ep_logical_models e) (ep_weight e) (ep_max_context_len e)
    (ep_max_concurrency e) (ep_healthy e) (ep_circuit_state e) (ep_inflight e)
    (ep_consecutive_failures e) (ep_consecutive_successes e) (ep_half_open_inflight e)
    (ep_circuit_open_until_ms e) (ep_last_health_check_ms e) (ep_last_latency_ms e)
    (ep_avg_latency_ms e) (ep_success_count e) (ep_failure_count e) (ep_timeout_count e)
    (ep_circuit_open_count e).

(** The member initializers of the struct. *)
Definition default_endpoint : VllmEndpoint :=
  MkVllmEndpoint "" "" "" "primary" "/health" "" [] 100 0 1 true Closed 0 0 0 0 0 0 0 d_zero 0 0 0 0.

Record ModelProfile := MkModelProfile {
  mp_name : string;
  mp_actions : list string;
  mp_primary_model : string;
  mp_fallback_models : list string;
  mp_max_context_len : Z;
  mp_stream : bool;
  mp_tool_calling : bool;
  mp_default_max_tokens : Z;
  mp_default_timeout_ms : Z;
  mp_default_deadline_ms : Z;
  mp_default_priority : Z;
  mp_allow_model_fallback : bool;
}.
#[export] Instance eta_mp : Eta ModelProfile := fun p =>
  MkModelProfile (mp_name p) (mp_actions p) (mp_primary_model p) (mp_fallback_models p)
    (mp_max_context_len p) (mp_stream p) (mp_tool_calling p) (mp_default_max_tokens p)
    (mp_default_timeout_ms p) (mp_default_deadline_ms p) (mp_default_priority p)
    (mp_allow_model_fallback p).

Definition endpoint_metrics_event (ep : VllmEndpoint) : EndpointMetricsEvent :=
  MkEndpointMetricsEvent (ep_name ep) (ep_inflight ep)
    (Z.max 0 (ep_max_concurrency ep - ep_inflight ep)) (ep_avg_latency_ms ep) (ep_healthy ep)
    (circuit_to_metric_value (ep_circuit_state ep)) (ep_success_count ep) (ep_failure_count ep)
    (ep_timeout_count ep) (ep_circuit_open_count ep).

(** ** The observability section of a configuration *)

Definition observability_config_from_json (config_body : json) : ObservabilityConfig :=
  let config := default_observability_config in
  let '(config, source) :=
    match json_get config_body "observability" with
    | Some (JObj m) => (config, Some (JObj m))
    | Some (JBool b) => (config <| oc_enabled := b |>, None)
    | Some (JInt z) => (config <| oc_enabled := negb (to_int z =? 0) |>, None)
    | Some (JStr s) => (config <| oc_enabled := parse_bool_string s (oc_enabled config) |>, None)
    | _ => (config, None)
    end in
  let config :=
    match source with
    | None => config
    | Some src =>
        config
          <| oc_enabled := json_bool_value src "enabled" (oc_enabled config) |>
          <| oc_db_dir := json_string_value src "db_dir" (oc_db_dir config) |>
          <| oc_flush_interval_ms :=
               Z.max 100 (json_int_value src "flush_interval_ms" (oc_flush_interval_ms config)) |>
          <| oc_sync_wal := json_bool_value src "sync_wal" (oc_sync_wal config) |>
          <| oc_memtable_limit_bytes :=
               Z.max (1024 * 1024)
                 (json_int_value src "memtable_limit_bytes" (to_int (oc_memtable_limit_bytes config))) |>
          <| oc_block_cache_bytes :=
               Z.max 1024
                 (json_int_value src "block_cache_bytes" (to_int (oc_block_cache_bytes config))) |>
          <| oc_max_samples_per_series :=
               Z.max 1
                 (json_int_value src "max_samples_per_series"
                    (to_int (oc_max_samples_per_series config))) |>
    end in
  config <| oc_enabled := json_bool_value config_body "observability_enabled" (oc_enabled config) |>.
