(* ===== verification/Endpoint.v ===== *)
(** * Endpoint routing, health and circuit breaking

    The endpoint part of [class vllm_task] ([node/vllm-client/src/main.cpp]):
    which endpoints may serve a request, how one is selected and charged, how
    a result or a health check changes its health and its circuit, and how a
    configuration reload replaces the endpoint objects.

    Endpoint objects are shared: a worker keeps a [shared_ptr] while a call is
    running, the configuration keeps another, and a process-wide table keeps
    weak references.  They live in a heap of endpoints and a [shared_ptr] is a
    location of it. *)
From S2P Require Import Prelude StdString Doubles Json Observability Types.

Abbreviation loc := nat.
Abbreviation heap := (gmap nat VllmEndpoint).

(** ** Which endpoints serve which requests *)

(** [std::find] on a vector of strings. *)
Fixpoint index_of (values : list string) (target : string) : option nat :=
  match values with
  | [] => None
  | v :: rest => if (v =? target)%string then Some O else S <$> index_of rest target
  end.

(** Sizes are [size_t]; the cast to [int] keeps the low bits.  The sum is one
    of [int]s: signed overflow is undefined in C++, and the value here is the
    wrapped one that two's complement hardware gives. *)
Definition estimate_prompt_tokens (req : InferenceRequest) : Z :=
  to_int (to_int (Z.of_nat (String.length (req_prompt req)) / 4) + req_max_tokens req).

Definition fallback_allows (requested_model served_model : string) (fallback_chain : list string)
    : bool :=
  if (served_model =? requested_model)%string then true
  else match index_of fallback_chain requested_model, index_of fallback_chain served_model with
  | Some requested, Some served => (requested <=? served)%nat
  | _, _ => false
  end.

Definition is_degraded_endpoint (ep : VllmEndpoint) (req : InferenceRequest) : bool :=
  if (ep_served_model ep =? req_logical_model req)%string then false
  else if match req_fallback_chain req with
          | front :: _ => (ep_served_model ep =? front)%string
          | [] => false
          end then false
  else if (ep_role ep =? "primary")%string
          && string_in_vector (ep_logical_models ep) (req_logical_model req) then false
  else true.

Definition endpoint_supports_request (ep : VllmEndpoint) (req : InferenceRequest) : bool :=
  if (ep_served_model ep =? req_logical_model req)%string
     || string_in_vector (ep_logical_models ep) (req_logical_model req) then true
  else req_allow_degrade req
       && fallback_allows (req_logical_model req) (ep_served_model ep) (req_fallback_chain req).

(** [INT_MAX] stands for "not acceptable". *)
Definition model_preference_rank (ep : VllmEndpoint) (req : InferenceRequest) : Z :=
  match index_of (req_fallback_chain req) (ep_served_model ep) with
  | Some i => Z.of_nat i
  | None =>
      if (ep_served_model ep =? req_logical_model req)%string
         || string_in_vector (ep_logical_models ep) (req_logical_model req) then 0
      else INT_MAX
  end.

(** ** Availability *)

(** Also moves an expired open circuit to half open: the endpoint is changed
    even when the answer is no. *)
Definition endpoint_available_locked (ep : VllmEndpoint) (current_ms : Z) : VllmEndpoint * bool :=
  let checks (ep : VllmEndpoint) : bool :=
    if bool_decide (ep_circuit_state ep = HalfOpen) && (0 <? ep_half_open_inflight ep) then false
    else if negb (ep_healthy ep) && negb (bool_decide (ep_circuit_state ep = HalfOpen)) then false
    else if ep_max_concurrency ep <=? ep_inflight ep then false
    else true in
  if decide (ep_circuit_state ep = Open) then
    if ep_circuit_open_until_ms ep <=? current_ms then
      let ep := ep <| ep_circuit_state := HalfOpen |> <| ep_half_open_inflight := 0 |> in
      (ep, checks ep)
    else (ep, false)
  else (ep, checks ep).

(** ** Selection *)

(** [static_cast<int>] of a [double]; undefined outside the range, where the
    value is that of the x86-64 conversion instruction. *)
Definition d_to_int (d : double) : Z :=
  match d_trunc d with
  | Some z => if is_int z then z else INT_MIN
  | None => INT_MIN
  end.

(** Every product, sum and difference is one of 32-bit [int]s. *)
Definition endpoint_score (ep : VllmEndpoint) (req : InferenceRequest) (degraded : bool)
    (high_priority_threshold : Z) : Z :=
  let score := to_int (ep_weight ep * 10) in
  let score := to_int (score - Z.quot (to_int (ep_inflight ep * 500))
                                      (Z.max 1 (ep_max_concurrency ep))) in
  let score := to_int (score - d_to_int (d_div (ep_avg_latency_ms ep) (d_of_Z 20))) in
  let score := to_int (score - to_int (ep_consecutive_failures ep * 250)) in
  let score := if degraded then to_int (score - 2000) else score in
  let score := if (ep_role ep =? "fallback")%string
                  && (high_priority_threshold <=? req_priority req)
               then to_int (score - 500) else score in
  let score := if (ep_role ep =? "overflow")%string then to_int (score - 50) else score in
  if decide (ep_circuit_state ep = HalfOpen) then to_int (score - 300) else score.

Record selection := MkSelection {
  sel_heap : heap;
  sel_best : option loc;
  sel_best_rank : Z;
  sel_best_score : Z;
}.

Definition has_best (s : selection) : bool :=
  match sel_best s with Some _ => true | None => false end.

(** One turn of the loop over [endpoints_]. *)
Definition select_step (req : InferenceRequest) (current_ms estimated_tokens : Z)
    (high_priority_threshold : Z) (s : selection) (l : loc) : selection :=
  match sel_heap s !! l with
  | None => s
  | Some ep =>
      if negb (endpoint_supports_request ep req) then s
      else
        let '(ep, available) := endpoint_available_locked ep current_ms in
        let h := <[l := ep]> (sel_heap s) in
        let s := MkSelection h (sel_best s) (sel_best_rank s) (sel_best_score s) in
        if negb available then s
        else if (0 <? ep_max_context_len ep) && (ep_max_context_len ep <? estimated_tokens) then s
        else
          let rank := model_preference_rank ep req in
          if rank =? INT_MAX then s
          else if has_best s && (sel_best_rank s <? rank) then s
          else
            let s := if negb (has_best s) || (rank <? sel_best_rank s)
                     then MkSelection h None rank INT_MIN else s in
            let degraded := is_degraded_endpoint ep req in
            if degraded && negb (req_allow_degrade req) then s
            else
              let score := endpoint_score ep req degraded high_priority_threshold in
              if negb (has_best s) || (sel_best_score s <? score)
              then MkSelection h (Some l) (sel_best_rank s) score else s
  end.

Definition select_loop (req : InferenceRequest) (current_ms high_priority_threshold : Z)
    (endpoints : list loc) (h : heap) : selection :=
  fold_left (select_step req current_ms (estimate_prompt_tokens req) high_priority_threshold)
    endpoints (MkSelection h None INT_MAX INT_MIN).

(** The charge of the winner: one more call in flight, and one more probe if
    its circuit is half open. *)
Definition charge_endpoint (ep : VllmEndpoint) : VllmEndpoint :=
  let ep := ep <| ep_inflight := ep_inflight ep + 1 |> in
  if decide (ep_circuit_state ep = HalfOpen)
  then ep <| ep_half_open_inflight := ep_half_open_inflight ep + 1 |> else ep.

(** The critical section of [select_endpoint]. *)
Definition select_endpoint_locked (req : InferenceRequest) (current_ms high_priority_threshold : Z)
    (endpoints : list loc) (h : heap) : heap * option loc * option EndpointMetricsEvent :=
  let s := select_loop req current_ms high_priority_threshold endpoints h in
  match sel_best s with
  | None => (sel_heap s, None, None)
  | Some l =>
      match sel_heap s !! l with
      | None => (sel_heap s, None, None)
      | Some ep =>
          let ep := charge_endpoint ep in
          (<[l := ep]> (sel_heap s), Some l, Some (endpoint_metrics_event ep))
      end
  end.

Definition prepare_request_for_endpoint (ep : VllmEndpoint) (req : InferenceRequest)
    : InferenceRequest :=
  let req := req <| req_endpoint_name := ep_name ep |>
                 <| req_served_model := ep_served_model ep |> in
  let req := req <| req_degraded := is_degraded_endpoint ep req |> in
  if req_degraded req then
    req <| req_degrade_reason :=
             if (ep_role ep =? "fallback")%string then "fallback_endpoint" else "model_fallback" |>
  else req.

(** ** Results and health checks *)

Record thresholds := MkThresholds {
  recovery_threshold : Z;
  unhealthy_threshold : Z;
  circuit_failure_threshold : Z;
  circuit_open_ms : Z;
}.

(** Exponentially weighted latency: [avg * keep + latency * gain]. *)
Definition fold_latency (keep gain : double) (latency_ms : Z) (avg : double) : double :=
  if d_le avg d_zero then d_of_Z latency_ms
  else d_add (d_mul avg keep) (d_mul (d_of_Z latency_ms) gain).

(** The failure branch shared by results and health checks. *)
Definition count_failure (th : thresholds) (now : Z) (ep : VllmEndpoint) : VllmEndpoint :=
  let ep := ep <| ep_consecutive_failures := ep_consecutive_failures ep + 1 |>
               <| ep_consecutive_successes := 0 |> in
  let ep := if unhealthy_threshold th <=? ep_consecutive_failures ep
            then ep <| ep_healthy := false |> else ep in
  if circuit_failure_threshold th <=? ep_consecutive_failures ep then
    let ep := if decide (ep_circuit_state ep = Open) then ep
              else ep <| ep_circuit_open_count := uint64_add (ep_circuit_open_count ep) 1 |> in
    ep <| ep_circuit_state := Open |>
       <| ep_circuit_open_until_ms := now + circuit_open_ms th |>
  else ep.

(** The bookkeeping of a finished call: its slot, its probe, its latency. *)
Definition book_call (latency_ms : Z) (ep : VllmEndpoint) : VllmEndpoint :=
  let ep := if 0 <? ep_inflight ep then ep <| ep_inflight := ep_inflight ep - 1 |> else ep in
  let ep := if 0 <? ep_half_open_inflight ep
            then ep <| ep_half_open_inflight := ep_half_open_inflight ep - 1 |> else ep in
  let ep := ep <| ep_last_latency_ms := latency_ms |> in
  if 0 <? latency_ms
  then ep <| ep_avg_latency_ms :=
               fold_latency (d_lit 8 10) (d_lit 2 10) latency_ms (ep_avg_latency_ms ep) |>
  else ep.

(** The bookkeeping of a health check. *)
Definition book_check (checked_ms latency_ms : Z) (ep : VllmEndpoint) : VllmEndpoint :=
  let ep := ep <| ep_last_health_check_ms := checked_ms |> in
  if 0 <? latency_ms
  then ep <| ep_last_latency_ms := latency_ms |>
          <| ep_avg_latency_ms :=
               fold_latency (d_lit 9 10) (d_lit 1 10) latency_ms (ep_avg_latency_ms ep) |>
  else ep.

(** The critical section of [update_endpoint_result]. *)
Definition update_endpoint_result_locked (th : thresholds) (now : Z) (ok : bool) (latency_ms : Z)
    (ep : VllmEndpoint) : VllmEndpoint :=
  let ep := book_call latency_ms ep in
  if ok then
    let ep := ep <| ep_success_count := uint64_add (ep_success_count ep) 1 |>
                 <| ep_consecutive_successes := ep_consecutive_successes ep + 1 |>
                 <| ep_consecutive_failures := 0 |> in
    if recovery_threshold th <=? ep_consecutive_successes ep
    then ep <| ep_healthy := true |> <| ep_circuit_state := Closed |> else ep
  else
    count_failure th now (ep <| ep_failure_count := uint64_add (ep_failure_count ep) 1 |>).

(** The critical section of [update_endpoint_health]; it reads the clock once
    on entry and once more when it opens the circuit. *)
Definition update_endpoint_health_locked (th : thresholds) (checked_ms now : Z) (ok : bool)
    (latency_ms : Z) (ep : VllmEndpoint) : VllmEndpoint :=
  let ep := book_check checked_ms latency_ms ep in
  if ok then
    let ep := ep <| ep_consecutive_successes := ep_consecutive_successes ep + 1 |>
                 <| ep_consecutive_failures := 0 |> in
    if recovery_threshold th <=? ep_consecutive_successes ep then
      let ep := ep <| ep_healthy := true |> in
      if bool_decide (ep_circuit_state ep = HalfOpen) || bool_decide (ep_circuit_state ep = Open)
      then ep <| ep_circuit_state := Closed |> else ep
    else ep
  else count_failure th now ep.

(** ** Sharing and replacing endpoint objects *)

Definition endpoint_runtime_key (ep : VllmEndpoint) : string :=
  ep_base_url ep +:+ "|" +:+ ep_served_model ep.

(** What a live object takes from a newly configured one. *)
Definition adopt_configuration (configured existing : VllmEndpoint) : VllmEndpoint :=
  existing
    <| ep_name := ep_name configured |>
    <| ep_role := ep_role configured |>
    <| ep_health_path := ep_health_path configured |>
    <| ep_api_key := ep_api_key configured |>
    <| ep_logical_models := ep_logical_models configured |>
    <| ep_weight := ep_weight configured |>
    <| ep_max_context_len := ep_max_context_len configured |>
    <| ep_max_concurrency := ep_max_concurrency configured |>.

(** The process-wide table of weak references; [alive] tells which objects
    still have an owner, so which references [lock()] resolves. *)
Abbreviation endpoint_table := (gmap string nat).

Definition share_endpoint_runtime (alive : loc → bool) (configured : VllmEndpoint)
    (h : heap) (table : endpoint_table) : heap * endpoint_table * loc :=
  let key := endpoint_runtime_key configured in
  let fresh_entry :=
    let l := fresh (dom h) in (<[l := configured]> h, <[key := l]> table, l) in
  match table !! key with
  | Some l =>
      match (if alive l then h !! l else None) with
      | Some existing => (<[l := adopt_configuration configured existing]> h, table, l)
      | None => fresh_entry
      end
  | None => fresh_entry
  end.

Definition publish_endpoint_runtime (l : loc) (ep : VllmEndpoint) (table : endpoint_table)
    : endpoint_table := <[endpoint_runtime_key ep := l]> table.

Definition copy_endpoint_runtime_fields (target source : VllmEndpoint) : VllmEndpoint :=
  target
    <| ep_healthy := ep_healthy source |>
    <| ep_circuit_state := ep_circuit_state source |>
    <| ep_consecutive_failures := ep_consecutive_failures source |>
    <| ep_consecutive_successes := ep_consecutive_successes source |>
    <| ep_circuit_open_until_ms := ep_circuit_open_until_ms source |>
    <| ep_last_health_check_ms := ep_last_health_check_ms source |>
    <| ep_last_latency_ms := ep_last_latency_ms source |>
    <| ep_avg_latency_ms := ep_avg_latency_ms source |>
    <| ep_success_count := ep_success_count source |>
    <| ep_failure_count := ep_failure_count source |>
    <| ep_timeout_count := ep_timeout_count source |>
    <| ep_circuit_open_count := ep_circuit_open_count source |>
    <| ep_inflight := 0 |>
    <| ep_half_open_inflight := 0 |>.

(** [old_by_key]: the last endpoint of a key wins. *)
Definition index_by_key (h : heap) (endpoints : list loc) : gmap string VllmEndpoint :=
  fold_left (λ m l, match h !! l with
                    | Some ep => <[endpoint_runtime_key ep := ep]> m
                    | None => m
                    end) endpoints ∅.

(** Each configured endpoint becomes a new object that takes over the runtime
    fields of the old object of its key, if there is one. *)
Fixpoint commit_reloaded_endpoints (old_by_key : gmap string VllmEndpoint)
    (configured : list VllmEndpoint) (h : heap) (table : endpoint_table)
    : heap * endpoint_table * list loc :=
  match configured with
  | [] => (h, table, [])
  | c :: rest =>
      let ep := match old_by_key !! endpoint_runtime_key c with
                | Some old => copy_endpoint_runtime_fields c old
                | None => c
                end in
      let l := fresh (dom h) in
      let '(h, table, ls) :=
        commit_reloaded_endpoints old_by_key rest (<[l := ep]> h) (publish_endpoint_runtime l ep table) in
      (h, table, l :: ls)
  end.

Definition commit_reloaded_endpoints_locked (endpoints : list loc) (configured : list VllmEndpoint)
    (h : heap) (table : endpoint_table) : heap * endpoint_table * list loc :=
  commit_reloaded_endpoints (index_by_key h endpoints) configured h table.

(** ** Facts about one endpoint *)

(** The endpoint as [endpoint_available_locked] leaves it. *)
Definition refreshed (now : Z) (ep : VllmEndpoint) : VllmEndpoint :=
  (endpoint_available_locked ep now).1.
Definition available (now : Z) (ep : VllmEndpoint) : bool :=
  (endpoint_available_locked ep now).2.

Lemma available_refreshed now ep : endpoint_available_locked ep now = (refreshed now ep, available now ep).
Proof. unfold refreshed, available. by destruct (endpoint_available_locked ep now). Qed.

(** Refreshing twice is refreshing once. *)
Lemma available_idemp now ep :
  endpoint_available_locked (refreshed now ep) now = (refreshed now ep, available now ep).
Proof.
  unfold refreshed, available, endpoint_available_locked.
  destruct (decide (ep_circuit_state ep = Open)) as [Ho|Hno]; [|by rewrite decide_False].
  destruct (Z.leb_spec (ep_circuit_open_until_ms ep) now); [done|].
  simpl. rewrite decide_True by done. by destruct (Z.leb_spec (ep_circuit_open_until_ms ep) now); [lia|].
Qed.

(** Refreshing only touches the circuit: what routing compares is unchanged. *)
Lemma refreshed_frame now ep :
  ep_served_model (refreshed now ep) = ep_served_model ep ∧
  ep_logical_models (refreshed now ep) = ep_logical_models ep ∧
  ep_role (refreshed now ep) = ep_role ep ∧
  ep_max_context_len (refreshed now ep) = ep_max_context_len ep ∧
  ep_max_concurrency (refreshed now ep) = ep_max_concurrency ep ∧
  ep_inflight (refreshed now ep) = ep_inflight ep ∧
  ep_timeout_count (refreshed now ep) = ep_timeout_count ep.
Proof.
  unfold refreshed, endpoint_available_locked.
  destruct (decide _); [|done]. by destruct (_ <=? _).
Qed.

Lemma refreshed_supports now ep req :
  endpoint_supports_request (refreshed now ep) req = endpoint_supports_request ep req.
Proof.
  unfold endpoint_supports_request.
  destruct (refreshed_frame now ep) as (-> & -> & _). done.
Qed.

Lemma refreshed_rank now ep req :
  model_preference_rank (refreshed now ep) req = model_preference_rank ep req.
Proof.
  unfold model_preference_rank.
  destruct (refreshed_frame now ep) as (-> & -> & _). done.
Qed.

Lemma refreshed_degraded now ep req :
  is_degraded_endpoint (refreshed now ep) req = is_degraded_endpoint ep req.
Proof.
  unfold is_degraded_endpoint.
  destruct (refreshed_frame now ep) as (-> & -> & -> & _). done.
Qed.

(** What being available means. *)
Lemma available_spec now ep :
  available now ep = true →
  ep_inflight ep < ep_max_concurrency ep ∧
  (ep_circuit_state ep = Open → ep_circuit_open_until_ms ep <= now) ∧
  (ep_circuit_state ep = Closed → ep_healthy ep = true) ∧
  (ep_circuit_state ep = HalfOpen → ep_half_open_inflight ep <= 0) ∧
  ep_circuit_state (refreshed now ep) ≠ Open ∧
  (ep_circuit_state (refreshed now ep) = HalfOpen → ep_half_open_inflight (refreshed now ep) <= 0).
Proof.
  unfold available, refreshed, endpoint_available_locked.
  destruct (ep_circuit_state ep) eqn:Hc; simpl; rewrite ?Hc; simpl.
  - destruct (ep_healthy ep); simpl; [|done].
    destruct (Z.leb_spec (ep_max_concurrency ep) (ep_inflight ep)); [done|].
    intros _. by repeat split.
  - destruct (Z.leb_spec (ep_circuit_open_until_ms ep) now); [|done]. simpl.
    rewrite andb_false_r.
    destruct (Z.leb_spec (ep_max_concurrency ep) (ep_inflight ep)); [done|].
    intros _. by repeat split.
  - destruct (Z.ltb_spec 0 (ep_half_open_inflight ep)); simpl; [done|].
    rewrite andb_false_r.
    destruct (Z.leb_spec (ep_max_concurrency ep) (ep_inflight ep)); [done|].
    intros _. by repeat split.
Qed.

(** ** The selection loop *)

Section selection.
Context (req : InferenceRequest) (now hp : Z) (h0 : heap).

(** An endpoint the loop may consider at all. *)
Definition eligible (ep : VllmEndpoint) : bool :=
  endpoint_supports_request ep req && available now ep
  && negb ((0 <? ep_max_context_len ep) && (ep_max_context_len ep <? estimate_prompt_tokens req))
  && negb (model_preference_rank ep req =? INT_MAX).

(** An endpoint the loop may return. *)
Definition acceptable (ep : VllmEndpoint) : bool :=
  eligible ep && negb (is_degraded_endpoint ep req && negb (req_allow_degrade req)).

Definition rank_of (ep : VllmEndpoint) : Z := model_preference_rank ep req.
Definition score_of (ep : VllmEndpoint) : Z :=
  endpoint_score (refreshed now ep) req (is_degraded_endpoint ep req) hp.

(** [a] is at least as good a choice as [b]. *)
Definition at_least_as_good (a b : VllmEndpoint) : Prop :=
  rank_of a < rank_of b ∨ (rank_of a = rank_of b ∧ score_of b <= score_of a).

(** The loop only refreshes endpoints of the initial heap. *)
Definition heap_refines (h : heap) : Prop :=
  ∀ l, h !! l = h0 !! l ∨ h !! l = refreshed now <$> h0 !! l.

Definition best_sound (done : list loc) (s : selection) : Prop :=
  match sel_best s with
  | None => True
  | Some b => b ∈ done ∧ ∃ ep, h0 !! b = Some ep ∧ acceptable ep = true ∧
              sel_heap s !! b = Some (refreshed now ep) ∧
              sel_best_rank s = rank_of ep ∧ sel_best_score s = score_of ep
  end.

Lemma eligible_refreshed ep :
  eligible (refreshed now ep) = eligible ep.
Proof.
  unfold eligible, available. rewrite available_idemp, refreshed_supports, refreshed_rank.
  destruct (refreshed_frame now ep) as (_ & _ & _ & -> & _). done.
Qed.

(** What the loop does with an eligible endpoint, given its rank, its score
    and whether it may be returned. *)
Definition consider (l : loc) (ep : VllmEndpoint) (h : heap) (s : selection) : selection :=
  if has_best s && (sel_best_rank s <? rank_of ep)
  then MkSelection h (sel_best s) (sel_best_rank s) (sel_best_score s)
  else
    let s := if negb (has_best s) || (rank_of ep <? sel_best_rank s)
             then MkSelection h None (rank_of ep) INT_MIN
             else MkSelection h (sel_best s) (sel_best_rank s) (sel_best_score s) in
    if acceptable ep then
      if negb (has_best s) || (sel_best_score s <? score_of ep)
      then MkSelection h (Some l) (sel_best_rank s) (score_of ep) else s
    else s.

(** One turn of the loop, in terms of the object of the initial heap. *)
Lemma select_step_eq s l ep :
  heap_refines (sel_heap s) → h0 !! l = Some ep →
  select_step req now (estimate_prompt_tokens req) hp s l =
    let h := if endpoint_supports_request ep req
             then <[l := refreshed now ep]> (sel_heap s) else sel_heap s in
    if eligible ep then consider l ep h s
    else MkSelection h (sel_best s) (sel_best_rank s) (sel_best_score s).
Proof.
  intros Hh H0. unfold select_step.
  assert (∃ ep', sel_heap s !! l = Some ep' ∧ (ep' = ep ∨ ep' = refreshed now ep)) as (ep' & -> & Hep').
  { destruct (Hh l) as [->| ->]; rewrite H0; simpl; eauto. }
  assert (endpoint_supports_request ep' req = endpoint_supports_request ep req) as ->.
  { destruct Hep' as [->| ->]; [done|apply refreshed_supports]. }
  assert (endpoint_available_locked ep' now = (refreshed now ep, available now ep)) as ->.
  { destruct Hep' as [->| ->]; [apply available_refreshed|apply available_idemp]. }
  destruct (refreshed_frame now ep) as (_ & _ & _ & Hctx & _).
  rewrite Hctx, refreshed_rank, refreshed_degraded. fold (rank_of ep). fold (score_of ep).
  unfold consider, acceptable.
  destruct (eligible ep) eqn:Hel; unfold eligible in Hel; fold (rank_of ep) in Hel; simpl.
  - boolean. repeat match goal with H : _ = true |- _ => rewrite H | H : _ = false |- _ => rewrite H end.
    simpl. by destruct (is_degraded_endpoint ep req && negb (req_allow_degrade req)).
  - destruct (endpoint_supports_request ep req); [|by destruct s].
    destruct (available now ep); [|done].
    destruct ((0 <? ep_max_context_len ep) && (ep_max_context_len ep <? estimate_prompt_tokens req)); [done|].
    by destruct (rank_of ep =? INT_MAX).
Qed.

Lemma select_step_none s l :
  heap_refines (sel_heap s) → h0 !! l = None →
  select_step req now (estimate_prompt_tokens req) hp s l = s.
Proof.
  intros Hh H0. unfold select_step. by destruct (Hh l) as [->| ->]; rewrite H0.
Qed.

Lemma consider_heap l ep h s : sel_heap (consider l ep h s) = h.
Proof. unfold consider. by split_ifs. Qed.

Lemma select_step_refines s l :
  heap_refines (sel_heap s) →
  heap_refines (sel_heap (select_step req now (estimate_prompt_tokens req) hp s l)).
Proof.
  intros Hh. destruct (h0 !! l) as [ep|] eqn:H0; [|by rewrite select_step_none].
  rewrite (select_step_eq s l ep) by done. cbv zeta.
  assert (heap_refines (if endpoint_supports_request ep req
             then <[l := refreshed now ep]> (sel_heap s) else sel_heap s)) as Hh'.
  { split_ifs; [|done]. intros k. destruct (decide (k = l)) as [->|Hne].
    - right. by rewrite lookup_insert_eq, H0.
    - rewrite lookup_insert_ne by done. apply Hh. }
  destruct (eligible ep); [by rewrite consider_heap|done].
Qed.

Ltac in_app := rewrite elem_of_app, ?list_elem_of_singleton; tauto.

Lemma acceptable_eligible ep : acceptable ep = true → eligible ep = true.
Proof. unfold acceptable. intros. by boolean. Qed.

(** The best endpoint so far is one the loop may return, and its rank and
    score are the recorded ones. *)
Lemma select_step_sound done s l :
  heap_refines (sel_heap s) → best_sound done s →
  best_sound (done ++ [l]) (select_step req now (estimate_prompt_tokens req) hp s l).
Proof.
  intros Hh Hs. destruct (h0 !! l) as [ep|] eqn:H0; last first.
  { rewrite select_step_none by done. unfold best_sound in *.
    destruct (sel_best s); [|done]. split; [by in_app|apply Hs]. }
  rewrite (select_step_eq s l ep) by done. cbv zeta.
  set (h := if endpoint_supports_request ep req then _ else _).
  assert (∀ b, b ≠ l → h !! b = sel_heap s !! b) as Hother.
  { intros b Hb. subst h. split_ifs; [|done]. by rewrite lookup_insert_ne. }
  assert (eligible ep = true → h !! l = Some (refreshed now ep)) as Hself.
  { intros Hel. unfold eligible in Hel. boolean. subst h.
    match goal with H : endpoint_supports_request _ _ = true |- _ => rewrite H end.
    apply lookup_insert_eq. }
  assert (best_sound (done ++ [l]) (MkSelection h (sel_best s) (sel_best_rank s) (sel_best_score s))) as Hkeep.
  { unfold best_sound in *. simpl. destruct (sel_best s) as [b|]; [|done].
    destruct Hs as (Hin & e & He & Hacc & Hb & Hr & Hsc). split; [by in_app|].
    exists e. split_and!; try done. destruct (decide (b = l)) as [->|Hne]; [|by rewrite Hother].
    assert (e = ep) as -> by congruence. by apply Hself, acceptable_eligible. }
  destruct (eligible ep) eqn:Hel; [|done]. unfold consider.
  unfold has_best. destruct (sel_best s) as [b|] eqn:Hb; simpl.
  - destruct (Z.ltb_spec (sel_best_rank s) (rank_of ep)); simpl; [done|].
    destruct (Z.ltb_spec (rank_of ep) (sel_best_rank s)); simpl; rewrite ?Hb; simpl.
    + destruct (acceptable ep) eqn:Hacc; [|done]. split; [by in_app|]. exists ep. by split_and!; auto.
    + destruct (acceptable ep) eqn:Hacc; [|done].
      destruct (Z.ltb_spec (sel_best_score s) (score_of ep)); simpl; [|done].
      split; [by in_app|]. exists ep. split_and!; auto. simpl. lia.
  - destruct (acceptable ep) eqn:Hacc; [|done]. split; [by in_app|]. exists ep. by split_and!; auto.
Qed.

(** Every eligible endpoint seen so far is at most as good as the best. *)
Definition best_optimal (done : list loc) (s : selection) : Prop :=
  ∀ l ep, l ∈ done → h0 !! l = Some ep → eligible ep = true →
    has_best s = true ∧
    (sel_best_rank s < rank_of ep ∨
     (sel_best_rank s = rank_of ep ∧ score_of ep <= sel_best_score s)).

Lemma acceptable_allow ep : req_allow_degrade req = true → acceptable ep = eligible ep.
Proof. intros Ha. unfold acceptable. by rewrite Ha, andb_false_r, andb_true_r. Qed.

(** The three outcomes of considering an eligible endpoint while there is a
    best one. *)
Ltac consider_cases e s Hb :=
  destruct (Z.ltb_spec (sel_best_rank s) (rank_of e)); simpl; rewrite ?Hb; simpl; [|
  destruct (Z.ltb_spec (rank_of e) (sel_best_rank s)); simpl; rewrite ?Hb; simpl; [|
  destruct (Z.ltb_spec (sel_best_score s) (score_of e)); simpl; rewrite ?Hb; simpl ]];
  (split; [done|lia]).

Lemma select_step_optimal done s l :
  req_allow_degrade req = true →
  heap_refines (sel_heap s) → best_optimal done s →
  best_optimal (done ++ [l]) (select_step req now (estimate_prompt_tokens req) hp s l).
Proof.
  intros Ha Hh Ho k e Hk He Hel.
  apply elem_of_app in Hk as [Hk| ->%list_elem_of_singleton]; last first.
  - rewrite (select_step_eq s l e) by done. cbv zeta. rewrite Hel.
    unfold consider. rewrite (acceptable_allow e Ha), Hel.
    unfold has_best. destruct (sel_best s) as [b|] eqn:Hb; simpl.
    + consider_cases e s Hb.
    + split; [done|lia].
  - specialize (Ho k e Hk He Hel) as [Hbest Hcmp].
    destruct (h0 !! l) as [ep|] eqn:H0; [|by rewrite select_step_none].
    rewrite (select_step_eq s l ep) by done. cbv zeta.
    destruct (eligible ep) eqn:Hep; [|done].
    unfold consider. rewrite (acceptable_allow ep Ha), Hep.
    unfold has_best in *. destruct (sel_best s) as [b|] eqn:Hb; [|done].
    consider_cases ep s Hb.
Qed.

(** The three facts along the whole loop. *)
Lemma select_fold done s todo :
  heap_refines (sel_heap s) → best_sound done s →
  (req_allow_degrade req = true → best_optimal done s) →
  let s' := fold_left (select_step req now (estimate_prompt_tokens req) hp) todo s in
  heap_refines (sel_heap s') ∧ best_sound (done ++ todo) s' ∧
  (req_allow_degrade req = true → best_optimal (done ++ todo) s').
Proof.
  revert done s. induction todo as [|l todo IH]; intros done s Hh Hs Ho; simpl.
  - by rewrite app_nil_r.
  - replace (done ++ l :: todo) with ((done ++ [l]) ++ todo) by by rewrite <- app_assoc.
    apply IH; eauto using select_step_refines, select_step_sound, select_step_optimal.
Qed.

Lemma select_loop_spec endpoints :
  let s := select_loop req now hp endpoints h0 in
  heap_refines (sel_heap s) ∧ best_sound endpoints s ∧
  (req_allow_degrade req = true → best_optimal endpoints s).
Proof.
  apply (select_fold [] (MkSelection h0 None INT_MAX INT_MIN) endpoints); [by left|done|].
  intros _ l ep Hl. by apply not_elem_of_nil in Hl.
Qed.
End selection.

(** The result of the critical section, whatever the request allows. *)
Lemma select_endpoint_locked_Some req now hp endpoints h h' l ev :
  select_endpoint_locked req now hp endpoints h = (h', Some l, ev) →
  l ∈ endpoints ∧ ∃ ep, h !! l = Some ep ∧ acceptable req now ep = true ∧
    h' !! l = Some (charge_endpoint (refreshed now ep)) ∧
    ev = Some (endpoint_metrics_event (charge_endpoint (refreshed now ep))) ∧
    ∀ k, k ≠ l → h' !! k = h !! k ∨ h' !! k = refreshed now <$> h !! k.
Proof.
  unfold select_endpoint_locked.
  destruct (select_loop_spec req now hp h endpoints) as (Hh & Hs & _).
  set (s := select_loop req now hp endpoints h) in *.
  unfold best_sound in Hs. destruct (sel_best s) as [b|]; [|done].
  destruct Hs as (Hin & ep & Hep & Hacc & Hb & _). rewrite Hb.
  intros [= <- <- <-]. split; [done|]. exists ep. split_and!; try done.
  - apply lookup_insert_eq.
  - intros k Hk. rewrite lookup_insert_ne by done. apply Hh.
Qed.

Lemma select_endpoint_locked_None req now hp endpoints h h' ev :
  select_endpoint_locked req now hp endpoints h = (h', None, ev) →
  ev = None ∧
  (∀ k, h' !! k = h !! k ∨ h' !! k = refreshed now <$> h !! k) ∧
  (req_allow_degrade req = true →
   ∀ k ep, k ∈ endpoints → h !! k = Some ep → eligible req now ep = false).
Proof.
  unfold select_endpoint_locked.
  destruct (select_loop_spec req now hp h endpoints) as (Hh & Hs & Ho).
  set (s := select_loop req now hp endpoints h) in *. clearbody s.
  unfold best_sound, best_optimal, has_best in *. destruct (sel_best s) as [b|].
  { destruct Hs as (_ & ep & _ & _ & -> & _). done. }
  intros [= <- <-]. split_and!; [done|apply Hh|].
  intros Ha k ep Hk Hep. destruct (eligible req now ep) eqn:He; [|done].
  by destruct (Ho Ha k ep Hk Hep He).
Qed.

(** What an acceptable endpoint offers, spelled out. *)
Lemma acceptable_spec req now ep :
  acceptable req now ep = true →
  endpoint_supports_request ep req = true ∧
  ep_inflight ep < ep_max_concurrency ep ∧
  (ep_circuit_state ep = Open → ep_circuit_open_until_ms ep <= now) ∧
  (ep_circuit_state ep = Closed → ep_healthy ep = true) ∧
  (ep_circuit_state ep = HalfOpen → ep_half_open_inflight ep <= 0) ∧
  (0 < ep_max_context_len ep → estimate_prompt_tokens req <= ep_max_context_len ep) ∧
  (req_allow_degrade req = false → is_degraded_endpoint ep req = false).
Proof.
  unfold acceptable, eligible. intros Hacc. boolean.
  match goal with H : available _ _ = true |- _ => apply available_spec in H as (? & ? & ? & ? & _) end.
  split_and!; try done; [lia|].
  intros Ha. rewrite Ha in *. simpl in *. by rewrite andb_true_r in *.
Qed.

(** ** The endpoint state machine *)

(** Capacity and probe counters of an endpoint. *)
Definition endpoint_ok (ep : VllmEndpoint) : Prop :=
  1 <= ep_max_concurrency ep ∧
  0 <= ep_inflight ep <= ep_max_concurrency ep ∧
  0 <= ep_half_open_inflight ep <= 1.

Definition endpoints_ok (h : heap) : Prop := map_Forall (λ _, endpoint_ok) h.

Lemma refreshed_ok now ep : endpoint_ok ep → endpoint_ok (refreshed now ep).
Proof.
  unfold endpoint_ok, refreshed, endpoint_available_locked.
  destruct (decide _); [|done]. destruct (_ <=? _); [|done]. simpl. lia.
Qed.

Lemma charge_ok now ep :
  endpoint_ok ep → available now ep = true → endpoint_ok (charge_endpoint (refreshed now ep)).
Proof.
  intros Hok Hav. pose proof (refreshed_ok now ep Hok) as (Hm & Hi & Hh).
  apply available_spec in Hav as (Hcap & _ & _ & _ & _ & Hprobe).
  destruct (refreshed_frame now ep) as (_ & _ & _ & _ & Hmax & Hinf & _).
  unfold charge_endpoint, endpoint_ok. simpl.
  destruct (decide (ep_circuit_state (refreshed now ep) = HalfOpen)); simpl;
    [specialize (Hprobe e)|]; lia.
Qed.

(** A failure only touches health, circuit and the streak counters. *)
Lemma count_failure_frame th now ep :
  ep_max_concurrency (count_failure th now ep) = ep_max_concurrency ep ∧
  ep_inflight (count_failure th now ep) = ep_inflight ep ∧
  ep_half_open_inflight (count_failure th now ep) = ep_half_open_inflight ep ∧
  ep_timeout_count (count_failure th now ep) = ep_timeout_count ep ∧
  ep_consecutive_failures (count_failure th now ep) = ep_consecutive_failures ep + 1 ∧
  ep_consecutive_successes (count_failure th now ep) = 0 ∧
  (ep_circuit_state (count_failure th now ep) = ep_circuit_state ep ∨
   ep_circuit_state (count_failure th now ep) = Open).
Proof.
  destruct ep. unfold count_failure. cbn. repeat case_match; cbn; auto 10.
Qed.

(** Bookkeeping leaves health, circuit and streaks alone. *)
Lemma book_call_frame latency_ms ep :
  ep_max_concurrency (book_call latency_ms ep) = ep_max_concurrency ep ∧
  ep_inflight (book_call latency_ms ep) =
    (if 0 <? ep_inflight ep then ep_inflight ep - 1 else ep_inflight ep) ∧
  ep_half_open_inflight (book_call latency_ms ep) =
    (if 0 <? ep_half_open_inflight ep then ep_half_open_inflight ep - 1 else ep_half_open_inflight ep) ∧
  ep_timeout_count (book_call latency_ms ep) = ep_timeout_count ep ∧
  ep_consecutive_failures (book_call latency_ms ep) = ep_consecutive_failures ep ∧
  ep_consecutive_successes (book_call latency_ms ep) = ep_consecutive_successes ep.
Proof.
  destruct ep. unfold book_call. cbn. repeat (case_match; cbn in * ); auto 10; congruence.
Qed.

Lemma book_check_frame checked_ms latency_ms ep :
  ep_max_concurrency (book_check checked_ms latency_ms ep) = ep_max_concurrency ep ∧
  ep_inflight (book_check checked_ms latency_ms ep) = ep_inflight ep ∧
  ep_half_open_inflight (book_check checked_ms latency_ms ep) = ep_half_open_inflight ep ∧
  ep_timeout_count (book_check checked_ms latency_ms ep) = ep_timeout_count ep ∧
  ep_consecutive_failures (book_check checked_ms latency_ms ep) = ep_consecutive_failures ep ∧
  ep_consecutive_successes (book_check checked_ms latency_ms ep) = ep_consecutive_successes ep.
Proof.
  destruct ep. unfold book_check. cbn. case_match; cbn; auto 10.
Qed.

Lemma result_counters th now ok latency_ms ep :
  let ep' := update_endpoint_result_locked th now ok latency_ms ep in
  ep_max_concurrency ep' = ep_max_concurrency ep ∧
  ep_inflight ep' = (if 0 <? ep_inflight ep then ep_inflight ep - 1 else ep_inflight ep) ∧
  ep_half_open_inflight ep' =
    (if 0 <? ep_half_open_inflight ep then ep_half_open_inflight ep - 1 else ep_half_open_inflight ep) ∧
  ep_timeout_count ep' = ep_timeout_count ep.
Proof.
  unfold update_endpoint_result_locked. cbv zeta.
  destruct (book_call_frame latency_ms ep) as (<- & <- & <- & <- & _).
  generalize (book_call latency_ms ep). intros []. destruct ok.
  - cbn. case_match; done.
  - match goal with |- context [count_failure th now ?e] =>
      destruct (count_failure_frame th now e) as (-> & -> & -> & -> & _) end. done.
Qed.

Lemma result_ok th now ok latency_ms ep :
  endpoint_ok ep → endpoint_ok (update_endpoint_result_locked th now ok latency_ms ep).
Proof.
  destruct (result_counters th now ok latency_ms ep) as (Hm & Hi & Hh & _).
  unfold endpoint_ok. rewrite Hm, Hi, Hh.
  destruct (Z.ltb_spec 0 (ep_inflight ep)), (Z.ltb_spec 0 (ep_half_open_inflight ep)); lia.
Qed.

Lemma health_counters th checked now ok latency_ms ep :
  let ep' := update_endpoint_health_locked th checked now ok latency_ms ep in
  ep_max_concurrency ep' = ep_max_concurrency ep ∧ ep_inflight ep' = ep_inflight ep ∧
  ep_half_open_inflight ep' = ep_half_open_inflight ep ∧
  ep_timeout_count ep' = ep_timeout_count ep.
Proof.
  unfold update_endpoint_health_locked. cbv zeta.
  destruct (book_check_frame checked latency_ms ep) as (<- & <- & <- & <- & _).
  generalize (book_check checked latency_ms ep). intros []. destruct ok.
  - cbn. repeat case_match; done.
  - match goal with |- context [count_failure th now ?e] =>
      destruct (count_failure_frame th now e) as (-> & -> & -> & -> & _) end. done.
Qed.

Lemma health_ok th checked now ok latency_ms ep :
  endpoint_ok ep → endpoint_ok (update_endpoint_health_locked th checked now ok latency_ms ep).
Proof.
  unfold endpoint_ok.
  by destruct (health_counters th checked now ok latency_ms ep) as (-> & -> & -> & _).
Qed.

(** *** Reload *)

(** The object a configured endpoint becomes. *)
Definition take_over (old_by_key : gmap string VllmEndpoint) (c : VllmEndpoint) : VllmEndpoint :=
  match old_by_key !! endpoint_runtime_key c with
  | Some old => copy_endpoint_runtime_fields c old
  | None => c
  end.

Lemma commit_spec old configured h table h' table' ls :
  commit_reloaded_endpoints old configured h table = (h', table', ls) →
  h ⊆ h' ∧ NoDup ls ∧ Forall (λ l, h !! l = None) ls ∧
  Forall2 (λ l c, h' !! l = Some (take_over old c)) ls configured ∧
  (∀ l ep, h' !! l = Some ep → h !! l = Some ep ∨ ∃ c, c ∈ configured ∧ ep = take_over old c).
Proof.
  revert h table ls. induction configured as [|c rest IH]; intros h table ls; simpl.
  { intros [= <- <- <-]. split_and!; try constructor; eauto. }
  fold (take_over old c). set (l := fresh (dom h)).
  assert (h !! l = None) as Hl by (apply not_elem_of_dom, is_fresh).
  destruct (commit_reloaded_endpoints _ _ _ _) as [[h1 t1] ls1] eqn:E.
  intros [= <- <- <-]. apply IH in E as (Hsub & Hnd & Hfresh & Hall & Hinv).
  assert (h1 !! l = Some (take_over old c)) as Hl1.
  { eapply lookup_weaken; [apply lookup_insert_eq|done]. }
  rewrite Forall_forall in Hfresh. split_and!.
  - etrans; [by apply insert_subseteq|done].
  - constructor; [|done]. intros Hin. specialize (Hfresh _ Hin). by rewrite lookup_insert_eq in Hfresh.
  - constructor; [done|]. apply Forall_forall. intros k Hk. specialize (Hfresh k Hk).
    by apply lookup_insert_None in Hfresh as [? _].
  - by constructor.
  - intros k ep Hk. destruct (Hinv k ep Hk) as [Hin|(c' & Hc' & ->)].
    + apply lookup_insert_Some in Hin as [[<- <-]|[_ Hin]]; [|by left].
      right. exists c. split; [by left|done].
    + right. exists c'. split; [by right|done].
Qed.

(** *** Executions of the endpoint subsystem *)

Record endpoint_state := MkEndpointState {
  es_heap : heap;
  es_table : endpoint_table;
  es_endpoints : list loc;
}.

(** An endpoint as the configuration parser builds it. *)
Definition configured_ok (c : VllmEndpoint) : Prop :=
  1 <= ep_max_concurrency c ∧ ep_inflight c = 0 ∧ ep_half_open_inflight c = 0.

(** One critical section of any thread: a worker selects, a worker reports a
    result, the health thread reports a check, a reload replaces the
    endpoints.  Reports name the object the thread holds, which a reload may
    have replaced meanwhile. *)
Inductive endpoint_step : endpoint_state → endpoint_state → Prop :=
  | step_select req now hp h table endpoints h' best ev :
      select_endpoint_locked req now hp endpoints h = (h', best, ev) →
      endpoint_step (MkEndpointState h table endpoints) (MkEndpointState h' table endpoints)
  | step_result th now ok latency_ms l ep h table endpoints :
      h !! l = Some ep →
      endpoint_step (MkEndpointState h table endpoints)
        (MkEndpointState (<[l := update_endpoint_result_locked th now ok latency_ms ep]> h) table endpoints)
  | step_health th checked now ok latency_ms l ep h table endpoints :
      h !! l = Some ep →
      endpoint_step (MkEndpointState h table endpoints)
        (MkEndpointState (<[l := update_endpoint_health_locked th checked now ok latency_ms ep]> h)
           table endpoints)
  | step_reload configured h table endpoints h' table' endpoints' :
      Forall configured_ok configured →
      commit_reloaded_endpoints_locked endpoints configured h table = (h', table', endpoints') →
      endpoint_step (MkEndpointState h table endpoints) (MkEndpointState h' table' endpoints').

Lemma select_preserves_ok req now hp endpoints h h' best ev :
  select_endpoint_locked req now hp endpoints h = (h', best, ev) → endpoints_ok h → endpoints_ok h'.
Proof.
  intros Hsel Hok k e Hk.
  assert (∀ l : loc, (h' !! l = h !! l ∨ h' !! l = refreshed now <$> h !! l) →
            ∀ x, h' !! l = Some x → endpoint_ok x) as Hframe.
  { intros l Hl x Hx. destruct (h !! l) as [y|] eqn:Hy; [|destruct Hl; simpl in *; congruence].
    specialize (Hok l y Hy).
    destruct Hl as [Hl|Hl]; rewrite Hl in Hx; simpl in Hx; injection Hx as <-; [done|].
    by apply refreshed_ok. }
  destruct best as [l|].
  - apply select_endpoint_locked_Some in Hsel as (_ & ep & Hep & Hacc & Hl & _ & Hother).
    destruct (decide (k = l)) as [->|Hne]; [|eauto]. simplify_eq.
    apply charge_ok; [by eapply Hok|].
    apply acceptable_eligible in Hacc. unfold eligible in Hacc. by boolean.
  - apply select_endpoint_locked_None in Hsel as (_ & Hother & _). eauto.
Qed.

Lemma take_over_ok old c : configured_ok c → endpoint_ok (take_over old c).
Proof.
  intros (Hm & Hi & Hh). unfold take_over, endpoint_ok.
  destruct (old !! _); simpl; lia.
Qed.

Lemma endpoint_step_ok s s' :
  endpoint_step s s' → endpoints_ok (es_heap s) → endpoints_ok (es_heap s').
Proof.
  intros Hstep Hok. destruct Hstep as [| | |configured h table endpoints h' table' endpoints' Hc E]; simpl in *.
  - by eapply select_preserves_ok.
  - apply map_Forall_insert_2; [|done]. by eapply result_ok, Hok.
  - apply map_Forall_insert_2; [|done]. by eapply health_ok, Hok.
  - apply commit_spec in E as (_ & _ & _ & _ & Hinv). intros l ep Hl.
    destruct (Hinv l ep Hl) as [Hin|(c & Hin & ->)]; [by eapply Hok|].
    apply take_over_ok. rewrite Forall_forall in Hc. by apply Hc.
Qed.

(** *** Streaks of outcomes *)

(** The outcome of a call or of a health check, with the clock readings and
    the latency of the report. *)
Inductive outcome :=
  | CallOutcome (now : Z) (ok : bool) (latency_ms : Z)
  | CheckOutcome (checked now : Z) (ok : bool) (latency_ms : Z).

Definition outcome_ok (o : outcome) : bool :=
  match o with CallOutcome _ ok _ | CheckOutcome _ _ ok _ => ok end.
Definition outcome_time (o : outcome) : Z :=
  match o with CallOutcome now _ _ | CheckOutcome _ now _ _ => now end.

Definition report (th : thresholds) (ep : VllmEndpoint) (o : outcome) : VllmEndpoint :=
  match o with
  | CallOutcome now ok latency_ms => update_endpoint_result_locked th now ok latency_ms ep
  | CheckOutcome checked now ok latency_ms => update_endpoint_health_locked th checked now ok latency_ms ep
  end.

Definition reports (th : thresholds) (ep : VllmEndpoint) (os : list outcome) : VllmEndpoint :=
  fold_left (report th) os ep.

(** A failed report is [count_failure] after bookkeeping that leaves the
    streak alone. *)
Lemma report_failure th ep o :
  outcome_ok o = false →
  ∃ ep', report th ep o = count_failure th (outcome_time o) ep' ∧
    ep_consecutive_failures ep' = ep_consecutive_failures ep.
Proof.
  destruct o as [now [] latency_ms|checked now [] latency_ms]; intros [=]; cbn [report outcome_time].
  - unfold update_endpoint_result_locked. cbv zeta iota.
    destruct (book_call_frame latency_ms ep) as (_ & _ & _ & _ & <- & _).
    by eexists; split; [reflexivity|].
  - unfold update_endpoint_health_locked. cbv zeta iota.
    destruct (book_check_frame checked latency_ms ep) as (_ & _ & _ & _ & <- & _).
    by eexists; split; [reflexivity|].
Qed.

Lemma count_failure_trips th now ep :
  circuit_failure_threshold th <= ep_consecutive_failures ep + 1 →
  ep_circuit_state (count_failure th now ep) = Open ∧
  ep_circuit_open_until_ms (count_failure th now ep) = now + circuit_open_ms th.
Proof.
  destruct ep. unfold count_failure. cbn. intros Hth.
  repeat (case_match; cbn in * ); try done; lia.
Qed.

Lemma reports_failures_streak th ep os :
  Forall (λ o, outcome_ok o = false) os →
  ep_consecutive_failures (reports th ep os) = ep_consecutive_failures ep + Z.of_nat (length os).
Proof.
  revert ep. induction os as [|o os IH]; intros ep Hos; [simpl; lia|].
  apply Forall_cons in Hos as [Ho Hos]. simpl. rewrite IH by done.
  destruct (report_failure th ep o Ho) as (ep' & -> & Heq).
  destruct (count_failure_frame th (outcome_time o) ep') as (_ & _ & _ & _ & -> & _). lia.
Qed.

(** A successful report lengthens the success streak, and at the recovery
    threshold closes the circuit. *)
Lemma report_success th ep o :
  outcome_ok o = true →
  ep_consecutive_successes (report th ep o) = ep_consecutive_successes ep + 1 ∧
  (recovery_threshold th <= ep_consecutive_successes ep + 1 →
   ep_healthy (report th ep o) = true ∧ ep_circuit_state (report th ep o) = Closed).
Proof.
  destruct o as [now [] latency_ms|checked now [] latency_ms]; intros [=]; cbn [report].
  - unfold update_endpoint_result_locked. cbv zeta iota.
    destruct (book_call_frame latency_ms ep) as (_ & _ & _ & _ & _ & <-).
    generalize (book_call latency_ms ep). intros []. cbn.
    case_match; (split; [done|]); intros; (done || lia).
  - unfold update_endpoint_health_locked. cbv zeta iota.
    destruct (book_check_frame checked latency_ms ep) as (_ & _ & _ & _ & _ & <-).
    generalize (book_check checked latency_ms ep). intros [? ? ? ? ? ? ? ? ? ? ? [] ? ? ? ? ? ? ? ? ? ? ? ?];
      cbn; case_match; (split; [done|]); intros; (done || lia).
Qed.

Lemma reports_success_streak th ep os :
  Forall (λ o, outcome_ok o = true) os →
  ep_consecutive_successes (reports th ep os) = ep_consecutive_successes ep + Z.of_nat (length os).
Proof.
  revert ep. induction os as [|o os IH]; intros ep Hos; [simpl; lia|].
  apply Forall_cons in Hos as [Ho Hos]. simpl. rewrite IH by done.
  destruct (report_success th ep o Ho) as [-> _]. lia.
Qed.

Lemma book_call_circuit latency_ms ep :
  ep_circuit_state (book_call latency_ms ep) = ep_circuit_state ep ∧
  ep_circuit_open_until_ms (book_call latency_ms ep) = ep_circuit_open_until_ms ep.
Proof. destruct ep. unfold book_call. cbn. repeat (case_match; cbn); done. Qed.

Lemma book_check_circuit checked latency_ms ep :
  ep_circuit_state (book_check checked latency_ms ep) = ep_circuit_state ep ∧
  ep_circuit_open_until_ms (book_check checked latency_ms ep) = ep_circuit_open_until_ms ep.
Proof. destruct ep. unfold book_check. cbn. repeat (case_match; cbn); done. Qed.

(** A failure sets the success streak to zero and never closes or shortens an
    open circuit, as long as its clock has not gone back. *)
Lemma count_failure_open th now ep until :
  until <= now + circuit_open_ms th →
  ep_circuit_state ep = Open → until <= ep_circuit_open_until_ms ep →
  let ep' := count_failure th now ep in
  ep_circuit_state ep' = Open ∧ until <= ep_circuit_open_until_ms ep' ∧
  ep_consecutive_successes ep' = 0.
Proof.
  intros Ht Ho Hu. destruct ep. cbn in *. subst. unfold count_failure. cbn.
  repeat (case_match; cbn); split_and!; done.
Qed.

Lemma count_failure_successes th now ep :
  ep_consecutive_successes (count_failure th now ep) = 0.
Proof. destruct ep. unfold count_failure. cbn. repeat (case_match; cbn); done. Qed.

Lemma report_failure_open th ep o until :
  outcome_ok o = false → until <= outcome_time o + circuit_open_ms th →
  ep_circuit_state ep = Open → until <= ep_circuit_open_until_ms ep →
  let ep' := report th ep o in
  ep_circuit_state ep' = Open ∧ until <= ep_circuit_open_until_ms ep' ∧
  ep_consecutive_successes ep' = 0.
Proof.
  destruct o as [now [] latency_ms|checked now [] latency_ms]; intros [=] Ht Ho Hu; cbn [report].
  - destruct (book_call_circuit latency_ms ep) as [Hc Hb]. rewrite <- Hc in Ho. rewrite <- Hb in Hu.
    revert Ho Hu. unfold update_endpoint_result_locked. cbv zeta iota.
    generalize (book_call latency_ms ep). intros ep' Ho Hu.
    apply count_failure_open; [done|by destruct ep'..].
  - destruct (book_check_circuit checked latency_ms ep) as [Hc Hb].
    rewrite <- Hc in Ho. rewrite <- Hb in Hu. by apply count_failure_open.
Qed.

(** A successful report that does not complete a streak leaves the circuit. *)
Lemma report_success_open th ep o :
  outcome_ok o = true → ep_consecutive_successes ep + 1 < recovery_threshold th →
  let ep' := report th ep o in
  ep_circuit_state ep' = ep_circuit_state ep ∧
  ep_circuit_open_until_ms ep' = ep_circuit_open_until_ms ep.
Proof.
  destruct o as [now [] latency_ms|checked now [] latency_ms]; intros [=] Hs; cbn [report].
  - unfold update_endpoint_result_locked. cbv zeta iota.
    destruct (book_call_circuit latency_ms ep) as [<- <-].
    destruct (book_call_frame latency_ms ep) as (_ & _ & _ & _ & _ & Hf). rewrite <- Hf in Hs.
    revert Hs. generalize (book_call latency_ms ep). intros [] Hs. cbn in *. case_match; [lia|done].
  - unfold update_endpoint_health_locked. cbv zeta iota.
    destruct (book_check_circuit checked latency_ms ep) as [<- <-].
    destruct (book_check_frame checked latency_ms ep) as (_ & _ & _ & _ & _ & Hf). rewrite <- Hf in Hs.
    revert Hs. generalize (book_check checked latency_ms ep). intros [] Hs. cbn in *. case_match; [lia|done].
Qed.

(** No run of [n] successes in a row among the reports. *)
Definition no_success_run (n : Z) (os : list outcome) : Prop :=
  ∀ a run b, os = a ++ run ++ b → Forall (λ o, outcome_ok o = true) run →
    Z.of_nat (length run) < n.

(** Without such a run an open circuit stays open, and the success streak is
    the length of the successes at the end. *)
Lemma reports_stay_open th ep until later :
  ep_circuit_state ep = Open → until <= ep_circuit_open_until_ms ep →
  ep_consecutive_successes ep = 0 → no_success_run (recovery_threshold th) later →
  Forall (λ o, until <= outcome_time o + circuit_open_ms th) later →
  let ep' := reports th ep later in
  ep_circuit_state ep' = Open ∧ until <= ep_circuit_open_until_ms ep' ∧
  ∃ a run, later = a ++ run ∧ Forall (λ o, outcome_ok o = true) run ∧
    ep_consecutive_successes ep' = Z.of_nat (length run).
Proof.
  intros Ho Hu Hs Hrun Htime. cbv zeta. induction later as [|o later IH] using rev_ind.
  { split_and!; [done|done|]. by exists [], []. }
  apply Forall_app in Htime as [Htime Hot%Forall_inv].
  destruct IH as (Ho' & Hu' & a & run & Hl & Hok & Hlen); [|done|].
  { intros a run b -> Hok. by apply (Hrun a run (b ++ [o])); [rewrite <- !app_assoc|]. }
  unfold reports in *. rewrite fold_left_app. simpl.
  set (ep' := fold_left (report th) later ep) in *. clearbody ep'.
  destruct (outcome_ok o) eqn:Eo.
  - assert (Forall (λ o, outcome_ok o = true) (run ++ [o])) as Hok' by (apply Forall_app; auto).
    assert (Z.of_nat (length (run ++ [o])) < recovery_threshold th) as Hlt.
    { apply (Hrun a _ []); [by rewrite Hl, app_nil_r, app_assoc|done]. }
    rewrite length_app in Hlt. simpl in Hlt.
    destruct (report_success_open th ep' o Eo) as [-> ->]; [lia|].
    split_and!; [done|done|]. exists a, (run ++ [o]). rewrite Hl, app_assoc.
    split_and!; [done|done|]. destruct (report_success th ep' o Eo) as [-> _].
    rewrite length_app. simpl. lia.
  - destruct (report_failure_open th ep' o until Eo Hot Ho' Hu') as (? & ? & ?).
    split_and!; [done|done|]. exists (later ++ [o]), []. by rewrite app_nil_r.
Qed.

(** An open circuit refuses every selection before its time, which leaves the
    endpoint as it is. *)
Lemma open_refused ep now :
  ep_circuit_state ep = Open → now < ep_circuit_open_until_ms ep →
  endpoint_available_locked ep now = (ep, false).
Proof.
  intros Ho Ht. unfold endpoint_available_locked. rewrite decide_True by done.
  destruct (Z.leb_spec (ep_circuit_open_until_ms ep) now); [lia|done].
Qed.

(** *** Where the integers are exact *)

(** The estimate as an exact number. *)
Definition exact_prompt_tokens (req : InferenceRequest) : Z :=
  Z.of_nat (String.length (req_prompt req)) / 4 + req_max_tokens req.

Lemma estimate_exact req :
  0 <= req_max_tokens req → exact_prompt_tokens req <= INT_MAX →
  estimate_prompt_tokens req = exact_prompt_tokens req.
Proof.
  unfold estimate_prompt_tokens, exact_prompt_tokens. intros H0 Hmax.
  pose proof (Z.div_pos (Z.of_nat (String.length (req_prompt req))) 4 ltac:(lia) ltac:(lia)).
  unfold INT_MAX in Hmax. rewrite (to_int_id (_ / 4)), to_int_id; [done| |]; apply is_int_true; lia.
Qed.

(** A client's [max_tokens] near [INT_MAX] overflows the estimate, which then
    fits every context. *)
Lemma estimate_overflows :
  ∃ req, req_max_tokens req = INT_MAX ∧
    exact_prompt_tokens req = INT_MAX + 1 ∧ estimate_prompt_tokens req = INT_MIN.
Proof.
  exists (default_request <| req_prompt := "abcd" |> <| req_max_tokens := INT_MAX |>).
  by vm_compute.
Qed.

(** The score as an exact number. *)
Definition exact_score (ep : VllmEndpoint) (req : InferenceRequest) (degraded : bool) (hp : Z) : Z :=
  ep_weight ep * 10 - Z.quot (ep_inflight ep * 500) (Z.max 1 (ep_max_concurrency ep))
  - d_to_int (d_div (ep_avg_latency_ms ep) (d_of_Z 20)) - ep_consecutive_failures ep * 250
  - (if degraded then 2000 else 0)
  - (if (ep_role ep =? "fallback")%string && (hp <=? req_priority req) then 500 else 0)
  - (if (ep_role ep =? "overflow")%string then 50 else 0)
  - (if decide (ep_circuit_state ep = HalfOpen) then 300 else 0).

(** Figures small enough that no step of the score overflows. *)
Definition moderate (ep : VllmEndpoint) : Prop :=
  Z.abs (ep_weight ep) <= 10000000 ∧ 0 <= ep_inflight ep <= 1000000 ∧
  0 <= ep_consecutive_failures ep <= 1000000 ∧
  Z.abs (d_to_int (d_div (ep_avg_latency_ms ep) (d_of_Z 20))) <= 1000000000.

Lemma score_exact ep req degraded hp :
  moderate ep → endpoint_score ep req degraded hp = exact_score ep req degraded hp.
Proof.
  unfold moderate, endpoint_score, exact_score. cbv zeta.
  set (lat := d_to_int _). clearbody lat. intros (Hw & Hi & Hf & Hl).
  assert (0 <= Z.quot (ep_inflight ep * 500) (Z.max 1 (ep_max_concurrency ep)) <= 500000000) as Hq.
  { split; [apply Z.quot_pos; lia|]. etrans; [apply Z.quot_le_upper_bound with (q := ep_inflight ep * 500)|lia];
      nia. }
  revert Hq. rewrite !(to_int_id (ep_inflight ep * 500)) by (apply is_int_true; lia).
  generalize (Z.quot (ep_inflight ep * 500) (Z.max 1 (ep_max_concurrency ep))) as q. intros q Hq.
  rewrite (to_int_id (ep_weight ep * 10)), (to_int_id (ep_consecutive_failures ep * 250)),
    (to_int_id (ep_weight ep * 10 - q)), (to_int_id (ep_weight ep * 10 - q - lat)),
    (to_int_id (_ - _ * 250)) by (apply is_int_true; lia).
  destruct degraded, (_ && _), (ep_role ep =? "overflow")%string, (decide _);
    rewrite ?to_int_id by (repeat rewrite to_int_id; apply is_int_true; lia); lia.
Qed.

Lemma refreshed_moderate now ep : moderate ep → moderate (refreshed now ep).
Proof.
  unfold refreshed, endpoint_available_locked. destruct (decide _); [|done]. by destruct (_ <=? _).
Qed.

(** ** Properties *)

(** C4.  An endpoint that [select_endpoint] returns is one of the
    configured endpoints; it supports the request, had a free slot, its
    circuit was not open (or the open period was over), an unhealthy one is
    only used as a half-open probe and only while no other probe is counted,
    the estimate of the prompt and its answer, computed in 32-bit integers,
    fits its context (and so does the exact number, when [max_tokens] is not
    negative and the exact sum is an [int]: see [estimate_overflows] for a
    client's [max_tokens] near [INT_MAX]), and it is not a degraded choice
    unless the request allows degradation.  It is charged one call; no other
    endpoint changes except an expired open circuit turning half open. *)
Theorem select_endpoint_sound req now hp endpoints h h' l ev :
  select_endpoint_locked req now hp endpoints h = (h', Some l, ev) →
  l ∈ endpoints ∧ ∃ ep, h !! l = Some ep ∧
    endpoint_supports_request ep req = true ∧
    ep_inflight ep < ep_max_concurrency ep ∧
    (ep_circuit_state ep = Open → ep_circuit_open_until_ms ep <= now) ∧
    (ep_circuit_state ep = Closed → ep_healthy ep = true) ∧
    (ep_circuit_state ep = HalfOpen → ep_half_open_inflight ep <= 0) ∧
    (0 < ep_max_context_len ep → estimate_prompt_tokens req <= ep_max_context_len ep) ∧
    (0 < ep_max_context_len ep → 0 <= req_max_tokens req → exact_prompt_tokens req <= INT_MAX →
     exact_prompt_tokens req <= ep_max_context_len ep) ∧
    (req_allow_degrade req = false → is_degraded_endpoint ep req = false) ∧
    h' !! l = Some (charge_endpoint (refreshed now ep)) ∧
    ep_inflight (charge_endpoint (refreshed now ep)) = ep_inflight ep + 1 ∧
    ∀ k, k ≠ l → h' !! k = h !! k ∨ h' !! k = refreshed now <$> h !! k.
Proof.
  intros Hsel.
  apply select_endpoint_locked_Some in Hsel as (Hin & ep & Hep & Hacc & Hl & _ & Hother).
  apply acceptable_spec in Hacc as (? & ? & ? & ? & ? & ? & ?).
  split; [done|]. exists ep. split_and!; try done.
  { intros. rewrite <- estimate_exact by done. auto. }
  unfold charge_endpoint. destruct (refreshed_frame now ep) as (_ & _ & _ & _ & _ & <- & _).
  simpl. by destruct (decide _).
Qed.

(** C5.  For a request that allows degradation, [select_endpoint]
    finds an endpoint whenever an eligible one exists, and the one it returns
    has the best model preference rank and, within that rank, the highest
    score.  The score is the one the code computes, in 32-bit integers; between
    two endpoints of moderate figures, for which no step overflows, it is also
    the exact one. *)
Theorem select_endpoint_optimal req now hp endpoints h h' best ev :
  req_allow_degrade req = true →
  select_endpoint_locked req now hp endpoints h = (h', best, ev) →
  match best with
  | None => ∀ k ep, k ∈ endpoints → h !! k = Some ep → eligible req now ep = false
  | Some l => ∃ ep, h !! l = Some ep ∧
      ∀ k ep', k ∈ endpoints → h !! k = Some ep' → eligible req now ep' = true →
        at_least_as_good req now hp ep ep' ∧
        (moderate ep → moderate ep' → rank_of req ep = rank_of req ep' →
         exact_score (refreshed now ep') req (is_degraded_endpoint ep' req) hp <=
         exact_score (refreshed now ep) req (is_degraded_endpoint ep req) hp)
  end.
Proof.
  intros Ha Hsel. destruct best as [l|].
  - unfold select_endpoint_locked in Hsel.
    destruct (select_loop_spec req now hp h endpoints) as (_ & Hs & Ho).
    set (s := select_loop req now hp endpoints h) in *. clearbody s.
    unfold best_sound in Hs. destruct (sel_best s) as [b|]; [|done].
    destruct Hs as (_ & ep & Hep & _ & Hb & Hrank & Hscore). rewrite Hb in Hsel.
    injection Hsel as _ -> _. exists ep. split; [done|]. intros k ep' Hk Hep' Hel.
    destruct (Ho Ha k ep' Hk Hep' Hel) as [_ Hcmp].
    assert (at_least_as_good req now hp ep ep') as Hgood by (unfold at_least_as_good; lia).
    split; [done|]. intros Hm Hm' Hr. apply (refreshed_moderate now) in Hm, Hm'.
    rewrite <- !score_exact by done. unfold at_least_as_good in Hgood. fold (score_of req now hp ep)
      (score_of req now hp ep'). lia.
  - apply select_endpoint_locked_None in Hsel as (_ & _ & Hnone). by apply Hnone.
Qed.

(** C20.  In every interleaving of selections, call results, health checks
    and reloads of a scheduler, every endpoint object stays within its
    concurrency limit ([0 <= inflight <= max_concurrency]) and counts at most
    one half-open probe.  (The load of a further scheduler is no step here: it
    rewrites the limit of an endpoint it shares, see
    [failed_load_rewrites_shared_endpoint] in the file on configuration.) *)
Theorem capacity_invariant s s' :
  rtc endpoint_step s s' → endpoints_ok (es_heap s) → endpoints_ok (es_heap s').
Proof. apply (rtc_preserves _ (λ s, endpoints_ok (es_heap s))), endpoint_step_ok. Qed.

(** C31.  Enough consecutive failures, of calls or of health checks in
    any mix, open the circuit.  Whatever is reported afterwards (with clock
    readings not before the last failure), until [recovery_threshold] successes
    in a row are reported, the circuit stays open for [circuit_open_ms] after
    the last of these failures: the endpoint refuses every selection, and is
    not changed by it. *)
Theorem failures_open_circuit th ep os o later t :
  0 <= ep_consecutive_failures ep →
  Forall (λ o, outcome_ok o = false) (os ++ [o]) →
  circuit_failure_threshold th <= Z.of_nat (length (os ++ [o])) →
  no_success_run (recovery_threshold th) later →
  Forall (λ o', outcome_time o <= outcome_time o') later →
  t < outcome_time o + circuit_open_ms th →
  let ep' := reports th ep (os ++ [o] ++ later) in
  ep_circuit_state ep' = Open ∧ endpoint_available_locked ep' t = (ep', false).
Proof.
  intros H0 Hall Hlen Hrun Htime Ht. apply Forall_app in Hall as [Hos Ho]. apply Forall_inv in Ho.
  unfold reports. rewrite !fold_left_app. simpl. fold (reports th ep os).
  destruct (report_failure th (reports th ep os) o Ho) as (ep' & Er & Heq). rewrite Er.
  rewrite reports_failures_streak in Heq by done. rewrite length_app in Hlen. simpl in Hlen.
  destruct (count_failure_trips th (outcome_time o) ep') as [Hopen Huntil]; [lia|].
  destruct (reports_stay_open th (count_failure th (outcome_time o) ep')
    (outcome_time o + circuit_open_ms th) later) as (Hopen' & Huntil' & _);
    [done|lia|apply count_failure_successes|done| |].
  { eapply Forall_impl; [exact Htime|]. simpl. lia. }
  split; [done|]. apply open_refused; [done|]. unfold reports in Huntil'. lia.
Qed.

(** Enough consecutive successes, of calls or of health checks
    in any mix, make the endpoint healthy and close its circuit, from any
    state. *)
Theorem successes_close_circuit th ep os o :
  0 <= ep_consecutive_successes ep →
  Forall (λ o, outcome_ok o = true) (os ++ [o]) →
  recovery_threshold th <= Z.of_nat (length (os ++ [o])) →
  ep_healthy (reports th ep (os ++ [o])) = true ∧
  ep_circuit_state (reports th ep (os ++ [o])) = Closed.
Proof.
  intros H0 Hall Hlen. apply Forall_app in Hall as [Hos Ho]. apply Forall_inv in Ho.
  unfold reports. rewrite fold_left_app. simpl. fold (reports th ep os).
  apply report_success; [done|]. rewrite reports_success_streak by done.
  rewrite length_app in Hlen. simpl in Hlen. lia.
Qed.

(** A reload creates one new object per configured endpoint, in
    order and all distinct from the existing objects, which it leaves
    untouched; an endpoint whose URL and model were configured before keeps
    its health, circuit and statistics. *)
Theorem reload_keeps_runtime_state endpoints configured h table h' table' ls :
  commit_reloaded_endpoints_locked endpoints configured h table = (h', table', ls) →
  h ⊆ h' ∧ NoDup ls ∧ Forall (λ l, h !! l = None) ls ∧
  Forall2 (λ l c, ∃ ep, h' !! l = Some ep ∧
    endpoint_runtime_key ep = endpoint_runtime_key c ∧
    ep_weight ep = ep_weight c ∧ ep_max_concurrency ep = ep_max_concurrency c ∧
    ∀ old, index_by_key h endpoints !! endpoint_runtime_key c = Some old →
      ep_healthy ep = ep_healthy old ∧ ep_circuit_state ep = ep_circuit_state old ∧
      ep_circuit_open_until_ms ep = ep_circuit_open_until_ms old ∧
      ep_consecutive_failures ep = ep_consecutive_failures old ∧
      ep_avg_latency_ms ep = ep_avg_latency_ms old ∧
      ep_success_count ep = ep_success_count old ∧
      ep_failure_count ep = ep_failure_count old) ls configured.
Proof.
  intros E. apply commit_spec in E as (Hsub & Hnd & Hfresh & Hall & _).
  split_and!; try done. eapply Forall2_impl; [exact Hall|]. intros l c Hl. simpl.
  exists (take_over (index_by_key h endpoints) c). split; [done|].
  unfold take_over. destruct (index_by_key h endpoints !! endpoint_runtime_key c) as [old|];
    split_and!; try done. intros old' [= <-]. done.
Qed.

(** A reload forgets the calls in flight: an endpoint that was full
    is replaced by an object with the same URL and model that accepts calls
    at once, while the old object still counts its running calls, so the
    configured concurrency limit does not bound the calls the backend serves. *)
Theorem reload_forgets_calls_in_flight now l ep c h table h' table' ls :
  h !! l = Some ep → ep_inflight ep = ep_max_concurrency ep →
  ep_healthy ep = true → ep_circuit_state ep = Closed →
  endpoint_runtime_key c = endpoint_runtime_key ep → 1 <= ep_max_concurrency c →
  commit_reloaded_endpoints_locked [l] [c] h table = (h', table', ls) →
  ∃ l' ep', ls = [l'] ∧ h' !! l = Some ep ∧ h' !! l' = Some ep' ∧
    endpoint_runtime_key ep' = endpoint_runtime_key ep ∧ available now ep' = true.
Proof.
  intros Hl _ Hh Hc Hkey Hmax E.
  apply commit_spec in E as (Hsub & _ & _ & Hall & _).
  pose proof (Forall2_length _ _ _ Hall) as Hlen.
  destruct ls as [|l' [|? ?]]; [done| |done]. clear Hlen.
  apply Forall2_cons in Hall as [Hl' _].
  assert (index_by_key h [l] !! endpoint_runtime_key c = Some ep) as Hidx.
  { unfold index_by_key. simpl. rewrite Hl, Hkey. apply lookup_insert_eq. }
  unfold take_over in Hl'. rewrite Hidx in Hl'.
  exists l', (copy_endpoint_runtime_fields c ep). split_and!; [done|by eapply lookup_weaken|done|done|].
  unfold available, endpoint_available_locked. cbn. rewrite Hc, Hh. cbn.
  by destruct (Z.leb_spec (ep_max_concurrency c) 0); [lia|].
Qed.

Lemma count_failure_below th now ep :
  ep_consecutive_failures ep + 1 < circuit_failure_threshold th →
  ep_circuit_state (count_failure th now ep) = ep_circuit_state ep.
Proof.
  destruct ep. unfold count_failure. cbn. intros Hth.
  repeat (case_match; cbn in * ); try done; lia.
Qed.

(** The half-open probe limit counts results, not probes: while a probe
    is running, the failed result of a call that started before the circuit
    opened releases the probe slot, and a second probe is admitted. *)
Theorem stale_result_admits_second_probe th now later latency_ms ep :
  ep_circuit_state ep = HalfOpen → ep_half_open_inflight ep = 1 →
  2 <= ep_inflight ep <= ep_max_concurrency ep →
  ep_consecutive_failures ep + 1 < circuit_failure_threshold th →
  available now ep = false ∧
  available later (update_endpoint_result_locked th now false latency_ms ep) = true.
Proof.
  intros Hc Hp Hi Hf. split.
  - unfold available, endpoint_available_locked. by rewrite decide_False, Hc, Hp by congruence.
  - assert (ep_circuit_state (update_endpoint_result_locked th now false latency_ms ep) = HalfOpen) as Hs.
    { unfold update_endpoint_result_locked. rewrite <- (proj1 (book_call_circuit latency_ms ep)) in Hc.
      destruct (book_call_frame latency_ms ep) as (_ & _ & _ & _ & Hcf & _). rewrite <- Hcf in Hf.
      revert Hc Hf. generalize (book_call latency_ms ep). intros ep' Hc Hf.
      rewrite count_failure_below; by destruct ep'. }
    pose proof (result_counters th now false latency_ms ep) as (Hm & Hin & Hh & _).
    unfold available, endpoint_available_locked. rewrite decide_False, Hs, Hm, Hin, Hh, Hp by congruence.
    rewrite (proj2 (Z.ltb_lt 0 (ep_inflight ep))) by lia.
    rewrite (proj2 (Z.leb_gt (ep_max_concurrency ep) (ep_inflight ep - 1))) by lia.
    cbn. by rewrite !andb_false_r.
Qed.

(** *** Concrete endpoints for the examples *)

Definition sample_endpoint (name url model role : string) (logical : list string) : VllmEndpoint :=
  default_endpoint <| ep_name := name |> <| ep_base_url := url |> <| ep_served_model := model |>
    <| ep_role := role |> <| ep_logical_models := logical |> <| ep_max_concurrency := 2 |>.

Definition sample_heap : heap :=
  {[ 0%nat := sample_endpoint "a" "http://a" "qwen3-8b" "primary" ["chat"];
     1%nat := sample_endpoint "b" "http://b" "qwen3-4b" "fallback" ["chat"] ]}.

Definition sample_request : InferenceRequest :=
  default_request <| req_logical_model := "chat" |>
    <| req_fallback_chain := ["qwen3-8b"; "qwen3-4b"] |>.

Definition sample_thresholds : thresholds := MkThresholds 2 3 5 30000.

Lemma select_endpoint_sound_witness :
  (select_endpoint_locked sample_request 100 7 [0%nat; 1%nat] sample_heap).1.2 = Some 0%nat ∧
  0%nat ∈ [0%nat; 1%nat].
Proof.
  assert (select_endpoint_locked sample_request 100 7 [0%nat; 1%nat] sample_heap =
    ((select_endpoint_locked sample_request 100 7 [0%nat; 1%nat] sample_heap).1.1, Some 0%nat,
     (select_endpoint_locked sample_request 100 7 [0%nat; 1%nat] sample_heap).2)) as E
    by (vm_compute; reflexivity).
  split; [vm_compute; reflexivity|]. exact (proj1 (select_endpoint_sound _ _ _ _ _ _ _ _ E)).
Defined.

Lemma select_endpoint_optimal_witness :
  ∃ ep, sample_heap !! 0%nat = Some ep ∧
    ∀ k ep', k ∈ [0%nat; 1%nat] → sample_heap !! k = Some ep' →
      eligible sample_request 100 ep' = true → at_least_as_good sample_request 100 7 ep ep' ∧
      (moderate ep → moderate ep' → rank_of sample_request ep = rank_of sample_request ep' →
       exact_score (refreshed 100 ep') sample_request (is_degraded_endpoint ep' sample_request) 7 <=
       exact_score (refreshed 100 ep) sample_request (is_degraded_endpoint ep sample_request) 7).
Proof.
  assert (select_endpoint_locked sample_request 100 7 [0%nat; 1%nat] sample_heap =
    ((select_endpoint_locked sample_request 100 7 [0%nat; 1%nat] sample_heap).1.1, Some 0%nat,
     (select_endpoint_locked sample_request 100 7 [0%nat; 1%nat] sample_heap).2)) as E
    by (vm_compute; reflexivity).
  exact (select_endpoint_optimal sample_request 100 7 _ _ _ (Some 0%nat) _ eq_refl E).
Defined.

Lemma capacity_invariant_witness :
  let s := MkEndpointState sample_heap ∅ [0%nat; 1%nat] in
  let h' := (select_endpoint_locked sample_request 100 7 [0%nat; 1%nat] sample_heap).1.1 in
  endpoints_ok h'.
Proof.
  cbv zeta.
  apply (capacity_invariant (MkEndpointState sample_heap ∅ [0%nat; 1%nat])
    (MkEndpointState (select_endpoint_locked sample_request 100 7 [0%nat; 1%nat] sample_heap).1.1
       ∅ [0%nat; 1%nat])).
  - apply rtc_once. apply (step_select sample_request 100 7 _ _ _ _ (Some 0%nat)
      (select_endpoint_locked sample_request 100 7 [0%nat; 1%nat] sample_heap).2).
    vm_compute; reflexivity.
  - apply map_Forall_insert_2; [|apply map_Forall_singleton]; unfold endpoint_ok; cbn; lia.
Defined.

Lemma failures_open_circuit_witness :
  let os := [CallOutcome 1 false 10; CheckOutcome 2 2 false 10; CallOutcome 3 false 10;
             CallOutcome 4 false 10] in
  let ep := reports sample_thresholds (sample_endpoint "a" "http://a" "m" "primary" ["m"])
              (os ++ [CallOutcome 5 false 10] ++ [CheckOutcome 5005 5006 true 20]) in
  ep_circuit_state ep = Open ∧ endpoint_available_locked ep 30004 = (ep, false).
Proof.
  apply (failures_open_circuit sample_thresholds (sample_endpoint "a" "http://a" "m" "primary" ["m"])
           [CallOutcome 1 false 10; CheckOutcome 2 2 false 10; CallOutcome 3 false 10; CallOutcome 4 false 10]
           (CallOutcome 5 false 10) [CheckOutcome 5005 5006 true 20] 30004).
  - vm_compute. discriminate.
  - repeat constructor.
  - vm_compute. discriminate.
  - intros a run b E _. apply (f_equal length) in E. rewrite !length_app in E. cbn in *. lia.
  - repeat constructor. cbn. lia.
  - vm_compute. reflexivity.
Defined.

Lemma successes_close_circuit_witness :
  let ep := (sample_endpoint "a" "http://a" "m" "primary" ["m"])
              <| ep_healthy := false |> <| ep_circuit_state := Open |> in
  let ep' := reports sample_thresholds ep ([CheckOutcome 1 1 true 10] ++ [CallOutcome 2 true 10]) in
  ep_healthy ep' = true ∧ ep_circuit_state ep' = Closed.
Proof.
  apply (successes_close_circuit sample_thresholds
           ((sample_endpoint "a" "http://a" "m" "primary" ["m"])
              <| ep_healthy := false |> <| ep_circuit_state := Open |>)
           [CheckOutcome 1 1 true 10] (CallOutcome 2 true 10)).
  - vm_compute. discriminate.
  - repeat constructor.
  - vm_compute. discriminate.
Defined.

Lemma reload_keeps_runtime_state_witness :
  let c := sample_endpoint "a2" "http://a" "qwen3-8b" "primary" ["chat"] in
  sample_heap ⊆ (commit_reloaded_endpoints_locked [0%nat; 1%nat] [c] sample_heap ∅).1.1.
Proof.
  cbv zeta. destruct (commit_reloaded_endpoints_locked _ _ _ _) as [[h' table'] ls] eqn:E.
  exact (proj1 (reload_keeps_runtime_state _ _ _ _ _ _ _ E)).
Defined.

Definition full_endpoint : VllmEndpoint :=
  (sample_endpoint "a" "http://a" "m" "primary" ["m"]) <| ep_inflight := 2 |>.

Lemma reload_forgets_calls_in_flight_witness :
  let c := sample_endpoint "a" "http://a" "m" "primary" ["m"] in
  ∃ l' ep', (commit_reloaded_endpoints_locked [0%nat] [c] {[0%nat := full_endpoint]} ∅).2 = [l'] ∧
    (commit_reloaded_endpoints_locked [0%nat] [c] {[0%nat := full_endpoint]} ∅).1.1 !! l' = Some ep' ∧
    available 0 ep' = true.
Proof.
  cbv zeta. destruct (commit_reloaded_endpoints_locked _ _ _ _) as [[h' table'] ls] eqn:E.
  destruct (reload_forgets_calls_in_flight 0 0%nat full_endpoint
    (sample_endpoint "a" "http://a" "m" "primary" ["m"]) {[0%nat := full_endpoint]} ∅ h' table' ls)
    as (l' & ep' & Hls & _ & Hl' & _ & Hav);
    try (vm_compute; reflexivity); [vm_compute; discriminate|exact E|].
  by exists l', ep'.
Defined.

Lemma stale_result_admits_second_probe_witness :
  let ep := full_endpoint <| ep_circuit_state := HalfOpen |> <| ep_half_open_inflight := 1 |> in
  available 10 ep = false ∧
  available 20 (update_endpoint_result_locked sample_thresholds 10 false 5 ep) = true.
Proof.
  apply (stale_result_admits_second_probe sample_thresholds 10 20 5
    (full_endpoint <| ep_circuit_state := HalfOpen |> <| ep_half_open_inflight := 1 |>));
    vm_compute; try reflexivity; split; discriminate.
Defined.

(** For a request that forbids degradation the loop can lose an
    acceptable endpoint: a later endpoint with a better rank that turns out to
    be a degraded choice resets the best one before it is itself skipped, and
    [select_endpoint] answers that there is no endpoint. *)
Theorem select_drops_acceptable_endpoint :
  ∃ req now hp endpoints h,
    (∃ l ep, l ∈ endpoints ∧ h !! l = Some ep ∧ acceptable req now ep = true) ∧
    (select_endpoint_locked req now hp endpoints h).1.2 = None.
Proof.
  exists (default_request <| req_logical_model := "m1" |> <| req_fallback_chain := ["m0"; "m1"] |>
            <| req_allow_degrade := false |>), 0, 7, [0%nat; 1%nat],
    {[ 0%nat := sample_endpoint "a" "http://a" "m1" "primary" ["m1"];
       1%nat := sample_endpoint "b" "http://b" "m9" "fallback" ["m1"] ]}.
  split; [|vm_compute; reflexivity].
  exists 0%nat, (sample_endpoint "a" "http://a" "m1" "primary" ["m1"]).
  split; [by left|]. split; vm_compute; reflexivity.
Qed.
