(* ===== verification/Queue.v ===== *)
(** * The request queue of [vllm_task]

    Admission into [pending_] (the critical section of [inference]), the
    weighted choice among the three priority classes ([pop_next_request]) and
    the queue statistics of [node/vllm-client/src/main.cpp].  The condition
    variable is the [Blocked] outcome of a pop: the caller waits and tries
    again.  Products of configuration integers are those of 32-bit
    two's complement arithmetic. *)
From S2P Require Import Prelude StdString Doubles Json Observability Types.

(** ** Classes and counts *)

Definition priority_class (priority high_priority_threshold : Z) : Z :=
  if high_priority_threshold <=? priority then 0
  else if 4 <=? priority then 1
  else 2.

Definition count_request (high_priority_threshold : Z) (event : QueueMetricsEvent)
    (req : InferenceRequest) : QueueMetricsEvent :=
  if high_priority_threshold <=? req_priority req then event <| qme_high := qme_high event + 1 |>
  else if 4 <=? req_priority req then event <| qme_normal := qme_normal event + 1 |>
  else event <| qme_background := qme_background event + 1 |>.

Definition queue_metrics_locked (max_queue_size high_priority_threshold : Z)
    (pending : list InferenceRequest) : QueueMetricsEvent :=
  let event := MkQueueMetricsEvent 0 0 0 0 max_queue_size in
  let event := fold_left (count_request high_priority_threshold) pending event in
  event <| qme_pending := qme_high event + qme_normal event + qme_background event |>.

(** The string [body["pressure"]] of [queue_stats]. *)
Definition queue_pressure (total max_queue_size : Z) : string :=
  if (max_queue_size <=? 0) || (total <? Z.quot (to_int (max_queue_size * 6)) 10) then "normal"
  else if total <? Z.quot (to_int (max_queue_size * 9)) 10 then "pressure"
  else if total <? max_queue_size then "overload"
  else "full".

Definition queue_stats (max_queue_size high_priority_threshold : Z)
    (pending : list InferenceRequest) : json :=
  let event := fold_left (count_request high_priority_threshold) pending
                 (MkQueueMetricsEvent 0 0 0 0 max_queue_size) in
  let total := qme_high event + qme_normal event + qme_background event in
  mk_obj [("high", JInt (qme_high event)); ("normal", JInt (qme_normal event));
          ("background", JInt (qme_background event)); ("total", JInt total);
          ("pressure", JStr (queue_pressure total max_queue_size))].

(** ** Admission *)

Record queue_limits := MkQueueLimits {
  ql_max_queue_size : Z;
  ql_low_priority_drop_threshold : Z;
  ql_high_priority_threshold : Z;
}.

Inductive admission :=
  | Enqueued (pending : list InferenceRequest)
  | Rejected (error_code : Z) (error_message : string).

Definition admit_locked (lim : queue_limits) (req : InferenceRequest)
    (pending : list InferenceRequest) : admission :=
  let queue_size := Z.of_nat (length pending) in
  let max_queue_size := ql_max_queue_size lim in
  let overload_threshold :=
    if 0 <? max_queue_size then Z.quot (to_int (max_queue_size * 9)) 10 else 0 in
  if (0 <? max_queue_size) && (max_queue_size <=? queue_size) then
    Rejected (-40) "task queue full"
  else if (0 <? overload_threshold) && (overload_threshold <=? queue_size) &&
          (req_priority req <? ql_high_priority_threshold lim) then
    Rejected (-43) "task queue is overloaded"
  else if (0 <? ql_low_priority_drop_threshold lim) &&
          (ql_low_priority_drop_threshold lim <=? queue_size) && (req_priority req <? 4) then
    Rejected (-43) "background task rejected under queue pressure"
  else Enqueued (pending ++ [req]).

(** ** The choice of the next request *)

Definition takes_over (it best : InferenceRequest) : bool :=
  (req_priority best <? req_priority it) ||
  ((req_priority it =? req_priority best) && (req_task_id it <? req_task_id best)).

Fixpoint find_best_from (target_class high_priority_threshold : Z) (i : nat)
    (best : option (nat * InferenceRequest)) (rest : list InferenceRequest)
    : option (nat * InferenceRequest) :=
  match rest with
  | [] => best
  | it :: rest =>
      let best :=
        if negb (priority_class (req_priority it) high_priority_threshold =? target_class) then best
        else match best with
             | None => Some (i, it)
             | Some (_, b) => if takes_over it b then Some (i, it) else best
             end in
      find_best_from target_class high_priority_threshold (S i) best rest
  end.

(** The iterator returned is a position, [None] for [pending_.end()]. *)
Definition find_best_request_in_class_locked (target_class high_priority_threshold : Z)
    (pending : list InferenceRequest) : option (nat * InferenceRequest) :=
  find_best_from target_class high_priority_threshold 0 None pending.

Definition kSchedule : list Z := [0; 0; 0; 0; 0; 1; 1; 1; 2].
Definition kScheduleSize : Z := 9.

Definition class_at (slot : Z) : Z := nth (Z.to_nat (slot mod kScheduleSize)) kSchedule 0.
Definition next_slot (slot : Z) : Z := (slot + 1) mod kScheduleSize.

(** The loop over the schedule, [fuel] slots left to visit. *)
Fixpoint visit_slots (fuel : nat) (high_priority_threshold : Z) (slot : Z)
    (pending : list InferenceRequest) : Z * option (nat * InferenceRequest) :=
  match fuel with
  | O => (slot, None)
  | S fuel =>
      let target_class := class_at slot in
      let slot := next_slot slot in
      match find_best_request_in_class_locked target_class high_priority_threshold pending with
      | Some best => (slot, Some best)
      | None => visit_slots fuel high_priority_threshold slot pending
      end
  end.

Record request_queue := MkRequestQueue {
  q_pending : list InferenceRequest;
  q_schedule_slot : Z;
}.
#[export] Instance eta_q : Eta request_queue := fun q =>
  MkRequestQueue (q_pending q) (q_schedule_slot q).

Inductive pop_outcome :=
  | Blocked
  | Finished
  | Popped (req : InferenceRequest) (q : request_queue).

Definition pop_next_request (stopping : bool) (high_priority_threshold : Z) (q : request_queue)
    : pop_outcome :=
  match q_pending q with
  | [] => if stopping then Finished else Blocked
  | front :: _ =>
      let '(slot, best) :=
        visit_slots (Z.to_nat kScheduleSize) high_priority_threshold (q_schedule_slot q) (q_pending q) in
      let '(i, req) := match best with Some b => b | None => (0%nat, front) end in
      Popped req (MkRequestQueue (delete i (q_pending q)) slot)
  end.

(** ** Lemmas *)

Definition in_class (hp c : Z) (r : InferenceRequest) : Prop :=
  priority_class (req_priority r) hp = c.
#[export] Instance in_class_dec hp c r : Decision (in_class hp c r).
Proof. unfold in_class. apply _. Defined.

(** [r] is the request the class [c] would hand out from [l]. *)
Definition best_in_class (hp c : Z) (l : list InferenceRequest) (r : InferenceRequest) : Prop :=
  in_class hp c r ∧ ∀ r', r' ∈ l → in_class hp c r' → takes_over r' r = false.

Lemma priority_class_range p hp : 0 <= priority_class p hp <= 2.
Proof. unfold priority_class. split_ifs; lia. Qed.

Lemma takes_over_irrefl r : takes_over r r = false.
Proof. unfold takes_over. lia. Qed.

Lemma takes_over_trans r it b :
  takes_over it b = true → takes_over r b = false → takes_over r it = false.
Proof. unfold takes_over. lia. Qed.

Definition best_so_far (hp c : Z) (l : list InferenceRequest) (best : option (nat * InferenceRequest)) : Prop :=
  match best with
  | None => Forall (λ r, ¬ in_class hp c r) l
  | Some (i, r) => l !! i = Some r ∧ best_in_class hp c l r
  end.

Lemma best_so_far_skip hp c l best it :
  ¬ in_class hp c it → best_so_far hp c l best → best_so_far hp c (l ++ [it]) best.
Proof.
  intros Hit. destruct best as [[i r]|]; simpl.
  - intros (Hi & Hc & Hb). split; [by apply lookup_app_l_Some|]. split; [done|].
    intros r' [Hr'|Hr'%list_elem_of_singleton]%elem_of_app; [by auto|by subst].
  - intros Hl. apply Forall_app_2; [done|]. by constructor.
Qed.

Lemma best_so_far_first hp c l it :
  in_class hp c it → best_so_far hp c l None → best_so_far hp c (l ++ [it]) (Some (length l, it)).
Proof.
  simpl. intros Hit Hl. split; [by apply list_lookup_middle|]. split; [done|].
  intros r' [Hr'|Hr'%list_elem_of_singleton]%elem_of_app Hc.
  - rewrite Forall_forall in Hl. by destruct (Hl r').
  - subst. apply takes_over_irrefl.
Qed.

Lemma best_so_far_next hp c l i b it :
  in_class hp c it → best_so_far hp c l (Some (i, b)) →
  best_so_far hp c (l ++ [it]) (if takes_over it b then Some (length l, it) else Some (i, b)).
Proof.
  simpl. intros Hit (Hi & Hc & Hb). destruct (takes_over it b) eqn:E; simpl.
  - split; [by apply list_lookup_middle|]. split; [done|].
    intros r' [Hr'|Hr'%list_elem_of_singleton]%elem_of_app Hc'.
    + eauto using takes_over_trans.
    + subst. apply takes_over_irrefl.
  - split; [by apply lookup_app_l_Some|]. split; [done|].
    intros r' [Hr'|Hr'%list_elem_of_singleton]%elem_of_app Hc'; [by auto|by subst].
Qed.

Lemma find_best_from_spec hp c rest : ∀ pre best,
  best_so_far hp c pre best →
  best_so_far hp c (pre ++ rest) (find_best_from c hp (length pre) best rest).
Proof.
  induction rest as [|it rest IH]; intros pre best Hbest; simpl; [by rewrite app_nil_r|].
  rewrite (cons_middle it pre rest), app_assoc.
  replace (S (length pre)) with (length (pre ++ [it])) by (rewrite length_app; simpl; lia).
  apply IH. destruct (Z.eqb_spec (priority_class (req_priority it) hp) c) as [Hc|Hc]; simpl.
  - destruct best as [[i b]|]; [by apply best_so_far_next|by apply best_so_far_first].
  - by apply best_so_far_skip.
Qed.

Lemma find_best_spec hp c pending :
  best_so_far hp c pending (find_best_request_in_class_locked c hp pending).
Proof. apply (find_best_from_spec hp c pending []). by constructor. Qed.

Lemma find_best_none hp c pending :
  find_best_request_in_class_locked c hp pending = None → ∀ r, r ∈ pending → ¬ in_class hp c r.
Proof.
  intros E. pose proof (find_best_spec hp c pending) as H. rewrite E in H. by apply Forall_forall.
Qed.

(** Slots are indices of the schedule. *)
Lemma next_slot_range slot : 0 <= next_slot slot < 9.
Proof. unfold next_slot, kScheduleSize. apply Z.mod_pos_bound. lia. Qed.

Lemma next_slot_iter slot k : Nat.iter k next_slot slot mod 9 = (slot + Z.of_nat k) mod 9.
Proof.
  induction k as [|k IH]; simpl; [by rewrite Z.add_0_r|].
  unfold next_slot at 1, kScheduleSize. rewrite Z.mod_mod by lia.
  rewrite Z.add_mod, IH, <- Z.add_mod by lia. f_equal. lia.
Qed.

(** Every class has a slot among any nine consecutive ones. *)
Lemma class_at_hit c slot :
  0 <= c <= 2 → ∃ k, (k < 9)%nat ∧ class_at (slot + Z.of_nat k) = c.
Proof.
  intros Hc. pose (target := if c =? 0 then 0 else if c =? 1 then 5 else 8).
  exists (Z.to_nat ((target - slot) mod 9)).
  pose proof (Z.mod_pos_bound (target - slot) 9). split; [lia|].
  rewrite Z2Nat.id by lia. unfold class_at, kScheduleSize.
  rewrite Z.add_mod_idemp_r, Zplus_minus by lia. subst target.
  assert (c = 0 ∨ c = 1 ∨ c = 2) as [->|[->| ->]] by lia; reflexivity.
Qed.

Lemma class_at_range slot : 0 <= class_at slot <= 2.
Proof.
  unfold class_at. assert (Forall (λ c, 0 <= c <= 2) kSchedule) as Hall.
  { unfold kSchedule. repeat (apply Forall_cons_2; [lia|]). by apply Forall_nil_2. }
  destruct (nth_in_or_default (Z.to_nat (slot mod kScheduleSize)) kSchedule 0) as [Hin|Hd].
  - rewrite Forall_forall in Hall. apply Hall. by apply list_elem_of_In.
  - rewrite Hd. lia.
Qed.

Lemma class_at_mod slot : class_at (slot mod 9) = class_at slot.
Proof. unfold class_at, kScheduleSize. by rewrite Z.mod_mod by lia. Qed.

Lemma class_at_iter slot k : class_at (Nat.iter k next_slot slot) = class_at (slot + Z.of_nat k).
Proof. by rewrite <- class_at_mod, next_slot_iter, class_at_mod. Qed.

Definition class_empty (hp c : Z) (pending : list InferenceRequest) : Prop :=
  ∀ r, r ∈ pending → ¬ in_class hp c r.

Lemma iter_next_slot_comm k slot : Nat.iter k next_slot (next_slot slot) = Nat.iter (S k) next_slot slot.
Proof. simpl. apply Nat.iter_swap. Qed.

(** The loop stops at the first slot whose class has a request. *)
Lemma visit_slots_spec hp pending fuel : ∀ slot,
  match visit_slots fuel hp slot pending with
  | (slot', Some (i, r)) =>
      ∃ k, (k < fuel)%nat ∧ slot' = Nat.iter (S k) next_slot slot ∧
        pending !! i = Some r ∧ best_in_class hp (class_at (slot + Z.of_nat k)) pending r ∧
        ∀ j, (j < k)%nat → class_empty hp (class_at (slot + Z.of_nat j)) pending
  | (slot', None) =>
      ∀ j, (j < fuel)%nat → class_empty hp (class_at (slot + Z.of_nat j)) pending
  end.
Proof.
  induction fuel as [|fuel IH]; intros slot; simpl; [intros; lia|].
  pose proof (find_best_spec hp (class_at slot) pending) as Hbest.
  destruct (find_best_request_in_class_locked _ _ _) as [[i r]|] eqn:E; simpl in Hbest.
  - exists 0%nat. rewrite Z.add_0_r. destruct Hbest as [? ?].
    split_and!; [lia|done|done|done|intros; lia].
  - pose proof (find_best_none _ _ _ E) as Hnone. specialize (IH (next_slot slot)).
    assert (∀ j, class_at (next_slot slot + Z.of_nat j) = class_at (slot + Z.of_nat (S j))) as Hshift.
    { intros j. by rewrite <- !class_at_iter, iter_next_slot_comm. }
    destruct (visit_slots fuel hp (next_slot slot) pending) as [slot' [[i r]|]].
    + destruct IH as (k & Hk & -> & Hi & Hb & Hskip). exists (S k).
      rewrite iter_next_slot_comm, <- Hshift. split_and!; [lia|done|done|done|].
      intros [|j] Hj; [by rewrite Z.add_0_r|]. rewrite <- Hshift. apply Hskip. lia.
    + intros [|j] Hj; [by rewrite Z.add_0_r|]. rewrite <- Hshift. apply IH. lia.
Qed.

(** What a pop of a non-empty queue does. *)
Lemma pop_spec stopping hp q :
  q_pending q ≠ [] →
  ∃ r q' i k, pop_next_request stopping hp q = Popped r q' ∧
    (k < 9)%nat ∧ q_pending q !! i = Some r ∧ q_pending q' = delete i (q_pending q) ∧
    q_schedule_slot q' = Nat.iter (S k) next_slot (q_schedule_slot q) ∧
    best_in_class hp (class_at (q_schedule_slot q + Z.of_nat k)) (q_pending q) r ∧
    ∀ j, (j < k)%nat → class_empty hp (class_at (q_schedule_slot q + Z.of_nat j)) (q_pending q).
Proof.
  destruct q as [[|front rest] slot]; simpl; [done|intros _].
  unfold pop_next_request. cbv [q_pending q_schedule_slot].
  pose proof (visit_slots_spec hp (front :: rest) (Z.to_nat kScheduleSize) slot) as H.
  destruct (visit_slots _ hp slot (front :: rest)) as [slot' [[i r]|]].
  - destruct H as (k & Hk & -> & Hi & Hb & Hskip).
    eexists r, _, i, k. split; [reflexivity|].
    split_and!; [unfold kScheduleSize in Hk; lia|done|done|done|done|done].
  - exfalso. destruct (class_at_hit (priority_class (req_priority front) hp) slot) as (k & Hk & Hc);
      [apply priority_class_range|].
    apply (H k) with front; [unfold kScheduleSize; lia|by left|by unfold in_class].
Qed.

Lemma delete_permutation {A} (l : list A) i x : l !! i = Some x → l ≡ₚ x :: delete i l.
Proof. apply delete_Permutation. Qed.

(** ** Runs of the queue

    The steps of the producers and of the workers in the order in which they
    hold [queue_mtx_]. *)
Inductive queue_op :=
  | OpOffer (req : InferenceRequest)
  | OpPop.

Definition offer (lim : queue_limits) (req : InferenceRequest) (q : request_queue) : request_queue :=
  match admit_locked lim req (q_pending q) with
  | Enqueued pending => q <| q_pending := pending |>
  | Rejected _ _ => q
  end.

Definition queue_step (lim : queue_limits) (q : request_queue) (op : queue_op)
    : request_queue * list InferenceRequest :=
  match op with
  | OpOffer req => (offer lim req q, [])
  | OpPop =>
      match pop_next_request false (ql_high_priority_threshold lim) q with
      | Popped req q => (q, [req])
      | _ => (q, [])
      end
  end.

Fixpoint queue_run (lim : queue_limits) (q : request_queue) (ops : list queue_op)
    : request_queue * list InferenceRequest :=
  match ops with
  | [] => (q, [])
  | op :: ops =>
      let '(q, out) := queue_step lim q op in
      let '(q, served) := queue_run lim q ops in
      (q, out ++ served)
  end.

Definition is_pop (op : queue_op) : bool := match op with OpPop => true | _ => false end.
Definition pops (ops : list queue_op) : nat := length (List.filter is_pop ops).

(** A request of class [c] is waiting whenever a worker takes a request. *)
Fixpoint backlogged (lim : queue_limits) (c : Z) (q : request_queue) (ops : list queue_op) : Prop :=
  match ops with
  | [] => True
  | op :: ops =>
      (is_pop op = true → ∃ r, r ∈ q_pending q ∧ in_class (ql_high_priority_threshold lim) c r) ∧
      backlogged lim c (queue_step lim q op).1 ops
  end.

Lemma admit_slot lim req q : q_schedule_slot (offer lim req q) = q_schedule_slot q.
Proof. unfold offer. by case_match. Qed.

Lemma class_at_after k j slot :
  class_at (Nat.iter (S k) next_slot slot + Z.of_nat j) = class_at (slot + Z.of_nat (S k + j)).
Proof. rewrite <- !class_at_iter, Nat.add_comm, Nat.iter_add. reflexivity. Qed.

(** A class that always has a request is not passed over: if none of its
    requests is served, the pops end before its next slot. *)
Lemma unserved_pops lim c ops : ∀ q k,
  class_at (q_schedule_slot q + Z.of_nat k) = c →
  backlogged lim c q ops →
  Forall (λ r, ¬ in_class (ql_high_priority_threshold lim) c r) (queue_run lim q ops).2 →
  (pops ops <= k)%nat.
Proof.
  induction ops as [|[req|] ops IH]; intros q k Hslot; simpl; [intros; unfold pops; simpl; lia| |].
  - intros [_ Hb] Hf. change (pops (OpOffer req :: ops)) with (pops ops).
    destruct (queue_run lim (offer lim req q) ops) as [q' served] eqn:E.
    apply (IH (offer lim req q)); [by rewrite admit_slot|done|by rewrite E].
  - intros [Hw Hb] Hf. destruct (Hw eq_refl) as (r0 & Hr0 & Hc0).
    destruct (pop_spec false (ql_high_priority_threshold lim) q) as (r & q1 & i & k' & Hpop & _ & _ & Hq1 & Hs1 & [Hin _] & Hskip).
    { intros Hnil. rewrite Hnil in Hr0. by apply elem_of_nil in Hr0. }
    rewrite Hpop in Hf, Hb. simpl in Hb.
    destruct (queue_run lim q1 ops) as [q' served] eqn:E. simpl in Hf. inversion Hf as [|? ? Hr Hserved]; subst.
    assert (k' < k)%nat as Hlt.
    { destruct (Nat.lt_trichotomy k' k) as [?|[->|?]]; [done|by destruct Hr|].
      by destruct (Hskip k ltac:(lia) r0 Hr0). }
    unfold pops. simpl. fold (pops ops).
    enough (pops ops <= k - S k')%nat by lia.
    eapply IH; [|exact Hb|rewrite E; exact Hserved].
    rewrite Hs1, class_at_after. by replace (S k' + (k - S k'))%nat with k by lia.
Qed.

(** With all classes waiting every pop serves the class of the current slot. *)
Lemma busy_classes lim ops : ∀ q,
  (∀ c, 0 <= c <= 2 → backlogged lim c q ops) →
  (λ r, priority_class (req_priority r) (ql_high_priority_threshold lim)) <$> (queue_run lim q ops).2 =
  (λ j, class_at (q_schedule_slot q + Z.of_nat j)) <$> seq 0 (pops ops).
Proof.
  induction ops as [|[req|] ops IH]; intros q Hb; [done| |].
  - simpl. specialize (IH (offer lim req q)). change (pops (OpOffer req :: ops)) with (pops ops).
    destruct (queue_run lim (offer lim req q) ops) as [q' served]. simpl in *.
    rewrite IH; [by rewrite admit_slot|]. intros c Hc. by destruct (Hb c Hc).
  - destruct (Hb (class_at (q_schedule_slot q))) as [Hw _].
    { apply class_at_range. }
    destruct (Hw eq_refl) as (r0 & Hr0 & Hc0).
    destruct (pop_spec false (ql_high_priority_threshold lim) q) as (r & q1 & i & k' & Hpop & _ & _ & Hq1 & Hs1 & [Hin _] & Hskip).
    { intros Hnil. rewrite Hnil in Hr0. by apply elem_of_nil in Hr0. }
    assert (k' = 0)%nat as ->.
    { destruct k' as [|k']; [done|]. destruct (Hskip 0%nat ltac:(lia) r0 Hr0). by rewrite Z.add_0_r. }
    assert (∀ c, 0 <= c <= 2 → backlogged lim c q1 ops) as Hb'.
    { intros c Hc. destruct (Hb c Hc) as [_ H]. simpl in H. by rewrite Hpop in H. }
    cbn [queue_run queue_step]. rewrite Hpop. specialize (IH _ Hb'). destruct (queue_run lim q1 ops) as [q' served].
    cbn [snd] in IH |- *. change ([r] ++ served) with (r :: served).
    rewrite fmap_cons, IH, Hs1. change (pops (OpPop :: ops)) with (S (pops ops)).
    change (seq 0 (S (pops ops))) with (0%nat :: seq 1 (pops ops)). rewrite fmap_cons.
    f_equal; [exact Hin|].
    rewrite <- fmap_S_seq, <- list_fmap_compose. apply list_fmap_ext. intros _ j _. simpl.
    apply (class_at_after 0).
Qed.

(** *** Bounds kept by admission *)

Definition overload_threshold (lim : queue_limits) : Z :=
  if 0 <? ql_max_queue_size lim then Z.quot (to_int (ql_max_queue_size lim * 9)) 10 else 0.

Definition below (p : Z) (l : list InferenceRequest) : Z :=
  Z.of_nat (length (filter (λ r, req_priority r < p) l)).

Definition queue_ok (lim : queue_limits) (q : request_queue) : Prop :=
  (0 < ql_max_queue_size lim → Z.of_nat (length (q_pending q)) <= ql_max_queue_size lim) ∧
  (0 < overload_threshold lim →
     below (ql_high_priority_threshold lim) (q_pending q) <= overload_threshold lim) ∧
  (0 < ql_low_priority_drop_threshold lim →
     below 4 (q_pending q) <= ql_low_priority_drop_threshold lim).

Lemma below_le p l : 0 <= below p l <= Z.of_nat (length l).
Proof. unfold below. pose proof (length_filter (λ r, req_priority r < p) l). lia. Qed.

Lemma below_snoc p l r :
  below p (l ++ [r]) = below p l + (if decide (req_priority r < p) then 1 else 0).
Proof.
  unfold below. rewrite filter_app, length_app, filter_cons, filter_nil.
  case_decide; simpl; lia.
Qed.

Lemma below_permutation p l l' : l ≡ₚ l' → below p l = below p l'.
Proof. intros E. unfold below. by rewrite E. Qed.

Lemma below_cons p r l : below p l <= below p (r :: l).
Proof. unfold below. rewrite filter_cons. case_decide; simpl; lia. Qed.

(** The branches of admission. *)
Lemma admit_enqueued lim req pending pending' :
  admit_locked lim req pending = Enqueued pending' ↔
  pending' = pending ++ [req] ∧
  (0 < ql_max_queue_size lim → Z.of_nat (length pending) < ql_max_queue_size lim) ∧
  (0 < overload_threshold lim → req_priority req < ql_high_priority_threshold lim →
     Z.of_nat (length pending) < overload_threshold lim) ∧
  (0 < ql_low_priority_drop_threshold lim → req_priority req < 4 →
     Z.of_nat (length pending) < ql_low_priority_drop_threshold lim).
Proof.
  unfold admit_locked. fold (overload_threshold lim).
  destruct ((0 <? ql_max_queue_size lim) && _) eqn:E1; [split; [done|lia]|].
  destruct ((0 <? overload_threshold lim) && _ && _) eqn:E2; [split; [done|lia]|].
  destruct ((0 <? ql_low_priority_drop_threshold lim) && _ && _) eqn:E3; [split; [done|lia]|].
  split; [intros; simplify_eq; split_and!; [done|lia..]|by intros (-> & _)].
Qed.

Lemma admit_rejected_code lim req pending code message :
  admit_locked lim req pending = Rejected code message → code = -40 ∨ code = -43.
Proof. unfold admit_locked. intros E. repeat case_match; simplify_eq; auto. Qed.

Lemma offer_ok lim req q : queue_ok lim q → queue_ok lim (offer lim req q).
Proof.
  unfold queue_ok, offer. intros (Hmax & Hover & Hlow).
  destruct (admit_locked lim req (q_pending q)) as [pending|] eqn:E; [|done].
  apply admit_enqueued in E as (-> & ? & ? & ?). simpl. rewrite !below_snoc, length_app.
  pose proof (below_le 4 (q_pending q)).
  pose proof (below_le (ql_high_priority_threshold lim) (q_pending q)). simpl.
  split_and!; intros ?; repeat case_decide; lia.
Qed.

Lemma pop_length stopping hp q r q' :
  pop_next_request stopping hp q = Popped r q' → q_pending q ≡ₚ r :: q_pending q'.
Proof.
  intros E. destruct (decide (q_pending q = [])) as [Hnil|Hne].
  - unfold pop_next_request in E. rewrite Hnil in E. by destruct stopping.
  - destruct (pop_spec stopping hp q Hne) as (r1 & q1 & i & k & Hpop & _ & Hi & Hq1 & _).
    rewrite Hpop in E. simplify_eq. rewrite Hq1. by apply delete_Permutation.
Qed.

Lemma queue_step_ok lim q op : queue_ok lim q → queue_ok lim (queue_step lim q op).1.
Proof.
  destruct op as [req|]; simpl; [apply offer_ok|].
  case_match eqn:E; [done|done|]. simpl. apply pop_length in E. unfold queue_ok.
  rewrite (below_permutation 4 _ _ E), (below_permutation (ql_high_priority_threshold lim) _ _ E), E.
  pose proof (below_cons 4 req (q_pending q0)).
  pose proof (below_cons (ql_high_priority_threshold lim) req (q_pending q0)). simpl.
  intros (? & ? & ?). split_and!; intros; lia.
Qed.

Lemma queue_run_ok lim ops : ∀ q, queue_ok lim q → queue_ok lim (queue_run lim q ops).1.
Proof.
  induction ops as [|op ops IH]; intros q Hq; simpl; [done|].
  pose proof (queue_step_ok lim q op Hq) as H. destruct (queue_step lim q op) as [q1 out].
  specialize (IH q1 H). by destruct (queue_run lim q1 ops).
Qed.

(** The requests a run lets into the queue. *)
Fixpoint entered (lim : queue_limits) (q : request_queue) (ops : list queue_op) : list InferenceRequest :=
  match ops with
  | [] => []
  | op :: ops =>
      match op with
      | OpOffer req => match admit_locked lim req (q_pending q) with
                       | Enqueued _ => [req]
                       | Rejected _ _ => []
                       end
      | OpPop => []
      end ++ entered lim (queue_step lim q op).1 ops
  end.

Lemma queue_run_conserves lim ops : ∀ q,
  q_pending q ++ entered lim q ops ≡ₚ (queue_run lim q ops).2 ++ q_pending (queue_run lim q ops).1.
Proof.
  induction ops as [|[req|] ops IH]; intros q; [by rewrite app_nil_r| |].
  - cbn [entered queue_run queue_step fst]. specialize (IH (offer lim req q)).
    destruct (queue_run lim (offer lim req q) ops) as [q' served]. simpl in IH |- *. rewrite <- IH.
    unfold offer. destruct (admit_locked lim req (q_pending q)) as [pending|] eqn:E; [|done].
    apply admit_enqueued in E as (-> & _).
    simpl. by rewrite <- app_assoc.
  - cbn [entered queue_run queue_step]. rewrite app_nil_l.
    destruct (pop_next_request false (ql_high_priority_threshold lim) q) as [| |r q1] eqn:E; simpl.
    + specialize (IH q). by destruct (queue_run lim q ops).
    + specialize (IH q). by destruct (queue_run lim q ops).
    + specialize (IH q1). apply pop_length in E. rewrite E.
      destruct (queue_run lim q1 ops) as [q' served]. simpl in IH |- *. by rewrite IH.
Qed.

Definition class_of (lim : queue_limits) (r : InferenceRequest) : Z :=
  priority_class (req_priority r) (ql_high_priority_threshold lim).

Definition served_of_class (lim : queue_limits) (c : Z) (served : list InferenceRequest) : nat :=
  count_occ Z.eq_dec (class_of lim <$> served) c.

(** Nine consecutive slots contain the schedule, from any starting slot. *)
Lemma schedule_window slot :
  let window := (λ j, class_at (slot + Z.of_nat j)) <$> seq 0 9 in
  count_occ Z.eq_dec window 0 = 5%nat ∧ count_occ Z.eq_dec window 1 = 3%nat ∧
  count_occ Z.eq_dec window 2 = 1%nat.
Proof.
  assert (∀ j : nat, class_at (slot + Z.of_nat j) = class_at (slot mod 9 + Z.of_nat j)) as Hmod.
  { intros j. rewrite <- class_at_mod, <- (class_at_mod (slot mod 9 + _)).
    by rewrite Z.add_mod_idemp_l by lia. }
  cbv zeta. rewrite (list_fmap_ext _ (λ j : nat, class_at (slot mod 9 + Z.of_nat j)) (seq 0 9)) by done.
  pose proof (Z.mod_pos_bound slot 9 ltac:(lia)) as Hs. clear Hmod. revert Hs.
  generalize (slot mod 9). intros s Hs.
  assert (s = 0 ∨ s = 1 ∨ s = 2 ∨ s = 3 ∨ s = 4 ∨ s = 5 ∨ s = 6 ∨ s = 7 ∨ s = 8) as H by lia.
  destruct H as [->|[->|[->|[->|[->|[->|[->|[->| ->]]]]]]]]; split_and!; reflexivity.
Qed.

(** ** Properties *)

(** C1.  No priority class starves: whatever requests
    arrive meanwhile, a class that has a request waiting at each of nine pops
    gets at least one of its requests served by them. *)
Theorem no_class_starves lim c q ops :
  0 <= c <= 2 → backlogged lim c q ops → (9 <= pops ops)%nat →
  ∃ r, r ∈ (queue_run lim q ops).2 ∧ class_of lim r = c.
Proof.
  intros Hc Hb Hpops. destruct (class_at_hit c (q_schedule_slot q) Hc) as (k & Hk & Hslot).
  destruct (decide (Exists (λ r, class_of lim r = c) (queue_run lim q ops).2)) as [Hex|Hnone].
  - by apply Exists_exists in Hex.
  - apply not_Exists_Forall in Hnone; [|apply _].
    pose proof (unserved_pops lim c ops q k Hslot Hb Hnone). lia.
Qed.

(** C27.  While all three classes have requests waiting, nine
    consecutive pops serve exactly five high, three normal and one background
    request, from any position of the schedule and under any arrivals. *)
Theorem weighted_share lim q ops :
  (∀ c, 0 <= c <= 2 → backlogged lim c q ops) → pops ops = 9%nat →
  let served := (queue_run lim q ops).2 in
  served_of_class lim 0 served = 5%nat ∧ served_of_class lim 1 served = 3%nat ∧
  served_of_class lim 2 served = 1%nat.
Proof.
  intros Hb Hpops. cbv zeta. unfold served_of_class. change (class_of lim) with
    (λ r, priority_class (req_priority r) (ql_high_priority_threshold lim)).
  rewrite (busy_classes lim ops q Hb), Hpops. apply schedule_window.
Qed.

(** [pop_next_request] on a non-empty queue always returns a
    request, removes exactly that one and keeps the others in order; the
    request it returns has the highest priority of its class and, among
    equals, the smallest task id; and every class the schedule passed over on
    the way had nothing waiting.  An empty queue blocks the worker or, when
    the task stops, ends it. *)
Theorem pop_serves_best_of_class stopping hp q :
  match pop_next_request stopping hp q with
  | Popped r q' =>
      q_pending q ≡ₚ r :: q_pending q' ∧ q_pending q' `sublist_of` q_pending q ∧
      best_in_class hp (priority_class (req_priority r) hp) (q_pending q) r ∧
      ∃ k, (k < 9)%nat ∧ q_schedule_slot q' = (q_schedule_slot q + Z.of_nat k + 1) mod 9 ∧
        ∀ j, (j < k)%nat → class_empty hp (class_at (q_schedule_slot q + Z.of_nat j)) (q_pending q)
  | Finished => stopping = true ∧ q_pending q = []
  | Blocked => stopping = false ∧ q_pending q = []
  end.
Proof.
  destruct (decide (q_pending q = [])) as [Hnil|Hne].
  - unfold pop_next_request. rewrite Hnil. by destruct stopping.
  - destruct (pop_spec stopping hp q Hne) as (r & q' & i & k & Hpop & Hk & Hi & Hq' & Hs & Hb & Hskip).
    rewrite Hpop, Hq'. split_and!.
    + by apply delete_Permutation.
    + apply sublist_delete.
    + destruct Hb as [Hin Hbest]. split; [done|]. intros r' Hr' Hc. apply Hbest; [done|].
      unfold in_class in *. congruence.
    + exists k. split_and!; [done| |done]. rewrite Hs. simpl. unfold next_slot at 1, kScheduleSize.
      rewrite <- Z.add_mod_idemp_l, next_slot_iter, Z.add_mod_idemp_l by lia. f_equal; lia.
Qed.

(** C17.  Along every run of offers and pops the queue stays
    within its limits: never more than [max_queue_size] requests, of which
    those below the high-priority threshold fill at most the overload
    threshold (nine tenths, the rest being kept for high priority) and
    background requests at most [low_priority_drop_threshold]; and no request
    is lost or duplicated. *)
Theorem queue_bounds_and_conservation lim q ops :
  queue_ok lim q →
  queue_ok lim (queue_run lim q ops).1 ∧
  q_pending q ++ entered lim q ops ≡ₚ (queue_run lim q ops).2 ++ q_pending (queue_run lim q ops).1.
Proof. intros Hq. split; [by apply queue_run_ok|apply queue_run_conserves]. Qed.

(** A request is refused with code -40 exactly when the
    queue is full; a high-priority request is refused for no other reason;
    every other refusal carries -43 and leaves a request that would have been
    taken with high priority. *)
Theorem admission_codes lim req pending :
  0 < ql_max_queue_size lim → 4 <= ql_high_priority_threshold lim →
  match admit_locked lim req pending with
  | Enqueued pending' => pending' = pending ++ [req] ∧
      Z.of_nat (length pending) < ql_max_queue_size lim
  | Rejected code _ =>
      (code = -40 ∧ ql_max_queue_size lim <= Z.of_nat (length pending)) ∨
      (code = -43 ∧ Z.of_nat (length pending) < ql_max_queue_size lim ∧
       req_priority req < ql_high_priority_threshold lim ∧
       ∀ req', ql_high_priority_threshold lim <= req_priority req' →
         admit_locked lim req' pending = Enqueued (pending ++ [req']))
  end.
Proof.
  intros Hmax Hhp.
  assert (∀ req', Z.of_nat (length pending) < ql_max_queue_size lim →
    ql_high_priority_threshold lim <= req_priority req' →
    admit_locked lim req' pending = Enqueued (pending ++ [req'])) as Hhigh.
  { intros req' Hlen Hp. apply admit_enqueued. split_and!; [done|lia..]. }
  destruct (admit_locked lim req pending) as [pending'|code message] eqn:E.
  - apply admit_enqueued in E as (-> & ? & _). split; [done|lia].
  - destruct (decide (ql_max_queue_size lim <= Z.of_nat (length pending))) as [Hfull|Hroom].
    + left. split; [|done]. unfold admit_locked in E. revert E.
      rewrite (proj2 (Z.ltb_lt 0 (ql_max_queue_size lim))), (proj2 (Z.leb_le _ _) Hfull) by done.
      cbn. by intros [= <- _].
    + right. split_and!; [|lia| |by intros; apply Hhigh; [lia|]].
      * unfold admit_locked in E. repeat case_match; simplify_eq; lia.
      * destruct (Z.lt_ge_cases (req_priority req) (ql_high_priority_threshold lim)) as [?|Hp]; [done|].
        rewrite Hhigh in E by lia. done.
Qed.

Lemma count_request_fold hp pending : ∀ e,
  let e' := fold_left (count_request hp) pending e in
  qme_high e' = qme_high e + Z.of_nat (count_occ Z.eq_dec ((λ r, priority_class (req_priority r) hp) <$> pending) 0) ∧
  qme_normal e' = qme_normal e + Z.of_nat (count_occ Z.eq_dec ((λ r, priority_class (req_priority r) hp) <$> pending) 1) ∧
  qme_background e' =
    qme_background e + Z.of_nat (count_occ Z.eq_dec ((λ r, priority_class (req_priority r) hp) <$> pending) 2) ∧
  qme_high e' + qme_normal e' + qme_background e' =
    qme_high e + qme_normal e + qme_background e + Z.of_nat (length pending).
Proof.
  induction pending as [|r pending IH]; intros e; cbv zeta; [simpl; lia|].
  cbn [fold_left]. specialize (IH (count_request hp e r)). cbv zeta in IH.
  destruct IH as (-> & -> & -> & Hsum). rewrite fmap_cons.
  unfold count_request, priority_class in *. destruct e. simpl.
  repeat case_match; simpl in *; lia.
Qed.

Lemma admit_full lim req pending :
  0 < ql_max_queue_size lim →
  (∃ message, admit_locked lim req pending = Rejected (-40) message) ↔
  ql_max_queue_size lim <= Z.of_nat (length pending).
Proof.
  intros Hmax. unfold admit_locked. rewrite (proj2 (Z.ltb_lt _ _) Hmax). cbn [andb].
  destruct (Z.leb_spec (ql_max_queue_size lim) (Z.of_nat (length pending))) as [Hle|Hgt].
  - split; [done|]. intros _. by eexists.
  - split; [|lia]. intros [message E]. repeat case_match; simplify_eq.
Qed.

Lemma admit_overloaded lim req pending :
  0 < overload_threshold lim <= Z.of_nat (length pending) →
  Z.of_nat (length pending) < ql_max_queue_size lim →
  req_priority req < ql_high_priority_threshold lim →
  ∃ message, admit_locked lim req pending = Rejected (-43) message.
Proof.
  intros [Hov Hle] Hroom Hlow. unfold admit_locked. fold (overload_threshold lim).
  rewrite (proj2 (Z.leb_gt _ _) Hroom), andb_false_r, (proj2 (Z.ltb_lt _ _) Hov),
    (proj2 (Z.leb_le _ _) Hle), (proj2 (Z.ltb_lt _ _) Hlow). by eexists.
Qed.

Lemma pressure_levels total max :
  2 <= max → is_int (max * 9) = true →
  (queue_pressure total max = "full" ↔ max <= total) ∧
  (queue_pressure total max = "overload" → (max * 9) ÷ 10 <= total < max).
Proof.
  intros Hmax Hint. unfold queue_pressure.
  rewrite (to_int_id (max * 9)) by done.
  rewrite (to_int_id (max * 6)) by (revert Hint; unfold is_int, INT_MIN, INT_MAX; lia).
  assert ((max * 9) ÷ 10 <= max) by (rewrite Z.quot_div_nonneg by lia; apply Z.div_le_upper_bound; lia).
  assert ((max * 6) ÷ 10 <= (max * 9) ÷ 10) by (apply Z.quot_le_mono; lia).
  destruct (Z.leb_spec max 0); [lia|]. simpl.
  destruct (Z.ltb_spec total ((max * 6) ÷ 10)); [split; [split; [done|lia]|done]|].
  destruct (Z.ltb_spec total ((max * 9) ÷ 10)); [split; [split; [done|lia]|done]|].
  destruct (Z.ltb_spec total max).
  - split; [split; [done|lia]|lia].
  - split; [split; [lia|done]|done].
Qed.

(** The queue statistics tell what admission does: the counts
    are those of the three classes and add up to the queue length, the
    pressure is [full] exactly when every request is refused with -40, and
    under [overload] every request below the high-priority threshold is
    refused with -43. *)
Theorem pressure_matches_admission lim pending :
  2 <= ql_max_queue_size lim → is_int (ql_max_queue_size lim * 9) = true →
  let ev := queue_metrics_locked (ql_max_queue_size lim) (ql_high_priority_threshold lim) pending in
  let pressure := queue_pressure (qme_pending ev) (ql_max_queue_size lim) in
  qme_high ev = Z.of_nat (served_of_class lim 0 pending) ∧
  qme_normal ev = Z.of_nat (served_of_class lim 1 pending) ∧
  qme_background ev = Z.of_nat (served_of_class lim 2 pending) ∧
  qme_pending ev = Z.of_nat (length pending) ∧
  (pressure = "full" ↔ ∀ req, ∃ message, admit_locked lim req pending = Rejected (-40) message) ∧
  (pressure = "overload" → ∀ req, req_priority req < ql_high_priority_threshold lim →
     ∃ message, admit_locked lim req pending = Rejected (-43) message).
Proof.
  intros Hmax Hint. cbv zeta. unfold queue_metrics_locked.
  pose proof (count_request_fold (ql_high_priority_threshold lim) pending
    (MkQueueMetricsEvent 0 0 0 0 (ql_max_queue_size lim))) as (Hh & Hn & Hb & Hsum).
  cbv zeta in *. generalize dependent (fold_left (count_request (ql_high_priority_threshold lim)) pending
    (MkQueueMetricsEvent 0 0 0 0 (ql_max_queue_size lim))). intros [p h n b m] Hh Hn Hb Hsum.
  simpl in *. split; [exact Hh|]. split; [exact Hn|]. split; [exact Hb|]. split; [lia|].
  replace (h + n + b) with (Z.of_nat (length pending)) by lia.
  destruct (pressure_levels (Z.of_nat (length pending)) (ql_max_queue_size lim)) as [Hfull Hover]; [done..|].
  split.
  - rewrite Hfull. split; [intros ? req; by apply admit_full; lia|].
    intros Hall. apply (admit_full lim default_request); [lia|apply Hall].
  - intros [Hlo Hhi]%Hover req Hlow. apply admit_overloaded; [|lia|done].
    unfold overload_threshold. rewrite (proj2 (Z.ltb_lt 0 _)), to_int_id by (done || lia).
    pose proof (Z.quot_le_mono 18 (ql_max_queue_size lim * 9) 10 ltac:(lia) ltac:(lia)) as Hge.
    change (18 ÷ 10) with 1 in Hge. lia.
Qed.

(** ** Concrete runs *)

Definition backloggedb (lim : queue_limits) (c : Z) : request_queue → list queue_op → bool :=
  fix go q ops :=
    match ops with
    | [] => true
    | op :: ops =>
        (negb (is_pop op) ||
         existsb (λ r, priority_class (req_priority r) (ql_high_priority_threshold lim) =? c) (q_pending q)) &&
        go (queue_step lim q op).1 ops
    end.

Lemma backloggedb_sound lim c ops : ∀ q, backloggedb lim c q ops = true → backlogged lim c q ops.
Proof.
  induction ops as [|op ops IH]; intros q; simpl; [done|].
  intros [Hw Hb]%andb_true_iff. split; [|by apply IH]. intros Hop. rewrite Hop in Hw. simpl in Hw.
  apply existsb_exists in Hw as (r & Hr & Hc). exists r. split; [by apply list_elem_of_In|].
  by apply Z.eqb_eq.
Qed.

Definition sample_limits : queue_limits := MkQueueLimits 64 48 7.

Definition queued (task_id priority : Z) : InferenceRequest :=
  default_request <| req_task_id := task_id |> <| req_priority := priority |>.

(** Seven high, five normal and three background requests. *)
Definition busy_queue : request_queue :=
  MkRequestQueue
    (((λ i, queued (Z.of_nat i) 8) <$> seq 0 7) ++ ((λ i, queued (Z.of_nat i) 5) <$> seq 7 5) ++
     ((λ i, queued (Z.of_nat i) 1) <$> seq 12 3)) 3.

Definition mixed_ops : list queue_op :=
  OpOffer (queued 20 9) :: replicate 4 OpPop ++ [OpOffer (queued 21 9)] ++ replicate 5 OpPop.

Lemma no_class_starves_witness :
  ∃ r, r ∈ (queue_run sample_limits busy_queue mixed_ops).2 ∧ class_of sample_limits r = 2.
Proof.
  apply (no_class_starves sample_limits 2 busy_queue mixed_ops).
  - lia.
  - apply backloggedb_sound. vm_compute. reflexivity.
  - vm_compute. lia.
Defined.

Lemma weighted_share_witness :
  served_of_class sample_limits 0 (queue_run sample_limits busy_queue mixed_ops).2 = 5%nat ∧
  served_of_class sample_limits 1 (queue_run sample_limits busy_queue mixed_ops).2 = 3%nat ∧
  served_of_class sample_limits 2 (queue_run sample_limits busy_queue mixed_ops).2 = 1%nat.
Proof.
  apply (weighted_share sample_limits busy_queue mixed_ops).
  - intros c Hc. apply backloggedb_sound.
    assert (c = 0 ∨ c = 1 ∨ c = 2) as [->|[->| ->]] by lia; vm_compute; reflexivity.
  - vm_compute. reflexivity.
Defined.

Lemma queue_bounds_and_conservation_witness :
  queue_ok sample_limits (queue_run sample_limits busy_queue mixed_ops).1.
Proof.
  apply (queue_bounds_and_conservation sample_limits busy_queue mixed_ops).
  unfold queue_ok. split_and!; intros _; vm_compute; discriminate.
Defined.

Lemma admission_codes_witness :
  admit_locked (MkQueueLimits 2 0 7) (queued 1 5) [queued 2 5] =
    Rejected (-43) "task queue is overloaded" ∧
  admit_locked (MkQueueLimits 2 0 7) (queued 3 8) [queued 2 5] = Enqueued [queued 2 5; queued 3 8].
Proof.
  split; [vm_compute; reflexivity|].
  destruct (admission_codes (MkQueueLimits 2 0 7) (queued 1 5) [queued 2 5]) as [[Hc _]|(_ & _ & _ & Hhigh)].
  - vm_compute. reflexivity.
  - vm_compute. discriminate.
  - discriminate Hc.
  - apply Hhigh. vm_compute. discriminate.
Defined.

Lemma pressure_matches_admission_witness :
  qme_pending (queue_metrics_locked 64 7 (q_pending busy_queue)) = 15.
Proof.
  apply (pressure_matches_admission sample_limits (q_pending busy_queue)).
  - vm_compute. discriminate.
  - vm_compute. reflexivity.
Defined.
