(* ===== verification/Records.v ===== *)
(** * The task records of [vllm_task]

    [records_], a bounded log with one record per accepted request, as
    [record_pending] and [update_record] write it and [records_json] reads it
    ([node/vllm-client/src/main.cpp]). *)
From S2P Require Import Prelude StdString Doubles Json Observability Types.

Definition new_record (req : InferenceRequest) : RequestRecord :=
  MkRequestRecord (req_task_id req) (req_request_id req) (req_work_id req) (req_action req)
    (req_profile_name req) (req_logical_model req) "" "" Pending (req_priority req) 0 false ""
    (req_created_ms req) 0 0 0 (-1) (-1).

(** [while (records_.size() > max_task_records_) records_.pop_front()]. *)
Fixpoint drop_oldest (max_task_records : Z) (records : list RequestRecord) : list RequestRecord :=
  match records with
  | [] => []
  | _ :: rest =>
      if max_task_records <? Z.of_nat (length records) then drop_oldest max_task_records rest
      else records
  end.

Definition record_pending (max_task_records : Z) (req : InferenceRequest)
    (records : list RequestRecord) : list RequestRecord :=
  drop_oldest max_task_records (records ++ [new_record req]).

Definition updated_record (req : InferenceRequest) (status : RequestStatus) (error_message : string)
    (r : RequestRecord) : RequestRecord :=
  MkRequestRecord (rr_task_id r) (rr_request_id r) (rr_work_id r) (req_action req)
    (req_profile_name req) (req_logical_model req) (req_served_model req) (req_endpoint_name req)
    status (req_priority req) (req_retry_count req) (req_degraded req) error_message
    (rr_created_ms r) (req_started_ms req) (req_finished_ms req) (req_queue_wait_ms req)
    (req_first_token_latency_ms req) (req_total_latency_ms req).

(** The walk from [rbegin()]: [rev_records] is the log with the newest first. *)
Fixpoint update_newest (req : InferenceRequest) (status : RequestStatus) (error_message : string)
    (rev_records : list RequestRecord) : list RequestRecord :=
  match rev_records with
  | [] => []
  | r :: older =>
      if negb (rr_task_id r =? req_task_id req) then r :: update_newest req status error_message older
      else updated_record req status error_message r :: older
  end.

Definition update_record (req : InferenceRequest) (status : RequestStatus) (error_message : string)
    (records : list RequestRecord) : list RequestRecord :=
  reverse (update_newest req status error_message (reverse records)).

Definition record_to_json (r : RequestRecord) : json :=
  mk_obj [("task_id", JInt (rr_task_id r)); ("request_id", JStr (rr_request_id r));
          ("work_id", JStr (rr_work_id r)); ("action", JStr (rr_action r));
          ("profile_name", JStr (rr_profile_name r)); ("logical_model", JStr (rr_logical_model r));
          ("served_model", JStr (rr_served_model r)); ("endpoint", JStr (rr_endpoint_name r));
          ("status", JStr (request_status_to_string (rr_status r))); ("priority", JInt (rr_priority r));
          ("retry_count", JInt (rr_retry_count r)); ("degraded", JBool (rr_degraded r));
          ("error_message", JStr (rr_error_message r)); ("created_ms", JInt (rr_created_ms r));
          ("started_ms", JInt (rr_started_ms r)); ("finished_ms", JInt (rr_finished_ms r));
          ("queue_wait_ms", JInt (rr_queue_wait_ms r));
          ("first_token_latency_ms", JInt (rr_first_token_latency_ms r));
          ("total_latency_ms", JInt (rr_total_latency_ms r))].

(** The filters of a query. *)
Definition record_matches (query_task_id : Z) (query_request_id query_action : string)
    (r : RequestRecord) : bool :=
  if (0 <=? query_task_id) && negb (rr_task_id r =? query_task_id) then false
  else if negb (str_empty query_request_id) && negb (rr_request_id r =? query_request_id)%string then false
  else if negb (str_empty query_action) && negb (rr_action r =? query_action)%string then false
  else true.

Fixpoint emit_records (matches : RequestRecord → bool) (limit emitted : Z)
    (rev_records : list RequestRecord) : list json :=
  match rev_records with
  | [] => []
  | r :: older =>
      if emitted <? limit then
        if matches r then record_to_json r :: emit_records matches limit (emitted + 1) older
        else emit_records matches limit emitted older
      else []
  end.

Definition records_limit (query : json) : Z :=
  let limit := json_int_value query "limit" 20 in
  if limit <=? 0 then 20 else limit.

Definition records_json (query : json) (records : list RequestRecord) : json :=
  JArr (emit_records
    (record_matches (json_int_value query "task_id" (-1)) (json_string_value query "request_id" "")
       (json_string_value query "action_filter" ""))
    (records_limit query) 0 (reverse records)).

(** ** Lemmas *)

Lemma drop_oldest_suffix m records : ∃ k, drop_oldest m records = drop k records.
Proof.
  induction records as [|r rest IH]; [by exists 0%nat|].
  cbn [drop_oldest]. case_match; [|by exists 0%nat]. destruct IH as [k ->]. by exists (S k).
Qed.

Lemma drop_oldest_length m records :
  0 <= m → Z.of_nat (length (drop_oldest m records)) = Z.min m (Z.of_nat (length records)).
Proof.
  intros Hm. induction records as [|r rest IH]; [simpl; lia|].
  cbn [drop_oldest]. destruct (Z.ltb_spec m (Z.of_nat (length (r :: rest)))) as [H|H].
  - rewrite IH. simpl in *. lia.
  - lia.
Qed.

Lemma update_newest_ids req status msg l :
  rr_task_id <$> update_newest req status msg l = rr_task_id <$> l.
Proof.
  induction l as [|r l IH]; [done|]. cbn [update_newest]. case_match; [|done].
  rewrite !fmap_cons. by rewrite IH.
Qed.

(** The update replaces the newest record of the task, if there is one. *)
Lemma update_newest_spec req status msg l :
  (update_newest req status msg l = l ∧ Forall (λ r, rr_task_id r ≠ req_task_id req) l) ∨
  ∃ newer r older, l = newer ++ r :: older ∧ rr_task_id r = req_task_id req ∧
    Forall (λ r, rr_task_id r ≠ req_task_id req) newer ∧
    update_newest req status msg l = newer ++ updated_record req status msg r :: older.
Proof.
  induction l as [|r l IH]; [left; by repeat constructor|]. cbn [update_newest].
  destruct (Z.eqb_spec (rr_task_id r) (req_task_id req)) as [E|E]; simpl.
  - right. exists [], r, l. by repeat constructor.
  - destruct IH as [[-> Hall]|(newer & r' & older & -> & Hid & Hall & ->)].
    + left. by repeat constructor.
    + right. exists (r :: newer), r', older. by repeat constructor.
Qed.

Lemma emit_records_take matches limit l : ∀ emitted,
  emitted <= limit →
  emit_records matches limit emitted l =
  record_to_json <$> take (Z.to_nat (limit - emitted)) (List.filter matches l).
Proof.
  induction l as [|r l IH]; intros emitted Hle; [simpl; by rewrite take_nil|].
  cbn [emit_records List.filter]. destruct (Z.ltb_spec emitted limit).
  - destruct (matches r).
    + rewrite IH by lia.
      replace (Z.to_nat (limit - emitted)) with (S (Z.to_nat (limit - (emitted + 1)))) by lia.
      cbn [take]. by rewrite fmap_cons.
    + by rewrite IH.
  - by replace (Z.to_nat (limit - emitted)) with 0%nat by lia.
Qed.

Lemma record_pending_last m req records :
  1 <= m → list.last (record_pending m req records) = Some (new_record req).
Proof.
  intros Hm. unfold record_pending. destruct (drop_oldest_suffix m (records ++ [new_record req])) as [k Hk].
  pose proof (drop_oldest_length m (records ++ [new_record req]) ltac:(lia)) as Hlen. rewrite Hk in *.
  rewrite length_drop, length_app in Hlen. simpl in Hlen. rewrite drop_app_le by lia. apply last_snoc.
Qed.

(** ** Properties *)

(** The record log is a window of the last
    [max_task_records] accepted requests: recording a request appends its
    record and drops only the oldest ones beyond the limit. *)
Theorem record_pending_window max_task_records req records :
  1 <= max_task_records →
  ∃ dropped, records ++ [new_record req] = dropped ++ record_pending max_task_records req records ∧
    Z.of_nat (length (record_pending max_task_records req records)) =
      Z.min max_task_records (Z.of_nat (length records) + 1) ∧
    list.last (record_pending max_task_records req records) = Some (new_record req).
Proof.
  intros Hm. pose proof (record_pending_last max_task_records req records Hm) as Hlast.
  unfold record_pending in *.
  destruct (drop_oldest_suffix max_task_records (records ++ [new_record req])) as [k Hk].
  pose proof (drop_oldest_length max_task_records (records ++ [new_record req]) ltac:(lia)) as Hlen.
  rewrite length_app in Hlen. simpl in Hlen.
  exists (take k (records ++ [new_record req])). split_and!; [by rewrite Hk, take_drop|lia|done].
Qed.

(** [update_record] rewrites exactly one record, the
    newest one of the request's task, whose identity and creation time it
    keeps, and leaves a log without that task unchanged. *)
Theorem update_record_newest req status msg records :
  (update_record req status msg records = records ∧
   Forall (λ r, rr_task_id r ≠ req_task_id req) records) ∨
  ∃ older r newer, records = older ++ r :: newer ∧ rr_task_id r = req_task_id req ∧
    Forall (λ r, rr_task_id r ≠ req_task_id req) newer ∧
    update_record req status msg records = older ++ updated_record req status msg r :: newer ∧
    rr_request_id (updated_record req status msg r) = rr_request_id r ∧
    rr_created_ms (updated_record req status msg r) = rr_created_ms r ∧
    rr_status (updated_record req status msg r) = status.
Proof.
  unfold update_record.
  destruct (update_newest_spec req status msg (reverse records)) as
    [[-> Hall]|(newer & r & older & Hrev & Hid & Hall & ->)].
  - left. rewrite reverse_involutive. split; [done|]. by rewrite <- Forall_reverse.
  - right. exists (reverse older), r, (reverse newer).
    assert (records = reverse (newer ++ r :: older)) as -> by (by rewrite <- Hrev, reverse_involutive).
    rewrite !reverse_app, !reverse_cons, <- !app_assoc. split_and!; try done.
    by rewrite Forall_reverse.
Qed.

(** A query answers with the newest matching records,
    newest first, as many as its limit allows. *)
Theorem records_json_newest query records :
  records_json query records =
  JArr (record_to_json <$>
    take (Z.to_nat (records_limit query))
      (List.filter
        (record_matches (json_int_value query "task_id" (-1)) (json_string_value query "request_id" "")
           (json_string_value query "action_filter" "")) (reverse records))).
Proof.
  unfold records_json. rewrite emit_records_take.
  - by rewrite Z.sub_0_r.
  - unfold records_limit. case_match; lia.
Qed.

Lemma record_pending_window_witness :
  length (record_pending 2 default_request
            [new_record default_request; new_record default_request]) = 2%nat.
Proof.
  destruct (record_pending_window 2 default_request
    [new_record default_request; new_record default_request] ltac:(lia)) as (d & _ & Hlen & _).
  simpl in Hlen |- *. reflexivity.
Defined.
