(* ===== verification/Config.v ===== *)
(** * Configuration of [vllm_task]

    The configured members of [class vllm_task], how [parse_config] fills them
    from a JSON document, how model profiles and endpoint objects are built,
    which members a reload may change, and how a profile and the metadata of a
    request determine its parameters ([node/vllm-client/src/main.cpp]).  The
    environment ([std::getenv]) is the argument [env]; an unset variable reads
    as the empty string. *)
From S2P Require Import Prelude StdString Doubles Json Observability Types Endpoint.

Record task_config := MkTaskConfig {
  tc_model : string;
  tc_response_format : string;
  tc_prompt : string;
  tc_base_url : string;
  tc_api_key : string;
  tc_endpoint : string;
  tc_temperature : string;
  tc_last_error : string;
  tc_routing_strategy : string;
  tc_default_action : string;
  tc_inputs : list string;
  tc_fallback_chain : list string;
  tc_model_profiles : list ModelProfile;
  tc_enoutput : bool;
  tc_enstream : bool;
  tc_mock_mode : bool;
  tc_allow_model_fallback : bool;
  tc_timeout_ms : Z;
  tc_deadline_ms : Z;
  tc_max_retries : Z;
  tc_max_tokens : Z;
  tc_worker_count : Z;
  tc_endpoint_wait_ms : Z;
  tc_max_queue_size : Z;
  tc_low_priority_drop_threshold : Z;
  tc_high_priority_threshold : Z;
  tc_default_priority : Z;
  tc_health_check_interval_ms : Z;
  tc_health_check_timeout_ms : Z;
  tc_unhealthy_threshold : Z;
  tc_recovery_threshold : Z;
  tc_circuit_failure_threshold : Z;
  tc_circuit_open_ms : Z;
  tc_max_task_records : Z;
}.
#[export] Instance eta_tc : Eta task_config := fun c =>
  MkTaskConfig (tc_model c) (tc_response_format c) (tc_prompt c) (tc_base_url c) (tc_api_key c)
    (tc_endpoint c) (tc_temperature c) (tc_last_error c) (tc_routing_strategy c) (tc_default_action c)
    (tc_inputs c) (tc_fallback_chain c) (tc_model_profiles c) (tc_enoutput c) (tc_enstream c)
    (tc_mock_mode c) (tc_allow_model_fallback c) (tc_timeout_ms c) (tc_deadline_ms c)
    (tc_max_retries c) (tc_max_tokens c) (tc_worker_count c) (tc_endpoint_wait_ms c)
    (tc_max_queue_size c) (tc_low_priority_drop_threshold c) (tc_high_priority_threshold c)
    (tc_default_priority c) (tc_health_check_interval_ms c) (tc_health_check_timeout_ms c)
    (tc_unhealthy_threshold c) (tc_recovery_threshold c) (tc_circuit_failure_threshold c)
    (tc_circuit_open_ms c) (tc_max_task_records c).

(** The member initializers. *)
Definition default_config : task_config :=
  MkTaskConfig "" "" "" "" "" "" "" "" "weighted_least_queue" "chat" [] [] [] true false true true
    30000 70000 0 1024 2 2000 64 48 7 5 5000 2000 3 2 5 30000 1000.

(** ** Model profiles *)

Definition profile_of_item (default_model : string) (item : json) : ModelProfile :=
  let p := MkModelProfile (json_string_value item "name" "") (json_string_array_value item "actions")
    (json_string_value item "primary_model" (json_string_value item "model" default_model))
    (json_string_array_value item "fallback_models") (json_int_value item "max_context_len" 0)
    (json_bool_value item "stream" true) (json_bool_value item "tool_calling" false)
    (json_int_value item "default_max_tokens" 0) (json_int_value item "default_timeout_ms" 0)
    (json_int_value item "default_deadline_ms" 0) (json_int_value item "default_priority" (-1))
    (json_bool_value item "allow_model_fallback" true) in
  let p := if str_empty (mp_name p) then p <| mp_name := mp_primary_model p |> else p in
  let p := if str_empty (mp_primary_model p) then p <| mp_primary_model := default_model |> else p in
  match mp_actions p with [] => p <| mp_actions := [mp_name p] |> | _ => p end.

(** The profiles and the error message; an error leaves no profiles. *)
Definition build_model_profiles_from_config (config_body : json) (default_model : string)
    : list ModelProfile * option string :=
  match json_get config_body "model_profiles" with
  | None => ([], None)
  | Some (JArr items) => (profile_of_item default_model <$> List.filter is_object items, None)
  | Some _ => ([], Some "model_profiles must be an array")
  end.

(** ** Endpoints *)

Section build_endpoints.
Context (default_model default_base_url default_api_key : string).
Context (mock_mode share_runtime strict_items : bool).
Context (alive : loc → bool).

(** The models an endpoint answers for: the configured ones or the default
    one, and always the model it serves. *)
Definition endpoint_logical_models (served_model : string) (configured : list string) : list string :=
  let models := match configured with [] => [default_model] | _ => configured end in
  if negb (string_in_vector models served_model) then models ++ [served_model] else models.

(** A configured item, or why it is refused. *)
Definition endpoint_of_item (index : Z) (item : json) : string + VllmEndpoint :=
  let name := json_string_value item "name" ("endpoint-" +:+ to_string index) in
  let base_url := trim_right_slash (json_string_value item "base_url" "") in
  let served_model := json_string_value item "served_model" (json_string_value item "model" default_model) in
  if str_empty base_url && negb mock_mode then inl ("endpoint missing base_url: " +:+ name)
  else if str_empty served_model then inl ("endpoint missing served_model: " +:+ name)
  else inr (default_endpoint
    <| ep_name := name |>
    <| ep_base_url := base_url |>
    <| ep_served_model := served_model |>
    <| ep_role := json_string_value item "role" (if index =? 0 then "primary" else "fallback") |>
    <| ep_health_path := json_string_value item "health_path" "/health" |>
    <| ep_api_key := json_string_value item "api_key" default_api_key |>
    <| ep_logical_models :=
         endpoint_logical_models served_model (json_string_array_value item "logical_models") |>
    <| ep_weight := json_int_value item "weight" (if index =? 0 then 100 else 10) |>
    <| ep_max_context_len := json_int_value item "max_context_len" 0 |>
    <| ep_max_concurrency := Z.max 1 (json_int_value item "max_concurrency" 1) |>).

(** [share_runtime ? share_endpoint_runtime(ep) : ep]; [out] holds owners of
    the objects placed so far. *)
Definition place_endpoint (out : list loc) (ep : VllmEndpoint) (h : heap) (table : endpoint_table)
    : heap * endpoint_table * loc :=
  if share_runtime then share_endpoint_runtime (λ l, alive l || bool_decide (l ∈ out)) ep h table
  else let l := fresh (dom h) in (<[l := ep]> h, table, l).

Fixpoint build_endpoint_items (index : Z) (out : list loc) (items : list json) (h : heap)
    (table : endpoint_table) : heap * endpoint_table * list loc * option string :=
  match items with
  | [] => (h, table, out, None)
  | item :: items =>
      if negb (is_object item) then
        if strict_items then (h, table, out, Some "endpoint item must be an object")
        else build_endpoint_items index out items h table
      else
        match endpoint_of_item index item with
        | inl message => (h, table, out, Some message)
        | inr ep =>
            let '(h, table, l) := place_endpoint out ep h table in
            build_endpoint_items (index + 1) (out ++ [l]) items h table
        end
  end.

Definition fallback_endpoint : VllmEndpoint :=
  default_endpoint <| ep_name := "default" |> <| ep_base_url := default_base_url |>
    <| ep_served_model := default_model |> <| ep_logical_models := [default_model] |>
    <| ep_role := "primary" |> <| ep_api_key := default_api_key |> <| ep_max_concurrency := 1 |>.

Definition has_base_url (h : heap) (l : loc) : bool :=
  match h !! l with Some ep => negb (str_empty (ep_base_url ep)) | None => true end.

Definition build_endpoints_from_config (config_body : json) (h : heap) (table : endpoint_table)
    : heap * endpoint_table * list loc * option string :=
  let endpoint_array : string + list json :=
    match json_get config_body "endpoints" with
    | Some (JArr items) => inr items
    | Some _ => inl "endpoints must be an array"
    | None =>
        match json_get config_body "vllm_endpoints" with
        | Some (JArr items) => inr items
        | Some _ => inl "vllm_endpoints must be an array"
        | None => inr []
        end
    end in
  match endpoint_array with
  | inl message => (h, table, [], Some message)
  | inr items =>
      let '(h, table, out, err) := build_endpoint_items 0 [] items h table in
      match err with
      | Some message => (h, table, out, Some message)
      | None =>
          let '(h, table, out) :=
            match out with
            | [] => let '(h, table, l) := place_endpoint out fallback_endpoint h table in (h, table, [l])
            | _ => (h, table, out)
            end in
          if negb mock_mode && negb (forallb (has_base_url h) out) then
            (h, table, out, Some "missing vllm_base_url, VLLM_BASE_URL, or endpoints[].base_url")
          else (h, table, out, None)
      end
  end.
End build_endpoints.

Definition fill_default_fallback_chain (fallback_chain : list string) (default_model : string)
    (h : heap) (endpoints : list loc) : list string :=
  match fallback_chain with
  | _ :: _ => fallback_chain
  | [] =>
      fold_left (λ chain l,
        match h !! l with
        | Some ep => if negb (string_in_vector chain (ep_served_model ep))
                     then chain ++ [ep_served_model ep] else chain
        | None => chain
        end) endpoints [default_model]
  end.

Definition has_endpoint_reload_config (config_body : json) : bool :=
  contains config_body "endpoints" || contains config_body "vllm_endpoints"
  || contains config_body "vllm_base_url".

(** The message of the first static member a reload tries to change. *)
Definition validate_static_reload_fields (config_body : json) (c : task_config) : option string :=
  if contains config_body "model" &&
     negb (json_string_value config_body "model" (tc_model c) =? tc_model c)%string then
    Some "model cannot be changed by reload_config; create a new scheduler instead"
  else if contains config_body "response_format" &&
     negb (json_string_value config_body "response_format" (tc_response_format c) =? tc_response_format c)%string then
    Some "response_format cannot be changed by reload_config"
  else if contains config_body "endpoint" &&
     negb (json_string_value config_body "endpoint" (tc_endpoint c) =? tc_endpoint c)%string then
    Some "endpoint path cannot be changed by reload_config"
  else if contains config_body "worker_count" &&
     negb (json_int_value config_body "worker_count" (tc_worker_count c) =? tc_worker_count c) then
    Some "worker_count cannot be changed by reload_config"
  else if contains config_body "mock" &&
     negb (Bool.eqb (json_bool_value config_body "mock" (tc_mock_mode c)) (tc_mock_mode c)) then
    Some "mock mode cannot be changed by reload_config"
  else None.

(** ** Loading *)

(** The first block of [parse_config]: the scalar members. *)
Definition parse_scalars (env : string → string) (config_body : json) (c : task_config) : task_config :=
  let response_format := json_string_value config_body "response_format" "llm.utf-8" in
  let timeout_ms := json_int_value config_body "timeout_ms" 30000 in
  let max_queue_size := json_int_value config_body "max_queue_size" 64 in
  MkTaskConfig
    (json_string_value config_body "model" "")
    response_format
    (json_string_value config_body "prompt" "")
    (json_string_value config_body "vllm_base_url" (env "VLLM_BASE_URL"))
    (json_string_value config_body "api_key" (env "VLLM_API_KEY"))
    (json_string_value config_body "endpoint" "/v1/chat/completions")
    (json_string_value config_body "temperature" "0.7")
    (tc_last_error c)
    (json_string_value config_body "routing_strategy" "weighted_least_queue")
    (json_string_value config_body "default_action" "chat")
    (tc_inputs c)
    (tc_fallback_chain c)
    (tc_model_profiles c)
    (json_bool_value config_body "enoutput" true)
    (str_contains response_format "stream")
    (tc_mock_mode c)
    (tc_allow_model_fallback c)
    timeout_ms
    (json_int_value config_body "deadline_ms" (to_int (timeout_ms + 10000)))
    (json_int_value config_body "max_retries" (json_int_value config_body "retry_count" 0))
    (json_int_value config_body "max_token_len" (json_int_value config_body "max_tokens" 1024))
    (Z.max 1 (json_int_value config_body "worker_count" 2))
    (Z.max 0 (json_int_value config_body "endpoint_wait_ms" 2000))
    max_queue_size
    (json_int_value config_body "low_priority_drop_threshold" (Z.max 0 (to_int (max_queue_size - 16))))
    (json_int_value config_body "high_priority_threshold" 7)
    (json_int_value config_body "priority" 5)
    (json_int_value config_body "health_check_interval_ms" 5000)
    (json_int_value config_body "health_check_timeout_ms" 2000)
    (json_int_value config_body "unhealthy_threshold" 3)
    (json_int_value config_body "recovery_threshold" 2)
    (json_int_value config_body "circuit_failure_threshold" 5)
    (json_int_value config_body "circuit_open_ms" 30000)
    (Z.max 1 (json_int_value config_body "max_task_records" 1000)).

(** The degradation policy: the object that holds it. *)
Definition policy_source (config_body : json) : json :=
  match json_get config_body "degrade_policy" with
  | Some (JObj m) => JObj m
  | _ => config_body
  end.

Definition parse_policy (config_body : json) (c : task_config) : task_config :=
  let policy := policy_source config_body in
  c <| tc_allow_model_fallback := json_bool_value policy "allow_model_fallback" true |>
    <| tc_fallback_chain := json_string_array_value policy "fallback_chain" |>.

Definition parse_mock_mode (env : string → string) (config_body : json) (c : task_config) : task_config :=
  let default_mock := str_empty (tc_base_url c) &&
    negb (contains config_body "endpoints" || contains config_body "vllm_endpoints") in
  let env_mock := env "VLLM_MOCK" in
  let default_mock := if negb (str_empty env_mock) then parse_bool_string env_mock default_mock
                      else default_mock in
  c <| tc_mock_mode := json_bool_value config_body "mock" default_mock |>.

Definition parse_inputs (config_body : json) (c : task_config) : task_config :=
  c <| tc_inputs := if contains config_body "input" then json_string_array_value config_body "input" else [] |>.

(** The path of the endpoint gets a leading slash, the base URL loses its
    trailing ones. *)
Definition normalize_urls (c : task_config) : task_config :=
  let c := match tc_endpoint c with
           | EmptyString => c
           | String ch _ => if decide (ch ≠ "/"%char) then c <| tc_endpoint := "/" +:+ tc_endpoint c |> else c
           end in
  c <| tc_base_url := trim_right_slash (tc_base_url c) |>.

Section parse.
Context `{TimeSeriesStore}.

Record parse_outcome := MkParseOutcome {
  po_failed : bool;
  po_config : task_config;
  po_observability : ObservabilityMetrics;
  po_heap : heap;
  po_table : endpoint_table;
  po_endpoints : list loc;
}.

(** [parse_config]; [flush_ms] are the times at which reconfiguring the
    metrics store flushes it. *)
Definition parse_config (env : string → string) (alive : loc → bool) (flush_ms : Z * Z)
    (config_body : json) (c : task_config) (obs : ObservabilityMetrics) (h : heap)
    (table : endpoint_table) (endpoints : list loc) : parse_outcome :=
  let c := parse_scalars env config_body c in
  let c := parse_policy config_body c in
  let c := parse_mock_mode env config_body c in
  let '(obs, _, _) := configure flush_ms.1 flush_ms.2 (observability_config_from_json config_body) obs in
  let c := parse_inputs config_body c in
  if str_empty (tc_model c) then
    MkParseOutcome true (c <| tc_last_error := "missing model" |>) obs h table endpoints
  else
    let c := normalize_urls c in
    let '(profiles, err) := build_model_profiles_from_config config_body (tc_model c) in
    let c := c <| tc_model_profiles := profiles |> in
    match err with
    | Some parse_error =>
        MkParseOutcome true (c <| tc_last_error := parse_error |>) obs h table endpoints
    | None =>
        let '(h, table, parsed_endpoints, err) :=
          build_endpoints_from_config (tc_model c) (tc_base_url c) (tc_api_key c) (tc_mock_mode c)
            true false alive config_body h table in
        match err with
        | Some message =>
            MkParseOutcome true (c <| tc_last_error := message |>) obs h table endpoints
        | None =>
            MkParseOutcome false
              (c <| tc_fallback_chain :=
                     fill_default_fallback_chain (tc_fallback_chain c) (tc_model c) h parsed_endpoints |>)
              obs h table parsed_endpoints
        end
    end.
End parse.

(** ** The parameters of a request *)

Definition request_action (c : task_config) (object : string) (meta : json) (fallback_action : string)
    : string :=
  let action := json_string_value meta "action" "" in
  if negb (str_empty action) then action
  else if str_contains object "summary" then "summary"
  else if str_contains object "rewrite" then "rewrite"
  else if str_contains object "code" || str_contains object "debug" then "code"
  else if str_contains object "qa" then "qa"
  else if str_empty fallback_action then tc_default_action c else fallback_action.

Definition find_profile_for_action (c : task_config) (action : string) : option ModelProfile :=
  if str_empty action then None
  else List.find (λ p, (mp_name p =? action)%string || string_in_vector (mp_actions p) action)
         (tc_model_profiles c).

(** [fallback_chain] under a profile: what is there, the primary model, then
    each fallback not named before. *)
Definition profile_chain (chain : list string) (p : ModelProfile) : list string :=
  fold_left (λ chain m, if negb (string_in_vector chain m) then chain ++ [m] else chain)
    (mp_fallback_models p) (chain ++ [mp_primary_model p]).

Definition apply_profile_to_request (c : task_config) (meta : json) (req : InferenceRequest)
    : InferenceRequest :=
  let profile := find_profile_for_action c (req_action req) in
  let requested_model := json_string_value meta "model" "" in
  let profile_int (positive : Z → bool) (f : ModelProfile → Z) (dflt : Z) : Z :=
    match profile with Some p => if positive (f p) then f p else dflt | None => dflt end in
  let logical_model :=
    match profile with
    | Some p => mp_primary_model p
    | None => if str_empty requested_model then tc_model c else requested_model
    end in
  let chain := match profile with Some p => profile_chain (req_fallback_chain req) p | None => tc_fallback_chain c end in
  let chain :=
    match profile with
    | None => if negb (str_empty requested_model) && negb (string_in_vector chain requested_model)
              then requested_model :: chain else chain
    | Some _ => chain
    end in
  let chain := match chain with [] => [logical_model] | _ => chain end in
  let allow := tc_allow_model_fallback c &&
    match profile with Some p => mp_allow_model_fallback p | None => true end in
  let allow := json_bool_value meta "allow_degrade" allow in
  req <| req_profile_name := match profile with Some p => mp_name p | None => "default" end |>
      <| req_logical_model := logical_model |>
      <| req_fallback_chain := chain |>
      <| req_priority := json_int_value meta "priority"
           (profile_int (λ z, 0 <=? z) mp_default_priority (tc_default_priority c)) |>
      <| req_timeout_ms := json_int_value meta "timeout_ms"
           (profile_int (λ z, 0 <? z) mp_default_timeout_ms (tc_timeout_ms c)) |>
      <| req_deadline_ms := json_int_value meta "deadline_ms"
           (profile_int (λ z, 0 <? z) mp_default_deadline_ms (tc_deadline_ms c)) |>
      <| req_max_retries := json_int_value meta "max_retries" (tc_max_retries c) |>
      <| req_max_tokens := json_int_value meta "max_tokens" (json_int_value meta "max_token_len"
           (profile_int (λ z, 0 <? z) mp_default_max_tokens (tc_max_tokens c))) |>
      <| req_allow_degrade := json_bool_value meta "allow_model_fallback" allow |>.

(** ** Lemmas *)

Lemma endpoint_logical_models_served default_model served configured :
  served ∈ endpoint_logical_models default_model served configured.
Proof.
  unfold endpoint_logical_models. cbv zeta.
  destruct (string_in_vector _ served) eqn:E; simpl.
  - by apply string_in_vector_spec.
  - apply elem_of_app. right. by left.
Qed.

(** What a configured endpoint satisfies. *)
Definition configured_wf (mock : bool) (ep : VllmEndpoint) : Prop :=
  configured_ok ep ∧ (mock = false → str_empty (ep_base_url ep) = false) ∧
  str_empty (ep_served_model ep) = false ∧ ep_served_model ep ∈ ep_logical_models ep.

Lemma endpoint_of_item_wf default_model default_api_key mock index item ep :
  endpoint_of_item default_model default_api_key mock index item = inr ep → configured_wf mock ep.
Proof.
  unfold endpoint_of_item. cbv zeta. intros E.
  destruct (str_empty (trim_right_slash _) && negb mock) eqn:E1; [done|].
  destruct (str_empty (json_string_value item "served_model" _)) eqn:E2; [done|].
  injection E as <-. split_and!; cbn; [split_and!; cbn; [lia|done|done]| |done|].
  - intros ->. by rewrite andb_true_r in E1.
  - apply endpoint_logical_models_served.
Qed.

(** An endpoint as a loaded configuration holds it: the object may be shared
    with another scheduler and then keeps its own runtime members. *)
Definition built_ok (h : heap) (l : loc) : Prop :=
  ∃ ep, h !! l = Some ep ∧ 1 <= ep_max_concurrency ep.

Lemma place_endpoint_ok share alive out ep h table h' table' l :
  place_endpoint share alive out ep h table = (h', table', l) → 1 <= ep_max_concurrency ep →
  built_ok h' l ∧ ∀ k, built_ok h k → built_ok h' k.
Proof.
  assert (∀ (m : heap) (k : loc) e, 1 <= ep_max_concurrency e →
            built_ok (<[k := e]> m) k ∧ ∀ k', built_ok m k' → built_ok (<[k := e]> m) k') as Hins.
  { intros m k e He. split; [exists e; by rewrite lookup_insert_eq|].
    intros k' (e' & Hk' & He'). unfold built_ok. destruct (decide (k = k')) as [->|].
    - rewrite lookup_insert_eq. by exists e.
    - rewrite lookup_insert_ne by done. by exists e'. }
  unfold place_endpoint, share_endpoint_runtime. cbv zeta. intros E Hm.
  repeat case_match; simplify_eq; by apply Hins.
Qed.

Lemma build_endpoint_items_ok dm dk mock share strict alive items : ∀ index out h table h' table' out' err,
  build_endpoint_items dm dk mock share strict alive index out items h table = (h', table', out', err) →
  Forall (built_ok h) out → Forall (built_ok h') out'.
Proof.
  induction items as [|item items IH]; intros index out h table h' table' out' err E Hout; cbn in E; [by simplify_eq|].
  destruct (negb (is_object item)).
  { destruct strict; [by simplify_eq|eauto]. }
  destruct (endpoint_of_item dm dk mock index item) as [message|ep] eqn:Eep; [by simplify_eq|].
  apply endpoint_of_item_wf in Eep as ((Hmax & _) & _).
  destruct (place_endpoint share alive out ep h table) as [[h1 table1] l] eqn:Epl.
  apply place_endpoint_ok in Epl as [Hl Hkeep]; [|done].
  eapply IH; [exact E|]. apply Forall_app. split; [|by repeat constructor].
  by eapply Forall_impl.
Qed.

(** A build without sharing puts each configured endpoint into a new object. *)
Lemma build_endpoint_items_fresh dm dk mock strict alive items : ∀ index out h table h' table' out' err,
  build_endpoint_items dm dk mock false strict alive index out items h table = (h', table', out', err) →
  Forall (λ l, ∃ ep, h !! l = Some ep ∧ configured_wf mock ep) out →
  h ⊆ h' ∧ table' = table ∧ Forall (λ l, ∃ ep, h' !! l = Some ep ∧ configured_wf mock ep) out'.
Proof.
  induction items as [|item items IH]; intros index out h table h' table' out' err E Hout; cbn in E; [by simplify_eq|].
  destruct (negb (is_object item)).
  { destruct strict; [by simplify_eq|eauto]. }
  destruct (endpoint_of_item dm dk mock index item) as [message|ep] eqn:Eep; [by simplify_eq|].
  apply endpoint_of_item_wf in Eep. set (l := fresh (dom h)) in *.
  assert (h ⊆ <[l := ep]> h) as Hsub by (apply insert_subseteq, not_elem_of_dom, is_fresh).
  apply IH in E as (Hsub' & -> & Hout').
  - split_and!; [by etrans|done|done].
  - apply Forall_app. split.
    + eapply Forall_impl; [exact Hout|]. intros k (e & Hk & He). exists e. split; [|done].
      by eapply lookup_weaken.
    + constructor; [|done]. exists ep. split; [|done]. apply lookup_insert_eq.
Qed.

Lemma build_endpoints_ok dm db dk mock share strict alive body h table h' table' out :
  build_endpoints_from_config dm db dk mock share strict alive body h table = (h', table', out, None) →
  out ≠ [] ∧ Forall (built_ok h') out ∧ (mock = false → Forall (λ l, has_base_url h' l = true) out).
Proof.
  unfold build_endpoints_from_config. cbv zeta.
  destruct (match json_get body "endpoints" with Some _ => _ | None => _ end) as [message|items]; [done|].
  destruct (build_endpoint_items dm dk mock share strict alive 0 [] items h table)
    as [[[h1 table1] out1] err] eqn:Eitems.
  apply build_endpoint_items_ok in Eitems; [|done]. destruct err; [done|].
  destruct (match out1 with [] => _ | _ :: _ => _ end) as [[h2 table2] out2] eqn:Efallback.
  assert (out2 ≠ [] ∧ Forall (built_ok h2) out2) as [Hne Hok].
  { destruct out1 as [|l1 out1]; [|by simplify_eq].
    destruct (place_endpoint share alive [] (fallback_endpoint dm db dk) h1 table1) as [[h3 table3] l] eqn:Epl.
    apply place_endpoint_ok in Epl as [Hl _]; [|done]. simplify_eq. split; [done|]. by repeat constructor. }
  destruct (negb mock && negb (forallb (has_base_url h2) out2)) eqn:Ebase; [done|].
  intros [= <- <- <-]. split_and!; [done|done|]. intros ->. simpl in Ebase.
  apply negb_false_iff in Ebase. apply Forall_forall. intros l Hl.
  rewrite forallb_forall in Ebase. apply Ebase. by apply list_elem_of_In.
Qed.

Lemma fill_chain_nonempty chain dm h endpoints : fill_default_fallback_chain chain dm h endpoints ≠ [].
Proof.
  unfold fill_default_fallback_chain. destruct chain as [|m chain]; [|done].
  assert (∀ endpoints acc, acc ≠ [] →
    fold_left (λ chain l, match h !! l with
      | Some ep => if negb (string_in_vector chain (ep_served_model ep))
                   then chain ++ [ep_served_model ep] else chain
      | None => chain end) endpoints acc ≠ []) as Hgen; [|by apply Hgen].
  clear. induction endpoints as [|l endpoints IH]; intros acc Hacc; [done|]. simpl. apply IH.
  repeat case_match; [by destruct acc|done|done].
Qed.

Definition leads_with_slash (s : string) : Prop :=
  match s with EmptyString => True | String ch _ => ch = "/"%char end.

Definition slash_prefixed (s : string) : string :=
  match s with
  | EmptyString => EmptyString
  | String ch _ => if decide (ch ≠ "/"%char) then "/" +:+ s else s
  end.

Lemma str_cons_neq c (s : string) : String c s ≠ s.
Proof. intros E. apply (f_equal String.length) in E. simpl in E. lia. Qed.

Lemma slash_prefixed_fix s : slash_prefixed s = s ↔ leads_with_slash s.
Proof.
  destruct s as [|ch s]; [done|]. simpl. case_decide as Hch.
  - change ("/" +:+ String ch s) with (String "/" (EmptyString +:+ String ch s)).
    split; [|done]. intros E. by apply str_cons_neq in E.
  - split; [by intros _; destruct (decide (ch = "/"%char))|done].
Qed.

(** The members a parse stores, for the document it reads. *)
Definition stores (env : string → string) (body : json) (c : task_config) : Prop :=
  tc_model c = json_string_value body "model" "" ∧
  tc_response_format c = json_string_value body "response_format" "llm.utf-8" ∧
  tc_endpoint c = slash_prefixed (json_string_value body "endpoint" "/v1/chat/completions") ∧
  tc_worker_count c = Z.max 1 (json_int_value body "worker_count" 2) ∧
  tc_endpoint_wait_ms c = Z.max 0 (json_int_value body "endpoint_wait_ms" 2000) ∧
  tc_max_task_records c = Z.max 1 (json_int_value body "max_task_records" 1000) ∧
  ∃ d, tc_mock_mode c = json_bool_value body "mock" d.

Lemma normalize_urls_frame c :
  tc_model (normalize_urls c) = tc_model c ∧ tc_response_format (normalize_urls c) = tc_response_format c ∧
  tc_endpoint (normalize_urls c) = slash_prefixed (tc_endpoint c) ∧
  tc_worker_count (normalize_urls c) = tc_worker_count c ∧
  tc_endpoint_wait_ms (normalize_urls c) = tc_endpoint_wait_ms c ∧
  tc_max_task_records (normalize_urls c) = tc_max_task_records c ∧
  tc_mock_mode (normalize_urls c) = tc_mock_mode c.
Proof.
  unfold normalize_urls, slash_prefixed. destruct (tc_endpoint c) eqn:E; [|case_decide]; cbn; auto 10.
Qed.

Lemma parsed_members env body c :
  stores env body
    (normalize_urls (parse_inputs body (parse_mock_mode env body (parse_policy body (parse_scalars env body c))))).
Proof.
  unfold stores.
  match goal with |- context [normalize_urls ?c1] =>
    destruct (normalize_urls_frame c1) as (-> & -> & -> & -> & -> & -> & ->) end.
  split_and!; try reflexivity. eexists. reflexivity.
Qed.

Lemma stores_frame env body c profiles chain :
  stores env body c →
  stores env body (c <| tc_model_profiles := profiles |> <| tc_fallback_chain := chain |>).
Proof. by destruct c. Qed.

Lemma parse_config_success `{TimeSeriesStore} env alive flush body c obs h table eps :
  let o := parse_config env alive flush body c obs h table eps in
  po_failed o = false →
  stores env body (po_config o) ∧ str_empty (tc_model (po_config o)) = false ∧
  tc_fallback_chain (po_config o) ≠ [] ∧
  ∃ db dk, build_endpoints_from_config (tc_model (po_config o)) db dk (tc_mock_mode (po_config o))
      true false alive body h table = (po_heap o, po_table o, po_endpoints o, None).
Proof.
  cbv zeta. unfold parse_config. cbv zeta.
  destruct (configure _ _ _ obs) as [[obs' ?] ?].
  pose proof (parsed_members env body c) as Hst.
  generalize dependent (parse_inputs body (parse_mock_mode env body (parse_policy body (parse_scalars env body c)))).
  intros c1 Hst. destruct (str_empty (tc_model c1)) eqn:Em; [done|].
  destruct (normalize_urls_frame c1) as (Hm & _). rewrite <- Hm in Em. clear Hm. revert Em Hst.
  generalize (normalize_urls c1). intros c2 Em Hst.
  destruct (build_model_profiles_from_config body (tc_model c2)) as [profiles [err|]]; [done|].
  change (tc_model (c2 <| tc_model_profiles := profiles |>)) with (tc_model c2).
  change (tc_mock_mode (c2 <| tc_model_profiles := profiles |>)) with (tc_mock_mode c2).
  destruct (build_endpoints_from_config _ _ _ _ _ _ _ _ _ _) as [[[h2 table2] out] [err|]] eqn:E; [done|].
  intros _. cbn [po_config po_heap po_table po_endpoints]. split; [by apply stores_frame|].
  split; [exact Em|]. split; [apply fill_chain_nonempty|]. eexists _, _. exact E.
Qed.

Lemma json_string_value_again body key d d' :
  json_string_value body key (json_string_value body key d) = json_string_value body key d ∧
  (is_string (default JNull (json_get body key)) = true →
   json_string_value body key d = json_string_value body key d').
Proof. unfold json_string_value. destruct (json_get body key) as [[]|]; done. Qed.

Lemma json_bool_value_again body key d :
  json_bool_value body key (json_bool_value body key d) = json_bool_value body key d.
Proof.
  unfold json_bool_value. destruct (json_get body key) as [[]|]; try done.
  unfold parse_bool_string. by repeat case_match.
Qed.

Lemma endpoint_unchanged body d :
  leads_with_slash d →
  (contains body "endpoint" &&
   negb (json_string_value body "endpoint" (slash_prefixed (json_string_value body "endpoint" d)) =?
         slash_prefixed (json_string_value body "endpoint" d))%string = false ↔
   leads_with_slash (json_string_value body "endpoint" "")).
Proof.
  intros Hd. unfold contains, json_string_value.
  destruct (json_get body "endpoint") as [[]|]; cbn [andb]; rewrite ?String.eqb_refl; try done.
  rewrite negb_false_iff, String.eqb_eq, <- slash_prefixed_fix. done.
Qed.

Lemma worker_count_unchanged body d :
  1 <= d →
  (contains body "worker_count" &&
   negb (json_int_value body "worker_count" (Z.max 1 (json_int_value body "worker_count" d)) =?
         Z.max 1 (json_int_value body "worker_count" d)) = false ↔
   1 <= json_int_value body "worker_count" 1).
Proof.
  intros Hd. unfold contains, json_int_value.
  destruct (json_get body "worker_count") as [[]|]; cbn [andb]; rewrite ?Z.eqb_refl; try (split; [lia|done]).
  - rewrite negb_false_iff, Z.eqb_eq. lia.
  - destruct (stoi s); rewrite negb_false_iff, Z.eqb_eq; lia.
Qed.

Lemma chain_fold_spec fallbacks : ∀ chain,
  NoDup chain →
  let chain' := fold_left (λ chain m, if negb (string_in_vector chain m) then chain ++ [m] else chain)
                  fallbacks chain in
  (∃ ms, chain' = chain ++ ms) ∧ NoDup chain' ∧ ∀ m, m ∈ chain' ↔ m ∈ chain ∨ m ∈ fallbacks.
Proof.
  induction fallbacks as [|f fallbacks IH]; intros chain Hnd; cbv zeta; simpl.
  - split_and!; [exists []; by rewrite app_nil_r|done|]. intros m. rewrite elem_of_nil. tauto.
  - destruct (string_in_vector chain f) eqn:E; simpl.
    + apply string_in_vector_spec in E. destruct (IH chain Hnd) as (Hms & Hnd' & Hin).
      split_and!; [done|done|]. intros m. rewrite Hin, elem_of_cons. split; [tauto|].
      intros [?|[-> |?]]; tauto.
    + apply string_in_vector_false in E.
      destruct (IH (chain ++ [f])) as ([ms Hms] & Hnd' & Hin).
      { apply NoDup_app. split_and!; [done| |apply NoDup_singleton].
        intros x Hx Hf. apply list_elem_of_singleton in Hf. by subst. }
      split_and!; [|done|].
      * exists (f :: ms). by rewrite Hms, <- app_assoc.
      * intros m. rewrite Hin, elem_of_app, list_elem_of_singleton, elem_of_cons. tauto.
Qed.

Lemma profile_chain_spec p :
  ∃ ms, profile_chain [] p = mp_primary_model p :: ms ∧ NoDup (mp_primary_model p :: ms) ∧
    ∀ m, m ∈ mp_primary_model p :: ms ↔ m = mp_primary_model p ∨ m ∈ mp_fallback_models p.
Proof.
  destruct (chain_fold_spec (mp_fallback_models p) [mp_primary_model p]) as ([ms Hms] & Hnd & Hin).
  { apply NoDup_singleton. }
  cbv zeta in *. exists ms. unfold profile_chain. simpl app at 1. rewrite Hms in *.
  split_and!; [done|done|]. intros m. rewrite <- (list_elem_of_singleton m (mp_primary_model p)). apply Hin.
Qed.

(** ** Properties *)

(** C40.  A configuration that loads is usable: there is a
    model, a non-empty fallback chain, at least one worker and one record, at
    least one endpoint, and every endpoint is an object that admits a call
    and, unless the task is a mock, has a base URL. *)
Theorem loaded_config_usable `{TimeSeriesStore} env alive flush body c obs h table eps :
  let o := parse_config env alive flush body c obs h table eps in
  po_failed o = false →
  str_empty (tc_model (po_config o)) = false ∧ tc_fallback_chain (po_config o) ≠ [] ∧
  1 <= tc_worker_count (po_config o) ∧ 1 <= tc_max_task_records (po_config o) ∧
  0 <= tc_endpoint_wait_ms (po_config o) ∧ po_endpoints o ≠ [] ∧
  Forall (λ l, ∃ ep, po_heap o !! l = Some ep ∧ 1 <= ep_max_concurrency ep ∧
    (tc_mock_mode (po_config o) = false → str_empty (ep_base_url ep) = false)) (po_endpoints o).
Proof.
  cbv zeta. intros Hok. apply parse_config_success in Hok as (Hst & Hm & Hchain & db & dk & Hb).
  generalize dependent (parse_config env alive flush body c obs h table eps). intros o Hst Hm Hchain Hb.
  apply build_endpoints_ok in Hb as (Hne & Hbuilt & Hbase).
  destruct Hst as (_ & _ & _ & -> & -> & -> & _).
  split_and!; [done|done|lia|lia|lia|done|].
  apply Forall_forall. intros l Hl. rewrite Forall_forall in Hbuilt.
  destruct (Hbuilt l Hl) as (ep & Hep & Hmax). exists ep. split_and!; [done|done|].
  intros Hmock. specialize (Hbase Hmock). rewrite Forall_forall in Hbase.
  specialize (Hbase l Hl). unfold has_base_url in Hbase. rewrite Hep in Hbase. by apply negb_true_iff.
Qed.

(** Reloading the very document a task was loaded from
    passes the check on static members exactly when the document's endpoint
    path, if given, starts with a slash and its worker count, if readable, is
    positive: loading normalizes those two members but the check compares
    them with the raw document. *)
Theorem reload_of_loaded_document `{TimeSeriesStore} env alive flush body c obs h table eps :
  let o := parse_config env alive flush body c obs h table eps in
  po_failed o = false →
  (validate_static_reload_fields body (po_config o) = None ↔
   leads_with_slash (json_string_value body "endpoint" "") ∧ 1 <= json_int_value body "worker_count" 1).
Proof.
  cbv zeta. intros Hok. apply parse_config_success in Hok as (Hst & _).
  destruct Hst as (Hm & Hf & He & Hw & _ & _ & d & Hk).
  unfold validate_static_reload_fields. rewrite Hm, Hf, Hk, He, Hw.
  rewrite !(proj1 (json_string_value_again _ _ _ "")), json_bool_value_again, !String.eqb_refl, Bool.eqb_reflx.
  rewrite !andb_false_r. cbn [negb].
  rewrite <- (endpoint_unchanged body "/v1/chat/completions"), <- (worker_count_unchanged body 2) by done.
  destruct (contains body "endpoint" && _); [by split; [|intros [? _]]|].
  destruct (contains body "worker_count" && _); [by split; [|intros [_ ?]]|]. done.
Qed.

(** The fallback chain of a request is never empty and
    names every model at most once when a profile is in force; it then starts
    with the profile's primary model, which is the request's model.  Without
    a profile a model the client asked for is the request's model and is in
    the chain. *)
Theorem request_chain_wf c meta req :
  req_fallback_chain req = [] →
  let req' := apply_profile_to_request c meta req in
  req_fallback_chain req' ≠ [] ∧
  match find_profile_for_action c (req_action req) with
  | Some p => hd_error (req_fallback_chain req') = Some (req_logical_model req') ∧
      req_logical_model req' = mp_primary_model p ∧ NoDup (req_fallback_chain req') ∧
      ∀ m, m ∈ req_fallback_chain req' ↔ m = mp_primary_model p ∨ m ∈ mp_fallback_models p
  | None => str_empty (json_string_value meta "model" "") = false →
      req_logical_model req' = json_string_value meta "model" "" ∧
      req_logical_model req' ∈ req_fallback_chain req'
  end.
Proof.
  intros Hreq. cbv zeta. unfold apply_profile_to_request.
  destruct (find_profile_for_action c (req_action req)) as [p|]; cbn -[str_empty].
  - rewrite Hreq. destruct (profile_chain_spec p) as (ms & Hc & Hnd & Hin).
    rewrite Hc in *. split_and!; [done|done|done|done|]. exact Hin.
  - split; [by repeat case_match|]. intros Hm. rewrite Hm. simpl.
    split; [done|]. destruct (string_in_vector _ _) eqn:E; simpl; [|by left].
    apply string_in_vector_spec in E. destruct (tc_fallback_chain c); [by left|done].
Qed.

(** ** Concrete configurations *)

(** A store that accepts everything, to run the definitions. *)
#[export] Instance open_store : TimeSeriesStore := {|
  engine := list tsdb_record;
  engine_open _ _ := Ok [];
  engine_write e batch := (e ++ batch, (true, "ok"));
  engine_range_query e m lo hi :=
    Ok (List.filter (λ r, (rec_measurement r =? m)%string && (lo <=? rec_timestamp r) && (rec_timestamp r <=? hi)) e);
  engine_downsample e m lo hi _ _ := Ok [];
|}.

Definition sample_document : json :=
  mk_obj [("model", JStr "qwen3-8b"); ("worker_count", JInt 4); ("mock", JBool false);
          ("endpoint", JStr "v1/chat/completions");
          ("endpoints", JArr [mk_obj [("base_url", JStr "http://a/"); ("max_concurrency", JInt 8)]])].

Definition load_sample (body : json) : parse_outcome :=
  parse_config (λ _, "") (λ _, true) (0, 0) body default_config new_observability ∅ ∅ [].

Lemma loaded_config_usable_witness :
  po_failed (load_sample sample_document) = false ∧ po_endpoints (load_sample sample_document) ≠ [].
Proof.
  assert (po_failed (load_sample sample_document) = false) as Hok by (vm_compute; reflexivity).
  split; [exact Hok|].
  exact (proj1 (proj2 (proj2 (proj2 (proj2 (proj2
    (loaded_config_usable (λ _, "") (λ _, true) (0, 0) sample_document default_config new_observability ∅ ∅ [] Hok))))))).
Defined.

(** The sample document loads and is refused by its own reload. *)
Lemma reload_of_loaded_document_witness :
  validate_static_reload_fields sample_document (po_config (load_sample sample_document)) ≠ None.
Proof.
  assert (po_failed (load_sample sample_document) = false) as Hok by (vm_compute; reflexivity).
  intros [Hslash _]%(reload_of_loaded_document (λ _, "") (λ _, true) (0, 0) sample_document default_config
    new_observability ∅ ∅ [] Hok).
  vm_compute in Hslash. discriminate Hslash.
Defined.

Lemma request_chain_wf_witness :
  req_fallback_chain (apply_profile_to_request default_config (mk_obj [("model", JStr "m")]) default_request) ≠ [].
Proof.
  apply (request_chain_wf default_config (mk_obj [("model", JStr "m")]) default_request).
  reflexivity.
Defined.

(** A load that fails can still change a running
    scheduler: endpoints are shared process-wide while the document is being
    read, so an item before the faulty one has already rewritten the limits
    of the object another task uses. *)
Theorem failed_load_rewrites_shared_endpoint :
  ∃ body h table l ep ep',
    let o := parse_config (λ _, "") (λ _, true) (0, 0) body default_config new_observability h table [] in
    po_failed o = true ∧ h !! l = Some ep ∧ po_heap o !! l = Some ep' ∧
    ep_max_concurrency ep = 8 ∧ ep_max_concurrency ep' = 1.
Proof.
  pose (ep := (sample_endpoint "a" "http://a" "m" "primary" ["m"]) <| ep_max_concurrency := 8 |>).
  exists (mk_obj [("model", JStr "m");
            ("endpoints", JArr [mk_obj [("base_url", JStr "http://a"); ("max_concurrency", JInt 1)];
                                mk_obj [("name", JStr "b")]])]),
    {[0%nat := ep]}, {[endpoint_runtime_key ep := 0%nat]}, 0%nat, ep,
    (adopt_configuration (default_endpoint <| ep_name := "endpoint-0" |> <| ep_logical_models := ["m"] |>) ep).
  cbv zeta. split_and!; vm_compute; reflexivity.
Qed.
