(* ===== verification/Stream.v ===== *)
(** * Responses of a vLLM server

    What [vllm_task] makes of the bytes an HTTP call delivers
    ([node/vllm-client/src/main.cpp]): the line splitter of the event stream
    ([write_stream_callback]), the handling of one event
    ([handle_stream_line]), the reading of a complete response
    ([extract_response_text]), the messages sent to the client ([emit_*]) and
    the call itself ([call_vllm]).  JSON text ([json::parse], [dump]) is the
    interface [JsonText], which [Wire] implements with the library; the HTTP
    library (curl) is outside the sources: an [http_reply] says which bytes
    arrive and how the transfer ends. *)
From S2P Require Import Prelude StdString Doubles Json Observability Types Endpoint Config.

(** [dump] throws on a string that is not UTF-8 ([type_error.316]). *)
Class JsonText := {
  json_parse : string → result json;
  json_dump : json → result string;
}.

(** ** Messages to the client *)

(** The arguments of one call of the output callback. *)
Record output_message := MkOutputMessage {
  om_request_id : string;
  om_work_id : string;
  om_output_url : string;
  om_object : string;
  om_data : json;
  om_error_code : Z;
  om_error_message : string;
}.

Definition emit_text (req : InferenceRequest) (text : string) : list output_message :=
  if negb (req_enoutput req) then []
  else [MkOutputMessage (req_request_id req) (req_work_id req) (req_output_url req)
          (req_response_format req) (JStr text) 0 ""].

Definition delta_fields (req : InferenceRequest) (delta : string) (finish : bool) (index : Z)
    : gmap string json :=
  let body : gmap string json := list_to_map [
    ("index", JInt index); ("delta", JStr (if finish then "" else delta)); ("finish", JBool finish);
    ("action", JStr (req_action req)); ("profile_name", JStr (req_profile_name req));
    ("model", JStr (req_logical_model req));
    ("served_model", JStr (if str_empty (req_served_model req) then req_logical_model req
                           else req_served_model req));
    ("endpoint", JStr (req_endpoint_name req)); ("degraded", JBool (req_degraded req))] in
  let body :=
    if finish then
      <["queue_wait_ms" := JInt (req_queue_wait_ms req)]>
      (<["first_token_latency_ms" := JInt (req_first_token_latency_ms req)]>
      (<["total_latency_ms" := JInt (req_total_latency_ms req)]>
      (<["retry_count" := JInt (req_retry_count req)]> body)))
    else body in
  if negb (str_empty (req_degrade_reason req))
  then <["degrade_reason" := JStr (req_degrade_reason req)]> body else body.

Definition emit_delta (req : InferenceRequest) (delta : string) (finish : bool) (index : Z)
    : list output_message :=
  if negb (req_enoutput req) then []
  else [MkOutputMessage (req_request_id req) (req_work_id req) (req_output_url req)
          (req_response_format req) (JObj (delta_fields req delta finish index)) 0 ""].

(** Sent whether or not the session wants output. *)
Definition emit_error (req : InferenceRequest) (code : Z) (message : string) : list output_message :=
  [MkOutputMessage (req_request_id req) (req_work_id req) (req_output_url req) "None" (JStr "None")
     code message].

(** ** The event stream *)

Record StreamState := MkStreamState {
  st_req : InferenceRequest;
  st_buffer : string;
  st_index : Z;
  st_done : bool;
  st_failed : bool;
  st_started : bool;
  st_begin_ms : Z;
  st_first_token_latency_ms : Z;
  st_error_message : string;
}.
#[export] Instance eta_st : Eta StreamState := fun s =>
  MkStreamState (st_req s) (st_buffer s) (st_index s) (st_done s) (st_failed s) (st_started s)
    (st_begin_ms s) (st_first_token_latency_ms s) (st_error_message s).

Definition new_stream_state (req : InferenceRequest) (begin_ms : Z) : StreamState :=
  MkStreamState req "" 0 false false false begin_ms (-1) "".

(** [choice["delta"]["content"]], else [choice["text"]], else nothing. *)
Definition delta_of_choice (choice : json) : string :=
  match json_get choice "delta" ≫= (λ d, json_get d "content") with
  | Some (JStr s) => s
  | _ => json_string_value choice "text" ""
  end.

Fixpoint skip_blanks (s : string) : string :=
  match s with
  | String " "%char s' => skip_blanks s'
  | _ => s
  end.

Section stream.
Context `{JsonText}.

(** A parsed event: an error, nothing to send, or a delta. *)
Inductive stream_event :=
  | EventError (message : string)
  | EventNothing
  | EventDelta (delta : string).

Definition event_of_json (parsed : json) : stream_event :=
  match json_get parsed "error" with
  | Some e => EventError (match json_dump e with Ok text => text | Throw what => what end)
  | None =>
      match json_get parsed "choices" with
      | Some (JArr (choice :: _)) =>
          let delta := delta_of_choice choice in
          if str_empty delta then EventNothing else EventDelta delta
      | _ => EventNothing
      end
  end.

Definition handle_stream_line (now : Z) (state : StreamState) (line : string)
    : StreamState * list output_message :=
  if negb (str_take 5 line =? "data:")%string then (state, [])
  else
    let payload := skip_blanks (str_drop 5 line) in
    if (payload =? "[DONE]")%string then (state <| st_done := true |>, [])
    else
      match json_parse payload with
      | Throw what => (state <| st_failed := true |> <| st_error_message := what |>, [])
      | Ok parsed =>
          match event_of_json parsed with
          | EventError message => (state <| st_failed := true |> <| st_error_message := message |>, [])
          | EventNothing => (state, [])
          | EventDelta delta =>
              let out := emit_delta (st_req state) delta false (st_index state) in
              let latency := if negb (st_started state) then now - st_begin_ms state
                             else st_first_token_latency_ms state in
              (state <| st_first_token_latency_ms := latency |> <| st_started := true |>
                     <| st_index := st_index state + 1 |>, out)
          end
      end.

Definition strip_cr (line : string) : string :=
  match str_back line with
  | Some ch => if decide (ch = "013"%char) then str_pop_back line else line
  | None => line
  end.

(** The loop over complete lines; each turn shortens the buffer, so its length
    is enough fuel. *)
Fixpoint drain_lines (fuel : nat) (now : Z) (state : StreamState) : StreamState * list output_message :=
  match fuel with
  | O => (state, [])
  | S fuel =>
      match char_find "010"%char (st_buffer state) with
      | None => (state, [])
      | Some pos =>
          let line := str_take pos (st_buffer state) in
          let state := state <| st_buffer := str_drop (S pos) (st_buffer state) |> in
          let '(state, out) := handle_stream_line now state (strip_cr line) in
          let '(state, more) := drain_lines fuel now state in
          (state, out ++ more)
      end
  end.

(** One invocation of the callback: [chunk] is the [size * nmemb] bytes at [ptr]. *)
Definition write_stream_callback (now : Z) (chunk : string) (state : StreamState)
    : StreamState * list output_message :=
  let state := state <| st_buffer := st_buffer state +:+ chunk |> in
  drain_lines (String.length (st_buffer state)) now state.

Fixpoint feed (chunks : list (Z * string)) (state : StreamState) : StreamState * list output_message :=
  match chunks with
  | [] => (state, [])
  | (now, chunk) :: chunks =>
      let '(state, out) := write_stream_callback now chunk state in
      let '(state, more) := feed chunks state in
      (state, out ++ more)
  end.

Definition write_body_callback (body chunk : string) : string := body +:+ chunk.
End stream.

(** ** Lines of a byte stream *)

(** The complete lines of a text and what follows the last line feed. *)
Fixpoint lines_of (s : string) : list string * string :=
  match s with
  | EmptyString => ([], EmptyString)
  | String c s =>
      let '(ls, rest) := lines_of s in
      if decide (c = "010"%char) then (EmptyString :: ls, rest)
      else match ls with
           | [] => ([], String c rest)
           | l :: ls => (String c l :: ls, rest)
           end
  end.

Lemma lines_of_find s :
  match char_find "010"%char s with
  | None => lines_of s = ([], s)
  | Some pos =>
      (S pos <= String.length s)%nat ∧
      lines_of s = (str_take pos s :: (lines_of (str_drop (S pos) s)).1, (lines_of (str_drop (S pos) s)).2)
  end.
Proof.
  induction s as [|c s IH]; [done|]. cbn [char_find].
  destruct (Ascii.eqb_spec "010"%char c) as [<-|Hne].
  - split; [simpl; lia|]. cbn [lines_of str_take str_drop]. destruct (lines_of s). by rewrite decide_True.
  - destruct (char_find "010"%char s) as [pos|]; cbn [fmap option_fmap option_map].
    + destruct IH as [Hlen IH]. split; [simpl; lia|]. cbn [lines_of]. rewrite IH.
      by rewrite decide_False by done.
    + cbn [lines_of]. rewrite IH. by rewrite decide_False by done.
Qed.

Lemma lines_of_app s t :
  lines_of (s +:+ t) =
  ((lines_of s).1 ++ (lines_of ((lines_of s).2 +:+ t)).1, (lines_of ((lines_of s).2 +:+ t)).2).
Proof.
  induction s as [|c s IH].
  - change (EmptyString +:+ t) with t. cbn. change (EmptyString +:+ t) with t. by destruct (lines_of t).
  - rewrite str_app_cons. cbn [lines_of]. rewrite IH. destruct (lines_of s) as [ls rest]. simpl.
    destruct (decide (c = "010"%char)); [done|]. destruct ls as [|l ls]; [|done].
    cbn [fst snd app]. rewrite str_app_cons. cbn [lines_of]. destruct (lines_of (rest +:+ t)) as [[|l ls] r]; simpl;
      by rewrite decide_False.
Qed.

Lemma lines_of_rest s : (lines_of ((lines_of s).2)) = ([], (lines_of s).2).
Proof.
  pose proof (lines_of_app s "") as E. rewrite !str_app_nil_r in E.
  destruct (lines_of s) as [ls r]. simpl in *.
  destruct (lines_of r) as [ls' r']. simpl in *. injection E as E1 E2.
  assert (length ls = length (ls ++ ls')) as E3 by congruence. rewrite length_app in E3.
  destruct ls'; [|simpl in E3; lia]. by subst.
Qed.

Section stream_lemmas.
Context `{JsonText}.

Fixpoint handle_lines (now : Z) (ls : list string) (state : StreamState) : StreamState * list output_message :=
  match ls with
  | [] => (state, [])
  | l :: ls =>
      let '(state, out) := handle_stream_line now state (strip_cr l) in
      let '(state, more) := handle_lines now ls state in
      (state, out ++ more)
  end.

(** A line neither reads nor writes the buffer. *)
Lemma handle_stream_line_buffer now state b line :
  handle_stream_line now (state <| st_buffer := b |>) line =
  ((handle_stream_line now state line).1 <| st_buffer := b |>, (handle_stream_line now state line).2).
Proof. destruct state. unfold handle_stream_line. cbn. repeat case_match; reflexivity. Qed.

Lemma handle_stream_line_keeps_buffer now state line :
  st_buffer (handle_stream_line now state line).1 = st_buffer state.
Proof. destruct state. unfold handle_stream_line. cbn. repeat case_match; reflexivity. Qed.

(** The loop handles exactly the complete lines, in order, and keeps the rest. *)
Lemma drain_lines_spec now fuel : ∀ state,
  (String.length (st_buffer state) <= fuel)%nat →
  drain_lines fuel now state =
  handle_lines now (lines_of (st_buffer state)).1
    (state <| st_buffer := (lines_of (st_buffer state)).2 |>).
Proof.
  induction fuel as [|fuel IH]; intros state Hlen.
  - destruct state as [? []]; [done|simpl in Hlen; lia].
  - cbn [drain_lines]. pose proof (lines_of_find (st_buffer state)) as Hfind.
    destruct (char_find "010"%char (st_buffer state)) as [pos|].
    + destruct Hfind as [Hpos ->]. cbn [fst snd handle_lines].
      rewrite !handle_stream_line_buffer.
      pose proof (handle_stream_line_keeps_buffer now state (strip_cr (str_take pos (st_buffer state)))) as Hb.
      destruct (handle_stream_line now state _) as [state1 out]. cbn [fst snd] in *.
      rewrite IH; [|cbn -[str_drop]; rewrite str_drop_length; lia]. by destruct state1.
    + rewrite Hfind. by destruct state.
Qed.
(** Equal but for the moment of the first token. *)
Definition same_stream (s1 s2 : StreamState) : Prop :=
  s1 <| st_first_token_latency_ms := 0 |> = s2 <| st_first_token_latency_ms := 0 |>.

#[export] Instance same_stream_equivalence : Equivalence same_stream.
Proof. unfold same_stream. split; [by intros ?|by intros ? ?|intros ? ? ? -> ->; done]. Qed.

Lemma handle_stream_line_same now1 now2 s1 s2 line :
  same_stream s1 s2 →
  same_stream (handle_stream_line now1 s1 line).1 (handle_stream_line now2 s2 line).1 ∧
  (handle_stream_line now1 s1 line).2 = (handle_stream_line now2 s2 line).2.
Proof.
  destruct s1, s2. unfold same_stream. cbn -[handle_stream_line]. intros E. inversion E. subst. clear E.
  unfold handle_stream_line.
  destruct (negb (str_take 5 line =? "data:")%string); [done|].
  destruct (skip_blanks (str_drop 5 line) =? "[DONE]")%string; [done|].
  destruct (json_parse (skip_blanks (str_drop 5 line))) as [parsed|]; [|done].
  by destruct (event_of_json parsed).
Qed.

Lemma handle_lines_same now1 now2 ls : ∀ s1 s2,
  same_stream s1 s2 →
  same_stream (handle_lines now1 ls s1).1 (handle_lines now2 ls s2).1 ∧
  (handle_lines now1 ls s1).2 = (handle_lines now2 ls s2).2.
Proof.
  induction ls as [|l ls IH]; intros s1 s2 Hs; [done|]. cbn [handle_lines].
  destruct (handle_stream_line_same now1 now2 s1 s2 (strip_cr l) Hs) as [Hs' Ho].
  destruct (handle_stream_line now1 s1 _) as [s1' o1], (handle_stream_line now2 s2 _) as [s2' o2].
  destruct (IH s1' s2' Hs') as [Hs'' Ho'].
  destruct (handle_lines now1 ls s1'), (handle_lines now2 ls s2'). simpl in *. by subst.
Qed.

Lemma handle_lines_app now ls1 : ∀ ls2 s,
  handle_lines now (ls1 ++ ls2) s =
  ((handle_lines now ls2 (handle_lines now ls1 s).1).1,
   (handle_lines now ls1 s).2 ++ (handle_lines now ls2 (handle_lines now ls1 s).1).2).
Proof.
  induction ls1 as [|l ls1 IH]; intros ls2 s; cbn [handle_lines app]; [simpl; by destruct (handle_lines now ls2 s)|].
  destruct (handle_stream_line now s (strip_cr l)) as [s' o]. rewrite IH.
  destruct (handle_lines now ls1 s') as [s1 o1]. simpl. destruct (handle_lines now ls2 s1). simpl.
  by rewrite app_assoc.
Qed.

Lemma handle_lines_buffer now ls : ∀ s b,
  handle_lines now ls (s <| st_buffer := b |>) =
  ((handle_lines now ls s).1 <| st_buffer := b |>, (handle_lines now ls s).2).
Proof.
  induction ls as [|l ls IH]; intros s b; cbn [handle_lines]; [done|].
  rewrite handle_stream_line_buffer. destruct (handle_stream_line now s (strip_cr l)) as [s' o].
  cbn [fst snd]. rewrite IH. by destruct (handle_lines now ls s').
Qed.

Lemma write_stream_spec now chunk s :
  write_stream_callback now chunk s =
  handle_lines now (lines_of (st_buffer s +:+ chunk)).1
    (s <| st_buffer := (lines_of (st_buffer s +:+ chunk)).2 |>).
Proof. unfold write_stream_callback. rewrite drain_lines_spec by done. by destruct s. Qed.

Lemma same_stream_buffer s1 s2 : same_stream s1 s2 → st_buffer s1 = st_buffer s2.
Proof. destruct s1, s2. unfold same_stream. cbn. intros E. inversion E. by subst. Qed.

Lemma same_stream_set_buffer s1 s2 b :
  same_stream s1 s2 → same_stream (s1 <| st_buffer := b |>) (s2 <| st_buffer := b |>).
Proof. destruct s1, s2. unfold same_stream. cbn. intros E. inversion E. by subst. Qed.

Lemma write_stream_buffer now chunk s :
  st_buffer (write_stream_callback now chunk s).1 = (lines_of (st_buffer s +:+ chunk)).2.
Proof. rewrite write_stream_spec, handle_lines_buffer. by destruct (handle_lines _ _ s).1. Qed.

(** Two callbacks do what one callback with both chunks does. *)
Lemma write_stream_app now now1 now2 c1 c2 s1 s2 :
  same_stream s1 s2 →
  let one := write_stream_callback now (c1 +:+ c2) s1 in
  let first := write_stream_callback now1 c1 s2 in
  let second := write_stream_callback now2 c2 first.1 in
  same_stream one.1 second.1 ∧ one.2 = first.2 ++ second.2.
Proof.
  intros Hs. cbv zeta. pose proof (write_stream_buffer now1 c1 s2) as Hb.
  rewrite (write_stream_spec now2 c2), Hb.
  rewrite (write_stream_spec now), (write_stream_spec now1).
  rewrite (same_stream_buffer _ _ Hs).
  rewrite <- str_app_assoc, (lines_of_app (st_buffer s2 +:+ c1) c2). cbn [fst snd].
  set (ls1 := (lines_of (st_buffer s2 +:+ c1)).1). set (r1 := (lines_of (st_buffer s2 +:+ c1)).2).
  destruct (lines_of (r1 +:+ c2)) as [ls2 r2]. cbn [fst snd].
  rewrite handle_lines_app, !handle_lines_buffer. cbn [fst snd].
  destruct (handle_lines_same now now1 ls1 s1 s2 Hs) as [Hs1 Ho1]. rewrite Ho1.
  destruct (handle_lines_same now now2 ls2 _ _ Hs1) as [Hs2 Ho2].
  rewrite !handle_lines_buffer. cbn [fst snd]. rewrite <- Ho2. split; [|done].
  exact (same_stream_set_buffer _ _ r2 Hs2).
Qed.

(** All the bytes of a list of chunks. *)
Definition bytes_of (chunks : list (Z * string)) : string :=
  foldr (λ c acc, c.2 +:+ acc) "" chunks.

Lemma feed_bytes now chunks : ∀ s1 s2,
  same_stream s1 s2 → lines_of (st_buffer s1) = ([], st_buffer s1) →
  same_stream (write_stream_callback now (bytes_of chunks) s1).1 (feed chunks s2).1 ∧
  (write_stream_callback now (bytes_of chunks) s1).2 = (feed chunks s2).2.
Proof.
  induction chunks as [|[t c] chunks IH]; intros s1 s2 Hs Hrest.
  - simpl. rewrite write_stream_spec, str_app_nil_r, Hrest. simpl. split; [|done].
    rewrite <- Hs. by destruct s1.
  - cbn [feed bytes_of foldr fst snd]. fold (bytes_of chunks).
    destruct (write_stream_app now t now c (bytes_of chunks) s1 s2 Hs) as [Hs1 Ho1].
    specialize (IH (write_stream_callback t c s2).1 (write_stream_callback t c s2).1 (reflexivity _)).
    rewrite write_stream_buffer, lines_of_rest in IH. specialize (IH eq_refl) as [Hs2 Ho2].
    destruct (write_stream_callback t c s2) as [s3 o3]. cbn [fst snd] in *.
    destruct (feed chunks s3) as [s4 o4]. cbn [fst snd] in *.
    rewrite Ho1, Ho2. split; [|done]. by etrans.
Qed.
End stream_lemmas.

(** ** Calls *)

Record http_request := MkHttpRequest {
  hq_url : string;
  hq_headers : list string;
  hq_post : option string;
  hq_timeout_ms : Z;
}.

(** How a transfer goes: whether a handle could be made, the chunks passed to
    the write callback with the times of the calls, the end ([None] for
    [CURLE_OK], else [curl_easy_strerror]), the status and the time. *)
Record http_reply := MkHttpReply {
  hr_init : bool;
  hr_chunks : list (Z * string);
  hr_error : option string;
  hr_http_code : Z;
  hr_end_ms : Z;
}.

Abbreviation http_client := (http_request → http_reply).

Definition make_request_body (c : task_config) (req : InferenceRequest) (served_model : string) : json :=
  let temperature := match stod (tc_temperature c) with Ok d => d | Throw _ => d_lit 7 10 end in
  let message (role content : string) := mk_obj [("role", JStr role); ("content", JStr content)] in
  let messages := (if str_empty (req_system_prompt req) then []
                   else [message "system" (req_system_prompt req)]) ++ [message "user" (req_prompt req)] in
  mk_obj [("model", JStr served_model); ("stream", JBool (req_enstream req));
          ("max_tokens", JInt (req_max_tokens req)); ("temperature", JFloat temperature);
          ("messages", JArr messages)].

Definition response_body (reply : http_reply) : string :=
  fold_left (λ body c, write_body_callback body c.2) (hr_chunks reply) "".

Definition http_status_ok (code : Z) : bool := (200 <=? code) && (code <? 300).

Section calls.
Context `{JsonText}.

(** The text of a complete response, or the error message. *)
Definition extract_response_text (body : string) : string + string :=
  match json_parse body with
  | Throw what => inl what
  | Ok parsed =>
      match json_get parsed "error" with
      | Some e =>
          match json_get e "message" with
          | Some m => inl (match get_string m with Ok text => text | Throw what => what end)
          | None => inl (match json_dump e with Ok text => text | Throw what => what end)
          end
      | None =>
          match json_get parsed "choices" with
          | Some (JArr (choice :: _)) =>
              match json_get choice "message" ≫= (λ m, json_get m "content") with
              | Some (JStr text) => inr text
              | _ =>
                  match json_get choice "text" with
                  | Some (JStr text) => inr text
                  | _ => inl "missing choices content in vLLM response"
                  end
              end
          | _ => inl "missing choices content in vLLM response"
          end
      end
  end.

(** The request of a call.  Nothing catches an exception of [dump] here: a
    prompt that is not UTF-8 leaves the worker thread with it. *)
Definition vllm_http_request (c : task_config) (ep : VllmEndpoint) (req : InferenceRequest)
    : result http_request :=
  request_body ← json_dump (make_request_body c req (ep_served_model ep));
  let api_key := if str_empty (ep_api_key ep) then tc_api_key c else ep_api_key ep in
  mret (MkHttpRequest (ep_base_url ep +:+ tc_endpoint c)
    ("Content-Type: application/json" ::
     if str_empty api_key then [] else ["Authorization: Bearer " +:+ api_key])
    (Some request_body) (req_timeout_ms req)).

Record call_outcome := MkCallOutcome {
  co_ok : bool;
  co_req : InferenceRequest;
  co_error_message : string;
  co_stream_started : bool;
  co_output : list output_message;
}.

(** What [call_vllm] makes of the reply; [error_message] and
    [stream_started] are the values of the in-out parameters at the call. *)
Definition read_reply (reply : http_reply) (begin_ms : Z)
    (error_message : string) (stream_started : bool) (req : InferenceRequest) : call_outcome :=
  let enstream := req_enstream req in
  if negb (hr_init reply) then MkCallOutcome false req "curl_easy_init failed" stream_started []
  else
    let '(stream_state, out) :=
      if enstream then feed (hr_chunks reply) (new_stream_state req begin_ms)
      else (new_stream_state req begin_ms, []) in
    let body := if enstream then "" else response_body reply in
    let stream_started := st_started stream_state in
    let req := req <| req_finished_ms := hr_end_ms reply |>
                   <| req_total_latency_ms := hr_end_ms reply - req_started_ms req |>
                   <| req_first_token_latency_ms := st_first_token_latency_ms stream_state |> in
    match hr_error reply with
    | Some message => MkCallOutcome false req message stream_started out
    | None =>
        if negb (http_status_ok (hr_http_code reply)) then
          MkCallOutcome false req ("HTTP " +:+ to_string (hr_http_code reply) +:+ ": " +:+ body)
            stream_started out
        else if enstream then
          if st_failed stream_state then
            MkCallOutcome false req (st_error_message stream_state) stream_started out
          else MkCallOutcome true req error_message stream_started
                 (out ++ emit_delta req "" true (st_index stream_state))
        else
          match extract_response_text body with
          | inl message => MkCallOutcome false req message stream_started out
          | inr text => MkCallOutcome true req error_message stream_started (out ++ emit_text req text)
          end
    end.

(** The text of the request is printed once the transfer handle exists; the
    reply says so, and here a request that cannot be printed throws either
    way. *)
Definition call_vllm (http : http_client) (c : task_config) (begin_ms : Z) (ep : VllmEndpoint)
    (error_message : string) (stream_started : bool) (req : InferenceRequest) : result call_outcome :=
  request ← vllm_http_request c ep req;
  mret (read_reply (http request) begin_ms error_message stream_started req).

(** *** Lemmas on calls *)

(** The deltas of a stream are numbered from the index of its state on. *)
Definition delta_messages (req : InferenceRequest) (first : Z) (deltas : list string) : list output_message :=
  concat (imap (λ i d, emit_delta req d false (first + Z.of_nat i)) deltas).

Definition streams (s s' : StreamState) (out : list output_message) (deltas : list string) : Prop :=
  out = delta_messages (st_req s) (st_index s) deltas ∧
  st_req s' = st_req s ∧ st_index s' = st_index s + Z.of_nat (length deltas) ∧
  st_started s' = st_started s || negb (length deltas =? 0)%nat ∧
  Forall (λ d, str_empty d = false) deltas.

Lemma delta_messages_app req first d1 d2 :
  delta_messages req first (d1 ++ d2) =
  delta_messages req first d1 ++ delta_messages req (first + Z.of_nat (length d1)) d2.
Proof.
  unfold delta_messages. rewrite imap_app, concat_app. f_equal. f_equal. apply imap_ext.
  intros i x _. simpl. f_equal. lia.
Qed.

Lemma streams_trans s1 s2 s3 o1 o2 d1 d2 :
  streams s1 s2 o1 d1 → streams s2 s3 o2 d2 → streams s1 s3 (o1 ++ o2) (d1 ++ d2).
Proof.
  intros (-> & Hr1 & Hi1 & Hs1 & Hd1) (-> & Hr2 & Hi2 & Hs2 & Hd2). unfold streams.
  rewrite delta_messages_app, <- Hi1, <- Hr1. split_and!; [done|congruence| | |by apply Forall_app].
  - rewrite Hi2, length_app. lia.
  - rewrite Hs2, Hs1, length_app. destruct d1, d2; simpl; by rewrite ?orb_true_r, ?orb_false_r.
Qed.

Lemma streams_none s s' :
  st_req s' = st_req s → st_index s' = st_index s → st_started s' = st_started s → streams s s' [] [].
Proof.
  unfold streams. intros -> -> ->. split_and!; [done|done|simpl; lia|by rewrite orb_false_r|done].
Qed.

Lemma handle_stream_line_streams now s line :
  ∃ deltas, streams s (handle_stream_line now s line).1 (handle_stream_line now s line).2 deltas.
Proof.
  unfold handle_stream_line.
  destruct (negb (str_take 5 line =? "data:")%string); [exists []; by apply streams_none|].
  destruct (skip_blanks (str_drop 5 line) =? "[DONE]")%string; [exists []; by apply streams_none|].
  destruct (json_parse (skip_blanks (str_drop 5 line))) as [parsed|]; [|exists []; by apply streams_none].
  destruct (event_of_json parsed) as [| |delta] eqn:E; [exists []; by apply streams_none..|].
  exists [delta]. unfold streams. cbn. rewrite Z.add_0_r. split_and!; [|done|lia| |].
  - by rewrite app_nil_r.
  - by rewrite orb_true_r.
  - constructor; [|done]. unfold event_of_json in E. repeat case_match; by simplify_eq.
Qed.
Lemma handle_lines_streams now ls : ∀ s,
  ∃ deltas, streams s (handle_lines now ls s).1 (handle_lines now ls s).2 deltas.
Proof.
  induction ls as [|l ls IH]; intros s; cbn [handle_lines]; [exists []; by apply streams_none|].
  destruct (handle_stream_line_streams now s (strip_cr l)) as [d1 H1].
  destruct (handle_stream_line now s (strip_cr l)) as [s1 o1]. destruct (IH s1) as [d2 H2].
  destruct (handle_lines now ls s1) as [s2 o2]. exists (d1 ++ d2). by eapply streams_trans.
Qed.

Lemma feed_streams chunks : ∀ s, ∃ deltas, streams s (feed chunks s).1 (feed chunks s).2 deltas.
Proof.
  induction chunks as [|[t c] chunks IH]; intros s; cbn [feed]; [exists []; by apply streams_none|].
  rewrite write_stream_spec.
  destruct (handle_lines_streams t (lines_of (st_buffer s +:+ c)).1
    (s <| st_buffer := (lines_of (st_buffer s +:+ c)).2 |>)) as [d1 H1].
  destruct (handle_lines t _ _) as [s1 o1]. destruct (IH s1) as [d2 H2].
  destruct (feed chunks s1) as [s2 o2]. exists (d1 ++ d2).
  apply (streams_trans s s1 s2 o1 o2 d1 d2); [exact H1|exact H2].
Qed.
End calls.

(** The shape of what a call sends. *)
Lemma read_reply_shape `{JsonText} reply begin_ms msg started req :
  hr_init reply = true ∨ started = false →
  let o := read_reply reply begin_ms msg started req in
  ∃ deltas,
    co_stream_started o = negb (length deltas =? 0)%nat ∧
    (req_enstream req = false → deltas = []) ∧ Forall (λ d, str_empty d = false) deltas ∧
    req_task_id (co_req o) = req_task_id req ∧
    if co_ok o then
      ∃ text, co_output o = delta_messages req 0 deltas ++
        (if req_enstream req then emit_delta (co_req o) "" true (Z.of_nat (length deltas))
         else emit_text (co_req o) text)
    else co_output o = delta_messages req 0 deltas.
Proof.
  intros Hinit. cbv zeta. unfold read_reply.
  destruct (hr_init reply) eqn:Ei; cbn [negb].
  2: { destruct Hinit as [?| ->]; [done|]. exists []. cbn. split_and!; auto. }
  destruct (req_enstream req) eqn:Estr.
  - destruct (feed_streams (hr_chunks reply) (new_stream_state req begin_ms)) as (deltas & Hout & _ & Hidx & Hst & Hne).
    destruct (feed (hr_chunks reply) (new_stream_state req begin_ms)) as [s out]. cbn in Hout, Hidx, Hst.
    exists deltas. rewrite Hst. destruct (hr_error reply); [by cbn|].
    destruct (negb (http_status_ok (hr_http_code reply))); [by cbn|].
    destruct (st_failed s); [by cbn|]. cbn. split_and!; try done. exists "". by rewrite Hout, Hidx.
  - exists []. cbn. destruct (hr_error reply); [cbn; split_and!; auto|].
    destruct (negb (http_status_ok (hr_http_code reply))); [cbn; split_and!; auto|].
    destruct (extract_response_text (response_body reply)) as [message|text]; cbn; split_and!; auto.
    by exists text.
Qed.

(** ** Properties *)

(** C12.  How the transfer cuts a response into chunks does not
    matter: for the same bytes the event stream leads to the same messages
    and, but for the time of the first token, to the same state. *)
Theorem stream_chunking_irrelevant `{JsonText} req begin_ms chunks1 chunks2 :
  bytes_of chunks1 = bytes_of chunks2 →
  let r1 := feed chunks1 (new_stream_state req begin_ms) in
  let r2 := feed chunks2 (new_stream_state req begin_ms) in
  r1.2 = r2.2 ∧ same_stream r1.1 r2.1.
Proof.
  intros E. cbv zeta. set (s := new_stream_state req begin_ms).
  assert (lines_of (st_buffer s) = ([], st_buffer s)) as Hb by done.
  destruct (feed_bytes 0 chunks1 s s (reflexivity _) Hb) as [Hs1 Ho1].
  destruct (feed_bytes 0 chunks2 s s (reflexivity _) Hb) as [Hs2 Ho2].
  rewrite E in Hs1, Ho1. split; [congruence|]. by etrans.
Qed.

(** The only way a call does not return is a request that cannot be printed. *)
Lemma call_vllm_returns `{JsonText} http c begin_ms ep msg started req :
  match vllm_http_request c ep req with
  | Ok request => call_vllm http c begin_ms ep msg started req = Ok (read_reply (http request) begin_ms msg started req)
  | Throw what => call_vllm http c begin_ms ep msg started req = Throw what ∧
                  json_dump (make_request_body c req (ep_served_model ep)) = Throw what
  end.
Proof.
  unfold call_vllm, vllm_http_request. by destruct (json_dump _).
Qed.

(** What a call sends: the non-empty deltas of the stream in order,
    numbered from zero, then on success and only on success exactly one
    closing message, the finish marker of a stream or the text of a complete
    response; the call reports a started stream exactly when a delta was
    sent, and keeps the identity of the request. *)
Theorem call_vllm_messages `{JsonText} http c begin_ms ep msg started req body :
  json_dump (make_request_body c req (ep_served_model ep)) = Ok body →
  (∀ request, hq_post request = Some body → hr_init (http request) = true) →
  ∃ o deltas,
    call_vllm http c begin_ms ep msg started req = Ok o ∧
    co_stream_started o = negb (length deltas =? 0)%nat ∧
    (req_enstream req = false → deltas = []) ∧ Forall (λ d, str_empty d = false) deltas ∧
    req_task_id (co_req o) = req_task_id req ∧
    if co_ok o then
      ∃ text, co_output o = delta_messages req 0 deltas ++
        (if req_enstream req then emit_delta (co_req o) "" true (Z.of_nat (length deltas))
         else emit_text (co_req o) text)
    else co_output o = delta_messages req 0 deltas.
Proof.
  intros Hbody Hinit. unfold call_vllm, vllm_http_request. rewrite Hbody. cbn [mbind result_bind mret result_ret].
  match goal with |- context [read_reply (http ?r) _ _ _ _] =>
    destruct (read_reply_shape (http r) begin_ms msg started req) as (deltas & Hshape); [left; by apply Hinit|] end.
  by eexists _, deltas.
Qed.

(** A stream that breaks off is taken for a success:
    whatever bytes arrive without a line feed, the call sends no text, sends
    the finish marker and reports success; the end marker of the protocol
    ([[DONE]]) is recorded but never required. *)
Theorem truncated_stream_succeeds `{JsonText} http c begin_ms ep msg started req request t chunk end_ms :
  vllm_http_request c ep req = Ok request →
  http request = MkHttpReply true [(t, chunk)] None 200 end_ms →
  req_enstream req = true → char_find "010"%char chunk = None →
  ∃ o, call_vllm http c begin_ms ep msg started req = Ok o ∧
  co_ok o = true ∧ co_output o = emit_delta (co_req o) "" true 0.
Proof.
  intros Hreq Hhttp Hstr Hnl. unfold call_vllm. rewrite Hreq. cbn [mbind result_bind mret result_ret].
  eexists. split; [reflexivity|]. unfold read_reply. rewrite Hhttp, Hstr.
  cbn [hr_init negb hr_chunks feed]. rewrite write_stream_spec.
  change (st_buffer (new_stream_state req begin_ms) +:+ chunk) with chunk.
  pose proof (lines_of_find chunk) as Hl. rewrite Hnl in Hl. rewrite Hl. done.
Qed.

(** ** Concrete calls *)

(** A server whose every event is a completion with its own payload as text. *)
Definition echo_text : JsonText := {|
  json_parse s := Ok (mk_obj [("choices", JArr [mk_obj [("text", JStr s)]])]);
  json_dump _ := Ok "";
|}.

Definition LF : string := String "010"%char "".

Definition two_events : string := "data: one" +:+ LF +:+ "data: two" +:+ LF.

Definition streaming_request : InferenceRequest := default_request <| req_request_id := "r1" |>.

Definition reply_with (chunks : list (Z * string)) : http_client :=
  λ _, MkHttpReply true chunks None 200 50.

Lemma stream_chunking_irrelevant_witness :
  let parts := [(1, "da"); (2, "ta: one" +:+ LF +:+ "data: t"); (9, "wo" +:+ LF)] in
  (feed (H := echo_text) parts (new_stream_state streaming_request 0)).2 =
  (feed (H := echo_text) [(5, two_events)] (new_stream_state streaming_request 0)).2 ∧
  length (feed (H := echo_text) parts (new_stream_state streaming_request 0)).2 = 2%nat.
Proof.
  cbv zeta. split; [|vm_compute; reflexivity].
  apply (stream_chunking_irrelevant (H := echo_text) streaming_request 0
           [(1, "da"); (2, "ta: one" +:+ LF +:+ "data: t"); (9, "wo" +:+ LF)] [(5, two_events)]).
  vm_compute. reflexivity.
Defined.

Lemma call_vllm_messages_witness :
  ∃ o, call_vllm (H := echo_text) (reply_with [(5, two_events)]) default_config 0 default_endpoint ""
             false streaming_request = Ok o ∧
  co_ok o = true ∧ length (co_output o) = 3%nat ∧ req_task_id (co_req o) = 0.
Proof.
  destruct (call_vllm_messages (H := echo_text) (reply_with [(5, two_events)]) default_config 0
    default_endpoint "" false streaming_request "") as (o & deltas & Ho & _ & _ & _ & Hid & _).
  - reflexivity.
  - reflexivity.
  - exists o. split; [exact Ho|]. vm_compute in Ho. injection Ho as <-. by vm_compute.
Defined.

Lemma truncated_stream_succeeds_witness :
  ∃ o, call_vllm (H := echo_text) (reply_with [(5, "data: half an ans")]) default_config 0
           default_endpoint "" false streaming_request = Ok o ∧ co_ok o = true.
Proof.
  destruct (truncated_stream_succeeds (H := echo_text) (reply_with [(5, "data: half an ans")]) default_config 0
    default_endpoint "" false streaming_request
    (match vllm_http_request (H := echo_text) default_config default_endpoint streaming_request with
     | Ok r => r | Throw _ => MkHttpRequest "" [] None 0 end) 5 "data: half an ans" 50) as (o & Ho & Hok & _).
  - reflexivity.
  - reflexivity.
  - reflexivity.
  - vm_compute. reflexivity.
  - by exists o.
Defined.
