(* ===== verification/Task.v ===== *)
(** * The state of [vllm_task] and its operations

    One record for the members of [class vllm_task]
    ([node/vllm-client/src/main.cpp]) and one for what is shared with the rest
    of the process: the endpoint objects, the table of weak references to
    them and the messages handed to the output callback, which [setup]
    installs before the task starts.  Each definition is one member function
    or one of its critical sections; clock readings are arguments. *)
From S2P Require Import Prelude StdString Doubles Json Observability Metrics Types Endpoint Queue Records Config Stream.

Section task.
Context `{TimeSeriesStore}.

Record task := MkTask {
  t_work_id : string;
  t_config : task_config;
  t_queue : request_queue;
  t_endpoints : list loc;
  t_metrics : MetricsCollector;
  t_observability : ObservabilityMetrics;
  t_records : list RequestRecord;
  t_status : TaskStatus;
  t_stopping : bool;
  t_workers : Z;
  t_health_worker : bool;
  t_retry_count : Z;
  t_task_id_counter : Z;
  t_config_version : Z;
  t_last_config_update_ms : Z;
  t_config_update_count : Z;
}.

#[export] Instance eta_t : Eta task := fun t =>
  MkTask (t_work_id t) (t_config t) (t_queue t) (t_endpoints t) (t_metrics t) (t_observability t)
    (t_records t) (t_status t) (t_stopping t) (t_workers t) (t_health_worker t) (t_retry_count t)
    (t_task_id_counter t) (t_config_version t) (t_last_config_update_ms t) (t_config_update_count t).

(** A newly constructed task. *)
Definition new_task (work_id : string) : task :=
  MkTask work_id default_config (MkRequestQueue [] 0) [] new_metrics new_observability [] TaskCreated
    false 0 false 0 0 1 0 0.

Record process := MkProcess {
  p_heap : heap;
  p_table : endpoint_table;
}.

Definition task_limits (c : task_config) : queue_limits :=
  MkQueueLimits (tc_max_queue_size c) (tc_low_priority_drop_threshold c) (tc_high_priority_threshold c).

Definition task_thresholds (c : task_config) : thresholds :=
  MkThresholds (tc_recovery_threshold c) (tc_unhealthy_threshold c) (tc_circuit_failure_threshold c)
    (tc_circuit_open_ms c).

(** ** Life cycle *)

(** Returns the code, 0 or -1. *)
Definition load_model (env : string → string) (alive : loc → bool) (flush_ms : Z * Z)
    (config_body : json) (t : task) (p : process) : task * process * Z :=
  let o := parse_config env alive flush_ms config_body (t_config t) (t_observability t)
             (p_heap p) (p_table p) (t_endpoints t) in
  let t := t <| t_config := po_config o |> <| t_observability := po_observability o |>
             <| t_endpoints := po_endpoints o |> in
  let p := MkProcess (po_heap o) (po_table o) in
  if po_failed o then (t <| t_status := TaskFailed |>, p, -1)
  else (t <| t_status := TaskReady |>, p, 0).

Definition start (t : task) : task :=
  if 0 <? t_workers t then t
  else
    let t := t <| t_stopping := false |> <| t_workers := tc_worker_count (t_config t) |> in
    if negb (tc_mock_mode (t_config t)) && negb (length (t_endpoints t) =? 0)%nat
    then t <| t_health_worker := true |> else t.

(** [stop] up to the joins: what the threads see from now on.  [None] when
    there is nothing to stop. *)
Definition stop_request (t : task) : option task :=
  if t_stopping t && (t_workers t =? 0) && negb (t_health_worker t) then None
  else Some (t <| t_stopping := true |> <| t_status := TaskStopping |>).

(** [stop] after the joins. *)
Definition stop_finish (flush_ms : Z * Z) (t : task) : task :=
  let t := t <| t_workers := 0 |> <| t_health_worker := false |> <| t_status := TaskStopped |> in
  t <| t_observability := stop flush_ms.1 flush_ms.2 (t_observability t) |>.

(** ** Submitting a request *)

Definition make_request (now : Z) (request_id work_id output_url object prompt : string) (meta : json)
    (options : RequestOptions) (t : task) : InferenceRequest :=
  let c := t_config t in
  let or_default (s d : string) := if str_empty s then d else s in
  let response_format := json_string_value meta "response_format"
        (or_default (opt_response_format options) (tc_response_format c)) in
  let session_default_action := json_string_value meta "default_action"
        (or_default (opt_default_action options) (tc_default_action c)) in
  let req := default_request
    <| req_task_id := to_int (t_task_id_counter t + 1) |>
    <| req_request_id := request_id |> <| req_work_id := work_id |> <| req_output_url := output_url |>
    <| req_object := object |> <| req_prompt := prompt |>
    <| req_system_prompt := json_string_value meta "prompt"
         (or_default (opt_system_prompt options) (tc_prompt c)) |>
    <| req_response_format := response_format |>
    <| req_session_default_action := session_default_action |>
    <| req_enoutput := json_bool_value meta "enoutput" (opt_enoutput options) |>
    <| req_enstream := json_bool_value meta "stream"
         (json_bool_value meta "enstream" (str_contains response_format "stream")) |>
    <| req_action := request_action c object meta session_default_action |> in
  let req := apply_profile_to_request c meta req in
  req <| req_created_ms := now |> <| req_deadline_at_ms := now + req_deadline_ms req |>.

Definition inference (now : Z) (request_id work_id output_url object prompt : string) (meta : json)
    (options : RequestOptions) (t : task) : task * list output_message :=
  let req := make_request now request_id work_id output_url object prompt meta options t in
  let t := t <| t_task_id_counter := to_int (t_task_id_counter t + 1) |> in
  let lim := task_limits (t_config t) in
  let verdict := admit_locked lim req (q_pending (t_queue t)) in
  let t := match verdict with
           | Enqueued pending => t <| t_queue := (t_queue t) <| q_pending := pending |> |>
           | Rejected _ _ => t
           end in
  let queue_event := queue_metrics_locked (ql_max_queue_size lim) (ql_high_priority_threshold lim)
                       (q_pending (t_queue t)) in
  match verdict with
  | Rejected error_code error_message =>
      let obs := observe_queue_reject (req_action req) (t_observability t) in
      (t <| t_metrics := on_queue_reject (t_metrics t) |>
         <| t_observability := observe_queue_snapshot queue_event obs |>,
       emit_error req error_code error_message)
  | Enqueued _ =>
      (t <| t_metrics := on_request_accepted (req_created_ms req) (t_metrics t) |>
         <| t_records := record_pending (tc_max_task_records (t_config t)) req (t_records t) |>
         <| t_observability := observe_queue_snapshot queue_event (t_observability t) |>, [])
  end.

(** ** Critical sections of the workers *)

(** [pop_next_request] with the snapshot it publishes. *)
Definition take_request (t : task) : task * option InferenceRequest :=
  let c := t_config t in
  match pop_next_request (t_stopping t) (tc_high_priority_threshold c) (t_queue t) with
  | Popped req q =>
      let ev := queue_metrics_locked (tc_max_queue_size c) (tc_high_priority_threshold c) (q_pending q) in
      (t <| t_queue := q |> <| t_observability := observe_queue_snapshot ev (t_observability t) |>, Some req)
  | _ => (t, None)
  end.

Definition select_endpoint (now : Z) (req : InferenceRequest) (t : task) (p : process)
    : task * process * option loc :=
  let '(h, best, ev) := select_endpoint_locked req now (tc_high_priority_threshold (t_config t))
                          (t_endpoints t) (p_heap p) in
  let t := match ev with
           | Some event => t <| t_observability := observe_endpoint event (t_observability t) |>
           | None => t
           end in
  (t, MkProcess h (p_table p), best).

Definition with_endpoint (l : loc) (f : VllmEndpoint → VllmEndpoint) (t : task) (p : process)
    : task * process :=
  match p_heap p !! l with
  | Some ep =>
      let ep := f ep in
      (t <| t_observability := observe_endpoint (endpoint_metrics_event ep) (t_observability t) |>,
       MkProcess (<[l := ep]> (p_heap p)) (p_table p))
  | None => (t, p)
  end.

Definition update_endpoint_result (now : Z) (l : loc) (ok : bool) (latency_ms : Z) (t : task) (p : process)
    : task * process :=
  with_endpoint l (update_endpoint_result_locked (task_thresholds (t_config t)) now ok latency_ms) t p.

Definition update_endpoint_health (checked_ms now : Z) (l : loc) (ok : bool) (latency_ms : Z) (t : task)
    (p : process) : task * process :=
  with_endpoint l (update_endpoint_health_locked (task_thresholds (t_config t)) checked_ms now ok latency_ms) t p.

Definition request_metrics_event (req : InferenceRequest) (ok timeout : bool) (error_code : Z)
    : RequestMetricsEvent :=
  MkRequestMetricsEvent (req_action req) (req_endpoint_name req) ok timeout (req_degraded req) error_code
    (req_total_latency_ms req) (req_queue_wait_ms req) (req_first_token_latency_ms req).

Definition observe_request_metrics (req : InferenceRequest) (ok timeout : bool) (error_code : Z) (t : task)
    : task :=
  t <| t_observability :=
         observe_request_finish (request_metrics_event req ok timeout error_code) (t_observability t) |>.
(** ** Reloading *)

(** The scalar members a reload may change. *)
Definition reload_scalars (config_body : json) (c : task_config) : task_config :=
  let int_at_least (low : Z) (key : string) (current : Z) :=
    Z.max low (json_int_value config_body key current) in
  c <| tc_routing_strategy := json_string_value config_body "routing_strategy" (tc_routing_strategy c) |>
    <| tc_endpoint_wait_ms := int_at_least 0 "endpoint_wait_ms" (tc_endpoint_wait_ms c) |>
    <| tc_max_queue_size := int_at_least 0 "max_queue_size" (tc_max_queue_size c) |>
    <| tc_low_priority_drop_threshold :=
         int_at_least 0 "low_priority_drop_threshold" (tc_low_priority_drop_threshold c) |>
    <| tc_high_priority_threshold := int_at_least 0 "high_priority_threshold" (tc_high_priority_threshold c) |>
    <| tc_health_check_interval_ms := int_at_least 1 "health_check_interval_ms" (tc_health_check_interval_ms c) |>
    <| tc_health_check_timeout_ms := int_at_least 1 "health_check_timeout_ms" (tc_health_check_timeout_ms c) |>
    <| tc_unhealthy_threshold := int_at_least 1 "unhealthy_threshold" (tc_unhealthy_threshold c) |>
    <| tc_recovery_threshold := int_at_least 1 "recovery_threshold" (tc_recovery_threshold c) |>
    <| tc_circuit_failure_threshold :=
         int_at_least 1 "circuit_failure_threshold" (tc_circuit_failure_threshold c) |>
    <| tc_circuit_open_ms := int_at_least 1 "circuit_open_ms" (tc_circuit_open_ms c) |>.

Definition reload_policy (config_body : json) (c : task_config) : task_config :=
  let policy := policy_source config_body in
  c <| tc_allow_model_fallback := json_bool_value policy "allow_model_fallback" (tc_allow_model_fallback c) |>
    <| tc_fallback_chain := if contains policy "fallback_chain"
                            then json_string_array_value policy "fallback_chain" else tc_fallback_chain c |>.

(** The configuration a document asks for and the endpoint objects built for
    it (none when the document leaves the endpoints alone), or the error. *)
Definition reload_plan (config_body : json) (c : task_config) (endpoints : list loc) (p : process)
    : process * (string + task_config * option (list loc)) :=
  match validate_static_reload_fields config_body c with
  | Some message => (p, inl message)
  | None =>
      let c := reload_policy config_body (reload_scalars config_body c) in
      let '(profiles, err) :=
        if contains config_body "model_profiles"
        then build_model_profiles_from_config config_body (tc_model c)
        else (tc_model_profiles c, None) in
      match err with
      | Some message => (p, inl message)
      | None =>
          let c := c <| tc_model_profiles := profiles |> in
          if has_endpoint_reload_config config_body then
            let c := c <| tc_base_url :=
              trim_right_slash (json_string_value config_body "vllm_base_url" (tc_base_url c)) |> in
            let '(h, table, next, err) :=
              build_endpoints_from_config (tc_model c) (tc_base_url c) (tc_api_key c) (tc_mock_mode c)
                false true (λ _, false) config_body (p_heap p) (p_table p) in
            let p := MkProcess h table in
            match err with
            | Some message => (p, inl message)
            | None =>
                (p, inr (c <| tc_fallback_chain :=
                              fill_default_fallback_chain (tc_fallback_chain c) (tc_model c) h next |>, Some next))
            end
          else
            (p, inr (c <| tc_fallback_chain :=
                          fill_default_fallback_chain (tc_fallback_chain c) (tc_model c) (p_heap p) endpoints |>,
                     None))
      end
  end.

(** The endpoint objects at the given locations, as [make_shared<VllmEndpoint>
    ( *configured)] copies them. *)
Definition configured_values (h : heap) (ls : list loc) : list VllmEndpoint := omap (λ l, h !! l) ls.

(** [reload_config]: the error message of a refused reload, [None] on success. *)
Definition reload_config (now : Z) (flush_ms : Z * Z) (config_body : json) (t : task) (p : process)
    : task * process * option string :=
  if negb (is_object config_body) then (t, p, Some "reload_config data must be a json object")
  else
    match reload_plan config_body (t_config t) (t_endpoints t) p with
    | (p, inl message) => (t, p, Some message)
    | (p, inr (c, next)) =>
        let '(h, table, endpoints) :=
          match next with
          | Some ls => commit_reloaded_endpoints_locked (t_endpoints t) (configured_values (p_heap p) ls)
                         (p_heap p) (p_table p)
          | None => (p_heap p, p_table p, t_endpoints t)
          end in
        let t := t <| t_config := c |> <| t_endpoints := endpoints |>
                   <| t_config_version := to_int (t_config_version t + 1) |>
                   <| t_config_update_count := to_int (t_config_update_count t + 1) |>
                   <| t_last_config_update_ms := now |> in
        let t := if contains config_body "observability" || contains config_body "observability_enabled"
                 then t <| t_observability :=
                        (configure flush_ms.1 flush_ms.2 (observability_config_from_json config_body)
                           (t_observability t)).1.1 |>
                 else t in
        (t, MkProcess h table, None)
    end.

(** ** Reporting *)

Definition model_profile_json (p : ModelProfile) : json :=
  mk_obj [("name", JStr (mp_name p)); ("actions", JStrs (mp_actions p));
          ("primary_model", JStr (mp_primary_model p)); ("fallback_models", JStrs (mp_fallback_models p));
          ("max_context_len", JInt (mp_max_context_len p)); ("stream", JBool (mp_stream p));
          ("tool_calling", JBool (mp_tool_calling p)); ("default_max_tokens", JInt (mp_default_max_tokens p));
          ("default_timeout_ms", JInt (mp_default_timeout_ms p));
          ("default_deadline_ms", JInt (mp_default_deadline_ms p));
          ("default_priority", JInt (mp_default_priority p));
          ("allow_model_fallback", JBool (mp_allow_model_fallback p))].

Definition model_profiles_json (c : task_config) : json := JArr (model_profile_json <$> tc_model_profiles c).

Definition primary_base_url (t : task) (p : process) : string :=
  match t_endpoints t with
  | [] => "None"
  | l :: _ => match p_heap p !! l with
              | Some ep => if str_empty (ep_base_url ep) then "None" else ep_base_url ep
              | None => "None"
              end
  end.

Definition pending_count (t : task) : Z := Z.of_nat (length (q_pending (t_queue t))).

Definition endpoint_json (ep : VllmEndpoint) : json :=
  mk_obj [("name", JStr (ep_name ep)); ("base_url", JStr (ep_base_url ep));
          ("served_model", JStr (ep_served_model ep)); ("role", JStr (ep_role ep));
          ("logical_models", JStrs (ep_logical_models ep)); ("weight", JInt (ep_weight ep));
          ("max_context_len", JInt (ep_max_context_len ep)); ("max_concurrency", JInt (ep_max_concurrency ep));
          ("healthy", JBool (ep_healthy ep)); ("circuit_state", JStr (circuit_to_string (ep_circuit_state ep)));
          ("inflight", JInt (ep_inflight ep));
          ("available_capacity", JInt (Z.max 0 (ep_max_concurrency ep - ep_inflight ep)));
          ("capacity_utilization",
            JFloat (if ep_max_concurrency ep <=? 0 then d_zero
                    else d_div (d_of_Z (ep_inflight ep)) (d_of_Z (ep_max_concurrency ep))));
          ("avg_latency_ms", JInt (d_to_int (ep_avg_latency_ms ep)));
          ("last_latency_ms", JInt (ep_last_latency_ms ep));
          ("last_health_check_ms", JInt (ep_last_health_check_ms ep));
          ("consecutive_failures", JInt (ep_consecutive_failures ep));
          ("success_count", JInt (ep_success_count ep)); ("failure_count", JInt (ep_failure_count ep));
          ("timeout_count", JInt (ep_timeout_count ep)); ("circuit_open_count", JInt (ep_circuit_open_count ep))].

Definition taskinfo (now : Z) (query : json) (t : task) (p : process) : json :=
  let c := t_config t in
  mk_obj [("work_id", JStr (t_work_id t)); ("model", JStr (tc_model c)); ("logical_model", JStr (tc_model c));
          ("response_format", JStr (tc_response_format c)); ("enoutput", JBool (tc_enoutput c));
          ("enstream", JBool (tc_enstream c)); ("inputs", JStrs (tc_inputs c));
          ("status", JStr (status_to_string (t_status t))); ("timeout_ms", JInt (tc_timeout_ms c));
          ("deadline_ms", JInt (tc_deadline_ms c)); ("retry_count", JInt (t_retry_count t));
          ("max_retries", JInt (tc_max_retries c)); ("mock", JBool (tc_mock_mode c));
          ("max_queue_size", JInt (tc_max_queue_size c));
          ("low_priority_drop_threshold", JInt (tc_low_priority_drop_threshold c));
          ("high_priority_threshold", JInt (tc_high_priority_threshold c));
          ("worker_count", JInt (tc_worker_count c)); ("endpoint_wait_ms", JInt (tc_endpoint_wait_ms c));
          ("routing_strategy", JStr (tc_routing_strategy c)); ("default_action", JStr (tc_default_action c));
          ("allow_model_fallback", JBool (tc_allow_model_fallback c));
          ("fallback_chain", JStrs (tc_fallback_chain c));
          ("health_check_interval_ms", JInt (tc_health_check_interval_ms c));
          ("health_check_timeout_ms", JInt (tc_health_check_timeout_ms c));
          ("unhealthy_threshold", JInt (tc_unhealthy_threshold c));
          ("recovery_threshold", JInt (tc_recovery_threshold c));
          ("circuit_failure_threshold", JInt (tc_circuit_failure_threshold c));
          ("circuit_open_ms", JInt (tc_circuit_open_ms c)); ("config_version", JInt (t_config_version t));
          ("last_config_update_ms", JInt (t_last_config_update_ms t));
          ("config_update_count", JInt (t_config_update_count t)); ("model_profiles", model_profiles_json c);
          ("base_url", JStr (primary_base_url t p)); ("pending", JInt (pending_count t));
          ("queue_size", JInt (pending_count t));
          ("queue_stats", queue_stats (tc_max_queue_size c) (tc_high_priority_threshold c) (q_pending (t_queue t)));
          ("metrics", Metrics.snapshot now (pending_count t) (tc_max_queue_size c) (t_metrics t));
          ("observability", Observability.snapshot (t_observability t));
          ("recent_tasks", records_json query (t_records t));
          ("endpoints", JArr (endpoint_json <$> configured_values (p_heap p) (t_endpoints t)))].

Definition metrics_query (wall_now_ms : Z) (query_body : json) (t : task) : json :=
  query wall_now_ms query_body (t_observability t).
End task.

(** ** Lemmas *)

(** Building the endpoints of a reload only adds objects to the heap. *)
Lemma build_endpoints_fresh dm db dk mock strict alive body h table h' table' out err :
  build_endpoints_from_config dm db dk mock false strict alive body h table = (h', table', out, err) →
  h ⊆ h' ∧ table' = table ∧ Forall (λ l, ∃ ep, h' !! l = Some ep ∧ configured_ok ep) out.
Proof.
  unfold build_endpoints_from_config. cbv zeta.
  destruct (match json_get body "endpoints" with Some _ => _ | None => _ end) as [message|items];
    [by intros; simplify_eq|].
  destruct (build_endpoint_items dm dk mock false strict alive 0 [] items h table)
    as [[[h1 table1] out1] err1] eqn:Eitems.
  apply build_endpoint_items_fresh in Eitems as (Hsub & -> & Hout); [|done].
  assert (Forall (λ l, ∃ ep, h1 !! l = Some ep ∧ configured_ok ep) out1) as Hout1.
  { eapply Forall_impl; [exact Hout|]. intros l (ep & Hl & [Hok _]). by exists ep. }
  destruct err1; [by intros; simplify_eq|].
  destruct out1 as [|l1 out1]; [|case_match; by intros; simplify_eq].
  cbn [place_endpoint]. unfold place_endpoint. set (l := fresh (dom h1)).
  set (h2 := <[l := fallback_endpoint dm db dk]> h1).
  assert (h1 ⊆ h2) as Hsub2 by (apply insert_subseteq, not_elem_of_dom, is_fresh).
  assert (Forall (λ l, ∃ ep, h2 !! l = Some ep ∧ configured_ok ep) [l]) as Hl.
  { constructor; [|done]. exists (fallback_endpoint dm db dk). split; [apply lookup_insert_eq|].
    unfold configured_ok. simpl. lia. }
  case_match; intros; simplify_eq; split_and!; try done; by etrans.
Qed.

(** The members a reload never changes. *)
Definition static_members (c : task_config) :=
  (tc_model c, tc_response_format c, tc_endpoint c, tc_worker_count c, tc_mock_mode c, tc_api_key c,
   tc_prompt c, tc_temperature c, tc_default_action c, tc_timeout_ms c, tc_deadline_ms c,
   tc_max_retries c, tc_max_tokens c, tc_default_priority c, tc_max_task_records c).

(** What every reloaded configuration satisfies. *)
Definition reloaded_ok (c : task_config) : Prop :=
  1 <= tc_unhealthy_threshold c ∧ 1 <= tc_recovery_threshold c ∧ 1 <= tc_circuit_failure_threshold c ∧
  1 <= tc_circuit_open_ms c ∧ 0 <= tc_max_queue_size c ∧ tc_fallback_chain c ≠ [].

Lemma reload_plan_spec body c endpoints p p' r :
  reload_plan body c endpoints p = (p', r) →
  p_heap p ⊆ p_heap p' ∧ p_table p' = p_table p ∧
  match r with
  | inl _ => True
  | inr (c', next) => static_members c' = static_members c ∧ reloaded_ok c' ∧
      match next with
      | Some ls => has_endpoint_reload_config body = true ∧
          Forall (λ l, ∃ ep, p_heap p' !! l = Some ep ∧ configured_ok ep) ls
      | None => has_endpoint_reload_config body = false ∧ p' = p
      end
  end.
Proof.
  unfold reload_plan. destruct (validate_static_reload_fields body c); [by intros; simplify_eq|].
  destruct (if contains body "model_profiles" then _ else _) as [profiles [message|]]; [by intros; simplify_eq|].
  destruct (has_endpoint_reload_config body) eqn:Ereload.
  - destruct (build_endpoints_from_config _ _ _ _ _ _ _ _ _ _) as [[[h table] next] err] eqn:Eb.
    apply build_endpoints_fresh in Eb as (Hsub & -> & Hout).
    destruct err; intros [= <- <-]; [done|]. split; [done|]. split; [done|].
    split; [reflexivity|]. split; [|done]. unfold reloaded_ok. cbn.
    split_and!; (apply fill_chain_nonempty || lia).
  - intros [= <- <-]. split; [done|]. split; [done|].
    split; [reflexivity|]. split; [|done]. unfold reloaded_ok. cbn.
    split_and!; (apply fill_chain_nonempty || lia).
Qed.

Lemma configured_values_ok h ls :
  Forall (λ l, ∃ ep, h !! l = Some ep ∧ configured_ok ep) ls → Forall configured_ok (configured_values h ls).
Proof.
  induction 1 as [|l ls (ep & Hl & Hok) _ IH]; [constructor|].
  unfold configured_values. simpl. rewrite Hl. by constructor.
Qed.

(** A committed list consists of new objects without calls. *)
Lemma committed_endpoints endpoints configured h table h' table' ls :
  Forall configured_ok configured →
  commit_reloaded_endpoints_locked endpoints configured h table = (h', table', ls) →
  h ⊆ h' ∧ Forall (λ l, h !! l = None ∧ ∃ ep, h' !! l = Some ep ∧
              1 <= ep_max_concurrency ep ∧ ep_inflight ep = 0) ls.
Proof.
  intros Hc E. apply commit_spec in E as (Hsub & _ & Hfresh & Hall & _). split; [done|].
  apply Forall_forall. intros l Hl. rewrite Forall_forall in Hfresh. rewrite Forall_forall in Hc. split; [by apply Hfresh|].
  apply list_elem_of_lookup in Hl as [i Hi].
  destruct (Forall2_lookup_l _ _ _ _ _ Hall Hi) as (c & Hci & Hl).
  exists (take_over (index_by_key h endpoints) c). split; [done|].
  apply list_elem_of_lookup_2, Hc in Hci as (Hm & Hi0 & _). unfold take_over.
  by destruct (index_by_key h endpoints !! _).
Qed.

(** ** Properties *)

(** C29.  A refused reload changes nothing: the task is as
    before, no endpoint object in use is modified and the table of shared
    endpoints is the same. *)
Theorem refused_reload_changes_nothing `{TimeSeriesStore} now flush_ms body t p t' p' message :
  reload_config now flush_ms body t p = (t', p', Some message) →
  t' = t ∧ p_heap p ⊆ p_heap p' ∧ p_table p' = p_table p.
Proof.
  unfold reload_config. destruct (negb (is_object body)); [by intros; simplify_eq|].
  destruct (reload_plan body (t_config t) (t_endpoints t) p) as [p1 [msg|[c next]]] eqn:Eplan.
  - apply reload_plan_spec in Eplan as (Hsub & Htab & _). by intros; simplify_eq.
  - by destruct (match next with Some _ => _ | None => _ end) as [[h table] eps].
Qed.

(** C30.  A successful reload keeps the static members, the
    queue, the records and the counters, raises the version by one, installs
    thresholds of at least one and a non-empty fallback chain, leaves the
    endpoint objects of running calls untouched, and every endpoint of the
    new list admits at least one call and counts none in flight. *)
Theorem reload_preserves_and_installs `{TimeSeriesStore} now flush_ms body t p t' p' :
  reload_config now flush_ms body t p = (t', p', None) →
  static_members (t_config t') = static_members (t_config t) ∧ reloaded_ok (t_config t') ∧
  t_queue t' = t_queue t ∧ t_records t' = t_records t ∧ t_metrics t' = t_metrics t ∧
  t_task_id_counter t' = t_task_id_counter t ∧ t_config_version t' = to_int (t_config_version t + 1) ∧
  p_heap p ⊆ p_heap p' ∧
  if has_endpoint_reload_config body then
    Forall (λ l, p_heap p !! l = None ∧ ∃ ep, p_heap p' !! l = Some ep ∧
              1 <= ep_max_concurrency ep ∧ ep_inflight ep = 0) (t_endpoints t')
  else t_endpoints t' = t_endpoints t.
Proof.
  unfold reload_config. destruct (negb (is_object body)); [by intros; simplify_eq|].
  destruct (reload_plan body (t_config t) (t_endpoints t) p) as [p1 [msg|[c next]]] eqn:Eplan; [done|].
  apply reload_plan_spec in Eplan as (Hsub & Htab & Hst & Hok & Hnext).
  destruct next as [ls|].
  - destruct Hnext as [-> Hls]. apply configured_values_ok in Hls.
    destruct (commit_reloaded_endpoints_locked _ _ _ _) as [[h table] eps] eqn:Ec.
    apply (committed_endpoints _ _ _ _ _ _ _ Hls) in Ec as (Hsub' & Hall).
    assert (Forall (λ l, p_heap p !! l = None ∧ ∃ ep, h !! l = Some ep ∧
              1 <= ep_max_concurrency ep ∧ ep_inflight ep = 0) eps) as Heps.
    { eapply Forall_impl; [exact Hall|]. intros l [Hl ?]. split; [by eapply lookup_weaken_None|done]. }
    assert (p_heap p ⊆ h) by (by etrans).
    intros E. injection E as <- <-.
    destruct (contains body "observability" || contains body "observability_enabled"); cbn; split_and!; done.
  - destruct Hnext as [-> ->]. intros E. injection E as <- <-.
    destruct (contains body "observability" || contains body "observability_enabled"); cbn; split_and!; done.
Qed.

(** Submitting a request has exactly one of two effects: the
    request is appended to the queue under a fresh id with a pending record
    and no message, or it is refused with exactly one error message and the
    queue and the records stay as they are. *)
Theorem inference_accepts_or_rejects `{TimeSeriesStore} now rid wid url object prompt meta options t t' out :
  inference now rid wid url object prompt meta options t = (t', out) →
  1 <= tc_max_task_records (t_config t) →
  let req := make_request now rid wid url object prompt meta options t in
  req_task_id req = t_task_id_counter t' ∧
  ((out = [] ∧ q_pending (t_queue t') = q_pending (t_queue t) ++ [req] ∧
    list.last (t_records t') = Some (new_record req) ∧
    total_requests_ (t_metrics t') = uint64_add (total_requests_ (t_metrics t)) 1) ∨
   (∃ code message, out = emit_error req code message ∧ (code = -40 ∨ code = -43) ∧
      t_queue t' = t_queue t ∧ t_records t' = t_records t ∧
      queue_reject_count_ (t_metrics t') = uint64_add (queue_reject_count_ (t_metrics t)) 1)).
Proof.
  intros E Hrec. cbv zeta. unfold inference in E.
  assert (req_task_id (make_request now rid wid url object prompt meta options t) =
          to_int (t_task_id_counter t + 1)) as Hid by reflexivity.
  generalize dependent (make_request now rid wid url object prompt meta options t). intros req E Hid.
  change (q_pending (t_queue (t <| t_task_id_counter := to_int (t_task_id_counter t + 1) |>)))
    with (q_pending (t_queue t)) in E.
  destruct (admit_locked _ req (q_pending (t_queue t))) as [pending|code message] eqn:Ea;
    injection E as <- <-; (split; [done|]).
  - left. apply admit_enqueued in Ea as (-> & _). split_and!; [done|done| |done].
    apply record_pending_last. done.
  - right. exists code, message. split_and!; try done. by eapply admit_rejected_code.
Qed.

(** ** Concrete tasks *)

Definition loaded : task * process * Z :=
  load_model (λ _, "") (λ _, true) (0, 0) sample_document (new_task "llm.1") (MkProcess ∅ ∅).

Definition reload_document : json :=
  mk_obj [("max_queue_size", JInt 8);
          ("endpoints", JArr [mk_obj [("base_url", JStr "http://a"); ("max_concurrency", JInt 2)]])].

Lemma refused_reload_changes_nothing_witness :
  (reload_config 5 (0, 0) (mk_obj [("model", JStr "other")]) loaded.1.1 loaded.1.2).1.1 = loaded.1.1.
Proof.
  destruct (reload_config 5 (0, 0) (mk_obj [("model", JStr "other")]) loaded.1.1 loaded.1.2)
    as [[t' p'] [message|]] eqn:E.
  - exact (proj1 (refused_reload_changes_nothing 5 (0, 0) (mk_obj [("model", JStr "other")])
      loaded.1.1 loaded.1.2 t' p' message E)).
  - vm_compute in E. discriminate E.
Defined.

Lemma reload_preserves_and_installs_witness :
  t_config_version (reload_config 5 (0, 0) reload_document loaded.1.1 loaded.1.2).1.1 = 2.
Proof.
  destruct (reload_config 5 (0, 0) reload_document loaded.1.1 loaded.1.2) as [[t' p'] [message|]] eqn:E.
  - vm_compute in E. discriminate E.
  - cbn [fst]. rewrite (proj1 (proj2 (proj2 (proj2 (proj2 (proj2 (proj2
      (reload_preserves_and_installs 5 (0, 0) reload_document loaded.1.1 loaded.1.2 t' p' E)))))))).
    vm_compute. reflexivity.
Defined.

Definition default_options : RequestOptions := MkRequestOptions "llm.utf-8.stream" "" "chat" true true.

Lemma inference_accepts_or_rejects_witness :
  t_task_id_counter (inference 7 "r1" "llm.1" "url" "llm.utf-8" "hi" json_object default_options loaded.1.1).1 = 1.
Proof.
  destruct (inference 7 "r1" "llm.1" "url" "llm.utf-8" "hi" json_object default_options loaded.1.1)
    as [t' out] eqn:E.
  cbn [fst].
  rewrite <- (proj1 (inference_accepts_or_rejects 7 "r1" "llm.1" "url" "llm.utf-8" "hi" json_object
    default_options loaded.1.1 t' out E ltac:(vm_compute; discriminate))).
  vm_compute. reflexivity.
Defined.
