(* ===== verification/Worker.v ===== *)
(** * The worker and health threads of [vllm_task]

    [worker_loop], [handle_request], [wait_for_endpoint], [health_loop] and
    [check_endpoint_health] of [node/vllm-client/src/main.cpp].

    The threads interleave at their critical sections, at their reads of the
    clock and of the [stopping_] flag and at the HTTP calls.  A thread is a
    program over these actions ([prog]); a trace is the sequence of actions
    with the answers they got, and a property proved of every trace holds
    whatever the other threads, the clock and the servers do.  [run_prog]
    executes a program on the state of a task. *)
From S2P Require Import Prelude StdString Doubles Json Observability Metrics Types Endpoint Queue Records Config Stream Task.

(** ** Programs *)

Inductive action :=
  | Now
  | Stopping
  | ReadConfig
  | Select (req : InferenceRequest)
  | ReadEndpoint (l : loc)
  | Pause
  | Http (request : http_request)
  | Result (l : loc) (ok : bool) (latency_ms : Z)
  | Health (l : loc) (ok : bool) (latency_ms : Z)
  | UpdateRecord (req : InferenceRequest) (status : RequestStatus) (error_message : string)
  | Finish (ok timeout degraded : bool) (total_latency_ms queue_wait_ms first_token_latency_ms : Z)
  | Observe (req : InferenceRequest) (ok timeout : bool) (error_code : Z)
  | CountRetry
  | SetStatus (status : TaskStatus)
  | Emit (out : list output_message).

Definition answer (e : action) : Type :=
  match e with
  | Now => Z
  | Stopping => bool
  | ReadConfig => task_config
  | Select _ => option loc
  | ReadEndpoint _ => VllmEndpoint
  | Http _ => http_reply
  | _ => unit
  end.

(** [Raise] is an exception no code of the thread catches: it ends the
    process. *)
Inductive prog (A : Type) : Type :=
  | Ret (a : A)
  | Raise (what : string)
  | Act (e : action) (k : answer e → prog A).
Arguments Ret {A} _.
Arguments Raise {A} _.
Arguments Act {A} _ _.

Fixpoint bind {A B} (p : prog A) (f : A → prog B) : prog B :=
  match p with
  | Ret a => f a
  | Raise what => Raise what
  | Act e k => Act e (λ r, bind (k r) f)
  end.

Definition act (e : action) : prog (answer e) := Act e Ret.

Declare Scope prog_scope.
Delimit Scope prog_scope with prog.
Notation "x <- p ;; q" := (bind p%prog (λ x, q%prog))
  (at level 100, p at next level, right associativity) : prog_scope.
Notation "p ;;; q" := (bind p%prog (λ _, q%prog))
  (at level 100, right associativity) : prog_scope.

(** ** One request *)

Definition deadline_exceeded (req : InferenceRequest) : prog bool :=
  if 0 <? req_deadline_ms req
  then (now <- act Now;; Ret (req_deadline_at_ms req <=? now))%prog
  else Ret false.

Inductive wait_result :=
  | Waited (endpoint : option loc)
  | StillWaiting.

(** The polling loop of [wait_for_endpoint]; [fuel] bounds the polls. *)
Fixpoint wait_polls (fuel : nat) (req : InferenceRequest) (wait_until_ms : Z) : prog wait_result :=
  match fuel with
  | O => Ret StillWaiting
  | S fuel =>
      (stopping <- act Stopping;;
       if (stopping : bool) then Ret (Waited None)
       else
         now <- act Now;;
         if now <? wait_until_ms then
           act Pause;;;
           endpoint <- act (Select req);;
           match endpoint with
           | Some l => Ret (Waited (Some l))
           | None =>
               exceeded <- deadline_exceeded req;;
               if (exceeded : bool) then Ret (Waited None) else wait_polls fuel req wait_until_ms
           end
         else Ret (Waited None))%prog
  end.

Definition wait_for_endpoint (fuel : nat) (req : InferenceRequest) : prog wait_result :=
  (endpoint <- act (Select req);;
   match endpoint with
   | Some l => Ret (Waited (Some l))
   | None =>
       c <- act ReadConfig;;
       if tc_endpoint_wait_ms c <=? 0 then Ret (Waited None)
       else
         now <- act Now;;
         c <- act ReadConfig;;
         wait_polls fuel req (Z.min (req_deadline_at_ms req) (now + tc_endpoint_wait_ms c))
   end)%prog.

(** The local variables of the retry loop. *)
Record attempt_state := MkAttemptState {
  as_ok : bool;
  as_stream_started : bool;
  as_error_message : string;
  as_final_req : InferenceRequest;
}.

Section worker.
Context `{JsonText}.

(** One call on the selected endpoint: its outcome, after its slot has been
    given back. *)
Definition attempt_call (attempt : Z) (l : loc) (st : attempt_state) (req : InferenceRequest)
    : prog call_outcome :=
  (ep <- act (ReadEndpoint l);;
   c <- act ReadConfig;;
   let attempt_req := prepare_request_for_endpoint ep (req <| req_retry_count := attempt |>) in
   begin_ms <- act Now;;
   match vllm_http_request c ep attempt_req with
   | Throw what => Raise what
   | Ok request =>
       reply <- act (Http request);;
       let o := read_reply reply begin_ms (as_error_message st) (as_stream_started st) attempt_req in
       act (Emit (co_output o));;;
       act (Result l (co_ok o) (if 0 <=? req_total_latency_ms (co_req o)
                                then req_total_latency_ms (co_req o) else 0));;;
       Ret o
   end)%prog.

(** What is recorded when a request ends. *)
Definition close_request (req : InferenceRequest) (status : RequestStatus) (ok timeout : bool) (code : Z)
    (error_message : string) : prog unit :=
  (act (UpdateRecord req status error_message);;;
   act (Finish ok timeout (req_degraded req) (req_total_latency_ms req) (req_queue_wait_ms req)
          (req_first_token_latency_ms req));;;
   act (Observe req ok timeout code);;; Ret tt)%prog.

(** The retry loop with [n] attempts left; [None] when a wait ran out of fuel. *)
Fixpoint attempts (n fuel : nat) (attempt : Z) (req : InferenceRequest) (st : attempt_state)
    : prog (option attempt_state) :=
  match n with
  | O => Ret (Some st)
  | S n =>
      (stopping <- act Stopping;;
       if (stopping : bool) then Ret (Some st)
       else
         exceeded <- deadline_exceeded req;;
         if (exceeded : bool) then
           Ret (Some (MkAttemptState (as_ok st) (as_stream_started st) "deadline exceeded" (as_final_req st)))
         else
           waited <- wait_for_endpoint fuel req;;
           match waited with
           | StillWaiting => Ret None
           | Waited None =>
               Ret (Some (MkAttemptState (as_ok st) (as_stream_started st)
                            "no healthy endpoint or endpoint capacity timeout" (as_final_req st)))
           | Waited (Some l) =>
               o <- attempt_call attempt l st req;;
               if co_ok o then
                 now <- act Now;;
                 let final_req := (co_req o) <| req_finished_ms := now |> in
                 close_request final_req Success true false 0 "";;;
                 Ret (Some (MkAttemptState true (co_stream_started o) (co_error_message o) final_req))
               else
                 act CountRetry;;;
                 if co_stream_started o then
                   Ret (Some (MkAttemptState false true
                          ("vLLM stream failed after output started: " +:+ co_error_message o) (co_req o)))
                 else
                   attempts n fuel (attempt + 1) req
                     (MkAttemptState false false (co_error_message o) (co_req o))
           end)%prog
  end.

Definition run_mock (req : InferenceRequest) : list output_message :=
  if req_enstream req then
    emit_delta req (req_prompt req) false 0 ++ emit_delta req " [mock-vllm]" false 1 ++ emit_delta req "" true 2
  else emit_text req (req_prompt req +:+ " [mock-vllm]").

(** The end of a request that no attempt served. *)
Definition fail_request (st : attempt_state) : prog unit :=
  let error_message := if str_empty (as_error_message st) then "vLLM request failed" else as_error_message st in
  let timeout := (error_message =? "deadline exceeded")%string in
  let code := if timeout then -42 else -41 in
  (now <- act Now;;
   let final_req := (as_final_req st) <| req_finished_ms := now |>
                      <| req_total_latency_ms := now - req_started_ms (as_final_req st) |> in
   close_request final_req (if timeout then Timeout else Failed) false timeout code error_message;;;
   act (Emit (emit_error final_req code error_message));;; Ret tt)%prog.

(** [handle_request]; the answer is [None] when a wait ran out of fuel. *)
Definition handle_request (fuel : nat) (req : InferenceRequest) : prog (option unit) :=
  (c <- act ReadConfig;;
   if tc_mock_mode c then
     let mock_req := req <| req_endpoint_name := "mock" |> <| req_served_model := tc_model c |> in
     act (Emit (run_mock mock_req));;;
     now <- act Now;;
     let mock_req := mock_req <| req_finished_ms := now |>
                       <| req_total_latency_ms := now - req_started_ms mock_req |> in
     act (UpdateRecord mock_req Success "");;;
     act (Finish true false false (req_total_latency_ms mock_req) (req_queue_wait_ms mock_req)
            (req_first_token_latency_ms mock_req));;;
     act (Observe mock_req true false 0);;; Ret (Some tt)
   else
     result <- attempts (Z.to_nat (req_max_retries req + 1)) fuel 0 req (MkAttemptState false false "" req);;
     match result with
     | None => Ret None
     | Some st =>
         if as_ok st then Ret (Some tt)
         else
           stopping <- act Stopping;;
           if (stopping : bool) then Ret (Some tt)
           else fail_request st;;; Ret (Some tt)
     end)%prog.

(** One turn of [worker_loop] for a request taken from the queue. *)
Definition worker_turn (fuel : nat) (req : InferenceRequest) : prog (option unit) :=
  (now <- act Now;;
   let req := req <| req_started_ms := now |> <| req_queue_wait_ms := now - req_created_ms req |> in
   act (UpdateRecord req Running "");;;
   act (SetStatus TaskRunning);;;
   r <- handle_request fuel req;;
   stopping <- act Stopping;;
   (if (stopping : bool) then Ret tt else act (SetStatus TaskReady));;; Ret r)%prog.

(** ** Health checks *)

(** [http_get]: the body and the status, or the error. *)
Definition http_get (url api_key : string) (timeout_ms : Z) : prog (string + string * Z) :=
  (reply <- act (Http (MkHttpRequest url
      (if str_empty api_key then [] else ["Authorization: Bearer " +:+ api_key]) None timeout_ms));;
   if negb (hr_init reply) then Ret (inl "curl_easy_init failed")
   else match hr_error reply with
        | Some message => Ret (inl message)
        | None => Ret (inr (response_body reply, hr_http_code reply))
        end)%prog.

(** The search of the served model in the answer of [/v1/models]; a text that
    does not parse is a failure. *)
Definition lists_model (body served_model : string) : bool :=
  match json_parse body with
  | Ok parsed =>
      match json_get parsed "data" with
      | Some (JArr items) =>
          existsb (λ item, match json_get item "id" with
                           | Some (JStr s) => (s =? served_model)%string
                           | _ => false
                           end) items
      | _ => false
      end
  | Throw _ => false
  end.

(** Whether the endpoint is healthy and how long the check took. *)
Definition check_endpoint_health (l : loc) : prog (bool * Z) :=
  (c <- act ReadConfig;;
   begin_ms <- act Now;;
   ep <- act (ReadEndpoint l);;
   let health_path := if str_empty (ep_health_path ep) then "/health" else ep_health_path ep in
   let health_path := match health_path with
                      | String ch _ => if decide (ch = "/"%char) then health_path else "/" +:+ health_path
                      | EmptyString => health_path
                      end in
   r <- http_get (ep_base_url ep +:+ health_path) (ep_api_key ep) (tc_health_check_timeout_ms c);;
   if (match r with inr (_, code) => http_status_ok code | inl _ => false end) then
     now <- act Now;; Ret (true, now - begin_ms)
   else
     r <- http_get (ep_base_url ep +:+ "/v1/models") (ep_api_key ep) (tc_health_check_timeout_ms c);;
     now <- act Now;;
     let latency_ms := now - begin_ms in
     match r with
     | inr (body, code) =>
         if negb (http_status_ok code) then Ret (false, latency_ms)
         else if str_empty (ep_served_model ep) then Ret (true, latency_ms)
         else Ret (lists_model body (ep_served_model ep), latency_ms)
     | inl _ => Ret (false, latency_ms)
     end)%prog.

(** One round of [health_loop] over its snapshot of the endpoints. *)
Fixpoint health_round (snapshot : list loc) : prog unit :=
  match snapshot with
  | [] => Ret tt
  | l :: rest =>
      (stopping <- act Stopping;;
       if (stopping : bool) then Ret tt
       else
         r <- check_endpoint_health l;;
         act (Health l r.1 r.2);;;
         health_round rest)%prog
  end.
End worker.

(** ** Traces *)

Inductive event := Ev (e : action) (r : answer e).

(** [tr] is a complete run of [p] with answer [a]. *)
Fixpoint runs {A} (p : prog A) (tr : list event) (a : A) : Prop :=
  match p with
  | Ret a' => tr = [] ∧ a' = a
  | Raise _ => False
  | Act e k => ∃ r tr', tr = Ev e r :: tr' ∧ runs (k r) tr' a
  end.

Lemma runs_bind {A B} (p : prog A) (f : A → prog B) tr b :
  runs (bind p f) tr b ↔ ∃ tr1 tr2 a, tr = tr1 ++ tr2 ∧ runs p tr1 a ∧ runs (f a) tr2 b.
Proof.
  revert tr. induction p as [a|what|e k IH]; intros tr; simpl.
  - split; [intros Hr; by exists [], tr, a|]. intros (tr1 & tr2 & a' & -> & [-> ->] & Hr). done.
  - split; [done|]. by intros (tr1 & tr2 & a & _ & [] & _).
  - split.
    + intros (r & tr' & -> & Hr). apply IH in Hr as (tr1 & tr2 & a & -> & H1 & H2).
      exists (Ev e r :: tr1), tr2, a. eauto 10.
    + intros (tr1 & tr2 & a & -> & (r & tr' & -> & H1) & H2). exists r, (tr' ++ tr2).
      split; [done|]. apply IH. eauto 10.
Qed.

Lemma runs_act e tr (r : answer e) : runs (act e) tr r ↔ tr = [Ev e r].
Proof.
  simpl. split; [intros (r' & tr' & -> & -> & ->); done|]. intros ->. by exists r, [].
Qed.

(** A run of [x <- act e;; k x]. *)
Lemma runs_act_bind {B} e (f : answer e → prog B) tr b :
  runs (bind (act e) f) tr b ↔ ∃ r tr', tr = Ev e r :: tr' ∧ runs (f r) tr' b.
Proof. simpl. done. Qed.

(** Take a run of a program apart, action by action. *)
Ltac run_step :=
  match goal with
  | H : runs (bind (act ?e) _) _ _ |- _ =>
      let r := fresh "r" in let tr := fresh "tr" in
      apply runs_act_bind in H as (r & tr & -> & H); cbn beta in H;
      let T := eval cbn in (answer e) in
      match T with unit => destruct r | _ => idtac end
  | H : runs (Ret _) _ _ |- _ => destruct H as [-> H]
  | H : runs (Raise _) _ _ |- _ => destruct H
  | H : runs (bind (Ret ?a) ?f) _ _ |- _ => change (bind (Ret a) f) with (f a) in H; cbn beta in H
  | H : runs (act _) _ _ |- _ => apply runs_act in H as ->
  end.
Ltac run_steps := repeat run_step.

(** Split on the test at the head of a program. *)
Ltac run_branch :=
  match goal with
  | H : runs (match ?x with _ => _ end) _ _ |- _ => destruct x eqn:?
  end.

(** *** The slot of an endpoint *)

(** What a trace does with endpoint slots: [held] is the endpoint the thread
    has charged and not yet reported.  Charging twice, reporting an endpoint
    that is not held and calling without a slot are errors. *)
Fixpoint slot_after (held : option loc) (tr : list event) : option (option loc) :=
  match tr with
  | [] => Some held
  | Ev e r :: tr =>
      match e return answer e → option (option loc) with
      | Select _ => λ best, match held with
                            | None => slot_after best tr
                            | Some _ => None
                            end
      | Result l _ _ => λ _, if decide (held = Some l) then slot_after None tr else None
      | Http _ => λ _, match held with Some _ => slot_after held tr | None => None end
      | _ => λ _, slot_after held tr
      end r
  end.

Lemma slot_after_app held tr1 tr2 :
  slot_after held (tr1 ++ tr2) =
  match slot_after held tr1 with Some held' => slot_after held' tr2 | None => None end.
Proof.
  revert held. induction tr1 as [|[e r] tr1 IH]; intros held; [done|].
  destruct e; simpl; first [apply IH|destruct held; done || apply IH|case_decide; done || apply IH].
Qed.

Lemma deadline_slot req tr b held : runs (deadline_exceeded req) tr b → slot_after held tr = Some held.
Proof. unfold deadline_exceeded. case_match; intros; by run_steps. Qed.

Lemma wait_polls_slot fuel req until : ∀ tr w,
  runs (wait_polls fuel req until) tr w →
  slot_after None tr = Some (match w with Waited ep => ep | StillWaiting => None end).
Proof.
  induction fuel as [|fuel IH]; intros tr w Hr; cbn [wait_polls] in Hr; run_steps; [by subst|].
  run_branch; run_steps; [by subst|]. run_branch; run_steps; [|by subst].
  run_branch; run_steps; [by subst|].
  apply runs_bind in Hr as (tr4 & tr5 & b & -> & Hd & Hr). cbn; subst; cbn.
  rewrite slot_after_app, (deadline_slot _ _ _ _ Hd). run_branch; run_steps; [by subst|eauto].
Qed.

Lemma wait_slot fuel req tr w :
  runs (wait_for_endpoint fuel req) tr w →
  slot_after None tr = Some (match w with Waited ep => ep | StillWaiting => None end).
Proof.
  unfold wait_for_endpoint. intros Hr. run_steps. run_branch; run_steps; [by subst|].
  run_branch; run_steps; subst; cbn; [done|]. by eapply wait_polls_slot.
Qed.

(** Trace facts that do not concern slots are stated with filters. *)
Definition is_http (ev : event) : bool := let 'Ev e _ := ev in match e with Http _ => true | _ => false end.
Definition calls (tr : list event) : nat := length (List.filter is_http tr).

Lemma calls_app tr1 tr2 : calls (tr1 ++ tr2) = (calls tr1 + calls tr2)%nat.
Proof. unfold calls. by rewrite List.filter_app, length_app. Qed.

(** The records, counters and error messages by which a request ends. *)
Definition is_closing (ev : event) : bool :=
  let 'Ev e _ := ev in
  match e with UpdateRecord _ _ _ | Finish _ _ _ _ _ _ | Observe _ _ _ _ => true | _ => false end.
Definition closing (tr : list event) : list event := List.filter is_closing tr.

Lemma closing_app tr1 tr2 : closing (tr1 ++ tr2) = closing tr1 ++ closing tr2.
Proof. apply List.filter_app. Qed.

(** The messages a trace sends. *)
Fixpoint sent (tr : list event) : list output_message :=
  match tr with
  | [] => []
  | Ev (Emit out) _ :: tr => out ++ sent tr
  | _ :: tr => sent tr
  end.

Lemma sent_app tr1 tr2 : sent (tr1 ++ tr2) = sent tr1 ++ sent tr2.
Proof.
  induction tr1 as [|[e r] tr1 IH]; [done|]. destruct e; simpl; try done. by rewrite IH, app_assoc.
Qed.

(** Waiting only selects and reads. *)
Definition quiet (tr : list event) : Prop := calls tr = 0%nat ∧ closing tr = [] ∧ sent tr = [].

Lemma quiet_app tr1 tr2 : quiet tr1 → quiet tr2 → quiet (tr1 ++ tr2).
Proof.
  unfold quiet. rewrite calls_app, closing_app, sent_app. intros (-> & -> & ->) (-> & -> & ->). done.
Qed.

Lemma quiet_cons ev tr : quiet [ev] → quiet tr → quiet (ev :: tr).
Proof. apply (quiet_app [ev]). Qed.

Lemma quiet_nil : quiet [].
Proof. done. Qed.

Ltac quiet_trace :=
  repeat match goal with
  | |- quiet [] => apply quiet_nil
  | |- quiet (_ :: _) => apply quiet_cons; [done|]
  | |- quiet (_ ++ _) => apply quiet_app
  end.

Lemma deadline_quiet req tr b : runs (deadline_exceeded req) tr b → quiet tr.
Proof. unfold deadline_exceeded. case_match; intros; run_steps; by quiet_trace. Qed.

Lemma wait_polls_quiet fuel req until : ∀ tr w, runs (wait_polls fuel req until) tr w → quiet tr.
Proof.
  induction fuel as [|fuel IH]; intros tr w Hr; cbn [wait_polls] in Hr; run_steps; [by quiet_trace|].
  run_branch; run_steps; [by quiet_trace|]. run_branch; run_steps; [|by quiet_trace].
  run_branch; run_steps; [by quiet_trace|].
  apply runs_bind in Hr as (tr4 & tr5 & b & -> & Hd & Hr). quiet_trace; [by eapply deadline_quiet|].
  run_branch; run_steps; [by quiet_trace|eauto].
Qed.

Lemma wait_quiet fuel req tr w : runs (wait_for_endpoint fuel req) tr w → quiet tr.
Proof.
  unfold wait_for_endpoint. intros Hr. run_steps. run_branch; run_steps; [by quiet_trace|].
  run_branch; run_steps; quiet_trace. by eapply wait_polls_quiet.
Qed.

(** *** Calls *)

Definition is_error (m : output_message) : bool := negb (om_error_code m =? 0).
Definition errors (out : list output_message) : list output_message := List.filter is_error out.

Lemma errors_app o1 o2 : errors (o1 ++ o2) = errors o1 ++ errors o2.
Proof. apply List.filter_app. Qed.

Lemma emit_delta_no_error req d fin i : errors (emit_delta req d fin i) = [].
Proof. unfold emit_delta. by case_match. Qed.

Lemma emit_text_no_error req text : errors (emit_text req text) = [].
Proof. unfold emit_text. by case_match. Qed.

Lemma delta_messages_no_error req ds : ∀ i, errors (delta_messages req i ds) = [].
Proof.
  induction ds as [|d ds IH] using rev_ind; intros i; [done|].
  rewrite delta_messages_app, errors_app, IH. unfold delta_messages. cbn.
  rewrite app_nil_r. apply emit_delta_no_error.
Qed.

(** The answer of one call as the client sees it: numbered deltas, then the
    finish marker of the stream or the complete text if the call succeeded. *)
Definition one_answer (ok : bool) (out : list output_message) : Prop :=
  ∃ req deltas last, out = delta_messages req 0 deltas ++ last ∧
    if ok then ∃ req' text, last = emit_delta req' "" true (Z.of_nat (length deltas)) ∨ last = emit_text req' text
    else last = [].

Lemma one_answer_no_error ok out : one_answer ok out → errors out = [].
Proof.
  intros (req & deltas & last & -> & Hlast). rewrite errors_app, delta_messages_no_error.
  destruct ok; [|by subst]. destruct Hlast as (req' & text & [->| ->]);
    [apply emit_delta_no_error|apply emit_text_no_error].
Qed.

Lemma one_answer_nil : one_answer false [].
Proof. by exists default_request, [], []. Qed.

Lemma prepare_keeps_id ep req n :
  req_task_id (prepare_request_for_endpoint ep (req <| req_retry_count := n |>)) = req_task_id req.
Proof. unfold prepare_request_for_endpoint. cbv zeta. by destruct (req_degraded _). Qed.

Section worker_lemmas.
Context `{JsonText}.

Lemma attempt_call_runs attempt l st req tr o :
  as_stream_started st = false → runs (attempt_call attempt l st req) tr o →
  slot_after (Some l) tr = Some None ∧ calls tr = 1%nat ∧ closing tr = [] ∧ sent tr = co_output o ∧
  one_answer (co_ok o) (co_output o) ∧
  (co_ok o = false → co_stream_started o = false → co_output o = []) ∧
  req_task_id (co_req o) = req_task_id req.
Proof.
  intros Hst Hr. unfold attempt_call in Hr. run_steps. run_branch; run_steps. subst o.
  match goal with |- context [read_reply ?reply ?b ?m ?s ?r] =>
    pose proof (read_reply_shape reply b m s r (or_intror Hst)) as Hshape;
    assert (req_task_id r = req_task_id req) as Hid by apply prepare_keeps_id;
    generalize dependent (read_reply reply b m s r) end.
  intros o Hshape. cbv zeta in Hshape.
  destruct Hshape as (deltas & Hstarted & _ & _ & Hid' & Hout).
  split_and!; [cbn; by rewrite decide_True|done|done|cbn; by rewrite app_nil_r| | |congruence].
  - unfold one_answer. destruct (co_ok o).
    + destruct Hout as [text ->]. eexists _, deltas, _. split; [reflexivity|].
      exists (co_req o), text. destruct (req_enstream _); [by left|by right].
    + eexists _, deltas, []. split; [|done]. by rewrite app_nil_r.
  - intros Hok Hns. rewrite Hok in Hout. rewrite Hout. rewrite Hns in Hstarted.
    by destruct deltas.
Qed.

(** The closing events of a request that ended well. *)
Definition success_events (req : InferenceRequest) (degraded : bool) : list event :=
  [Ev (UpdateRecord req Success "") tt;
   Ev (Finish true false degraded (req_total_latency_ms req) (req_queue_wait_ms req)
         (req_first_token_latency_ms req)) tt;
   Ev (Observe req true false 0) tt].

(** The closing events of a request that failed with a code. *)
Definition failure_events (req : InferenceRequest) (status : RequestStatus) (timeout : bool) (code : Z)
    (error_message : string) : list event :=
  [Ev (UpdateRecord req status error_message) tt;
   Ev (Finish false timeout (req_degraded req) (req_total_latency_ms req) (req_queue_wait_ms req)
         (req_first_token_latency_ms req)) tt;
   Ev (Observe req false timeout code) tt].

Lemma close_request_runs req status ok timeout code msg tr a :
  runs (close_request req status ok timeout code msg) tr a →
  tr = [Ev (UpdateRecord req status msg) tt;
        Ev (Finish ok timeout (req_degraded req) (req_total_latency_ms req) (req_queue_wait_ms req)
              (req_first_token_latency_ms req)) tt;
        Ev (Observe req ok timeout code) tt].
Proof. intros Hr. unfold close_request in Hr. by run_steps. Qed.

(** What the retry loop does with the slots, the calls and the client. *)
Definition attempts_spec (n : nat) (req : InferenceRequest) (tr : list event) (res : option attempt_state) : Prop :=
  slot_after None tr = Some None ∧ (calls tr <= n)%nat ∧
  match res with
  | Some st' =>
      one_answer (as_ok st') (sent tr) ∧ req_task_id (as_final_req st') = req_task_id req ∧
      closing tr = if as_ok st' then success_events (as_final_req st') (req_degraded (as_final_req st')) else []
  | None => closing tr = [] ∧ sent tr = []
  end.

(** A prefix that sends and closes nothing and gives its slots back. *)
Lemma attempts_spec_prefix m n req tr1 tr2 res :
  slot_after None tr1 = Some None → (calls tr1 <= m)%nat → closing tr1 = [] → sent tr1 = [] →
  attempts_spec n req tr2 res → attempts_spec (m + n) req (tr1 ++ tr2) res.
Proof.
  unfold attempts_spec. intros Hs Hc Hcl Hse (H1 & H2 & H3).
  rewrite slot_after_app, Hs, calls_app, closing_app, sent_app, Hcl, Hse. split_and!; [done|lia|done].
Qed.

Lemma attempts_spec_quiet n req tr1 tr2 res :
  quiet tr1 → slot_after None tr1 = Some None → attempts_spec n req tr2 res → attempts_spec n req (tr1 ++ tr2) res.
Proof.
  intros (Hc & Hcl & Hse) Hs. apply (attempts_spec_prefix 0); [done|lia|done|done].
Qed.

Lemma attempts_spec_stop n req st :
  as_ok st = false → req_task_id (as_final_req st) = req_task_id req → attempts_spec n req [] (Some st).
Proof.
  intros Hok Hid. unfold attempts_spec. rewrite Hok.
  split_and!; [done|unfold calls; simpl; lia|apply one_answer_nil|done|done].
Qed.
Lemma attempts_runs fuel req n : ∀ attempt st tr res,
  as_ok st = false → as_stream_started st = false → req_task_id (as_final_req st) = req_task_id req →
  runs (attempts n fuel attempt req st) tr res → attempts_spec n req tr res.
Proof.
  induction n as [|n IH]; intros attempt st tr res Hok Hst Hid Hr; cbn [attempts] in Hr.
  { run_steps. subst. by apply attempts_spec_stop. }
  run_steps. apply (attempts_spec_quiet (S n) req [_]); [by quiet_trace|done|].
  run_branch; run_steps; [subst; by apply attempts_spec_stop|].
  apply runs_bind in Hr as (tr1 & tr2 & b & -> & Hd & Hr).
  apply attempts_spec_quiet; [by eapply deadline_quiet|by eapply deadline_slot|].
  run_branch; run_steps; [subst; by apply attempts_spec_stop|].
  apply runs_bind in Hr as (tr3 & tr4 & w & -> & Hw & Hr).
  pose proof (wait_slot _ _ _ _ Hw) as Hslot. pose proof (wait_quiet _ _ _ _ Hw) as Hquiet. clear Hw.
  destruct w as [[l|]|]; run_steps.
  - apply runs_bind in Hr as (tr5 & tr6 & o & -> & Ho & Hr).
    apply attempt_call_runs in Ho as (Hs & Hc & Hcl & Hse & Hone & Hnone & Hid'); [|done].
    destruct Hquiet as (Hc3 & Hcl3 & Hse3).
    assert (slot_after None (tr3 ++ tr5) = Some None) as Hslot5 by (by rewrite slot_after_app, Hslot).
    rewrite app_assoc. run_branch.
    + run_steps. apply runs_bind in Hr as (tr7 & tr8 & u & -> & Hclose & Hr).
      apply close_request_runs in Hclose as ->. run_steps. subst res.
      unfold attempts_spec. rewrite slot_after_app, Hslot5, calls_app, closing_app, sent_app.
      rewrite (closing_app tr3), (sent_app tr3), (calls_app tr3), Hc, Hc3, Hcl, Hcl3, Hse, Hse3.
      cbn. rewrite app_nil_r. by split_and!; [|unfold calls; simpl; lia| | |].
    + run_steps. run_branch; run_steps.
      * subst res. unfold attempts_spec. rewrite slot_after_app, Hslot5, calls_app, closing_app, sent_app.
        rewrite (closing_app tr3), (sent_app tr3), (calls_app tr3), Hc, Hc3, Hcl, Hcl3, Hse, Hse3.
        cbn. rewrite app_nil_r. by split_and!; [|unfold calls; simpl; lia| | |].
      * apply (attempts_spec_prefix 1 n).
        -- done.
        -- rewrite calls_app. lia.
        -- by rewrite closing_app, Hcl3, Hcl.
        -- rewrite sent_app, Hse3, Hse. by apply Hnone.
        -- apply (attempts_spec_quiet n req [_]); [by quiet_trace|done|]. eapply IH; [| | |exact Hr]; done.
  - subst. apply attempts_spec_quiet; [done|done|by apply attempts_spec_stop].
  - subst. apply attempts_spec_quiet; [done|done|].
    unfold attempts_spec. split_and!; [done|unfold calls; simpl; lia|done|done].
Qed.
End worker_lemmas.

(** *** Whole requests *)

Lemma mock_answer req : one_answer true (run_mock req).
Proof.
  unfold run_mock, one_answer. destruct (req_enstream req).
  - exists req, [req_prompt req; " [mock-vllm]"], (emit_delta req "" true 2). split.
    + unfold delta_messages. cbn. by rewrite app_nil_r, <- app_assoc.
    + exists req, "". by left.
  - exists req, [], (emit_text req (req_prompt req +:+ " [mock-vllm]")). split; [done|].
    exists req, (req_prompt req +:+ " [mock-vllm]"). by right.
Qed.

(** How a finished request ended. *)
Inductive request_outcome (req : InferenceRequest) (tr : list event) : Prop :=
  | OutcomeSuccess final degraded :
      req_task_id final = req_task_id req → closing tr = success_events final degraded →
      one_answer true (sent tr) → request_outcome req tr
  | OutcomeFailure final (timeout : bool) message partial :
      req_task_id final = req_task_id req →
      closing tr = failure_events final (if timeout then Timeout else Failed) timeout
                     (if timeout then -42 else -41) message →
      one_answer false partial →
      sent tr = partial ++ emit_error final (if timeout then -42 else -41) message → request_outcome req tr
  | OutcomeStopped tr' :
      tr = tr' ++ [Ev Stopping true] → closing tr = [] → one_answer false (sent tr) → request_outcome req tr.

Section requests.
Context `{JsonText}.

Lemma fail_request_runs st tr a :
  runs (fail_request st) tr a →
  ∃ final (timeout : bool) message, req_task_id final = req_task_id (as_final_req st) ∧
    closing tr = failure_events final (if timeout then Timeout else Failed) timeout
                   (if timeout then -42 else -41) message ∧
    sent tr = emit_error final (if timeout then -42 else -41) message ∧
    slot_after None tr = Some None ∧ calls tr = 0%nat.
Proof.
  unfold fail_request. cbv zeta. intros Hr. run_steps.
  apply runs_bind in Hr as (tr1 & tr2 & u & -> & Hclose & Hr).
  apply close_request_runs in Hclose as ->. run_steps.
  eexists _, _, _. split; [|split; [reflexivity|]]; [reflexivity|]. done.
Qed.

Lemma handle_request_runs fuel req tr res :
  runs (handle_request fuel req) tr res →
  slot_after None tr = Some None ∧ (calls tr <= Z.to_nat (req_max_retries req + 1))%nat ∧
  (res = Some tt → request_outcome req tr).
Proof.
  unfold handle_request. intros Hr. run_steps. run_branch; run_steps.
  - subst res. split_and!; [done|unfold calls; simpl; lia|]. intros _.
    match goal with |- context [UpdateRecord ?final Success _] =>
      apply (OutcomeSuccess _ _ final false) end; [reflexivity|reflexivity|].
    cbn [sent]. rewrite app_nil_r. apply mock_answer.
  - apply runs_bind in Hr as (tr1 & tr2 & st & -> & Hatt & Hr).
    apply attempts_runs in Hatt as (Hslot & Hcalls & Hst); [|done..].
    destruct st as [st|]; run_steps; [|subst; rewrite app_nil_r; cbn; split_and!; [done|done|done]].
    destruct Hst as (Hone & Hid & Hcl). run_branch; run_steps.
    + subst res. rewrite app_nil_r. cbn. split_and!; [done|done|]. intros _.
      by eapply OutcomeSuccess.
    + run_branch; run_steps.
      * subst. split_and!.
        -- cbn. by rewrite slot_after_app, Hslot.
        -- change (calls (tr1 ++ [Ev Stopping true]) <= Z.to_nat (req_max_retries req + 1))%nat.
           rewrite calls_app. unfold calls at 2. simpl. lia.
        -- intros _. eapply (OutcomeStopped _ _ (_ :: tr1)); [done| |].
           ++ cbn. by rewrite closing_app, Hcl.
           ++ cbn. by rewrite sent_app, app_nil_r.
      * apply runs_bind in Hr as (tr3 & tr4 & u & -> & Hfail & Hr). run_steps. subst.
        apply fail_request_runs in Hfail as (final & timeout & message & Hfid & Hfcl & Hfs & Hfslot & Hfc).
        rewrite app_nil_r. split_and!.
        -- cbn. by rewrite slot_after_app, Hslot.
        -- change (calls (tr1 ++ Ev Stopping false :: tr3) <= Z.to_nat (req_max_retries req + 1))%nat.
           rewrite calls_app. change (calls (Ev Stopping false :: tr3)) with (calls tr3). lia.
        -- intros _. eapply (OutcomeFailure _ _ final timeout message (sent tr1)).
           ++ congruence.
           ++ cbn. rewrite closing_app, Hcl. exact Hfcl.
           ++ done.
           ++ cbn. rewrite sent_app. cbn. by rewrite Hfs.
Qed.

(** *** Fuel *)

Definition is_pause (ev : event) : bool := let 'Ev e _ := ev in match e with Pause => true | _ => false end.
Definition polls (tr : list event) : nat := length (List.filter is_pause tr).

Lemma polls_app tr1 tr2 : polls (tr1 ++ tr2) = (polls tr1 + polls tr2)%nat.
Proof. unfold polls. by rewrite List.filter_app, length_app. Qed.

Lemma deadline_polls req tr b : runs (deadline_exceeded req) tr b → polls tr = 0%nat.
Proof. unfold deadline_exceeded. case_match; intros; by run_steps. Qed.

Lemma wait_polls_fuel fuel req until : ∀ tr,
  runs (wait_polls fuel req until) tr StillWaiting → polls tr = fuel.
Proof.
  induction fuel as [|fuel IH]; intros tr Hr; cbn [wait_polls] in Hr; run_steps; [done|].
  run_branch; run_steps; [done|]. run_branch; run_steps; [|done]. run_branch; run_steps; [done|].
  apply runs_bind in Hr as (tr4 & tr5 & b & -> & Hd & Hr).
  pose proof (deadline_polls _ _ _ Hd) as Hp.
  run_branch; run_steps; [done|]. unfold polls. cbn. fold (polls (tr4 ++ tr5)).
  rewrite polls_app, Hp, (IH _ Hr). done.
Qed.

Lemma attempts_fuel fuel req n : ∀ attempt st tr,
  runs (attempts n fuel attempt req st) tr None → (fuel <= polls tr)%nat.
Proof.
  induction n as [|n IH]; intros attempt st tr Hr; cbn [attempts] in Hr; run_steps; [done|].
  run_branch; run_steps; [done|].
  apply runs_bind in Hr as (tr1 & tr2 & b & -> & Hd & Hr). run_branch; run_steps; [done|].
  apply runs_bind in Hr as (tr3 & tr4 & w & -> & Hw & Hr).
  assert ((fuel <= polls (tr3 ++ tr4))%nat → (fuel <= polls (Ev Stopping false :: tr1 ++ tr3 ++ tr4))%nat) as Hgo.
  { change (polls (Ev Stopping false :: tr1 ++ tr3 ++ tr4)) with (polls (tr1 ++ tr3 ++ tr4)).
    rewrite (polls_app tr1). lia. }
  subst. apply Hgo. clear Hgo. rewrite polls_app. destruct w as [[l|]|]; run_steps; [|done|].
  - apply runs_bind in Hr as (tr5 & tr6 & o & -> & Ho & Hr). rewrite polls_app.
    run_branch; run_steps.
    + apply runs_bind in Hr as (tr7 & tr8 & u & -> & Hclose & Hr). by run_steps.
    + run_branch; run_steps; [done|]. apply IH in Hr.
      match goal with |- context [polls (?ev :: tr)] => change (polls (ev :: tr)) with (polls tr) end. lia.
  - unfold wait_for_endpoint in Hw. run_steps. run_branch; run_steps; [done|].
    run_branch; run_steps; [done|]. apply wait_polls_fuel in Hw.
    match goal with |- context [polls (?e1 :: ?e2 :: ?e3 :: ?e4 :: ?t)] =>
      change (polls (e1 :: e2 :: e3 :: e4 :: t)) with (polls t) end. lia.
Qed.
End requests.

(** ** Properties *)

(** C9.  Every request a worker finishes ends in exactly one way,
    whatever the other threads, the clock and the servers do: it is recorded
    and counted once as a success and the client gets the answer of a single
    call, or once as a failure and the client gets exactly one error after at
    most one broken-off stream, or the task is stopping and nothing is
    recorded.  Answers of two attempts never mix. *)
Theorem request_single_outcome `{JsonText} fuel req tr :
  runs (handle_request fuel req) tr (Some tt) → request_outcome req tr.
Proof. intros Hr. by apply handle_request_runs in Hr as (_ & _ & Hout); auto. Qed.

(** C10.  Along every run a worker charges an endpoint only when it
    holds no slot, calls only with a slot, gives back exactly the slot it
    took, holds none when the request is finished, and makes at most
    [max_retries + 1] calls. *)
Theorem request_slots_and_calls `{JsonText} fuel req tr res :
  runs (handle_request fuel req) tr res →
  slot_after None tr = Some None ∧ (calls tr <= Z.to_nat (req_max_retries req + 1))%nat.
Proof. intros Hr. by apply handle_request_runs in Hr as (? & ? & _). Qed.

(** The fuel bounds nothing but the polls for a free endpoint: a
    run that does not finish has polled as often as the fuel allows, so with
    more fuel than polls every run finishes. *)
Theorem unfinished_request_polled `{JsonText} fuel req tr :
  runs (handle_request fuel req) tr None → (fuel <= polls tr)%nat.
Proof.
  unfold handle_request. intros Hr. run_steps. run_branch; run_steps; [done|].
  apply runs_bind in Hr as (tr1 & tr2 & st & -> & Hatt & Hr).
  match goal with |- context [polls (?ev :: ?t)] => change (polls (ev :: t)) with (polls t) end.
  destruct st as [st|]; run_steps.
  - run_branch; run_steps; [done|]. run_branch; run_steps; [done|].
    apply runs_bind in Hr as (tr3 & tr4 & u & -> & Hfail & Hr). by run_steps.
  - apply attempts_fuel in Hatt. rewrite app_nil_r. done.
Qed.
