(* ===== verification/Pool.v ===== *)
(** * Concurrent execution of the worker and health threads

    Programs of [Worker] run on the state of a task, one action at a time and
    in any interleaving: every action is one critical section, one atomic
    read or one HTTP call of [node/vllm-client/src/main.cpp].  The theorems
    show that the in-flight counters of the endpoints count exactly the calls
    that are running, and that the limits of the endpoints hold throughout. *)
From S2P Require Import Prelude StdString Doubles Json Observability Metrics Types Endpoint Queue Records Config Stream Task Worker.

Section pool.
Context `{TimeSeriesStore}.

Record world := MkWorld {
  w_task : task;
  w_process : process;
  w_clock : Z;
  w_http : http_client;
  w_sent : list output_message;
}.

#[export] Instance eta_w : Eta world := fun w =>
  MkWorld (w_task w) (w_process w) (w_clock w) (w_http w) (w_sent w).

(** The effect and the answer of an action.  Reading the clock lets a
    millisecond pass, a pause twenty. *)
Definition perform (e : action) (w : world) : world * answer e :=
  let t := w_task w in
  let p := w_process w in
  let now := w_clock w in
  match e return world * answer e with
  | Now => (w <| w_clock := now + 1 |>, now)
  | Stopping => (w, t_stopping t)
  | ReadConfig => (w, t_config t)
  | Select req =>
      let '(t, p, best) := select_endpoint now req t p in
      (w <| w_task := t |> <| w_process := p |>, best)
  | ReadEndpoint l => (w, default default_endpoint (p_heap p !! l))
  | Pause => (w <| w_clock := now + 20 |>, tt)
  | Http request => (w, w_http w request)
  | Result l ok latency_ms =>
      let '(t, p) := update_endpoint_result now l ok latency_ms t p in
      (w <| w_task := t |> <| w_process := p |>, tt)
  | Health l ok latency_ms =>
      let '(t, p) := update_endpoint_health now now l ok latency_ms t p in
      (w <| w_task := t |> <| w_process := p |>, tt)
  | UpdateRecord req status error_message =>
      (w <| w_task := t <| t_records := update_record req status error_message (t_records t) |> |>, tt)
  | Finish ok timeout degraded total queue_wait first_token =>
      (w <| w_task := t <| t_metrics :=
              on_request_finish ok timeout degraded total queue_wait first_token (t_metrics t) |> |>, tt)
  | Observe req ok timeout code => (w <| w_task := observe_request_metrics req ok timeout code t |>, tt)
  | CountRetry => (w <| w_task := t <| t_retry_count := to_int (t_retry_count t + 1) |> |>, tt)
  | SetStatus status => (w <| w_task := t <| t_status := status |> |>, tt)
  | Emit out => (w <| w_sent := w_sent w ++ out |>, tt)
  end.

(** Run one thread alone; without an answer when an exception ends the
    process. *)
Fixpoint run_prog {A} (p : prog A) (w : world) : world * option A :=
  match p with
  | Ret a => (w, Some a)
  | Raise _ => (w, None)
  | Act e k => let '(w, r) := perform e w in run_prog (k r) w
  end.

(** ** Threads *)

(** A thread with the endpoint it has charged and not reported yet. *)
Record thread := MkThread {
  th_held : option loc;
  th_prog : prog unit;
}.

Definition held_after (e : action) (held : option loc) : answer e → option loc :=
  match e return answer e → option loc with
  | Select _ => λ best, best
  | Result _ _ _ => λ _, None
  | _ => λ _, held
  end.

(** One action of one thread (an uncaught exception ends the process: such a
    thread, and with it every other, has no further step), a new thread, or anything else that leaves the
    endpoint objects alone: submissions, time, a changed configuration. *)
Inductive pool_step : world * list thread → world * list thread → Prop :=
  | pool_act w ts i held e k :
      ts !! i = Some (MkThread held (Act e k)) →
      pool_step (w, ts)
        ((perform e w).1, <[i := MkThread (held_after e held (perform e w).2) (k (perform e w).2)]> ts)
  | pool_worker `{JsonText} w ts fuel req :
      pool_step (w, ts) (w, ts ++ [MkThread None (bind (worker_turn fuel req) (λ _, Ret tt))])
  | pool_health `{JsonText} w ts snapshot :
      pool_step (w, ts) (w, ts ++ [MkThread None (health_round snapshot)])
  | pool_other w w' ts :
      p_heap (w_process w') = p_heap (w_process w) → pool_step (w, ts) (w', ts).
End pool.

(** ** Slot discipline *)

(** From [held] on, a program charges an endpoint only when it holds none,
    reports only the one it holds, and satisfies [Q] when it returns. *)
Fixpoint slotted {A} (held : option loc) (p : prog A) (Q : option loc → A → Prop) : Prop :=
  match p with
  | Ret a => Q held a
  | Raise _ => True
  | Act e k =>
      match e with
      | Select _ => held = None
      | Result l _ _ => held = Some l
      | _ => True
      end ∧ ∀ r, slotted (held_after e held r) (k r) Q
  end.

Lemma slotted_bind {A B} (p : prog A) (f : A → prog B) Q : ∀ held,
  slotted held p (λ h a, slotted h (f a) Q) → slotted held (bind p f) Q.
Proof.
  induction p as [a|what|e k IH]; intros held; simpl; [done|done|]. intros [He Hk]. split; [done|].
  intros r. apply IH, Hk.
Qed.

Lemma slotted_mono {A} (p : prog A) (Q Q' : option loc → A → Prop) : ∀ held,
  (∀ h a, Q h a → Q' h a) → slotted held p Q → slotted held p Q'.
Proof.
  induction p as [a|what|e k IH]; intros held HQ; simpl; [apply HQ|done|]. intros [He Hk]. split; [done|].
  intros r. by apply IH.
Qed.

(** An action that is neither a selection nor a report. *)
Lemma slotted_act {B} held e (f : answer e → prog B) Q :
  match e with Select _ | Result _ _ _ => False | _ => True end →
  (∀ r, slotted held (f r) Q) → slotted held (bind (act e) f) Q.
Proof. intros He Hf. split; [by destruct e|]. intros r. destruct e; try done; apply Hf. Qed.

Lemma slotted_select {B} req (f : option loc → prog B) Q :
  (∀ best, slotted best (f best) Q) → slotted None (bind (act (Select req)) f) Q.
Proof. intros Hf. by split. Qed.

Lemma slotted_result {B} l ok latency (f : unit → prog B) Q :
  slotted None (f tt) Q → slotted (Some l) (bind (act (Result l ok latency)) f) Q.
Proof. intros Hf. split; [done|]. by intros []. Qed.

Lemma slotted_ret {A} held (a : A) (Q : option loc → A → Prop) : Q held a → slotted held (Ret a) Q.
Proof. done. Qed.

Ltac slotted_steps :=
  repeat match goal with
  | |- slotted _ (bind (act (Select _)) _) _ => apply slotted_select; intros ?
  | |- slotted _ (bind (act (Result _ _ _)) _) _ => apply slotted_result
  | |- slotted _ (bind (act _) _) _ => apply slotted_act; [done|]; intros ?
  | |- slotted _ (match ?x with _ => _ end) _ => destruct x
  | |- slotted _ (bind (Ret ?a) ?f) _ => change (bind (Ret a) f) with (f a); cbn beta
  | |- slotted _ (Raise _) _ => exact I
  | |- slotted _ (bind (Raise _) _) _ => exact I
  | |- slotted _ (Ret _) _ => apply slotted_ret; try done
  end.

Lemma deadline_slotted held req Q :
  (∀ b, Q held b) → slotted held (deadline_exceeded req) Q.
Proof. intros HQ. unfold deadline_exceeded. case_match; [|apply HQ]. apply slotted_act; [done|]. intros r. apply HQ. Qed.

Lemma wait_polls_slotted fuel req until :
  slotted None (wait_polls fuel req until)
    (λ h w, h = match w with Waited ep => ep | StillWaiting => None end).
Proof.
  induction fuel as [|fuel IH]; [done|]. cbn [wait_polls]. slotted_steps.
  apply slotted_bind, deadline_slotted. intros b. by slotted_steps.
Qed.

Lemma wait_slotted fuel req :
  slotted None (wait_for_endpoint fuel req)
    (λ h w, h = match w with Waited ep => ep | StillWaiting => None end).
Proof. unfold wait_for_endpoint. slotted_steps. apply wait_polls_slotted. Qed.

Section slots.
Context `{JsonText}.

Lemma close_request_slotted held req status ok timeout code msg Q :
  Q held tt → slotted held (close_request req status ok timeout code msg) Q.
Proof. intros HQ. unfold close_request. by slotted_steps. Qed.

Lemma attempts_slotted fuel req n : ∀ attempt st,
  slotted None (attempts n fuel attempt req st) (λ h _, h = None).
Proof.
  induction n as [|n IH]; intros attempt st; cbn [attempts]; slotted_steps.
  apply slotted_bind, deadline_slotted. intros exceeded. slotted_steps.
  apply slotted_bind. eapply slotted_mono; [|apply wait_slotted]. cbv beta. intros h [[l|]|] ->; slotted_steps.
  apply slotted_bind. unfold attempt_call. slotted_steps.
  - apply slotted_bind, close_request_slotted. by slotted_steps.
  - apply IH.
Qed.

Lemma handle_request_slotted fuel req : slotted None (handle_request fuel req) (λ h _, h = None).
Proof.
  unfold handle_request. slotted_steps.
  apply slotted_bind. eapply slotted_mono; [|apply attempts_slotted]. cbv beta. intros h [st|] ->; slotted_steps.
  apply slotted_bind. unfold fail_request. cbv zeta. slotted_steps.
  apply slotted_bind, close_request_slotted. by slotted_steps.
Qed.

Lemma worker_turn_slotted fuel req :
  slotted None (bind (worker_turn fuel req) (λ _, Ret tt)) (λ h _, h = None).
Proof.
  apply slotted_bind. unfold worker_turn. cbv zeta. slotted_steps.
  apply slotted_bind. eapply slotted_mono; [|apply handle_request_slotted]. cbv beta. intros h res ->.
  slotted_steps. apply slotted_bind. by slotted_steps.
Qed.

Lemma http_get_slotted held url key timeout Q :
  (∀ r, Q held r) → slotted held (http_get url key timeout) Q.
Proof. intros HQ. unfold http_get. slotted_steps; apply HQ. Qed.

Lemma health_round_slotted snapshot : slotted None (health_round snapshot) (λ h _, h = None).
Proof.
  induction snapshot as [|l rest IH]; cbn [health_round]; slotted_steps.
  apply slotted_bind. unfold check_endpoint_health. slotted_steps.
  apply slotted_bind, http_get_slotted. intros res. slotted_steps; try done.
  all: apply slotted_bind, http_get_slotted; intros res'; slotted_steps; done.
Qed.
End slots.

(** ** The in-flight counters *)

(** How many threads hold a slot of [l]. *)
Definition holds (l : loc) (held : option loc) : Z := if decide (held = Some l) then 1 else 0.
Fixpoint holders (l : loc) (ts : list thread) : Z :=
  match ts with
  | [] => 0
  | t :: ts => holds l (th_held t) + holders l ts
  end.

Lemma holds_range l held : 0 <= holds l held <= 1.
Proof. unfold holds. case_decide; lia. Qed.

Lemma holders_nonneg l ts : 0 <= holders l ts.
Proof. induction ts as [|t ts IH]; simpl; [lia|]. pose proof (holds_range l (th_held t)). lia. Qed.

Lemma holders_app l ts1 ts2 : holders l (ts1 ++ ts2) = holders l ts1 + holders l ts2.
Proof. induction ts1 as [|t ts1 IH]; simpl; lia. Qed.

Lemma holders_insert l ts : ∀ i t t',
  ts !! i = Some t →
  holders l (<[i := t']> ts) = holders l ts - holds l (th_held t) + holds l (th_held t').
Proof.
  induction ts as [|t0 ts IH]; intros [|i] t t' Hi; simpl in *; simplify_eq; [lia|].
  rewrite (IH i t t' Hi). lia.
Qed.

Lemma holders_lookup l ts : ∀ i t, ts !! i = Some t → holds l (th_held t) <= holders l ts.
Proof.
  induction ts as [|t0 ts IH]; intros [|i] t Hi; simpl in *; simplify_eq.
  - pose proof (holders_nonneg l ts). lia.
  - specialize (IH i t Hi). pose proof (holds_range l (th_held t0)). lia.
Qed.

(** The change of the in-flight counter of [l] by an action. *)
Definition charge_of (l : loc) (held : option loc) (e : action) : answer e → Z :=
  match e return answer e → Z with
  | Select _ => λ best, holds l best
  | Result k _ _ => λ _, - holds l held
  | _ => λ _, 0
  end.

Definition changes_by (d : loc → Z) (h h' : heap) : Prop :=
  ∀ l, match h !! l, h' !! l with
       | Some ep, Some ep' => ep_inflight ep' = ep_inflight ep + d l
       | None, None => d l = 0
       | _, _ => False
       end.

Lemma changes_by_refl h : changes_by (λ _, 0) h h.
Proof. intros l. destruct (h !! l); [lia|done]. Qed.

Lemma select_changes req now hp endpoints h h' best ev :
  select_endpoint_locked req now hp endpoints h = (h', best, ev) → changes_by (λ l, holds l best) h h'.
Proof.
  intros E l. unfold holds.
  assert (h' !! l = h !! l ∨ h' !! l = refreshed now <$> h !! l →
    match h !! l, h' !! l with
    | Some ep, Some ep' => ep_inflight ep' = ep_inflight ep + 0
    | None, None => 0 = 0
    | _, _ => False
    end) as Hframe.
  { destruct (refreshed_frame now (default default_endpoint (h !! l))) as (_ & _ & _ & _ & _ & Hi & _).
    intros [-> | ->]; destruct (h !! l); simpl in *; lia || done. }
  destruct best as [b|].
  - apply select_endpoint_locked_Some in E as (_ & ep & Hep & _ & Hb & _ & Hother).
    case_decide as Hl; [injection Hl as ->|apply Hframe, Hother; congruence].
    rewrite Hep, Hb. destruct (refreshed_frame now ep) as (_ & _ & _ & _ & _ & <- & _).
    unfold charge_endpoint. cbv zeta. by destruct (decide _).
  - apply select_endpoint_locked_None in E as (_ & Hother & _). rewrite decide_False by done. by apply Hframe.
Qed.

Section pool_lemmas.
Context `{TimeSeriesStore}.

Lemma with_endpoint_changes l f d (t : task) p :
  (∀ ep, p_heap p !! l = Some ep → ep_inflight (f ep) = ep_inflight ep + d) →
  (p_heap p !! l = None → d = 0) →
  changes_by (λ k, if decide (k = l) then d else 0) (p_heap p) (p_heap (with_endpoint l f t p).2).
Proof.
  intros Hf Hd k. unfold with_endpoint. destruct (p_heap p !! l) as [ep|] eqn:El; simpl.
  - destruct (decide (k = l)) as [->|Hne].
    + rewrite El, lookup_insert_eq. auto.
    + rewrite lookup_insert_ne by done. destruct (p_heap p !! k); [lia|done].
  - destruct (decide (k = l)) as [->|Hne]; [rewrite El; auto|]. destruct (p_heap p !! k); [lia|done].
Qed.

Lemma perform_changes e w held :
  match e with
  | Result l _ _ => held = Some l ∧ ∃ ep, p_heap (w_process w) !! l = Some ep ∧ 0 < ep_inflight ep
  | _ => True
  end →
  changes_by (λ l, charge_of l held e (perform e w).2) (p_heap (w_process w)) (p_heap (w_process (perform e w).1)).
Proof.
  intros He. destruct e; try apply changes_by_refl; cbn [perform charge_of].
  - unfold select_endpoint. destruct (select_endpoint_locked _ _ _ _ _) as [[h best] ev] eqn:E.
    by apply select_changes in E.
  - destruct He as (-> & ep0 & Hep0 & Hpos). unfold update_endpoint_result.
    pose proof (with_endpoint_changes l
      (update_endpoint_result_locked (task_thresholds (t_config (w_task w))) (w_clock w) ok latency_ms)
      (-1) (w_task w) (w_process w)) as Hch.
    destruct (with_endpoint l _ (w_task w) (w_process w)) as [t p]. simpl in *. intros k.
    replace (- holds k (Some l)) with (if decide (k = l) then -1 else 0)
      by (unfold holds; repeat case_decide; congruence || lia).
    apply Hch; [|congruence]. intros ep Hep.
    destruct (result_counters (task_thresholds (t_config (w_task w))) (w_clock w) ok latency_ms ep) as (_ & -> & _).
    assert (ep = ep0) as -> by congruence. by rewrite (proj2 (Z.ltb_lt _ _) Hpos).
  - unfold update_endpoint_health.
    pose proof (with_endpoint_changes l
      (update_endpoint_health_locked (task_thresholds (t_config (w_task w))) (w_clock w) (w_clock w) ok latency_ms)
      0 (w_task w) (w_process w)) as Hch.
    destruct (with_endpoint l _ (w_task w) (w_process w)) as [t p]. simpl in *.
    intros k. specialize (Hch ltac:(intros ep _;
      destruct (health_counters (task_thresholds (t_config (w_task w))) (w_clock w) (w_clock w) ok latency_ms ep)
        as (_ & -> & _); lia) ltac:(done) k).
    cbv beta in Hch. revert Hch. by destruct (decide (k = l)).
Qed.

(** Every thread follows the slot discipline, holds existing endpoints, and
    the counters add up. *)
Definition pool_ok (s : world * list thread) : Prop :=
  Forall (λ t, slotted (th_held t) (th_prog t) (λ h _, h = None)) s.2 ∧
  (∀ l, p_heap (w_process s.1) !! l = None → holders l s.2 = 0) ∧
  (∀ l ep, p_heap (w_process s.1) !! l = Some ep → ep_inflight ep = holders l s.2).

Lemma pool_ok_spawn w ts p :
  slotted None p (λ h _, h = None) → pool_ok (w, ts) → pool_ok (w, ts ++ [MkThread None p]).
Proof.
  intros Hp (Hts & Hnone & Hsome). unfold pool_ok. simpl in *.
  split_and!; [apply Forall_app; split; [done|by constructor]| |]; intros; rewrite holders_app; simpl.
  - rewrite Hnone by done. done.
  - erewrite Hsome by done. unfold holds. rewrite decide_False by done. lia.
Qed.

Lemma pool_ok_act w ts i held e k :
  ts !! i = Some (MkThread held (Act e k)) → pool_ok (w, ts) →
  pool_ok ((perform e w).1, <[i := MkThread (held_after e held (perform e w).2) (k (perform e w).2)]> ts).
Proof.
  intros Hi (Hts & Hnone & Hsome). unfold pool_ok. cbn [fst snd] in *.
  pose proof Hts as Hts'. rewrite Forall_lookup in Hts'.
  specialize (Hts' i _ Hi) as [Hhead Hk]. cbn [th_held th_prog] in *.
  assert (changes_by (λ l, charge_of l held e (perform e w).2) (p_heap (w_process w))
            (p_heap (w_process (perform e w).1))) as Hch.
  { apply perform_changes. destruct e; try done. split; [done|].
    pose proof (holders_lookup l ts i _ Hi) as Hh. cbn [th_held] in Hh. rewrite Hhead in Hh.
    unfold holds in Hh. rewrite decide_True in Hh by done.
    destruct (p_heap (w_process w) !! l) as [ep|] eqn:E.
    - exists ep. split; [done|]. rewrite (Hsome _ _ E). lia.
    - rewrite (Hnone _ E) in Hh. lia. }
  assert (∀ l, holders l (<[i := MkThread (held_after e held (perform e w).2) (k (perform e w).2)]> ts) =
               holders l ts + charge_of l held e (perform e w).2) as Hcount.
  { intros l. rewrite (holders_insert l ts i _ _ Hi). cbn [th_held].
    destruct e; cbn [held_after charge_of]; try lia.
    - rewrite Hhead. unfold holds at 1. rewrite decide_False by done. lia.
    - unfold holds at 2. rewrite decide_False by done. lia. }
  split_and!.
  - apply Forall_insert; [done|]. apply Hk.
  - intros l Hl. specialize (Hch l). rewrite Hl in Hch. rewrite Hcount.
    destruct (p_heap (w_process w) !! l) eqn:E; [done|]. rewrite (Hnone l E). lia.
  - intros l ep' Hl. specialize (Hch l). rewrite Hl in Hch. rewrite Hcount.
    destruct (p_heap (w_process w) !! l) as [ep|] eqn:E; [|done]. rewrite <- (Hsome l ep E). exact Hch.
Qed.

Lemma pool_step_ok s s' : pool_step s s' → pool_ok s → pool_ok s'.
Proof.
  destruct 1 as [w ts i held e k Hi| | |w w' ts Hw]; intros Hok.
  - by apply pool_ok_act.
  - apply pool_ok_spawn; [apply worker_turn_slotted|done].
  - apply pool_ok_spawn; [apply health_round_slotted|done].
  - unfold pool_ok in *. simpl in *. by rewrite Hw.
Qed.
End pool_lemmas.

(** A thread that runs alone produces a trace. *)
Lemma run_prog_trace `{TimeSeriesStore} {A} (p : prog A) a : ∀ w,
  (run_prog p w).2 = Some a → ∃ tr, runs p tr a.
Proof.
  induction p as [a'|what|e k IH]; intros w; simpl; [intros [= ->]; by exists []|done|].
  destruct (perform e w) as [w' r]. intros Hr. destruct (IH r w' Hr) as [tr Htr].
  exists (Ev e r :: tr). eauto.
Qed.

Lemma holders_none l ts : Forall (λ t, th_held t = None) ts → holders l ts = 0.
Proof.
  induction 1 as [|t ts Ht _ IH]; [done|]. simpl. unfold holds. rewrite Ht, decide_False by done. lia.
Qed.

(** ** Properties *)

(** C8.  Under every interleaving of any number of worker and
    health threads the in-flight counter of an endpoint is the number of
    threads between charging it and reporting its result: no slot is lost,
    none is given back twice, and when no thread holds a slot every counter
    is zero again. *)
Theorem inflight_counts_running_calls `{TimeSeriesStore} w w' ts :
  (∀ l ep, p_heap (w_process w) !! l = Some ep → ep_inflight ep = 0) →
  rtc pool_step (w, []) (w', ts) →
  ∀ l ep, p_heap (w_process w') !! l = Some ep →
    ep_inflight ep = holders l ts ∧ (Forall (λ t, th_held t = None) ts → ep_inflight ep = 0).
Proof.
  intros Hzero Hrun l ep Hep.
  assert (pool_ok (w', ts)) as (_ & _ & Hsome).
  { apply (rtc_preserves pool_step pool_ok pool_step_ok _ _ Hrun). unfold pool_ok. simpl.
    split_and!; [done|done|]. by apply Hzero. }
  simpl in Hsome. rewrite (Hsome l ep Hep). split; [done|]. apply holders_none.
Qed.

(** ** A concrete execution *)

Definition sample_world (body : json) : world :=
  let '(t, p, _) := load_model (λ _, "") (λ _, true) (0, 0) body (new_task "llm.1") (MkProcess ∅ ∅) in
  MkWorld t p 1000 (reply_with [(1001, two_events)]) [].

Definition one_endpoint (concurrency : Z) : json :=
  mk_obj [("model", JStr "m"); ("mock", JBool false);
          ("endpoints", JArr [mk_obj [("base_url", JStr "http://a"); ("max_concurrency", JInt concurrency)]])].

Definition chat_request : InferenceRequest :=
  default_request <| req_task_id := 1 |> <| req_request_id := "r1" |> <| req_logical_model := "m" |>
    <| req_fallback_chain := ["m"] |> <| req_deadline_at_ms := 70000 |>.

Lemma request_single_outcome_witness :
  ∃ tr, runs (handle_request (H := echo_text) 3 chat_request) tr (Some tt) ∧ request_outcome chat_request tr.
Proof.
  destruct (run_prog_trace (handle_request (H := echo_text) 3 chat_request) (Some tt)
    (sample_world (one_endpoint 1))) as [tr Htr]; [vm_compute; reflexivity|].
  exists tr. split; [exact Htr|].
  exact (request_single_outcome (H := echo_text) 3 chat_request tr Htr).
Defined.

Lemma request_slots_and_calls_witness :
  ∃ tr, runs (handle_request (H := echo_text) 3 chat_request) tr (Some tt) ∧ (calls tr <= 1)%nat.
Proof.
  destruct (run_prog_trace (handle_request (H := echo_text) 3 chat_request) (Some tt)
    (sample_world (one_endpoint 1))) as [tr Htr]; [vm_compute; reflexivity|].
  exists tr. split; [exact Htr|].
  exact (proj2 (request_slots_and_calls (H := echo_text) 3 chat_request tr (Some tt) Htr)).
Defined.

(** No endpoint serves the model, so the worker polls until the fuel is gone. *)
Definition stray_request : InferenceRequest := chat_request <| req_logical_model := "other" |>.

Lemma unfinished_request_polled_witness :
  ∃ tr, runs (handle_request (H := echo_text) 2 stray_request) tr None ∧ (2 <= polls tr)%nat.
Proof.
  destruct (run_prog_trace (handle_request (H := echo_text) 2 stray_request) (None)
    (sample_world (one_endpoint 1))) as [tr Htr]; [vm_compute; reflexivity|].
  exists tr. split; [exact Htr|].
  exact (unfinished_request_polled (H := echo_text) 2 stray_request tr Htr).
Defined.

(** A scheduler: each number is the thread that acts next. *)
Definition schedule_one `{TimeSeriesStore} (s : world * list thread) (i : nat) : world * list thread :=
  match s.2 !! i with
  | Some (MkThread held (Act e k)) =>
      let r := perform e s.1 in (r.1, <[i := MkThread (held_after e held r.2) (k r.2)]> s.2)
  | _ => s
  end.

Lemma schedule_steps `{TimeSeriesStore} order : ∀ s, rtc pool_step s (fold_left schedule_one order s).
Proof.
  induction order as [|i order IH]; intros s; [done|]. simpl. etrans; [|apply IH].
  unfold schedule_one. destruct s as [w ts]. simpl. destruct (ts !! i) as [[held [| |e k]]|] eqn:E; [done|done| |done].
  apply rtc_once. by constructor.
Qed.

(** Two workers; the first runs until it has charged the only slot. *)
Definition two_workers : list thread :=
  [MkThread None (bind (worker_turn (H := echo_text) 3 chat_request) (λ _, Ret tt));
   MkThread None (bind (worker_turn (H := echo_text) 3 stray_request) (λ _, Ret tt))].

Definition busy_pool : world * list thread :=
  fold_left schedule_one [0; 1; 0; 0; 1; 0; 0; 0; 0]%nat (sample_world (one_endpoint 1), two_workers).

Lemma inflight_counts_running_calls_witness :
  p_heap (w_process busy_pool.1) !! 0%nat ≫= (λ ep, Some (ep_inflight ep)) = Some 1 ∧
  ∀ l ep, p_heap (w_process busy_pool.1) !! l = Some ep → ep_inflight ep = holders l busy_pool.2.
Proof.
  split; [vm_compute; reflexivity|].
  set (w0 := sample_world (one_endpoint 1)).
  assert (rtc pool_step (w0, []) (busy_pool.1, busy_pool.2)) as Hrun.
  { eapply rtc_l; [apply (pool_worker (H0 := echo_text) w0 [] 3 chat_request)|].
    eapply rtc_l; [apply (pool_worker (H0 := echo_text) w0 [_] 3 stray_request)|].
    rewrite <- surjective_pairing. apply schedule_steps. }
  intros l ep Hep. refine (proj1 (inflight_counts_running_calls w0 _ _ _ Hrun l ep Hep)).
  assert (map_Forall (λ _ e, ep_inflight e = 0) (p_heap (w_process w0))) as Hall.
  { apply map_Forall_to_list. vm_compute. repeat constructor. }
  exact Hall.
Defined.
