(* ===== verification/Util.v ===== *)
(** * Message scanning and identifiers of StackFlow

    [infra-controller/src/StackFlowUtil.cpp]: the scanner that reads one
    member out of a JSON text without parsing it, the work identifiers
    ([name.number]), the encoding of code points as UTF-8 and the assembly of
    a streamed text.  A [char] of an encoded code point is its value as an
    unsigned byte. *)
From S2P Require Import Prelude StdString.

(** ** [sample_json_str_get] *)

Definition quote : ascii := "034"%char.
Definition backslash : ascii := "\"%char.

Definition quoted (key : string) : string := String quote (key +:+ String quote EmptyString).

Definition push_back (s : string) (c : ascii) : string := s +:+ String c EmptyString.

Record scan_state := MkScanState {
  sc_status : Z;
  sc_last_c : ascii;
  sc_obj_flage : Z;
  sc_key_val : string;
}.
#[export] Instance eta_sc : Eta scan_state := fun s =>
  MkScanState (sc_status s) (sc_last_c s) (sc_obj_flage s) (sc_key_val s).

(** The three live states of the scanner. *)
Definition scan_value (c : ascii) (s : scan_state) : scan_state :=
  if decide (c = quote) then s <| sc_status := 100 |>
  else if decide (c = "{"%char) then
    s <| sc_key_val := push_back (sc_key_val s) c |> <| sc_obj_flage := 1 |> <| sc_status := 10 |>
  else if decide (c = ":"%char) then s <| sc_obj_flage := 1 |>
  else if decide (c = ","%char ∨ c = "}"%char) then s <| sc_obj_flage := 0 |> <| sc_status := -1 |>
  else if decide (c = " "%char) then s
  else if negb (sc_obj_flage s =? 0) then s <| sc_key_val := push_back (sc_key_val s) c |>
  else s.

Definition scan_object (c : ascii) (s : scan_state) : scan_state :=
  let s := s <| sc_key_val := push_back (sc_key_val s) c |> in
  let s := if decide (c = "{"%char) then s <| sc_obj_flage := sc_obj_flage s + 1 |> else s in
  let s := if decide (c = "}"%char) then s <| sc_obj_flage := sc_obj_flage s - 1 |> else s in
  if (sc_obj_flage s =? 0) && negb (str_empty (sc_key_val s)) then s <| sc_status := -1 |> else s.

Definition scan_string (c : ascii) (s : scan_state) : scan_state :=
  if decide (c = quote ∧ sc_last_c s ≠ backslash) then s <| sc_obj_flage := 0 |> <| sc_status := -1 |>
  else s <| sc_key_val := push_back (sc_key_val s) c |>.

Definition scan_char (s : scan_state) (c : ascii) : scan_state :=
  let s :=
    if sc_status s =? 0 then scan_value c s
    else if sc_status s =? 10 then scan_object c s
    else if sc_status s =? 100 then scan_string c s
    else s in
  s <| sc_last_c := c |>.

Fixpoint scan_chars (s : scan_state) (text : string) : scan_state :=
  match text with
  | EmptyString => s
  | String c text => scan_chars (scan_char s c) text
  end.

Definition sample_json_str_get (json_str json_key : string) : string :=
  let find_key := quoted json_key in
  match str_find find_key json_str with
  | None => ""
  | Some subs_start =>
      let s := scan_chars (MkScanState 0 "000"%char 0 "")
                 (str_drop (subs_start + String.length find_key) json_str) in
      if negb (sc_obj_flage s =? 0) then "" else sc_key_val s
  end.

(** ** Work identifiers *)

Definition WORK_ID_NONE : Z := -100.

(** [std::stoi] may throw. *)
Definition sample_get_work_id_num (work_id : string) : result Z :=
  match char_find "."%char work_id with
  | None => Ok WORK_ID_NONE
  | Some a =>
      if (a =? String.length work_id - 1)%nat then Ok WORK_ID_NONE
      else stoi (str_drop (a + 1) work_id)
  end.

Definition sample_get_work_id_name (work_id : string) : string :=
  match char_find "."%char work_id with
  | None => work_id
  | Some a => str_take a work_id
  end.

Definition sample_get_work_id (work_id_num : Z) (unit_name : string) : string :=
  unit_name +:+ "." +:+ to_string work_id_num.

(** ** UTF-8 *)

Definition unicode_to_utf8 (codepoint : Z) : list Z :=
  if codepoint <=? 0x7F then [Z.land codepoint 0x7F]
  else if codepoint <=? 0x7FF then
    [Z.lor 0xC0 (Z.land (Z.shiftr codepoint 6) 0x1F); Z.lor 0x80 (Z.land codepoint 0x3F)]
  else if codepoint <=? 0xFFFF then
    [Z.lor 0xE0 (Z.land (Z.shiftr codepoint 12) 0x0F); Z.lor 0x80 (Z.land (Z.shiftr codepoint 6) 0x3F);
     Z.lor 0x80 (Z.land codepoint 0x3F)]
  else if codepoint <=? 0x10FFFF then
    [Z.lor 0xF0 (Z.land (Z.shiftr codepoint 18) 0x07); Z.lor 0x80 (Z.land (Z.shiftr codepoint 12) 0x3F);
     Z.lor 0x80 (Z.land (Z.shiftr codepoint 6) 0x3F); Z.lor 0x80 (Z.land codepoint 0x3F)]
  else [].

(** ** [decode_stream] *)

(** [stream_buff.at(i)] for every [i] below the size. *)
Fixpoint concat_chunks (i : Z) (n : nat) (buff : gmap Z string) : result string :=
  match n with
  | O => Ok ""
  | S n =>
      match buff !! i with
      | None => Throw "out_of_range"
      | Some chunk => rest ← concat_chunks (i + 1) n buff; mret (chunk +:+ rest)
      end
  end.

(** Whether more input is expected, the text so far and the buffer. *)
Definition decode_stream (input out : string) (stream_buff : gmap Z string)
    : result (bool * string * gmap Z string) :=
  index ← stoi (sample_json_str_get input "index");
  let finish := sample_json_str_get input "finish" in
  let stream_buff := <[index := sample_json_str_get input "delta"]> stream_buff in
  if negb (str_contains finish "f") then
    text ← concat_chunks 0 (size stream_buff) stream_buff;
    mret (false, out +:+ text, ∅)
  else mret (true, out, stream_buff).

(** ** Lemmas *)

Lemma scan_dead text : ∀ s, sc_status s = -1 →
  sc_key_val (scan_chars s text) = sc_key_val s ∧ sc_obj_flage (scan_chars s text) = sc_obj_flage s.
Proof.
  induction text as [|c text IH]; intros s Hs; [done|]. cbn [scan_chars].
  assert (scan_char s c = s <| sc_last_c := c |>) as -> by (unfold scan_char; by rewrite Hs).
  destruct (IH (s <| sc_last_c := c |>)) as [-> ->]; done.
Qed.

Lemma str_back_some c v : ∃ b, str_back (String c v) = Some b.
Proof.
  revert c. induction v as [|d v IH]; intros c; [by exists c|].
  change (str_back (String c (String d v))) with (str_back (String d v)). apply IH.
Qed.

Lemma str_back_cons last c v : default last (str_back (String c v)) = default c (str_back v).
Proof.
  destruct v as [|d v]; [done|]. change (str_back (String c (String d v))) with (str_back (String d v)).
  by destruct (str_back_some d v) as [b ->].
Qed.

(** Inside a string everything up to the closing quote is collected. *)
Lemma scan_string_text v : ∀ last kv rest,
  char_in quote v = false → default last (str_back v) ≠ backslash →
  let s := scan_chars (MkScanState 100 last 1 kv) (v +:+ String quote rest) in
  sc_key_val s = kv +:+ v ∧ sc_obj_flage s = 0.
Proof.
  induction v as [|c v IH]; intros last kv rest Hq Hb; cbv zeta.
  - change (EmptyString +:+ String quote rest) with (String quote rest). cbn [scan_chars].
    assert (scan_char (MkScanState 100 last 1 kv) quote = MkScanState (-1) quote 0 kv) as ->.
    { unfold scan_char, scan_string. cbn. by rewrite decide_True. }
    rewrite str_app_nil_r. by apply scan_dead.
  - rewrite str_app_cons. cbn [scan_chars]. cbn [char_in] in Hq. apply orb_false_iff in Hq as [Hc Hq].
    assert (scan_char (MkScanState 100 last 1 kv) c = MkScanState 100 c 1 (push_back kv c)) as ->.
    { unfold scan_char, scan_string. cbn. rewrite decide_False; [done|].
      intros [-> _]. by rewrite Ascii.eqb_refl in Hc. }
    destruct (IH c (push_back kv c) rest Hq) as [-> ->].
    + by rewrite <- (str_back_cons last).
    + split; [|done]. unfold push_back. by rewrite str_app_assoc.
Qed.

Lemma str_drop_app_plus s t n : str_drop (String.length s + n) (s +:+ t) = str_drop n t.
Proof. induction s as [|c s IH]; [done|]. rewrite str_app_cons. exact IH. Qed.

(** Low bits next to a fixed prefix. *)
Lemma lor_land_low prefix k x :
  0 <= k <= 6 → prefix = 0x80 ∨ (prefix = 0xC0 ∧ k <= 5) ∨ (prefix = 0xE0 ∧ k <= 4) ∨ (prefix = 0xF0 ∧ k <= 3) →
  Z.lor prefix (Z.land x (Z.ones k)) = prefix + x mod 2 ^ k.
Proof.
  intros Hk Hp. rewrite Z.land_ones by lia.
  assert (∀ p bound, 0 <= bound → forallb (λ b, Z.lor p (Z.of_nat b) =? p + Z.of_nat b) (seq 0 (Z.to_nat bound)) = true →
            ∀ b, 0 <= b < bound → Z.lor p b = p + b) as Hall.
  { intros p bound Hbound Hf b Hb. rewrite forallb_forall in Hf. specialize (Hf (Z.to_nat b)).
    rewrite Z2Nat.id in Hf by lia. apply Z.eqb_eq, Hf, in_seq. lia. }
  assert (∀ j, k <= j → 0 <= x mod 2 ^ k < 2 ^ j) as Hmod.
  { intros j Hj. pose proof (Z.mod_pos_bound x (2 ^ k) ltac:(lia)).
    pose proof (Z.pow_le_mono_r 2 k j ltac:(lia) Hj). lia. }
  destruct Hp as [->|[[-> ?]|[[-> ?]|[-> ?]]]].
  - apply (Hall 0x80 (2 ^ 6)); [done|vm_compute; reflexivity|apply Hmod; lia].
  - apply (Hall 0xC0 (2 ^ 5)); [done|vm_compute; reflexivity|apply Hmod; lia].
  - apply (Hall 0xE0 (2 ^ 4)); [done|vm_compute; reflexivity|apply Hmod; lia].
  - apply (Hall 0xF0 (2 ^ 3)); [done|vm_compute; reflexivity|apply Hmod; lia].
Qed.

Lemma utf8_trail x : Z.lor 0x80 (Z.land x 0x3F) = 0x80 + x mod 64.
Proof. apply (lor_land_low 0x80 6 x); lia. Qed.
Lemma utf8_lead2 x : Z.lor 0xC0 (Z.land x 0x1F) = 0xC0 + x mod 32.
Proof. apply (lor_land_low 0xC0 5 x); lia. Qed.
Lemma utf8_lead3 x : Z.lor 0xE0 (Z.land x 0x0F) = 0xE0 + x mod 16.
Proof. apply (lor_land_low 0xE0 4 x); lia. Qed.
Lemma utf8_lead4 x : Z.lor 0xF0 (Z.land x 0x07) = 0xF0 + x mod 8.
Proof. apply (lor_land_low 0xF0 3 x); lia. Qed.

(** The reference decoder: the lead byte tells the length. *)
Definition continuation (b : Z) : option Z := if (0x80 <=? b) && (b <? 0xC0) then Some (b - 0x80) else None.

Definition utf8_decode (bytes : list Z) : option Z :=
  match bytes with
  | [a] => if a <? 0x80 then Some a else None
  | [a; b] => x ← continuation b; if (0xC0 <=? a) && (a <? 0xE0) then Some ((a - 0xC0) * 64 + x) else None
  | [a; b; c] => x ← continuation b; y ← continuation c;
      if (0xE0 <=? a) && (a <? 0xF0) then Some ((a - 0xE0) * 4096 + x * 64 + y) else None
  | [a; b; c; d] => x ← continuation b; y ← continuation c; z ← continuation d;
      if (0xF0 <=? a) && (a <? 0xF8) then Some ((a - 0xF0) * 262144 + x * 4096 + y * 64 + z) else None
  | _ => None
  end.

Lemma continuation_of x : continuation (0x80 + x mod 64) = Some (x mod 64).
Proof.
  unfold continuation. pose proof (Z.mod_pos_bound x 64 ltac:(lia)).
  rewrite (proj2 (Z.leb_le _ _)), (proj2 (Z.ltb_lt _ _)) by lia. simpl. f_equal. lia.
Qed.

Lemma work_id_dot n name :
  char_in "."%char name = false → char_find "."%char (sample_get_work_id n name) = Some (String.length name).
Proof.
  intros Hname. unfold sample_get_work_id. change ("." +:+ to_string n) with (String "." (to_string n)).
  rewrite (char_find_app _ _ _ Hname). cbn [char_find]. rewrite Ascii.eqb_refl. cbn [fmap option_fmap option_map].
  by rewrite Nat.add_0_r.
Qed.

Lemma work_id_name_of n name :
  char_in "."%char name = false → sample_get_work_id_name (sample_get_work_id n name) = name.
Proof. intros Hname. unfold sample_get_work_id_name. rewrite (work_id_dot _ _ Hname). apply str_take_app. Qed.

Lemma work_id_num_of n name :
  is_int n = true → char_in "."%char name = false → sample_get_work_id_num (sample_get_work_id n name) = Ok n.
Proof.
  intros Hn Hname. unfold sample_get_work_id_num. rewrite (work_id_dot _ _ Hname).
  unfold sample_get_work_id. change ("." +:+ to_string n) with (String "." (to_string n)).
  rewrite str_length_app. cbn [String.length].
  assert (String.length (to_string n) ≠ 0%nat) as Hlen.
  { unfold to_string. destruct (n <? 0); [done|apply decimal_digits_nonempty]. }
  destruct (Nat.eqb_spec (String.length name) (String.length name + S (String.length (to_string n)) - 1));
    [lia|].
  rewrite str_drop_app_plus. cbn [str_drop].
  rewrite <- (str_app_nil_r (to_string n)). by apply stoi_to_string.
Qed.

(** A string member is read back as written. *)
Lemma scan_string_member pre key v rest :
  let text := pre +:+ quoted key +:+ String ":" (String quote (v +:+ String quote rest)) in
  str_find (quoted key) text = Some (String.length pre) →
  char_in quote v = false → str_back v ≠ Some backslash →
  sample_json_str_get text key = v.
Proof.
  cbv zeta. intros Hfind Hq Hb. unfold sample_json_str_get. rewrite Hfind.
  rewrite str_drop_app_plus, str_drop_app. cbn [scan_chars].
  change (scan_char (scan_char (MkScanState 0 "000" 0 "") ":") quote) with (MkScanState 100 quote 1 "").
  destruct (scan_string_text v quote "" rest Hq) as [-> ->]; [|done].
  by destruct (str_back v) as [b|]; simpl; [congruence|].
Qed.

(** ** Properties *)

(** Reading a string member: if the first occurrence of the quoted
    key is followed by a colon and a string without quotes that does not end
    in a backslash, the scanner returns exactly that string, whatever
    follows. *)
Theorem sample_json_str_get_string pre key v rest :
  let text := pre +:+ quoted key +:+ String ":" (String quote (v +:+ String quote rest)) in
  str_find (quoted key) text = Some (String.length pre) →
  char_in quote v = false → str_back v ≠ Some backslash →
  sample_json_str_get text key = v.
Proof. apply scan_string_member. Qed.

(** Work identifiers round trip: from [name.number] the name and
    the number come back, for every name without a dot and every [int]. *)
Theorem work_id_round_trip n name :
  is_int n = true → char_in "."%char name = false →
  sample_get_work_id_num (sample_get_work_id n name) = Ok n ∧
  sample_get_work_id_name (sample_get_work_id n name) = name.
Proof.
  intros Hn Hname. split; [by apply work_id_num_of|by apply work_id_name_of].
Qed.

(** Every code point up to [0x10FFFF] is encoded as the UTF-8
    sequence that decodes to it, all of whose members are bytes; larger
    values give no bytes. *)
Theorem unicode_to_utf8_decodes cp :
  0 <= cp →
  if cp <=? 0x10FFFF then
    utf8_decode (unicode_to_utf8 cp) = Some cp ∧ Forall (λ b, 0 <= b < 256) (unicode_to_utf8 cp)
  else unicode_to_utf8 cp = [].
Proof.
  intros H0. unfold unicode_to_utf8.
  rewrite !utf8_trail, utf8_lead2, utf8_lead3, utf8_lead4, !Z.shiftr_div_pow2 by lia.
  assert (Z.land cp 0x7F = cp mod 128) as -> by (apply (Z.land_ones cp 7); lia).
  destruct (Z.leb_spec cp 0x10FFFF) as [Hmax|Hmax].
  2: { repeat (rewrite (proj2 (Z.leb_gt _ _)) by lia). done. }
  change (2 ^ 3) with 8. change (2 ^ 4) with 16. change (2 ^ 5) with 32. change (2 ^ 6) with 64.
  change (2 ^ 7) with 128. change (2 ^ 12) with 4096. change (2 ^ 18) with 262144.
  destruct (Z.leb_spec cp 0x7F); [|destruct (Z.leb_spec cp 0x7FF); [|destruct (Z.leb_spec cp 0xFFFF)]].
  - rewrite Z.mod_small by lia. split; [|repeat constructor; lia]. simpl. by rewrite (proj2 (Z.ltb_lt _ _)) by lia.
  - split; [|repeat constructor; Z.to_euclidean_division_equations; lia].
    cbn [utf8_decode]. rewrite continuation_of. cbn [mbind option_bind].
    rewrite (proj2 (Z.leb_le _ _)), (proj2 (Z.ltb_lt _ _)) by (Z.to_euclidean_division_equations; lia).
    cbn. f_equal. Z.to_euclidean_division_equations; lia.
  - split; [|repeat constructor; Z.to_euclidean_division_equations; lia].
    cbn [utf8_decode]. rewrite !continuation_of. cbn [mbind option_bind].
    rewrite (proj2 (Z.leb_le _ _)), (proj2 (Z.ltb_lt _ _)) by (Z.to_euclidean_division_equations; lia).
    cbn. f_equal. Z.to_euclidean_division_equations; lia.
  - split; [|repeat constructor; Z.to_euclidean_division_equations; lia].
    cbn [utf8_decode]. rewrite !continuation_of. cbn [mbind option_bind].
    rewrite (proj2 (Z.leb_le _ _)), (proj2 (Z.ltb_lt _ _)) by (Z.to_euclidean_division_equations; lia).
    cbn. f_equal. Z.to_euclidean_division_equations; lia.
Qed.

(** ** Concrete texts *)

Definition Q : string := String quote EmptyString.
Definition BS : string := String backslash EmptyString.

Lemma sample_json_str_get_string_witness :
  sample_json_str_get ("{" +:+ quoted "request_id" +:+ ":" +:+ Q +:+ "r-1" +:+ Q +:+ ",...") "request_id" = "r-1".
Proof.
  apply (sample_json_str_get_string "{" "request_id" "r-1" ",...").
  - vm_compute. reflexivity.
  - reflexivity.
  - discriminate.
Defined.

Lemma work_id_round_trip_witness : sample_get_work_id_num (sample_get_work_id 1024 "llm") = Ok 1024.
Proof. apply (work_id_round_trip 1024 "llm"); reflexivity. Defined.

Lemma unicode_to_utf8_decodes_witness : utf8_decode (unicode_to_utf8 0x20AC) = Some 0x20AC.
Proof. exact (proj1 (unicode_to_utf8_decodes 0x20AC ltac:(lia))). Defined.

(** A value that ends in an escaped backslash is misread: the text of the
    member [k] is [a\\], and the scanner takes the closing quote for an
    escaped one and runs on into the next member. *)
Lemma scanner_overruns_escaped_backslash :
  sample_json_str_get ("{" +:+ quoted "k" +:+ ":" +:+ Q +:+ "a" +:+ BS +:+ BS +:+ Q +:+ "," +:+ quoted "z"
                         +:+ ":1}") "k" = "a" +:+ BS +:+ BS +:+ Q +:+ ",".
Proof. vm_compute. reflexivity. Qed.

(** A work identifier whose number is not one throws. *)
Lemma work_id_num_throws : sample_get_work_id_num "llm.abc" = Throw "stoi: invalid_argument".
Proof. vm_compute. reflexivity. Qed.
