(* ===== verification/Framing.v ===== *)
(** * Two-parameter messages

    [class pzmq_data] of [hybrid-comm/src/pzmq_data.cpp]: a message carries
    two parameters, the length of the first in its first byte.  The byte is a
    [char], which is signed on the platforms the code is built for, so only
    lengths up to 127 can be read back.

    Reading outside of the message is [Undefined]; a negative length that
    becomes a huge [size_t] makes the constructor of [std::string] throw. *)
From S2P Require Import Prelude StdString.

Inductive param :=
  | Value (text : string)
  | LengthError
  | Undefined.

(** [static_cast<char>(param0.length())]: the low byte. *)
Definition set_param (param0 param1 : string) : string :=
  String (ascii_of_nat (String.length param0 mod 256)) (param0 +:+ param1).

(** The value of a [char]. *)
Definition char_value (c : ascii) : Z :=
  let n := Z.of_nat (nat_of_ascii c) in if n <? 128 then n else n - 256.

(** [std::string(data + start, (size_t)len)] on the [size] bytes at [data]. *)
Definition read_bytes (data : string) (start len : Z) : param :=
  if len <? 0 then LengthError
  else if (start <? 0) || (Z.of_nat (String.length data) <? start + len) then Undefined
  else Value (str_take (Z.to_nat len) (str_drop (Z.to_nat start) data)).

(** [get_param]: [idata] when it is not empty, else the message itself. *)
Definition get_param (msg : string) (index : Z) (idata : string) : param :=
  let data := if (0 <? String.length idata)%nat then idata else msg in
  match data with
  | EmptyString => Undefined
  | String c _ =>
      let first := char_value c in
      if Z.rem index 2 =? 0 then read_bytes data 1 first
      else read_bytes data (first + 1) (Z.of_nat (String.length data) - first - 1)
  end.

(** ** Lemmas *)

Lemma char_value_small n : (n < 128)%nat → char_value (ascii_of_nat (n mod 256)) = Z.of_nat n.
Proof.
  intros Hn. unfold char_value. rewrite Nat.mod_small by lia. rewrite nat_ascii_embedding by lia.
  destruct (Z.ltb_spec (Z.of_nat n) 128); lia.
Qed.

Lemma char_value_large n : (128 <= n < 256)%nat → char_value (ascii_of_nat (n mod 256)) = Z.of_nat n - 256.
Proof.
  intros Hn. unfold char_value. rewrite Nat.mod_small by lia. rewrite nat_ascii_embedding by lia.
  destruct (Z.ltb_spec (Z.of_nat n) 128); lia.
Qed.

Lemma set_param_length p0 p1 :
  Z.of_nat (String.length (set_param p0 p1)) = 1 + Z.of_nat (String.length p0) + Z.of_nat (String.length p1).
Proof. unfold set_param. cbn [String.length]. rewrite str_length_app. lia. Qed.

Lemma str_take_all s : str_take (String.length s) s = s.
Proof. rewrite <- (str_app_nil_r s) at 2. apply str_take_app. Qed.

(** Whichever way the message is passed. *)
Lemma get_set_param msg idata p0 p1 index :
  (String.length p0 <= 127)%nat →
  (idata = set_param p0 p1 ∨ (idata = "" ∧ msg = set_param p0 p1)) →
  get_param msg index idata = Value (if Z.rem index 2 =? 0 then p0 else p1).
Proof.
  intros Hlen Hdata. unfold get_param.
  assert ((if (0 <? String.length idata)%nat then idata else msg) = set_param p0 p1) as ->.
  { destruct Hdata as [->|[-> ->]]; done. }
  rewrite set_param_length. unfold set_param at 1. rewrite char_value_small by lia.
  unfold read_bytes. rewrite set_param_length. unfold set_param. destruct (Z.rem index 2 =? 0).
  - destruct (Z.ltb_spec (Z.of_nat (String.length p0)) 0); [lia|].
    destruct (Z.ltb_spec (1 + Z.of_nat (String.length p0) + Z.of_nat (String.length p1)) (1 + Z.of_nat (String.length p0)));
      [lia|]. cbn [orb Z.ltb]. change (Z.to_nat 1) with 1%nat. cbn [str_drop]. rewrite Nat2Z.id, str_take_app. done.
  - replace (1 + Z.of_nat (String.length p0) + Z.of_nat (String.length p1) - Z.of_nat (String.length p0) - 1)
      with (Z.of_nat (String.length p1)) by lia.
    destruct (Z.ltb_spec (Z.of_nat (String.length p1)) 0); [lia|].
    destruct (Z.ltb_spec (Z.of_nat (String.length p0) + 1) 0); [lia|].
    destruct (Z.ltb_spec (1 + Z.of_nat (String.length p0) + Z.of_nat (String.length p1))
                (Z.of_nat (String.length p0) + 1 + Z.of_nat (String.length p1))); [lia|]. cbn [orb].
    replace (Z.to_nat (Z.of_nat (String.length p0) + 1)) with (S (String.length p0)) by lia.
    cbn [str_drop]. rewrite str_drop_app, Nat2Z.id, str_take_all. done.
Qed.

(** ** Properties *)

(** Two parameters come back from the message that packs them, as
    the message itself or nested in a parameter of another one, when the
    first has at most 127 bytes; with 128 to 255 bytes reading the first
    parameter throws. *)
Theorem param_round_trip (p0 p1 msg : string) :
  ((String.length p0 <= 127)%nat →
     get_param (set_param p0 p1) 0 "" = Value p0 ∧ get_param (set_param p0 p1) 1 "" = Value p1 ∧
     get_param msg 0 (set_param p0 p1) = Value p0 ∧ get_param msg 1 (set_param p0 p1) = Value p1) ∧
  ((128 <= String.length p0 <= 255)%nat → get_param (set_param p0 p1) 0 "" = LengthError).
Proof.
  split.
  - intros Hlen. split_and!;
      (rewrite (get_set_param _ _ p0 p1) by (done || (by left) || (by right)); reflexivity).
  - intros Hlen. unfold get_param. cbn [String.length Nat.ltb Nat.leb]. unfold set_param at 1.
    rewrite char_value_large by lia. change (Z.rem 0 2 =? 0) with true. cbv match. unfold read_bytes.
    destruct (Z.ltb_spec (Z.of_nat (String.length p0) - 256) 0); [done|lia].
Qed.

(** A registration as the unit manager packs it. *)
Lemma param_round_trip_witness :
  get_param (set_param "1000" (set_param "out" "in")) 1 "" = Value (set_param "out" "in") ∧
  get_param "" 1 (set_param "out" "in") = Value "in".
Proof.
  split.
  - apply (param_round_trip "1000" (set_param "out" "in") ""). cbn. lia.
  - apply (param_round_trip "out" "in" ""). cbn. lia.
Defined.
