(* ===== verification/Manager.v ===== *)
(** * The unit manager

    [unit-manager/src]: the key-value table ([all.h], [config.cpp]), the
    registry of units with its ports and RPC actions ([remote_server.cpp]),
    the dispatch of client messages ([unit_action_match], [remote_call],
    [zmq_bus_publisher_push]).

    The critical sections of the registry run under one mutex and are one
    definition each.  URLs are made and read back with [sprintf] and [sscanf]
    on a configured format: a format string the functions have no defined
    behaviour on ends in [Throw].  The JSON reader of the dispatch (simdjson)
    and the answer of a remote unit are arguments. *)
From S2P Require Import Prelude StdString Doubles Json Observability Types Endpoint Util Framing.

(** ** Format strings *)

(** [sprintf(buf, fmt, arg)] with at most one [int] argument. *)
Fixpoint sprintf_int (fmt : string) (arg : option Z) : result string :=
  match fmt with
  | EmptyString => Ok EmptyString
  | String c rest =>
      if (c =? "%")%char then
        match rest with
        | String d rest =>
            if (d =? "%")%char then s ← sprintf_int rest arg; mret (String "%" s)
            else if (d =? "i")%char || (d =? "d")%char then
              match arg with
              | Some z => s ← sprintf_int rest None; mret (to_string z +:+ s)
              | None => Throw "undefined: missing argument"
              end
            else Throw "undefined: conversion"
        | EmptyString => Throw "undefined: conversion"
        end
      else s ← sprintf_int rest arg; mret (String c s)
  end.

(** The conversion [%i]: decimal, or octal after 0, or hexadecimal after 0x. *)
Definition scan_int (s : string) : option Z :=
  let '(neg, body) := scan_sign (skip_spaces s) in
  let '(v, count) :=
    match body with
    | String "0"%char (String x digits) =>
        if (lower x =? "x")%char
        then let '(v, count, _) := scan_base 16 0 0 digits in (v, count)
        else let '(v, count, _) := scan_base 8 0 0 body in (v, count)
    | _ => let '(v, count, _) := scan_digits 0 0 body in (v, Z.of_nat count)
    end in
  if count =? 0 then None else Some (to_int (if (neg : bool) then - v else v)).

(** The conversion [%d]. *)
Definition scan_decimal (s : string) : option Z :=
  let '(neg, body) := scan_sign (skip_spaces s) in
  let '(v, count, _) := scan_digits 0 0 body in
  if (count =? 0)%nat then None else Some (to_int (if (neg : bool) then - v else v)).

(** [sscanf(url, fmt, &n) == 1] for a format with one conversion. *)
Fixpoint sscanf_int (fmt url : string) : option Z :=
  match fmt with
  | EmptyString => None
  | String c rest =>
      if is_space c then sscanf_int rest (skip_spaces url)
      else if (c =? "%")%char then
        match rest with
        | String d rest =>
            if (d =? "i")%char then scan_int url
            else if (d =? "d")%char then scan_decimal url
            else if (d =? "%")%char then
              match skip_spaces url with
              | String "%"%char url => sscanf_int rest url
              | _ => None
              end
            else None
        | EmptyString => None
        end
      else
        match url with
        | String d url => if (c =? d)%char then sscanf_int rest url else None
        | EmptyString => None
        end
  end.

(** ** The table of keys *)

Record unit_data := MkUnitData {
  ud_port : Z;
  ud_work_id : string;
  ud_output_url : string;
  ud_inference_url : string;
}.

(** What the table holds ([std::any]). *)
Inductive any :=
  | AnyInt (z : Z)
  | AnyString (s : string)
  | AnyUnit (u : unit_data).

Record manager := MkManager {
  m_counter : Z;
  m_port_start : Z;
  m_ports : list bool;
  m_sql : gmap string any;
  m_s_format : string;
  m_c_format : string;
}.
#[export] Instance eta_m : Eta manager := fun m =>
  MkManager (m_counter m) (m_port_start m) (m_ports m) (m_sql m) (m_s_format m) (m_c_format m).

(** [SAFE_READING]: nothing for a missing key or another type. *)
Definition read_int (sql : gmap string any) (key : string) : option Z :=
  match sql !! key with Some (AnyInt z) => Some z | _ => None end.
Definition read_string (sql : gmap string any) (key : string) : option string :=
  match sql !! key with Some (AnyString s) => Some s | _ => None end.
Definition read_unit (sql : gmap string any) (key : string) : option unit_data :=
  match sql !! key with Some (AnyUnit u) => Some u | _ => None end.

(** [load_default_config]; [file] is the parsed configuration file, if there
    is one that parses. *)
Definition load_default_config (file : option json) (sql : gmap string any) : result (gmap string any) :=
  match file with
  | None => Ok sql
  | Some (JObj members) =>
      Ok (map_fold (λ key value sql,
            match value with
            | JInt z => <[key := AnyInt (to_int z)]> sql
            | JFloat d => <[key := AnyInt (d_to_int d)]> sql
            | JStr s => <[key := AnyString s]> sql
            | _ => sql
            end) sql members)
  | Some JNull | Some (JArr []) => Ok sql
  | Some _ => Throw "invalid_iterator.207"
  end.

(** [all_work] and [remote_server_work] on the loaded table; the counter of
    work identifiers is a zero-initialized global. *)
Definition start_manager (sql : gmap string any) : result manager :=
  match read_string sql "config_zmq_s_format", read_string sql "config_zmq_c_format" with
  | Some s_format, Some c_format =>
      let counter := default 0 (read_int sql "config_work_id") in
      let port_start := default 0 (read_int sql "config_zmq_min_port") in
      match read_int sql "config_zmq_max_port" with
      | Some port_end =>
          if port_end <? port_start then Throw "length_error"
          else Ok (MkManager counter port_start (replicate (Z.to_nat (port_end - port_start)) false) sql
                     s_format c_format)
      | None => Throw "undefined: uninitialized port_list_end"
      end
  | _, _ => Throw "bad_any_cast"
  end.

(** ** Ports *)

Fixpoint first_free (i : nat) (ports : list bool) : option nat :=
  match ports with
  | [] => None
  | busy :: ports => if (busy : bool) then first_free (S i) ports else Some i
  end.

Definition allocate_zmq_port_locked (m : manager) : manager * Z :=
  match first_free 0 (m_ports m) with
  | Some i => (m <| m_ports := <[i := true]> (m_ports m) |>, m_port_start m + Z.of_nat i)
  | None => (m, -1)
  end.

Definition release_zmq_port_locked (port : Z) (m : manager) : manager :=
  let index := port - m_port_start m in
  if (0 <=? index) && (index <? Z.of_nat (length (m_ports m)))
  then m <| m_ports := <[Z.to_nat index := false]> (m_ports m) |> else m.

Definition parse_zmq_port (m : manager) (url : string) : option Z := sscanf_int (m_s_format m) url.

Definition make_unit_zmq_url (m : manager) (unit suffix : string) (port : Z) : result string :=
  let zmq_format :=
    if str_contains (m_s_format m) "sock" then m_s_format m +:+ "." +:+ unit +:+ suffix else m_s_format m in
  sprintf_int zmq_format (Some port).

(** ** Registration *)

Definition sys_allocate_unit (unit : string) (m : manager) : result (manager * option unit_data) :=
  let '(m, output_port) := allocate_zmq_port_locked m in
  let '(m, inference_port) := allocate_zmq_port_locked m in
  if (output_port <? 0) || (inference_port <? 0) then
    let m := if 0 <=? output_port then release_zmq_port_locked output_port m else m in
    let m := if 0 <=? inference_port then release_zmq_port_locked inference_port m else m in
    mret (m, None)
  else
    let port := m_counter m in
    let m := m <| m_counter := to_int (port + 1) |> in
    let work_id := unit +:+ "." +:+ to_string port in
    output_url ← make_unit_zmq_url m unit ".output_url" output_port;
    inference_url ← make_unit_zmq_url m unit ".inference_url" inference_port;
    let u := MkUnitData port work_id output_url inference_url in
    let sql := <[work_id +:+ ".out_port" := AnyString output_url]> (<[work_id := AnyUnit u]> (m_sql m)) in
    mret (m <| m_sql := sql |>, Some u).

Definition release_url (url : string) (m : manager) : manager :=
  match parse_zmq_port m url with Some port => release_zmq_port_locked port m | None => m end.

(** [sys_release_unit] of the manager. *)
Definition sys_free_unit (unit : string) (m : manager) : manager * Z :=
  match read_unit (m_sql m) unit with
  | None => (m, -1)
  | Some u =>
      let m := release_url (ud_inference_url u) (release_url (ud_output_url u) m) in
      (m <| m_sql := delete (unit +:+ ".out_port") (delete unit (m_sql m)) |>, 0)
  end.

Definition rpc_allocate_unit (raw : string) (m : manager) : result (manager * string) :=
  '(m, unit_info) ← sys_allocate_unit raw m;
  match unit_info with
  | None => mret (m, set_param "-1" (set_param "" ""))
  | Some u => mret (m, set_param (to_string (ud_port u)) (set_param (ud_output_url u) (ud_inference_url u)))
  end.

Definition rpc_release_unit (raw : string) (m : manager) : manager * string :=
  ((sys_free_unit raw m).1, "Success").

Definition rpc_sql_select (raw : string) (m : manager) : string := default "" (read_string (m_sql m) raw).

Definition rpc_sql_set (raw : string) (m : manager) : manager * string :=
  let key := sample_json_str_get raw "key" in
  let val := sample_json_str_get raw "val" in
  if str_empty key then (m, "False") else (m <| m_sql := <[key := AnyString val]> (m_sql m) |>, "Success").

Definition rpc_sql_unset (raw : string) (m : manager) : manager * string :=
  (m <| m_sql := delete raw (m_sql m) |>, "Success").

(** ** Dispatch of client messages *)

(** The reader of the dispatch: whether a text is a document at all, and the
    string member of a key. *)
Class DocumentReader := {
  doc_ok : string → bool;
  doc_string : string → string → option string;
}.

(** What the dispatch does. *)
Inductive effect :=
  | PushError (com_id : Z) (request_id work_id : string) (code : Z) (message : string)
  | Publish (url raw : string)
  | CallUnit (unit action data : string).

(** The level of [sample_log.h], never changed, and that of a warning. *)
Definition log_level : Z := 6.
Definition SAMPLE_LOG_WARN : Z := 4.

(** [zmq_bus_publisher_push].  [ALOGW] is a bare [if]: the [else] that should
    report an unknown unit belongs to the one on the log level. *)
Definition zmq_bus_publisher_push (m : manager) (work_id json_str : string) : list effect * Z :=
  if str_empty work_id then ([], -1)
  else
    let out := match read_unit (m_sql m) work_id with
               | Some u => [Publish (ud_inference_url u) json_str]
               | None => []
               end in
    if SAMPLE_LOG_WARN <=? log_level then (out, 0) else (out, -1).

(** The text between two dots; a last empty fragment is dropped. *)
Fixpoint fragments (current work_id : string) : list string :=
  match work_id with
  | EmptyString => if (String.length current =? 0)%nat then [] else [current]
  | String c rest =>
      if (c =? ".")%char then current :: fragments "" rest else fragments (push_back current c) rest
  end.

(** The message with the URL for the answer as its first member. *)
Definition inference_raw_data (zmq_push_url json_str : string) : string :=
  "{" +:+ quoted "zmq_com" +:+ ":" +:+ quoted zmq_push_url +:+ "," +:+ str_drop 1 json_str.

Section dispatch.
Context `{DocumentReader}.

(** [remote_call]; [rpc] is what the remote unit returns.  [snprintf] keeps 254
    bytes of the URL. *)
Definition remote_call (rpc : string → string → string → Z) (m : manager) (com_id : Z) (json_str : string)
    : result (list effect * Z) :=
  let work_id := default "" (doc_string json_str "work_id") in
  let work_unit := match char_find "."%char work_id with Some p => str_take p work_id | None => work_id end in
  let action := default "" (doc_string json_str "action") in
  if str_empty work_id || str_empty action then Throw "Invalid JSON: missing work_id or action"
  else
    com_url ← sprintf_int (m_c_format m) (Some com_id);
    let data := set_param (str_take 254 com_url) json_str in
    mret ([CallUnit work_unit action data], rpc work_unit action data).

Definition unit_action_match (rpc : string → string → string → Z) (m : manager) (com_id : Z) (json_str : string)
    : result (list effect) :=
  let format_error := [PushError com_id "0" "sys" (-2) "json format error"] in
  if negb (doc_ok json_str) then Ok format_error
  else
    match doc_string json_str "request_id", doc_string json_str "work_id", doc_string json_str "action" with
    | Some request_id, Some work_id, Some action =>
        let work_id := if str_empty work_id then "sys" else work_id in
        if (action =? "inference")%string then
          zmq_push_url ← sprintf_int (m_c_format m) (Some com_id);
          let '(out, ret) := zmq_bus_publisher_push m work_id (inference_raw_data zmq_push_url json_str) in
          mret (out ++ if negb (ret =? 0)
                       then [PushError com_id request_id work_id (-4) "inference data push false"] else [])
        else
          match fragments "" work_id with
          | EmptyString :: _ | [] => mret []
          | _ =>
              '(out, ret) ← remote_call rpc m com_id json_str;
              mret (out ++ if negb (ret =? 0)
                           then [PushError com_id request_id work_id (-9) "unit call false"] else [])
          end
    | _, _, _ => Ok format_error
    end.
End dispatch.

(** One trailing line feed is dropped from a received message. *)
Definition select_json_str (json_src : string) : string :=
  match str_back json_src with
  | Some c => if (c =? "010")%char then str_pop_back json_src else json_src
  | None => json_src
  end.

(** The port of the next client session. *)
Definition next_com_port (counter_port : Z) : Z * Z :=
  let counter := counter_port + 1 in
  (counter_port, if 65535 <? counter then 8000 else counter).

(** ** Lemmas *)

(** *** Printing a URL and reading its port back *)

(** A text that both functions take literally. *)
Fixpoint literal (s : string) : bool :=
  match s with
  | EmptyString => true
  | String c rest => negb (c =? "%")%char && negb (is_space c) && literal rest
  end.

Lemma literal_app s t : literal (s +:+ t) = literal s && literal t.
Proof.
  induction s as [|c s IH]; [done|]. rewrite str_app_cons. cbn [literal]. rewrite IH. by rewrite andb_assoc.
Qed.

Lemma sprintf_literal s t arg :
  char_in "%"%char s = false → sprintf_int (s +:+ t) arg = (r ← sprintf_int t arg; mret (s +:+ r)).
Proof.
  induction s as [|c s IH]; intros Hs.
  - change ("" +:+ t) with t. by destruct (sprintf_int t arg).
  - cbn [char_in] in Hs. apply orb_false_iff in Hs as [Hc Hs]. rewrite str_app_cons. cbn [sprintf_int].
    rewrite Ascii.eqb_sym in Hc. rewrite Hc, (IH Hs). by destruct (sprintf_int t arg).
Qed.

Lemma sprintf_plain s arg : char_in "%"%char s = false → sprintf_int s arg = Ok s.
Proof.
  intros Hs. rewrite <- (str_app_nil_r s) at 1. rewrite sprintf_literal by done. cbn. by rewrite str_app_nil_r.
Qed.

Lemma sscanf_literal s fmt url : literal s = true → sscanf_int (s +:+ fmt) (s +:+ url) = sscanf_int fmt url.
Proof.
  induction s as [|c s IH]; [done|]. cbn [literal]. intros [[Hc Hsp]%andb_true_iff Hs]%andb_true_iff.
  apply negb_true_iff in Hc, Hsp. rewrite !str_app_cons. cbn [sscanf_int]. rewrite Hsp, Hc, Ascii.eqb_refl. by apply IH.
Qed.

(** A text that cannot continue a decimal number. *)
Definition no_digit_head (s : string) : Prop := ∀ c r, s = String c r → is_digit c = false.

Lemma scan_int_to_string p rest :
  0 < p → is_int p = true → no_digit_head rest → scan_int (to_string p +:+ rest) = Some p.
Proof.
  intros Hp Hint Hrest. unfold scan_int, to_string. destruct (Z.ltb_spec p 0); [lia|]. cbv zeta.
  destruct (decimal_digits_head (Z.to_nat (Z.log2 p)) p) as (c & s & Heq & Hc); [lia|].
  destruct (scan_to_digits p rest) as (count & Hcount & Hscan); [lia|done|].
  assert (c ≠ "0"%char) as Hzero.
  { refine (decimal_digits_lead _ p c s _ Heq). split; [done|]. apply log2_fuel_enough. lia. }
  rewrite Heq in *. rewrite str_app_cons in *.
  destruct (digit_not_space_sign c Hc) as (Hsp & Hm & Hplus).
  cbn [skip_spaces]. rewrite Hsp.
  assert (scan_sign (String c (s +:+ rest)) = (false, String c (s +:+ rest))) as ->.
  { destruct c as [[] [] [] [] [] [] [] []]; done. }
  assert (match String c (s +:+ rest) with
          | String "0"%char (String x digits) =>
              if (lower x =? "x")%char
              then let '(v, count, _) := scan_base 16 0 0 digits in (v, count)
              else let '(v, count, _) := scan_base 8 0 0 (String c (s +:+ rest)) in (v, count)
          | _ => let '(v, count, _) := scan_digits 0 0 (String c (s +:+ rest)) in (v, Z.of_nat count)
          end = (p, Z.of_nat count)) as ->.
  { rewrite Hscan. destruct c as [[] [] [] [] [] [] [] []]; done. }
  destruct (Z.eqb_spec (Z.of_nat count) 0); [lia|]. by rewrite to_int_id.
Qed.

Lemma decimal_digits_length fuel n : (String.length (decimal_digits fuel n) <= fuel)%nat.
Proof.
  revert n. induction fuel as [|fuel IH]; intros n; cbn [decimal_digits]; [done|].
  destruct (n <? 10); [cbn; lia|]. rewrite str_length_app. specialize (IH (n / 10)). cbn. lia.
Qed.

(** A generous bound: the fuel of the loop over the digits. *)
Lemma to_string_length n : 0 <= n <= INT_MAX → (String.length (to_string n) <= 31)%nat.
Proof.
  intros Hn. unfold to_string. destruct (Z.ltb_spec n 0); [lia|].
  pose proof (decimal_digits_length (S (Z.to_nat (Z.log2 n))) n) as Hlen.
  pose proof (Z.log2_le_mono n INT_MAX ltac:(lia)) as Hlog. change (Z.log2 INT_MAX) with 30 in Hlog.
  pose proof (Z.log2_nonneg n). lia.
Qed.

(** The formats a configuration uses: one [%i] in otherwise literal text. *)
Definition good_format (fmt : string) : Prop :=
  ∃ pre post, fmt = pre +:+ "%i" +:+ post ∧ literal pre = true ∧ char_in "%"%char pre = false ∧
    char_in "%"%char post = false ∧ no_digit_head post.

(** A port printed with a format whose end may be another one, read back. *)
Lemma format_port_round_trip pre post tail port :
  literal pre = true → char_in "%"%char pre = false → char_in "%"%char tail = false → no_digit_head tail →
  0 < port → is_int port = true →
  sprintf_int (pre +:+ "%i" +:+ tail) (Some port) = Ok (pre +:+ to_string port +:+ tail) ∧
  (String.length (pre +:+ to_string port +:+ tail) <= String.length pre + 31 + String.length tail)%nat ∧
  sscanf_int (pre +:+ "%i" +:+ post) (pre +:+ to_string port +:+ tail) = Some port.
Proof.
  intros Hlit Hpre Htail Hd Hp Hint. split_and!.
  - rewrite sprintf_literal by done. change ("%i" +:+ tail) with (String "%" (String "i" tail)).
    cbn. by rewrite sprintf_plain.
  - rewrite !str_length_app. pose proof (to_string_length port). unfold is_int, INT_MIN, INT_MAX in *. lia.
  - rewrite sscanf_literal by done. change ("%i" +:+ post) with (String "%" (String "i" post)). cbn.
    by apply scan_int_to_string.
Qed.

Lemma url_port_round_trip m unit suffix port :
  good_format (m_s_format m) → char_in "%"%char unit = false → char_in "%"%char suffix = false →
  0 < port → is_int port = true →
  ∃ url, make_unit_zmq_url m unit suffix port = Ok url ∧
    (String.length url <= String.length (m_s_format m) + String.length unit + String.length suffix + 32)%nat ∧
    ∀ m', m_s_format m' = m_s_format m → parse_zmq_port m' url = Some port.
Proof.
  intros (pre & post & Hfmt & Hlit & Hpre & Hpost & Hhead) Hunit Hsuf Hp Hint.
  unfold make_unit_zmq_url, parse_zmq_port.
  assert (∀ tail, char_in "%"%char tail = false → no_digit_head tail →
    ∃ url, sprintf_int (pre +:+ "%i" +:+ tail) (Some port) = Ok url ∧
      (String.length url <= String.length pre + 31 + String.length tail)%nat ∧
      sscanf_int (m_s_format m) url = Some port) as Hgo.
  { intros tail Htail Hd. rewrite Hfmt. eexists. by apply format_port_round_trip. }
  assert (String.length (m_s_format m) = String.length pre + 2 + String.length post)%nat as Hlen
    by (rewrite Hfmt, !str_length_app; cbn; lia).
  destruct (str_contains (m_s_format m) "sock").
  - destruct (Hgo (post +:+ "." +:+ unit +:+ suffix)) as (url & Hs & Hl & Hr).
    + rewrite !char_in_app, Hpost, Hunit, Hsuf. done.
    + intros c r Hc. destruct post as [|d post]; [by injection Hc as <- _|].
      rewrite str_app_cons in Hc. injection Hc as <- _. by eapply Hhead.
    + exists url. rewrite Hfmt at 1. rewrite !str_app_assoc. rewrite !str_length_app in Hl. cbn in Hl.
      split_and!; [done|lia|]. by intros m' ->.
  - destruct (Hgo post) as (url & Hs & Hl & Hr); [done..|]. exists url. rewrite Hfmt at 1.
    split_and!; [done|lia|]. by intros m' ->.
Qed.

(** *** Ports *)

Lemma first_free_spec ports : ∀ k,
  match first_free k ports with
  | Some i => ∃ j, i = (k + j)%nat ∧ ports !! j = Some false
  | None => Forall (λ b, b = true) ports
  end.
Proof.
  induction ports as [|b ports IH]; intros k; cbn [first_free]; [constructor|]. destruct b.
  - specialize (IH (S k)). destruct (first_free (S k) ports) as [i|]; [|by constructor].
    destruct IH as (j & -> & Hj). exists (S j). split; [lia|done].
  - exists 0%nat. split; [lia|done].
Qed.

Lemma allocate_port_spec m :
  (∃ i, m_ports m !! i = Some false ∧
     allocate_zmq_port_locked m = (m <| m_ports := <[i := true]> (m_ports m) |>, m_port_start m + Z.of_nat i)) ∨
  (Forall (λ b, b = true) (m_ports m) ∧ allocate_zmq_port_locked m = (m, -1)).
Proof.
  unfold allocate_zmq_port_locked. pose proof (first_free_spec (m_ports m) 0) as Hf.
  destruct (first_free 0 (m_ports m)) as [i|]; [left|by right].
  destruct Hf as (j & -> & Hj). by exists j.
Qed.

Lemma release_port_spec m i :
  (i < length (m_ports m))%nat →
  release_zmq_port_locked (m_port_start m + Z.of_nat i) m = m <| m_ports := <[i := false]> (m_ports m) |>.
Proof.
  intros Hi. unfold release_zmq_port_locked.
  replace (m_port_start m + Z.of_nat i - m_port_start m) with (Z.of_nat i) by lia.
  destruct (Z.leb_spec 0 (Z.of_nat i)); [|lia]. destruct (Z.ltb_spec (Z.of_nat i) (Z.of_nat (length (m_ports m)))); [|lia].
  cbn [andb]. by rewrite Nat2Z.id.
Qed.

Lemma set_ports_same m : m <| m_ports := m_ports m |> = m.
Proof. by destruct m. Qed.

Definition free_ports (ports : list bool) : nat := length (List.filter negb ports).

Lemma free_ports_none ports : Forall (λ b, b = true) ports → free_ports ports = 0%nat.
Proof. unfold free_ports. induction 1 as [|b ports -> _ IH]; [done|]. exact IH. Qed.

Lemma free_ports_one ports i :
  ports !! i = Some false → Forall (λ b, b = true) (<[i := true]> ports) → free_ports ports = 1%nat.
Proof.
  intros Hi Hall. pose proof (lookup_lt_Some _ _ _ Hi) as Hlt.
  rewrite insert_take_drop in Hall by done. apply Forall_app in Hall as [H1 [_ H2]%Forall_cons].
  rewrite <- (take_drop_middle ports i false Hi). unfold free_ports. rewrite List.filter_app, length_app.
  cbn [List.filter negb length]. pose proof (free_ports_none _ H1). pose proof (free_ports_none _ H2).
  unfold free_ports in *. lia.
Qed.

(** A registration takes two free ports or, when there are not two, changes
    nothing. *)
Lemma allocate_unit_spec unit m :
  0 < m_port_start m →
  (∃ i j, i ≠ j ∧ m_ports m !! i = Some false ∧ m_ports m !! j = Some false ∧
    sys_allocate_unit unit m =
      (let port := m_counter m in
       let work_id := unit +:+ "." +:+ to_string port in
       let m' := m <| m_ports := <[j := true]> (<[i := true]> (m_ports m)) |> <| m_counter := to_int (port + 1) |> in
       output_url ← make_unit_zmq_url m' unit ".output_url" (m_port_start m + Z.of_nat i);
       inference_url ← make_unit_zmq_url m' unit ".inference_url" (m_port_start m + Z.of_nat j);
       let u := MkUnitData port work_id output_url inference_url in
       mret (m' <| m_sql := <[work_id +:+ ".out_port" := AnyString output_url]> (<[work_id := AnyUnit u]> (m_sql m)) |>,
             Some u))) ∨
  (free_ports (m_ports m) <= 1)%nat ∧ sys_allocate_unit unit m = Ok (m, None).
Proof.
  intros Hstart. unfold sys_allocate_unit.
  destruct (allocate_port_spec m) as [(i & Hi & ->)|[Hall ->]].
  - set (m1 := m <| m_ports := _ |>). destruct (allocate_port_spec m1) as [(j & Hj & ->)|[Hall ->]].
    + left. change (m_ports m1) with (<[i := true]> (m_ports m)) in *. exists i, j.
      assert (i ≠ j) as Hne. { intros <-. rewrite list_lookup_insert_eq in Hj by (by eapply lookup_lt_Some). done. }
      rewrite list_lookup_insert_ne in Hj by done. split_and!; [done..|].
      change (m_port_start m1) with (m_port_start m).
      destruct (Z.ltb_spec (m_port_start m + Z.of_nat i) 0); [lia|].
      destruct (Z.ltb_spec (m_port_start m + Z.of_nat j) 0); [lia|]. reflexivity.
    + right. change (m_ports m1) with (<[i := true]> (m_ports m)) in *.
      rewrite (free_ports_one _ _ Hi Hall). split; [done|].
      assert (i < length (m_ports m1))%nat as Hlt.
      { change (m_ports m1) with (<[i := true]> (m_ports m)). rewrite length_insert. by eapply lookup_lt_Some. }
      destruct (Z.ltb_spec (m_port_start m + Z.of_nat i) 0); [lia|]. cbn [orb Z.ltb].
      destruct (Z.leb_spec 0 (m_port_start m + Z.of_nat i)); [|lia].
      pose proof (release_port_spec m1 i Hlt) as R. change (m_port_start m1) with (m_port_start m) in R. rewrite R.
      change (m_ports m1) with (<[i := true]> (m_ports m)).
      rewrite list_insert_insert_eq, list_insert_id by done. unfold m1.
      change ((m <| m_ports := <[i:=true]> (m_ports m) |>) <| m_ports := m_ports m |>) with (m <| m_ports := m_ports m |>).
      by rewrite set_ports_same.
  - right. rewrite (free_ports_none _ Hall). split; [lia|]. destruct (allocate_port_spec m) as [(i & Hi & _)|[_ ->]].
    + apply (proj1 (Forall_lookup _ _) Hall) in Hi. done.
    + reflexivity.
Qed.

(** *** Work identifiers are keys of their own *)

Lemma last_segment x y s t :
  char_in "."%char s = false → char_in "."%char t = false →
  x +:+ String "." s = y +:+ String "." t → s = t.
Proof.
  intros Hs Ht. revert y. induction x as [|c x IH]; intros y E.
  - destruct y as [|d y]; [by injection E|]. rewrite str_app_cons in E. injection E as _ E. subst s.
    rewrite char_in_app in Hs. cbn in Hs. by rewrite orb_true_r in Hs.
  - rewrite str_app_cons in E. destruct y as [|d y].
    + injection E as _ E. subst t. rewrite char_in_app in Ht. cbn in Ht. by rewrite orb_true_r in Ht.
    + rewrite str_app_cons in E. injection E as _ E. by apply (IH y).
Qed.

Lemma to_string_inj a b : is_int a = true → is_int b = true → to_string a = to_string b → a = b.
Proof.
  intros Ha Hb E. assert (stoi (to_string a +:+ "") = Ok a) as Ea by (by apply stoi_to_string).
  assert (stoi (to_string b +:+ "") = Ok b) as Eb by (by apply stoi_to_string). congruence.
Qed.

Lemma to_string_no_dot n : char_in "."%char (to_string n) = false.
Proof. by apply to_string_no_char. Qed.

Lemma work_id_number name name' n n' :
  is_int n = true → is_int n' = true →
  name +:+ "." +:+ to_string n = name' +:+ "." +:+ to_string n' → n = n'.
Proof.
  intros Hn Hn' E. apply to_string_inj; [done..|]. apply (last_segment name name'); [apply to_string_no_dot..|exact E].
Qed.

Lemma work_id_not_out_port name name' n : name +:+ "." +:+ to_string n ≠ name' +:+ ".out_port".
Proof.
  intros E. assert (to_string n = "out_port") as Hn.
  { apply (last_segment name name'); [apply to_string_no_dot|done|exact E]. }
  pose proof (to_string_no_char "o" n eq_refl) as Ho. rewrite Hn in Ho. by specialize (Ho ltac:(done)).
Qed.

(** *** The invariant of the registry *)

Definition live (m : manager) (k : string) (u : unit_data) : Prop := m_sql m !! k = Some (AnyUnit u).

(** Unit [u] uses port number [i] of the list. *)
Definition owns (m : manager) (u : unit_data) (i : nat) : Prop :=
  let port := m_port_start m + Z.of_nat i in
  parse_zmq_port m (ud_output_url u) = Some port ∨ parse_zmq_port m (ud_inference_url u) = Some port.

(** [lost] are the ports that stay busy although no registration names them:
    none as long as the key-value calls leave the registrations alone. *)
Record manager_inv (lost : gset nat) (m : manager) : Prop := {
  ok_format : good_format (m_s_format m);
  ok_start : 0 < m_port_start m;
  ok_end : m_port_start m + Z.of_nat (length (m_ports m)) <= INT_MAX;
  ok_counter : 0 <= m_counter m <= INT_MAX;
  ok_key : ∀ k u, live m k u →
    ∃ name, k = name +:+ "." +:+ to_string (ud_port u) ∧ 0 <= ud_port u < m_counter m;
  ok_urls : ∀ k u, live m k u → ∃ i j, i ≠ j ∧
    parse_zmq_port m (ud_output_url u) = Some (m_port_start m + Z.of_nat i) ∧
    parse_zmq_port m (ud_inference_url u) = Some (m_port_start m + Z.of_nat j);
  ok_busy : ∀ i, m_ports m !! i = Some true ↔ (∃ k u, live m k u ∧ owns m u i) ∨ i ∈ lost;
  ok_lost : ∀ k u i, live m k u → owns m u i → i ∉ lost;
  ok_exclusive : ∀ k k' u u' i, live m k u → live m k' u' → owns m u i → owns m u' i → k = k';
}.
#[global] Arguments ok_format {_ _} _.
#[global] Arguments ok_start {_ _} _.
#[global] Arguments ok_end {_ _} _.
#[global] Arguments ok_counter {_ _} _.
#[global] Arguments ok_key {_ _} _ _ _ _.
#[global] Arguments ok_urls {_ _} _ _ _ _.
#[global] Arguments ok_busy {_ _} _ _.
#[global] Arguments ok_lost {_ _} _ _ _ _ _ _.
#[global] Arguments ok_exclusive {_ _} _ _ _ _ _ _ _ _ _ _.

Abbreviation manager_ok := (manager_inv ∅).

Lemma busy_live m i : manager_ok m → m_ports m !! i = Some true ↔ ∃ k u, live m k u ∧ owns m u i.
Proof. intros Hok. rewrite (ok_busy Hok). set_solver. Qed.

Lemma owns_iff m u i j k :
  parse_zmq_port m (ud_output_url u) = Some (m_port_start m + Z.of_nat i) →
  parse_zmq_port m (ud_inference_url u) = Some (m_port_start m + Z.of_nat j) →
  owns m u k ↔ k = i ∨ k = j.
Proof.
  intros Hi Hj. unfold owns. rewrite Hi, Hj. split.
  - intros [[= E]|[= E]]; [left|right]; lia.
  - intros [->| ->]; auto.
Qed.

(** The new unit joins the others. *)
Lemma live_registered lost m name n u url k u' :
  manager_inv lost m → n = m_counter m → let work_id := name +:+ "." +:+ to_string n in
  <[work_id +:+ ".out_port" := AnyString url]> (<[work_id := AnyUnit u]> (m_sql m)) !! k = Some (AnyUnit u') ↔
  (k = work_id ∧ u' = u) ∨ live m k u'.
Proof.
  intros Hok -> work_id.
  assert (∀ v, live m k v → k ≠ work_id) as Hfresh.
  { intros v Hv. destruct (ok_key Hok k v Hv) as (name' & -> & Hrange). intros E.
    pose proof (ok_counter Hok). apply work_id_number in E; [lia|unfold is_int, INT_MIN, INT_MAX in *; lia..]. }
  assert (∀ v, live m k v → k ≠ work_id +:+ ".out_port") as Hport.
  { intros v Hv. destruct (ok_key Hok k v Hv) as (name' & -> & _). apply work_id_not_out_port. }
  assert (work_id ≠ work_id +:+ ".out_port") as Hself by apply work_id_not_out_port.
  destruct (decide (k = work_id +:+ ".out_port")) as [->|Hk].
  { rewrite lookup_insert_eq. split; [done|]. intros [[E _]|Hv]; [congruence|]. by destruct (Hport u' Hv). }
  rewrite lookup_insert_ne by done. destruct (decide (k = work_id)) as [->|Hk'].
  - rewrite lookup_insert_eq. split.
    + intros [= <-]. by left.
    + intros [[_ ->]|Hv]; [done|]. by destruct (Hfresh u' Hv).
  - rewrite lookup_insert_ne by done. split; [by right|]. by intros [[? _]|Hv].
Qed.

Lemma manager_ok_register lost m name out inf i j :
  manager_inv lost m → i ≠ j → m_ports m !! i = Some false → m_ports m !! j = Some false → m_counter m < INT_MAX →
  parse_zmq_port m out = Some (m_port_start m + Z.of_nat i) →
  parse_zmq_port m inf = Some (m_port_start m + Z.of_nat j) →
  let work_id := name +:+ "." +:+ to_string (m_counter m) in
  let u := MkUnitData (m_counter m) work_id out inf in
  manager_inv lost (MkManager (m_counter m + 1) (m_port_start m) (<[j := true]> (<[i := true]> (m_ports m)))
    (<[work_id +:+ ".out_port" := AnyString out]> (<[work_id := AnyUnit u]> (m_sql m))) (m_s_format m) (m_c_format m)).
Proof.
  intros Hok Hij Hi Hj Hlt Hout Hinf work_id u.
  set (m' := MkManager _ _ _ _ _ _).
  assert (∀ k v, live m' k v ↔ (k = work_id ∧ v = u) ∨ live m k v) as Hlive.
  { intros k v. exact (live_registered lost m name (m_counter m) u out k v Hok eq_refl). }
  assert (∀ k, owns m' u k ↔ k = i ∨ k = j) as Hown by (intros k; by apply (owns_iff m' u i j k)).
  assert (∀ k v, live m k v → ¬ owns m v i ∧ ¬ owns m v j) as Hfree.
  { intros k v Hv. split; intros Ho.
    - assert (m_ports m !! i = Some true) as E by (apply (ok_busy Hok); eauto). congruence.
    - assert (m_ports m !! j = Some true) as E by (apply (ok_busy Hok); eauto). congruence. }
  assert (i ∉ lost ∧ j ∉ lost) as [Hil Hjl].
  { split; intros Hl.
    - assert (m_ports m !! i = Some true) as E by (apply (ok_busy Hok); auto). congruence.
    - assert (m_ports m !! j = Some true) as E by (apply (ok_busy Hok); auto). congruence. }
  pose proof (lookup_lt_Some _ _ _ Hi) as Li. pose proof (lookup_lt_Some _ _ _ Hj) as Lj.
  split.
  - exact (ok_format Hok).
  - exact (ok_start Hok).
  - cbn. rewrite !length_insert. exact (ok_end Hok).
  - cbn. pose proof (ok_counter Hok). lia.
  - intros k v [[-> ->]|Hv]%Hlive.
    + exists name. cbn. pose proof (ok_counter Hok). split; [done|lia].
    + destruct (ok_key Hok k v Hv) as (name' & E & Hr). exists name'. cbn. split; [done|lia].
  - intros k v [[-> ->]|Hv]%Hlive; [by exists i, j|exact (ok_urls Hok k v Hv)].
  - intros p. change (m_ports m') with (<[j := true]> (<[i := true]> (m_ports m))).
    destruct (decide (p = j)) as [->|Hpj]; [|destruct (decide (p = i)) as [->|Hpi]].
    + rewrite list_lookup_insert_eq by (by rewrite length_insert). split; [|done]. intros _.
      left. exists work_id, u. split; [by apply Hlive; left|apply Hown; auto].
    + rewrite list_lookup_insert_ne, list_lookup_insert_eq by done. split; [|done]. intros _.
      left. exists work_id, u. split; [by apply Hlive; left|apply Hown; auto].
    + rewrite !list_lookup_insert_ne by done. rewrite (ok_busy Hok). split.
      * intros [(k & v & Hv & Ho)|Hl]; [left|by right]. exists k, v. split; [by apply Hlive; right|done].
      * intros [(k & v & [[-> ->]|Hv]%Hlive & Ho)|Hl]; [apply Hown in Ho as [?|?]; congruence|eauto|by right].
  - intros k v p [[-> ->]|Hv]%Hlive Ho; [apply Hown in Ho as [->| ->]; done|exact (ok_lost Hok k v p Hv Ho)].
  - intros k k' v v' p [[-> ->]|Hv]%Hlive [[-> ->]|Hv']%Hlive Ho Ho'; [done|..].
    + destruct (Hfree k' v' Hv') as [Hni Hnj]. apply Hown in Ho as [->| ->]; [by destruct Hni|by destruct Hnj].
    + destruct (Hfree k v Hv) as [Hni Hnj]. apply Hown in Ho' as [->| ->]; [by destruct Hni|by destruct Hnj].
    + exact (ok_exclusive Hok k k' v v' p Hv Hv' Ho Ho').
Qed.

(** What no operation of the registry changes. *)
Definition manager_frame (m : manager) : Z * nat * string * string :=
  (m_port_start m, length (m_ports m), m_s_format m, m_c_format m).

(** A registration succeeds exactly when two ports are free. *)
Lemma allocate_unit_ok lost name m :
  manager_inv lost m → char_in "%"%char name = false → m_counter m < INT_MAX →
  ∃ m' r, sys_allocate_unit name m = Ok (m', r) ∧ manager_inv lost m' ∧
    match r with
    | Some u => ud_port u = m_counter m ∧ m_counter m' = m_counter m + 1 ∧
        ud_work_id u = name +:+ "." +:+ to_string (m_counter m) ∧ manager_frame m' = manager_frame m ∧
        (String.length (ud_output_url u) <= String.length (m_s_format m) + String.length name + 43)%nat ∧
        (∀ k v, live m' k v ↔ (k = ud_work_id u ∧ v = u) ∨ live m k v)
    | None => m' = m ∧ (free_ports (m_ports m) <= 1)%nat
    end.
Proof.
  intros Hok Hname Hlt.
  destruct (allocate_unit_spec name m (ok_start Hok)) as [(i & j & Hij & Hi & Hj & E)|[Hfree E]].
  2: { exists m, None. by rewrite E. }
  pose proof (lookup_lt_Some _ _ _ Hi) as Li. pose proof (lookup_lt_Some _ _ _ Hj) as Lj.
  pose proof (ok_start Hok). pose proof (ok_end Hok). pose proof (ok_counter Hok).
  cbv zeta in E. set (m1 := m <| m_ports := _ |> <| m_counter := _ |>) in E.
  destruct (url_port_round_trip m1 name ".output_url" (m_port_start m + Z.of_nat i)) as (out & Eo & Lo & Po);
    [exact (ok_format Hok)|done|done|lia|unfold is_int, INT_MIN, INT_MAX in *; lia|].
  destruct (url_port_round_trip m1 name ".inference_url" (m_port_start m + Z.of_nat j)) as (inf & Ei & Li' & Pi);
    [exact (ok_format Hok)|done|done|lia|unfold is_int, INT_MIN, INT_MAX in *; lia|].
  rewrite Eo, Ei in E. cbn [mbind result_bind mret result_ret] in E.
  eexists _, _. split; [exact E|].
  assert (to_int (m_counter m + 1) = m_counter m + 1) as Hc
    by (apply to_int_id; unfold is_int, INT_MIN, INT_MAX in *; lia).
  split.
  - pose proof (manager_ok_register lost m name out inf i j Hok Hij Hi Hj Hlt (Po m eq_refl) (Pi m eq_refl)) as Hok'.
    rewrite <- Hc in Hok'. exact Hok'.
  - split_and!; [done|exact Hc|done| |..].
    + unfold manager_frame. cbn. by rewrite !length_insert.
    + cbn [String.length] in Lo. change (m_s_format m1) with (m_s_format m) in Lo. cbn [ud_output_url]. lia.
    + intros k v. exact (live_registered lost m name (m_counter m) _ out k v Hok eq_refl).
Qed.

Lemma release_url_spec m url i :
  parse_zmq_port m url = Some (m_port_start m + Z.of_nat i) → (i < length (m_ports m))%nat →
  release_url url m = m <| m_ports := <[i := false]> (m_ports m) |>.
Proof. intros Hp Hi. unfold release_url. rewrite Hp. by apply release_port_spec. Qed.

Lemma live_released lost m k u k' v :
  manager_inv lost m → live m k u →
  delete (k +:+ ".out_port") (delete k (m_sql m)) !! k' = Some (AnyUnit v) ↔ k' ≠ k ∧ live m k' v.
Proof.
  intros Hok Hk. destruct (decide (k' = k +:+ ".out_port")) as [->|Hport].
  { rewrite lookup_delete_eq. split; [done|]. intros [_ Hv].
    destruct (ok_key Hok _ _ Hv) as (name & E & _). symmetry in E. by destruct (work_id_not_out_port _ _ _ E). }
  rewrite lookup_delete_ne by done. destruct (decide (k' = k)) as [->|Hne].
  - rewrite lookup_delete_eq. naive_solver.
  - rewrite lookup_delete_ne by done. unfold live. naive_solver.
Qed.

(** A release gives back exactly the two ports of the unit. *)
Lemma manager_ok_release lost m k u i j :
  manager_inv lost m → live m k u → i ≠ j →
  parse_zmq_port m (ud_output_url u) = Some (m_port_start m + Z.of_nat i) →
  parse_zmq_port m (ud_inference_url u) = Some (m_port_start m + Z.of_nat j) →
  manager_inv lost (m <| m_ports := <[j := false]> (<[i := false]> (m_ports m)) |>
                <| m_sql := delete (k +:+ ".out_port") (delete k (m_sql m)) |>).
Proof.
  intros Hok Hk Hij Hi Hj. set (m' := _ <| m_sql := _ |>).
  assert (∀ k' v, live m' k' v ↔ k' ≠ k ∧ live m k' v) as Hlive by (intros k' v; by apply (live_released lost m k u)).
  assert (∀ p, owns m u p ↔ p = i ∨ p = j) as Hown by (intros p; by apply owns_iff).
  assert (∀ k' v p, live m k' v → k' ≠ k → owns m v p → p ≠ i ∧ p ≠ j) as Hother.
  { intros k' v p Hv Hne Ho. split; intros ->; apply Hne;
      refine (ok_exclusive Hok k' k v u _ Hv Hk Ho _); apply Hown; auto. }
  split.
  - exact (ok_format Hok).
  - exact (ok_start Hok).
  - cbn. rewrite !length_insert. exact (ok_end Hok).
  - exact (ok_counter Hok).
  - intros k' v [_ Hv]%Hlive. exact (ok_key Hok k' v Hv).
  - intros k' v [_ Hv]%Hlive. exact (ok_urls Hok k' v Hv).
  - intros p. change (m_ports m') with (<[j := false]> (<[i := false]> (m_ports m))). split.
    + intros Hp. destruct (decide (p = j)) as [->|Hpj].
      { apply list_lookup_insert_Some in Hp as [(_ & ? & _)|[? _]]; [congruence|done]. }
      rewrite list_lookup_insert_ne in Hp by done. destruct (decide (p = i)) as [->|Hpi].
      { apply list_lookup_insert_Some in Hp as [(_ & ? & _)|[? _]]; [congruence|done]. }
      rewrite list_lookup_insert_ne in Hp by done. apply (ok_busy Hok) in Hp as [(k' & v & Hv & Ho)|Hl]; [left|by right].
      exists k', v. split; [|done]. apply Hlive. split; [|done]. intros ->.
      assert (v = u) as -> by (unfold live in *; congruence). apply Hown in Ho as [?|?]; congruence.
    + assert (∀ p, p ∈ lost → p ≠ i ∧ p ≠ j) as Hkept.
      { intros q Hq. split; intros ->; refine (ok_lost Hok k u _ Hk _ Hq); apply Hown; auto. }
      intros [(k' & v & [Hne Hv]%Hlive & Ho)|Hl].
      * destruct (Hother k' v p Hv Hne Ho). rewrite !list_lookup_insert_ne by done. apply (ok_busy Hok). eauto.
      * destruct (Hkept p Hl). rewrite !list_lookup_insert_ne by done. apply (ok_busy Hok). by right.
  - intros k' v p [_ Hv]%Hlive. exact (ok_lost Hok k' v p Hv).
  - intros k1 k2 v1 v2 p [_ H1]%Hlive [_ H2]%Hlive. exact (ok_exclusive Hok k1 k2 v1 v2 p H1 H2).
Qed.

Lemma free_unit_ok lost unit m :
  manager_inv lost m →
  manager_inv lost (sys_free_unit unit m).1 ∧ m_counter (sys_free_unit unit m).1 = m_counter m ∧
  ∀ k v, live (sys_free_unit unit m).1 k v ↔ k ≠ unit ∧ live m k v.
Proof.
  intros Hok. unfold sys_free_unit, read_unit.
  destruct (m_sql m !! unit) as [[z|s|u]|] eqn:E; cbn [fst].
  3: { destruct (ok_urls Hok unit u E) as (i & j & Hij & Hi & Hj).
    assert (owns m u i ∧ owns m u j) as [Oi Oj] by (split; apply (owns_iff m u i j); auto).
    assert (m_ports m !! i = Some true) as Bi by (apply (ok_busy Hok); eauto).
    assert (m_ports m !! j = Some true) as Bj by (apply (ok_busy Hok); eauto).
    rewrite (release_url_spec m _ i Hi) by (by eapply lookup_lt_Some).
    rewrite (release_url_spec (m <| m_ports := <[i := false]> (m_ports m) |>) _ j)
      by (done || (cbn; rewrite length_insert; by eapply lookup_lt_Some)).
    split; [by apply (manager_ok_release lost m unit u i j)|]. split; [done|].
    intros k v. by apply (live_released lost m unit u). }
  all: split; [done|]; split; [done|]; intros k v; split; [|naive_solver].
  all: intros Hv; split; [|done]; intros ->; unfold live in Hv; congruence.
Qed.

Lemma release_url_frame url m : manager_frame (release_url url m) = manager_frame m.
Proof.
  unfold release_url, release_zmq_port_locked. destruct (parse_zmq_port m url); [|done].
  destruct (_ && _); [|done]. unfold manager_frame. cbn. by rewrite length_insert.
Qed.

Lemma free_unit_frame unit m : manager_frame (sys_free_unit unit m).1 = manager_frame m.
Proof.
  unfold sys_free_unit. destruct (read_unit (m_sql m) unit) as [u|]; [|done].
  transitivity (manager_frame (release_url (ud_inference_url u) (release_url (ud_output_url u) m))); [done|].
  by rewrite !release_url_frame.
Qed.

(** The units determine which ports are busy. *)
Lemma ports_determined m m' :
  manager_ok m → manager_ok m' → manager_frame m' = manager_frame m → (∀ k v, live m' k v ↔ live m k v) →
  m_ports m' = m_ports m.
Proof.
  intros Hok Hok' Hf Hlive. injection Hf as Hstart Hlen Hfmt _.
  assert (∀ v i, owns m' v i ↔ owns m v i) as Howns
    by (intros v i; unfold owns, parse_zmq_port; by rewrite Hstart, Hfmt).
  assert (∀ i, m_ports m' !! i = Some true ↔ m_ports m !! i = Some true) as Hbusy.
  { intros i. rewrite (busy_live m i Hok), (busy_live m' i Hok'). by setoid_rewrite Hlive; setoid_rewrite Howns. }
  apply list_eq. intros i. specialize (Hbusy i).
  destruct (decide (i < length (m_ports m))%nat) as [Hi|Hi].
  - destruct (lookup_lt_is_Some_2 (m_ports m) i Hi) as [b Eb].
    destruct (lookup_lt_is_Some_2 (m_ports m') i) as [b' Eb']; [lia|].
    rewrite Eb, Eb' in *. destruct b, b'; naive_solver.
  - rewrite !(proj2 (lookup_ge_None _ _)) by lia. done.
Qed.

(** Writes of other keys leave the units alone. *)
Lemma manager_ok_sql lost m sql :
  manager_inv lost m → (∀ k u, sql !! k = Some (AnyUnit u) ↔ live m k u) → manager_inv lost (m <| m_sql := sql |>).
Proof.
  intros Hok Hsql. set (m' := m <| m_sql := sql |>). assert (∀ k u, live m' k u ↔ live m k u) as Hlive by exact Hsql.
  split; try apply Hok.
  - intros k u Hu%Hlive. exact (ok_key Hok k u Hu).
  - intros k u Hu%Hlive. exact (ok_urls Hok k u Hu).
  - intros i. change (m_ports m') with (m_ports m). rewrite (ok_busy Hok). by setoid_rewrite Hlive.
  - intros k u i Hu%Hlive. exact (ok_lost Hok k u i Hu).
  - intros k k' u u' i Hu%Hlive Hu'%Hlive. exact (ok_exclusive Hok k k' u u' i Hu Hu').
Qed.

(** A write of the key of a unit takes its registration away and leaves its
    ports busy. *)
Lemma manager_ok_forget lost m sql key :
  manager_inv lost m → (∀ k u, sql !! k = Some (AnyUnit u) ↔ k ≠ key ∧ live m k u) →
  ∃ lost', manager_inv lost' (m <| m_sql := sql |>).
Proof.
  intros Hok Hsql. destruct (read_unit (m_sql m) key) as [v|] eqn:Ev.
  2: { exists lost. apply manager_ok_sql; [done|]. intros k u. rewrite Hsql. split; [by intros [_ ?]|].
    intros Hu. split; [|done]. intros ->. unfold live in Hu. unfold read_unit in Ev. by rewrite Hu in Ev. }
  assert (live m key v) as Hv by (unfold read_unit in Ev; unfold live; repeat case_match; congruence).
  destruct (ok_urls Hok key v Hv) as (i & j & Hij & Hi & Hj).
  assert (∀ p, owns m v p ↔ p = i ∨ p = j) as Hown by (intros p; by apply owns_iff).
  exists (lost ∪ {[i; j]}). set (m' := m <| m_sql := sql |>).
  assert (∀ k u, live m' k u ↔ k ≠ key ∧ live m k u) as Hlive by exact Hsql.
  split; try apply Hok.
  - intros k u [_ Hu]%Hlive. exact (ok_key Hok k u Hu).
  - intros k u [_ Hu]%Hlive. exact (ok_urls Hok k u Hu).
  - intros p. change (m_ports m') with (m_ports m). rewrite (ok_busy Hok). split.
    + intros [(k & u & Hu & Ho)|Hp]; [|right; set_solver]. destruct (decide (k = key)) as [->|Hne].
      * right. assert (u = v) as -> by (unfold live in *; congruence). apply Hown in Ho. set_solver.
      * left. exists k, u. by rewrite Hlive.
    + intros [(k & u & [_ Hu]%Hlive & Ho)|Hp]; [left; eauto|].
      apply elem_of_union in Hp as [Hp|Hp]; [by right|]. left. exists key, v. split; [done|]. apply Hown. set_solver.
  - intros k u p [Hne Hu]%Hlive Ho. apply not_elem_of_union. split; [exact (ok_lost Hok k u p Hu Ho)|].
    intros Hp. apply Hne. refine (ok_exclusive Hok k key u v p Hu Hv Ho _). apply Hown. set_solver.
  - intros k k' u u' p [_ Hu]%Hlive [_ Hu']%Hlive. exact (ok_exclusive Hok k k' u u' p Hu Hu').
Qed.

(** ** Properties *)

(** The operations of the registry, under its mutex.  Registered names are
    plain (a percent sign would be a format) and the counter does not wrap
    around; [writes] says which keys the key-value calls may name. *)
Inductive manager_step (writes : manager → string → Prop) : manager → manager → Prop :=
  | StepRegister name m m' r :
      char_in "%"%char name = false → m_counter m < INT_MAX →
      sys_allocate_unit name m = Ok (m', r) → manager_step writes m m'
  | StepRelease work_id m : manager_step writes m (rpc_release_unit work_id m).1
  | StepSqlSet raw m :
      writes m (sample_json_str_get raw "key") → manager_step writes m (rpc_sql_set raw m).1
  | StepSqlUnset key m : writes m key → manager_step writes m (rpc_sql_unset key m).1.

(** Any key, as the manager serves it, and keys under which no unit is
    registered. *)
Definition any_key (m : manager) (key : string) : Prop := True.
Definition no_unit_key (m : manager) (key : string) : Prop := read_unit (m_sql m) key = None.

Lemma read_unit_none m k : read_unit (m_sql m) k = None ↔ ∀ u, ¬ live m k u.
Proof.
  unfold read_unit, live. destruct (m_sql m !! k) as [[z|s|u]|]; split; try done.
  intros Hn. by destruct (Hn u).
Qed.

(** What a key-value call does to the registrations. *)
Lemma sql_set_live raw m k u :
  live (rpc_sql_set raw m).1 k u ↔
  (str_empty (sample_json_str_get raw "key") = false → k ≠ sample_json_str_get raw "key") ∧ live m k u.
Proof.
  unfold rpc_sql_set. destruct (str_empty _); [naive_solver|]. unfold live. cbn.
  destruct (decide (k = sample_json_str_get raw "key")) as [->|Hne].
  - rewrite lookup_insert_eq. naive_solver.
  - rewrite lookup_insert_ne by done. naive_solver.
Qed.

Lemma sql_unset_live key m k u : live (rpc_sql_unset key m).1 k u ↔ k ≠ key ∧ live m k u.
Proof.
  unfold rpc_sql_unset, live. cbn. destruct (decide (k = key)) as [->|Hne].
  - rewrite lookup_delete_eq. naive_solver.
  - rewrite lookup_delete_ne by done. naive_solver.
Qed.

Lemma sql_set_ok raw m :
  read_unit (m_sql m) (sample_json_str_get raw "key") = None → manager_ok m →
  manager_ok (rpc_sql_set raw m).1 ∧ ∀ k u, live (rpc_sql_set raw m).1 k u ↔ live m k u.
Proof.
  intros Hkey Hok. rewrite read_unit_none in Hkey.
  assert (∀ k u, live (rpc_sql_set raw m).1 k u ↔ live m k u) as Hlive.
  { intros k u. rewrite sql_set_live. split; [by intros [_ ?]|]. intros Hu. split; [|done]. intros _ ->. by destruct (Hkey u). }
  split; [|done]. unfold rpc_sql_set in *. destruct (str_empty _); [done|]. by apply manager_ok_sql.
Qed.

Lemma sql_unset_ok key m :
  read_unit (m_sql m) key = None → manager_ok m →
  manager_ok (rpc_sql_unset key m).1 ∧ ∀ k u, live (rpc_sql_unset key m).1 k u ↔ live m k u.
Proof.
  intros Hkey Hok. rewrite read_unit_none in Hkey.
  assert (∀ k u, live (rpc_sql_unset key m).1 k u ↔ live m k u) as Hlive.
  { intros k u. rewrite sql_unset_live. split; [by intros [_ ?]|]. intros Hu. split; [|done]. intros ->. by destruct (Hkey u). }
  split; [|done]. by apply manager_ok_sql.
Qed.

Lemma orderly_step_ok m m' : manager_step no_unit_key m m' → manager_ok m → manager_ok m'.
Proof.
  intros [name m0 m1 r Hname Hlt E|work_id m0|raw m0 Hkey|key m0 Hkey] Hok.
  - destruct (allocate_unit_ok ∅ name m0 Hok Hname Hlt) as (m2 & r' & E' & Hok' & _). congruence.
  - by apply free_unit_ok.
  - by apply sql_set_ok.
  - by apply sql_unset_ok.
Qed.

Lemma manager_step_ok m m' :
  manager_step any_key m m' → (∃ lost, manager_inv lost m) → ∃ lost, manager_inv lost m'.
Proof.
  intros [name m0 m1 r Hname Hlt E|work_id m0|raw m0 _|key m0 _] [lost Hok].
  - exists lost. destruct (allocate_unit_ok lost name m0 Hok Hname Hlt) as (m2 & r' & E' & Hok' & _). congruence.
  - exists lost. by apply free_unit_ok.
  - unfold rpc_sql_set. destruct (str_empty _) eqn:Ee; [by exists lost|].
    apply (manager_ok_forget lost m0 _ (sample_json_str_get raw "key") Hok). intros k u.
    pose proof (sql_set_live raw m0 k u) as Hs. unfold rpc_sql_set in Hs. rewrite Ee in Hs. naive_solver.
  - apply (manager_ok_forget lost m0 _ key Hok). intros k u. exact (sql_unset_live key m0 k u).
Qed.

(** A configuration a manager can start with. *)
Definition good_start (sql : gmap string any) (m : manager) : Prop :=
  start_manager sql = Ok m ∧ good_format (m_s_format m) ∧ 0 < m_port_start m ∧
  m_port_start m + Z.of_nat (length (m_ports m)) <= INT_MAX ∧ 0 <= m_counter m <= INT_MAX ∧
  map_Forall (λ _ v, match v with AnyUnit _ => False | _ => True end) sql.

Lemma good_start_ok sql m : good_start sql m → manager_ok m.
Proof.
  intros (Hstart & Hfmt & Hport & Hend & Hcounter & Hsql).
  assert (∀ k u, ¬ live m k u) as Hno.
  { intros k u Hu. unfold live in Hu. unfold start_manager in Hstart. repeat case_match; simplify_eq.
    exact (Hsql k (AnyUnit u) Hu). }
  split; try done.
  - intros k u Hu. by destruct (Hno k u).
  - intros k u Hu. by destruct (Hno k u).
  - intros i. split.
    + intros Hi. exfalso. unfold start_manager in Hstart. repeat case_match; simplify_eq. cbn in Hi.
      apply lookup_replicate in Hi as [? _]. done.
    + intros [(k & u & Hu & _)|[]%not_elem_of_empty]. by destruct (Hno k u).
  - intros k k' u u' i Hu. by destruct (Hno k u).
Qed.

Lemma reachable_manager_inv sql m0 m :
  good_start sql m0 → rtc (manager_step any_key) m0 m → ∃ lost, manager_inv lost m.
Proof.
  intros H0 Hrun. refine (rtc_preserves _ (λ m, ∃ lost, manager_inv lost m) _ _ _ Hrun _).
  - intros x y. apply manager_step_ok.
  - exists ∅. by eapply good_start_ok.
Qed.

Lemma orderly_manager_ok sql m0 m :
  good_start sql m0 → rtc (manager_step no_unit_key) m0 m → manager_ok m.
Proof.
  intros H0 Hrun. refine (rtc_preserves _ manager_ok _ _ _ Hrun (good_start_ok sql m0 H0)).
  intros x y. apply orderly_step_ok.
Qed.

(** C22.  Ports are never shared: after any sequence of registrations (under
    names without a percent sign, before the counter wraps around), releases
    and key-value calls with whatever keys, every registered unit has two ports
    of its own, marked busy, taken from the configured range, which its two
    URLs name, and no other unit has either of them.  As long as the key-value
    calls name no registered unit they never leak either: every port marked
    busy belongs to a registered unit.  (A call that does name one drops its
    registration and leaves its ports busy, [key_value_call_leaks_ports].) *)
Theorem unit_ports_exclusive (sql : gmap string any) (m0 m : manager) :
  good_start sql m0 → rtc (manager_step any_key) m0 m →
  (∀ k u, live m k u → ∃ i j, i ≠ j ∧ m_ports m !! i = Some true ∧ m_ports m !! j = Some true ∧
     parse_zmq_port m (ud_output_url u) = Some (m_port_start m + Z.of_nat i) ∧
     parse_zmq_port m (ud_inference_url u) = Some (m_port_start m + Z.of_nat j)) ∧
  (∀ k k' u u' i, live m k u → live m k' u' → owns m u i → owns m u' i → k = k') ∧
  (rtc (manager_step no_unit_key) m0 m → ∀ i, m_ports m !! i = Some true → ∃ k u, live m k u ∧ owns m u i).
Proof.
  intros H0 Hrun. destruct (reachable_manager_inv sql m0 m H0 Hrun) as [lost Hok]. split_and!.
  - intros k u Hu. destruct (ok_urls Hok k u Hu) as (i & j & Hij & Hi & Hj).
    exists i, j. split_and!; try done; apply (ok_busy Hok); left; exists k, u; (split; [done|]);
      apply (owns_iff m u i j); auto.
  - intros k k' u u' i. exact (ok_exclusive Hok k k' u u' i).
  - intros Horderly i. apply busy_live. by eapply orderly_manager_ok.
Qed.

(** Registration serves whenever it can: in any reachable state a
    plain name is registered under the next number when two ports are free,
    the registration is found under its work identifier and all others stay;
    otherwise nothing changes. *)
Theorem registration_served (sql : gmap string any) (m0 m : manager) (name : string) :
  good_start sql m0 → rtc (manager_step any_key) m0 m → char_in "%"%char name = false → m_counter m < INT_MAX →
  ∃ m' r, sys_allocate_unit name m = Ok (m', r) ∧
    match r with
    | Some u => ud_port u = m_counter m ∧ m_counter m' = m_counter m + 1 ∧
        ud_work_id u = sample_get_work_id (m_counter m) name ∧
        ∀ k v, live m' k v ↔ (k = ud_work_id u ∧ v = u) ∨ live m k v
    | None => m' = m ∧ (free_ports (m_ports m) <= 1)%nat
    end.
Proof.
  intros H0 Hrun Hname Hlt. destruct (reachable_manager_inv sql m0 m H0 Hrun) as [lost Hok].
  destruct (allocate_unit_ok lost name m Hok Hname Hlt) as (m' & r & E & _ & Hr).
  exists m', r. split; [done|]. destruct r as [u|]; [|done]. destruct Hr as (? & ? & ? & _ & _ & ?). by split_and!.
Qed.

(** What a unit reads first from a dispatched message is where the answer
    goes. *)
Lemma raw_zmq_com url json_str :
  char_in quote url = false → str_back url ≠ Some backslash →
  sample_json_str_get (inference_raw_data url json_str) "zmq_com" = url.
Proof.
  intros Hq Hb. unfold inference_raw_data.
  assert (quoted url +:+ "," +:+ str_drop 1 json_str = String quote (url +:+ String quote ("," +:+ str_drop 1 json_str))) as ->.
  { unfold quoted. by rewrite str_app_cons, str_app_assoc. }
  apply (scan_string_member "{" "zmq_com" url ("," +:+ str_drop 1 json_str)); [|done..]. reflexivity.
Qed.

Lemma inference_published `{DocumentReader} rpc (m : manager) (com_id : Z) (json_str request_id work_id url : string) (u : unit_data) :
  doc_ok json_str = true → doc_string json_str "request_id" = Some request_id →
  doc_string json_str "work_id" = Some work_id → doc_string json_str "action" = Some "inference" →
  str_empty work_id = false → read_unit (m_sql m) work_id = Some u →
  sprintf_int (m_c_format m) (Some com_id) = Ok url →
  unit_action_match rpc m com_id json_str = Ok [Publish (ud_inference_url u) (inference_raw_data url json_str)].
Proof.
  intros Hok Hreq Hwork Haction Hne Hu Hurl.
  unfold unit_action_match, zmq_bus_publisher_push. rewrite Hok, Hreq, Hwork, Haction. cbn [negb].
  rewrite Hne. change (("inference" =? "inference")%string) with true. cbv match. rewrite Hurl.
  cbn [mbind result_bind mret result_ret]. by rewrite Hne, Hu.
Qed.

(** An inference message for a registered unit is published on the unit's own
    URL, and the first thing the unit reads from it is where the answer goes:
    the URL of the client's session. *)
Lemma inference_dispatched `{DocumentReader} rpc (m : manager) (com_id : Z)
    (json_str request_id work_id url : string) (u : unit_data) :
  doc_ok json_str = true → doc_string json_str "request_id" = Some request_id →
  doc_string json_str "work_id" = Some work_id → doc_string json_str "action" = Some "inference" →
  str_empty work_id = false → read_unit (m_sql m) work_id = Some u →
  sprintf_int (m_c_format m) (Some com_id) = Ok url →
  char_in quote url = false → str_back url ≠ Some backslash →
  ∃ raw, unit_action_match rpc m com_id json_str = Ok [Publish (ud_inference_url u) raw] ∧
    sample_json_str_get raw "zmq_com" = url.
Proof.
  intros Hok Hreq Hwork Haction Hne Hu Hurl Hq Hb. exists (inference_raw_data url json_str).
  split; [by apply (inference_published rpc m com_id json_str request_id work_id url u)|by apply raw_zmq_com].
Qed.

(** An inference message for a unit that is not registered is dropped without
    a word: the code that should answer -4 is never reached. *)
Lemma unknown_unit_silent `{DocumentReader} rpc (m : manager) (com_id : Z) (json_str request_id work_id url : string) :
  doc_ok json_str = true → doc_string json_str "request_id" = Some request_id →
  doc_string json_str "work_id" = Some work_id → doc_string json_str "action" = Some "inference" →
  str_empty work_id = false → read_unit (m_sql m) work_id = None →
  sprintf_int (m_c_format m) (Some com_id) = Ok url →
  unit_action_match rpc m com_id json_str = Ok [].
Proof.
  intros Hok Hreq Hwork Haction Hne Hu Hurl.
  unfold unit_action_match, zmq_bus_publisher_push. rewrite Hok, Hreq, Hwork, Haction. cbn [negb].
  rewrite Hne. change (("inference" =? "inference")%string) with true. cbv match. rewrite Hurl.
  cbn [mbind result_bind mret result_ret]. by rewrite Hne, Hu.
Qed.

(** A message with an empty work identifier and another action ends the
    manager: the dispatch takes it for the system unit, the call reads the
    message again and throws. *)
Lemma empty_work_id_throws `{DocumentReader} rpc (m : manager) (com_id : Z) (json_str request_id action : string) :
  doc_ok json_str = true → doc_string json_str "request_id" = Some request_id →
  doc_string json_str "work_id" = Some "" → doc_string json_str "action" = Some action → action ≠ "inference" →
  ∃ what, unit_action_match rpc m com_id json_str = Throw what.
Proof.
  intros Hok Hreq Hwork Haction Hne. unfold unit_action_match, remote_call.
  rewrite Hok, Hreq, Hwork, Haction. apply String.eqb_neq in Hne. cbn. rewrite Hne. by eexists.
Qed.

(** ** Witnesses *)

(** The shipped configuration. *)
Definition master_config : json :=
  mk_obj [("config_tcp_server", JInt 10001); ("config_zmq_min_port", JInt 5010); ("config_zmq_max_port", JInt 5555);
          ("config_zmq_s_format", JStr "ipc:///tmp/llm/%i.sock"); ("config_zmq_c_format", JStr "ipc:///tmp/llm/%i.sock")].

Definition master_sql : gmap string any :=
  match load_default_config (Some master_config) ∅ with Ok sql => sql | Throw _ => ∅ end.
Definition idle_manager : manager :=
  match start_manager master_sql with Ok m => m | Throw _ => MkManager 0 0 [] ∅ "" "" end.
Definition manager_with_llm : manager :=
  match sys_allocate_unit "llm" idle_manager with Ok (m, _) => m | Throw _ => idle_manager end.

Lemma idle_manager_good : good_start master_sql idle_manager.
Proof.
  split_and!.
  - vm_compute. reflexivity.
  - exists "ipc:///tmp/llm/", ".sock". split_and!; try (vm_compute; reflexivity).
    intros c r [= <- _]. reflexivity.
  - vm_compute. reflexivity.
  - vm_compute. discriminate.
  - vm_compute. discriminate.
  - vm_compute. discriminate.
  - apply map_Forall_to_list. vm_compute. repeat constructor.
Qed.

Lemma register_llm_step writes : manager_step writes idle_manager manager_with_llm.
Proof.
  apply (StepRegister _ "llm" idle_manager manager_with_llm
           (Some (MkUnitData 0 "llm.0" "ipc:///tmp/llm/5010.sock.llm.output_url" "ipc:///tmp/llm/5011.sock.llm.inference_url"))).
  - reflexivity.
  - vm_compute. reflexivity.
  - vm_compute. reflexivity.
Qed.

Lemma unit_ports_exclusive_witness :
  ∃ u, live manager_with_llm "llm.0" u ∧
    ∃ i, m_ports manager_with_llm !! i = Some true ∧ parse_zmq_port manager_with_llm (ud_output_url u) = Some (5010 + Z.of_nat i).
Proof.
  destruct (unit_ports_exclusive master_sql idle_manager manager_with_llm) as [Hports _].
  - apply idle_manager_good.
  - apply rtc_once, register_llm_step.
  - exists (MkUnitData 0 "llm.0" "ipc:///tmp/llm/5010.sock.llm.output_url" "ipc:///tmp/llm/5011.sock.llm.inference_url").
    assert (live manager_with_llm "llm.0"
              (MkUnitData 0 "llm.0" "ipc:///tmp/llm/5010.sock.llm.output_url" "ipc:///tmp/llm/5011.sock.llm.inference_url"))
      as Hl by (vm_compute; reflexivity).
    split; [exact Hl|]. destruct (Hports _ _ Hl) as (i & j & _ & Hi & _ & Ho & _). exists i. split; [exact Hi|exact Ho].
Defined.

(** A key-value call under the work identifier of a unit drops its
    registration: the unit is unknown afterwards, its release finds nothing,
    and its two ports stay busy until the manager ends. *)
Lemma key_value_call_leaks_ports :
  let raw := "{" +:+ quoted "key" +:+ ":" +:+ quoted "llm.0" +:+ "," +:+ quoted "val" +:+ ":" +:+ quoted "x" +:+ "}" in
  let m := (rpc_sql_set raw manager_with_llm).1 in
  read_unit (m_sql manager_with_llm) "llm.0" ≠ None ∧ read_unit (m_sql m) "llm.0" = None ∧
  (sys_free_unit "llm.0" m).2 = -1 ∧
  m_ports (sys_free_unit "llm.0" m).1 !! 0%nat = Some true ∧ m_ports (sys_free_unit "llm.0" m).1 !! 1%nat = Some true.
Proof. vm_compute. done. Qed.

Lemma registration_served_witness :
  ∃ m' r, sys_allocate_unit "camera" manager_with_llm = Ok (m', r) ∧ m_counter manager_with_llm = 1.
Proof.
  destruct (registration_served master_sql idle_manager manager_with_llm "camera") as (m' & r & E & _).
  - apply idle_manager_good.
  - apply rtc_once, register_llm_step.
  - reflexivity.
  - vm_compute. reflexivity.
  - exists m', r. split; [exact E|vm_compute; reflexivity].
Defined.

(** A reader for messages that are all the same. *)
Definition chat_reader : DocumentReader := {|
  doc_ok _ := true;
  doc_string _ key :=
    if (key =? "request_id")%string then Some "7" else if (key =? "work_id")%string then Some "llm.0" else Some "inference";
|}.

Lemma inference_dispatched_witness :
  ∃ raw, unit_action_match (H := chat_reader) (λ _ _ _, 0) manager_with_llm 8000 "{}" =
      Ok [Publish "ipc:///tmp/llm/5011.sock.llm.inference_url" raw] ∧
    sample_json_str_get raw "zmq_com" = "ipc:///tmp/llm/8000.sock".
Proof.
  apply (inference_dispatched (H := chat_reader) (λ _ _ _, 0) manager_with_llm 8000 "{}" "7" "llm.0"
    "ipc:///tmp/llm/8000.sock"
    (MkUnitData 0 "llm.0" "ipc:///tmp/llm/5010.sock.llm.output_url" "ipc:///tmp/llm/5011.sock.llm.inference_url")).
  all: try (vm_compute; reflexivity).
  vm_compute. discriminate.
Defined.
