(* ===== verification/Session.v ===== *)
(** * The LLM unit: sessions, channels and streamed input

    [class vllm_llm] of [node/vllm-client/src/main.cpp] on top of
    [class StackFlow] and [class llm_channel_obj]
    ([infra-controller/src/StackFlow.cpp], [infra-controller/src/channel.cpp]):
    the handlers of setup, exit, taskinfo, reload_config, metrics_query and
    of inference messages.

    The handlers of setup, exit and taskinfo run on the event loop, those of
    reload_config and metrics_query on the RPC thread, those of messages on
    the threads of the subscriptions; each is one definition on the state of
    the unit.  [Throw] is an exception that leaves the handler: the event loop
    and the subscription threads do not catch it, so the process ends.
    Messages pushed to a URL are collected in [u_sent], the units given back
    to the unit manager in [u_released].  The answers of the unit manager to
    [register_unit] are arguments. *)
From S2P Require Import Prelude StdString Doubles Json Observability Metrics Types Endpoint Queue Records Config Stream Task Util.

(** ** Sessions *)

Record SessionContext := MkSessionContext {
  sx_work_id_num : Z;
  sx_work_id : string;
  sx_model : string;
  sx_response_format : string;
  sx_prompt : string;
  sx_default_action : string;
  sx_enoutput : bool;
  sx_enstream : bool;
  sx_default_max_tokens : Z;
  sx_default_timeout_ms : Z;
  sx_default_deadline_ms : Z;
  sx_default_max_retries : Z;
  sx_default_priority : Z;
  sx_allow_model_fallback : bool;
}.

Definition make_session_context (work_id_num : Z) (work_id : string) (config_body : json) : SessionContext :=
  let response_format := json_string_value config_body "response_format" "llm.utf-8.stream" in
  MkSessionContext work_id_num work_id
    (json_string_value config_body "model" "")
    response_format
    (json_string_value config_body "prompt" "")
    (json_string_value config_body "default_action" "chat")
    (json_bool_value config_body "enoutput" true)
    (json_bool_value config_body "stream"
       (json_bool_value config_body "enstream" (str_contains response_format "stream")))
    (json_int_value config_body "max_tokens" (json_int_value config_body "max_token_len" 0))
    (json_int_value config_body "timeout_ms" 0)
    (json_int_value config_body "deadline_ms" 0)
    (json_int_value config_body "max_retries" (json_int_value config_body "retry_count" (-1)))
    (json_int_value config_body "priority" (-1))
    (json_bool_value (policy_source config_body) "allow_model_fallback" true).

(** [if (cond) meta[key] = value]. *)
Definition set_default (cond : bool) (key : string) (value : json) (meta : json) : result json :=
  if cond then json_set meta key value else Ok meta.

Definition apply_session_defaults (session : SessionContext) (meta : json) : result json :=
  meta ← set_default (negb (str_empty (sx_model session)) && negb (contains meta "model"))
           "model" (JStr (sx_model session)) meta;
  meta ← set_default ((0 <? sx_default_max_tokens session) && negb (contains meta "max_tokens")
                        && negb (contains meta "max_token_len"))
           "max_tokens" (JInt (sx_default_max_tokens session)) meta;
  meta ← set_default ((0 <? sx_default_timeout_ms session) && negb (contains meta "timeout_ms"))
           "timeout_ms" (JInt (sx_default_timeout_ms session)) meta;
  meta ← set_default ((0 <? sx_default_deadline_ms session) && negb (contains meta "deadline_ms"))
           "deadline_ms" (JInt (sx_default_deadline_ms session)) meta;
  meta ← set_default ((0 <=? sx_default_max_retries session) && negb (contains meta "max_retries"))
           "max_retries" (JInt (sx_default_max_retries session)) meta;
  meta ← set_default ((0 <=? sx_default_priority session) && negb (contains meta "priority"))
           "priority" (JInt (sx_default_priority session)) meta;
  set_default (negb (contains meta "allow_model_fallback") && negb (contains meta "allow_degrade"))
    "allow_model_fallback" (JBool (sx_allow_model_fallback session)) meta.

Definition session_to_json (s : SessionContext) : json :=
  mk_obj [("work_id_num", JInt (sx_work_id_num s)); ("work_id", JStr (sx_work_id s));
          ("model", JStr (sx_model s)); ("response_format", JStr (sx_response_format s));
          ("default_action", JStr (sx_default_action s)); ("enoutput", JBool (sx_enoutput s));
          ("enstream", JBool (sx_enstream s)); ("default_max_tokens", JInt (sx_default_max_tokens s));
          ("default_timeout_ms", JInt (sx_default_timeout_ms s));
          ("default_deadline_ms", JInt (sx_default_deadline_ms s));
          ("default_max_retries", JInt (sx_default_max_retries s));
          ("default_priority", JInt (sx_default_priority s));
          ("allow_model_fallback", JBool (sx_allow_model_fallback s))].

(** ** Streamed input *)

Record StreamInputState := MkStreamInputState {
  si_chunks : gmap Z string;
  si_updated_ms : Z;
  si_total_bytes : Z;
}.

Definition kStreamInputTtlMs : Z := 60000.
Definition kMaxStreamInputChunks : Z := 4096.
Definition kMaxStreamInputBytes : Z := 8 * 1024 * 1024.

Abbreviation stream_table := (gmap string StreamInputState).

Definition cleanup_expired_stream_states_locked (current_ms : Z) (states : stream_table) : stream_table :=
  filter (λ item, ¬ kStreamInputTtlMs < current_ms - si_updated_ms item.2) states.

Definition stream_input_state (stream_key : string) (current_ms : Z) (states : stream_table)
    : stream_table * StreamInputState :=
  let states := cleanup_expired_stream_states_locked current_ms states in
  match states !! stream_key with
  | Some state => (states, state)
  | None =>
      let state := MkStreamInputState ∅ current_ms 0 in
      (<[stream_key := state]> states, state)
  end.

Definition stream_chunk_index (meta : json) : result Z :=
  match json_get meta "index" with
  | None => Throw "missing stream index"
  | Some (JInt z) => Ok (to_int z)
  | Some (JStr s) => stoi s
  | Some _ => Throw "invalid stream index"
  end.

(** What one chunk leads to: more input is needed, an error message, or the
    assembled text. *)
Inductive assembly :=
  | NeedMore
  | BadInput (error_message : string)
  | Assembled (text : string).

(** The loop over the completed chunks; it stops at a missing index. *)
Fixpoint join_chunks (i : Z) (n : nat) (chunks : gmap Z string) : assembly :=
  match n with
  | O => Assembled ""
  | S n =>
      match chunks !! i with
      | None => BadInput ("stream input missing chunk index " +:+ to_string i)
      | Some chunk =>
          match join_chunks (i + 1) n chunks with
          | Assembled rest => Assembled (chunk +:+ rest)
          | other => other
          end
      end
  end.

Definition str_size (s : string) : Z := Z.of_nat (String.length s).

(** The critical section that stores a chunk. *)
Definition store_chunk (index : Z) (delta : string) (current_ms : Z) (state : StreamInputState)
    : StreamInputState :=
  let old_size := match si_chunks state !! index with Some old => str_size old | None => 0 end in
  MkStreamInputState (<[index := delta]> (si_chunks state)) current_ms
    (si_total_bytes state - old_size + str_size delta).

Definition assemble_stream_input (current_ms : Z) (stream_key : string) (meta : json) (states : stream_table)
    : result (stream_table * assembly) :=
  index ← stream_chunk_index meta;
  if index <? 0 then mret (states, BadInput "stream index must be non-negative")
  else
    let finish := json_bool_value meta "finish" false in
    let delta := json_string_value meta "delta" "" in
    let '(states, state) := stream_input_state stream_key current_ms states in
    let state := store_chunk index delta current_ms state in
    let states := <[stream_key := state]> states in
    if kMaxStreamInputChunks <? Z.of_nat (size (si_chunks state)) then
      mret (states, BadInput "stream input has too many chunks")
    else if kMaxStreamInputBytes <? si_total_bytes state then
      mret (states, BadInput "stream input is too large")
    else if negb finish then mret (states, NeedMore)
    else
      mret (delete stream_key states, join_chunks 0 (size (si_chunks state)) (si_chunks state)).

(** One streamed message as [task_user_data] handles it: an exception is an
    error of the stream, and an error drops the stream. *)
Definition feed_chunk (current_ms : Z) (stream_key : string) (meta : json) (states : stream_table)
    : stream_table * assembly :=
  let '(states, a) :=
    match assemble_stream_input current_ms stream_key meta states with
    | Ok r => r
    | Throw _ => (states, BadInput "Stream data index error.")
    end in
  match a with
  | BadInput _ => (delete stream_key states, a)
  | _ => (states, a)
  end.

(** ** The unit *)

(** The members of [llm_channel_obj] the handlers use; [ch_subscribed] tells
    whether the subscription to the inference URL exists. *)
Record channel := MkChannel {
  ch_publisher_url : string;
  ch_inference_url : string;
  ch_request_id : string;
  ch_work_id : string;
  ch_output_url : string;
  ch_enoutput : bool;
  ch_enstream : bool;
  ch_subscribed : bool;
}.
#[export] Instance eta_ch : Eta channel := fun c =>
  MkChannel (ch_publisher_url c) (ch_inference_url c) (ch_request_id c) (ch_work_id c) (ch_output_url c)
    (ch_enoutput c) (ch_enstream c) (ch_subscribed c).

Definition new_channel (publisher_url inference_url : string) : channel :=
  MkChannel publisher_url inference_url "" "" "" false false false.

(** A JSON document pushed to a URL, as the text [dump] prints. *)
Record push := MkPush {
  push_url : string;
  push_body : json;
}.

Definition max_sessions_ : Z := 1024.

Section unit.
Context `{TimeSeriesStore} `{JsonText}.

Record llm_unit := MkUnit {
  u_unit_name : string;
  u_request_id : string;
  u_out_zmq_url : string;
  u_channels : gmap Z channel;
  u_sessions : gmap Z SessionContext;
  u_task : option task;
  u_process : process;
  u_streams : stream_table;
  u_sent : list push;
  u_released : list string;
}.

#[export] Instance eta_u : Eta llm_unit := fun u =>
  MkUnit (u_unit_name u) (u_request_id u) (u_out_zmq_url u) (u_channels u) (u_sessions u) (u_task u)
    (u_process u) (u_streams u) (u_sent u) (u_released u).

(** What the outside supplies to a handler: the wall clock in seconds, the
    steady clock in milliseconds, the environment, the flush times of the
    metrics store and which endpoint objects have owners. *)
Record outside := MkOutside {
  o_time : Z;
  o_now_ms : Z;
  o_env : string → string;
  o_flush : Z * Z;
  o_alive : loc → bool;
}.

Definition message_body (o : outside) (request_id work_id object : string) (data error : json) : json :=
  mk_obj [("request_id", JStr request_id); ("work_id", JStr work_id); ("created", JInt (o_time o));
          ("object", JStr object); ("data", data); ("error", error)].

Definition error_json (code : Z) (message : string) : json :=
  mk_obj [("code", JInt code); ("message", JStr message)].

(** The text of the message is printed before it is sent: [dump] throws when
    a string of it is not UTF-8, and nothing on the way out catches that. *)
Definition push_message (url : string) (body : json) (u : llm_unit) : result llm_unit :=
  _ ← json_dump body;
  mret (u <| u_sent := u_sent u ++ [MkPush url body] |>).

(** [StackFlow::send] with [LLM_NO_ERROR]. *)
Definition send (o : outside) (object : string) (data : json) (work_id : string) (u : llm_unit) : result llm_unit :=
  push_message (u_out_zmq_url u) (message_body o (u_request_id u) work_id object data (error_json 0 "")) u.

Definition send_error (o : outside) (work_id : string) (code : Z) (message : string) (u : llm_unit) : result llm_unit :=
  push_message (u_out_zmq_url u)
    (message_body o (u_request_id u) work_id "None" (JStr "None") (error_json code message)) u.

(** [send_client_message]: nothing without a URL. *)
Definition output_body (o : outside) (m : output_message) : json :=
  message_body o (om_request_id m) (om_work_id m) (om_object m) (om_data m)
    (error_json (om_error_code m) (om_error_message m)).

Definition send_client_message (o : outside) (m : output_message) (u : llm_unit) : result llm_unit :=
  if str_empty (om_output_url m) then mret u else push_message (om_output_url m) (output_body o m) u.

(** The messages of one call of the output callback after the other. *)
Fixpoint send_client_messages (o : outside) (out : list output_message) (u : llm_unit) : result llm_unit :=
  match out with
  | [] => mret u
  | m :: out => u ← send_client_message o m u; send_client_messages o out u
  end.

Definition get_channel (work_id_num : Z) (u : llm_unit) : result channel :=
  match u_channels u !! work_id_num with
  | Some c => Ok c
  | None => Throw "out_of_range"
  end.

Definition set_channel (work_id_num : Z) (c : channel) (u : llm_unit) : llm_unit :=
  u <| u_channels := <[work_id_num := c]> (u_channels u) |>.

(** [channel->set_push_url(zmq_url)] in a [try] block that ignores everything. *)
Definition try_set_push_url (work_id zmq_url : string) (u : llm_unit) : llm_unit :=
  match n ← sample_get_work_id_num work_id; c ← get_channel n u; mret (n, c) with
  | Ok (n, c) => set_channel n (c <| ch_output_url := zmq_url |>) u
  | Throw _ => u
  end.

(** What [_setup], [_exit], [_taskinfo], [_rpc_reload_config] and
    [_rpc_metrics_query] write first: where the answer goes and what it names.
    These members are shared by the event loop and the threads of the remote
    calls, without a lock; the answer is sent with what they hold then. *)
Definition begin_call (zmq_url raw : string) (u : llm_unit) : llm_unit :=
  u <| u_request_id := sample_json_str_get raw "request_id" |> <| u_out_zmq_url := zmq_url |>.

(** *** Setup *)

(** The part of [vllm_llm::setup] that loads and starts the shared scheduler
    when there is none; the message is that of a failed load. *)
Definition ensure_task (o : outside) (config_body : json) (u : llm_unit) : llm_unit * option string :=
  match u_task u with
  | Some _ => (u, None)
  | None =>
      let '(t, p, code) :=
        load_model (o_env o) (o_alive o) (o_flush o) config_body (new_task "shared") (u_process u) in
      let u := u <| u_process := p |> in
      if negb (code =? 0) then
        (u, Some (if str_empty (tc_last_error (t_config t)) then "Model loading failed."
                  else tc_last_error (t_config t)))
      else (u <| u_task := Some (start t) |>, None)
  end.

(** [vllm_llm::setup]: the code it returns. *)
Definition llm_setup (o : outside) (work_id data : string) (u : llm_unit) : result (llm_unit * Z) :=
  work_id_num ← sample_get_work_id_num work_id;
  match json_parse data with
  | Throw _ => u ← send_error o work_id (-2) "json format error." u; mret (u, -2)
  | Ok config_body =>
      let session := make_session_context work_id_num work_id config_body in
      match u_sessions u !! work_id_num with
      | Some _ => u ← send_error o work_id (-22) "session already exists" u; mret (u, -1)
      | None =>
          if max_sessions_ <=? Z.of_nat (size (u_sessions u)) then
            u ← send_error o work_id (-21) "session full" u; mret (u, -1)
          else
            match ensure_task o config_body u with
            | (u, Some message) => u ← send_error o work_id (-5) message u; mret (u, -1)
            | (u, None) =>
                let u := u <| u_sessions := <[work_id_num := session]> (u_sessions u) |> in
                c ← get_channel work_id_num u;
                let c := c <| ch_enoutput := sx_enoutput session |> <| ch_enstream := sx_enstream session |>
                           <| ch_subscribed := true |> in
                u ← send o "None" (JStr "None") work_id (set_channel work_id_num c u);
                mret (u, 0)
            end
      end
  end.

(** The answer of the unit manager to [register_unit]. *)
Record registration := MkRegistration {
  rg_number : string;
  rg_out_port : string;
  rg_inference_port : string;
}.

(** [StackFlow::sys_register_unit]. *)
Definition sys_register_unit (reg : registration) (u : llm_unit) : result (llm_unit * Z) :=
  n ← stoi (rg_number reg);
  mret (set_channel n (new_channel (rg_out_port reg) (rg_inference_port reg)) u, n).

(** [StackFlow::sys_release_unit]; the call of [release_unit] on the unit
    manager is noted in [u_released]. *)
Definition sys_release_unit (work_id_num : Z) (work_id : string) (u : llm_unit) : result llm_unit :=
  n ← (if str_empty work_id then Ok work_id_num else sample_get_work_id_num work_id);
  let _work_id := if str_empty work_id then sample_get_work_id work_id_num (u_unit_name u) else work_id in
  mret (u <| u_released := u_released u ++ [_work_id] |> <| u_channels := delete n (u_channels u) |>).

(** [StackFlow::setup(zmq_url, raw)], and with [_setup] the setup event. *)
Definition setup_call (o : outside) (reg : registration) (zmq_url raw : string) (u : llm_unit) : result llm_unit :=
  '(u, workid_num) ← sys_register_unit reg u;
  let work_id := sample_get_work_id workid_num (u_unit_name u) in
  c ← get_channel workid_num u;
  let u := set_channel workid_num
             (c <| ch_output_url := zmq_url |> <| ch_request_id := sample_json_str_get raw "request_id" |>
                <| ch_work_id := work_id |>) u in
  '(u, code) ← llm_setup o work_id (sample_json_str_get raw "data") u;
  if negb (code =? 0) then sys_release_unit workid_num work_id u else mret u.

Definition on_setup (o : outside) (reg : registration) (zmq_url raw : string) (u : llm_unit) : result llm_unit :=
  setup_call o reg zmq_url raw (begin_call zmq_url raw u).

(** *** Exit *)

Definition llm_exit (o : outside) (work_id : string) (u : llm_unit) : result (llm_unit * Z) :=
  work_id_num ← sample_get_work_id_num work_id;
  match u_sessions u !! work_id_num with
  | None => u ← send_error o work_id (-6) "Unit Does Not Exist" u; mret (u, -1)
  | Some _ =>
      let u := u <| u_sessions := delete work_id_num (u_sessions u) |> in
      c ← get_channel work_id_num u;
      let u := set_channel work_id_num (c <| ch_subscribed := false |>) u in
      u ← send o "None" (JStr "None") work_id u;
      mret (u, 0)
  end.

(** [StackFlow::exit(zmq_url, raw)], and with [_exit] the exit event. *)
Definition exit_call (o : outside) (zmq_url raw : string) (u : llm_unit) : result llm_unit :=
  let work_id := sample_json_str_get raw "work_id" in
  let u := try_set_push_url work_id zmq_url u in
  '(u, code) ← llm_exit o work_id u;
  if code =? 0 then sys_release_unit (-1) work_id u else mret u.

Definition on_exit (o : outside) (zmq_url raw : string) (u : llm_unit) : result llm_unit :=
  exit_call o zmq_url raw (begin_call zmq_url raw u).

(** *** Task information *)

Definition llm_taskinfo (o : outside) (work_id data : string) (u : llm_unit) : result llm_unit :=
  let query :=
    if negb (str_empty data) && negb (data =? "None")%string then
      match json_parse data with Ok q => q | Throw _ => json_object end
    else json_object in
  work_id_num ← sample_get_work_id_num work_id;
  let head := [("session_count", JInt (Z.of_nat (size (u_sessions u)))); ("max_sessions", JInt max_sessions_);
               ("shared_scheduler_initialized", JBool (match u_task u with Some _ => true | None => false end))] in
  let scheduler :=
    match u_task u with
    | Some t => Task.taskinfo (o_now_ms o) query t (u_process u)
    | None => mk_obj [("status", JStr "not_initialized")]
    end in
  if work_id_num =? WORK_ID_NONE then
    let sessions := JArr ((λ item, session_to_json item.2) <$> map_to_list (u_sessions u)) in
    send o "llm.tasklist" (mk_obj (head ++ [("sessions", sessions); ("shared_scheduler", scheduler)])) work_id u
  else
    match u_sessions u !! work_id_num with
    | None => send_error o work_id (-6) "Unit Does Not Exist" u
    | Some session =>
        send o "llm.taskinfo"
          (mk_obj (head ++ [("session", session_to_json session); ("shared_scheduler", scheduler)])) work_id u
    end.

Definition taskinfo_call (o : outside) (zmq_url raw : string) (u : llm_unit) : result llm_unit :=
  let work_id := sample_json_str_get raw "work_id" in
  let u := try_set_push_url work_id zmq_url u in
  llm_taskinfo o work_id (sample_json_str_get raw "data") u.

Definition on_taskinfo (o : outside) (zmq_url raw : string) (u : llm_unit) : result llm_unit :=
  taskinfo_call o zmq_url raw (begin_call zmq_url raw u).

(** *** Reload and metrics queries *)

(** The body of a call whose [data] member is an object or a JSON string; the
    prefix names the action in the error messages. *)
Definition call_body (action : string) (root : json) : string + json :=
  match json_get root "data" with
  | None => inr root
  | Some (JObj m) => inr (JObj m)
  | Some (JStr s) =>
      if negb (str_empty s) && negb (s =? "None")%string then
        match json_parse s with
        | Ok body => inr body
        | Throw _ => inl (action +:+ " data json format error.")
        end
      else inr json_object
  | Some JNull => inr json_object
  | Some _ => inl (action +:+ " data must be a json object or json string.")
  end.

Definition call_work_id (root : json) : string :=
  let work_id := json_string_value root "work_id" "None" in
  if str_empty work_id then "None" else work_id.

(** [vllm_llm::reload_config] after its first line, the whole of it, and with
    [_rpc_reload_config] the remote call. *)
Definition reload_answer (o : outside) (raw : string) (u : llm_unit) : result llm_unit :=
  match json_parse raw with
  | Throw _ => send_error o "None" (-2) "json format error." u
  | Ok root =>
      let work_id := call_work_id root in
      match call_body "reload_config" root with
      | inl message => send_error o work_id (-2) message u
      | inr config_body =>
          match u_task u with
          | None => send_error o work_id (-45) "shared scheduler not initialized" u
          | Some t =>
              let '(t, p, err) := reload_config (o_now_ms o) (o_flush o) config_body t (u_process u) in
              let u := u <| u_task := Some t |> <| u_process := p |> in
              match err with
              | Some message =>
                  send_error o work_id (-46) (if str_empty message then "reload_config failed" else message) u
              | None =>
                  send o "llm.reload_config"
                    (mk_obj [("config_version", JInt (t_config_version t));
                             ("config_update_count", JInt (t_config_update_count t))]) work_id u
              end
          end
      end
  end.

Definition reload_call (o : outside) (zmq_url raw : string) (u : llm_unit) : result llm_unit :=
  reload_answer o raw (u <| u_out_zmq_url := zmq_url |>).

Definition on_reload_config (o : outside) (zmq_url raw : string) (u : llm_unit) : result llm_unit :=
  reload_call o zmq_url raw (begin_call zmq_url raw u).

(** [vllm_llm::metrics_query] in the same way, and [_rpc_metrics_query]. *)
Definition metrics_answer (o : outside) (wall_now_ms : Z) (raw : string) (u : llm_unit) : result llm_unit :=
  match json_parse raw with
  | Throw _ => send_error o "None" (-2) "json format error." u
  | Ok root =>
      let work_id := call_work_id root in
      match call_body "metrics_query" root with
      | inl message => send_error o work_id (-2) message u
      | inr query_body =>
          match u_task u with
          | None => send_error o work_id (-45) "shared scheduler not initialized" u
          | Some t => send o "llm.metrics" (Task.metrics_query wall_now_ms query_body t) work_id u
          end
      end
  end.

Definition metrics_call (o : outside) (wall_now_ms : Z) (zmq_url raw : string) (u : llm_unit) : result llm_unit :=
  metrics_answer o wall_now_ms raw (u <| u_out_zmq_url := zmq_url |>).

Definition on_metrics_query (o : outside) (wall_now_ms : Z) (zmq_url raw : string) (u : llm_unit)
    : result llm_unit :=
  metrics_call o wall_now_ms zmq_url raw (begin_call zmq_url raw u).

(** *** Inference messages *)

Definition client_error (c : channel) (code : Z) (message : string) : output_message :=
  MkOutputMessage (ch_request_id c) (ch_work_id c) (ch_output_url c) "None" (JStr "None") code message.

(** The text of the request: the message itself or the assembled stream. *)
Definition request_text (o : outside) (c : channel) (object data : string) (request_meta : json) (u : llm_unit)
    : result (llm_unit * assembly) :=
  if negb (str_contains object "stream") then mret (u, Assembled data)
  else
    let stream_key := ch_work_id c +:+ ":" +:+ ch_request_id c in
    let '(states, a) := feed_chunk (o_now_ms o) stream_key request_meta (u_streams u) in
    let u := u <| u_streams := states |> in
    match a with
    | BadInput message => u ← send_client_message o (client_error c (-25) message) u; mret (u, a)
    | _ => mret (u, a)
    end.

(** [task_user_data] for a channel that is still alive. *)
Definition task_user_data (o : outside) (c : channel) (object data : string) (u : llm_unit) : result llm_unit :=
  work_id_num ← sample_get_work_id_num (ch_work_id c);
  match u_task u, u_sessions u !! work_id_num with
  | Some t, Some session =>
      if str_empty data || (data =? "None")%string then
        send_client_message o (client_error c (-24) "The inference data is empty.") u
      else
        let request_meta := match json_parse data with Ok j => j | Throw _ => json_object end in
        r ← request_text o c object data request_meta u;
        match r with
        | (u, Assembled text) =>
            meta ← apply_session_defaults session request_meta;
            let options := MkRequestOptions (sx_response_format session) (sx_prompt session)
                             (sx_default_action session) (sx_enoutput session) (sx_enstream session) in
            let '(t, out) := inference (o_now_ms o) (ch_request_id c) (ch_work_id c) (ch_output_url c) object
                               text meta options t in
            send_client_messages o out (u <| u_task := Some t |>)
        | (u, _) => mret u
        end
  | _, _ => send_client_message o (client_error c (-6) "Unit Does Not Exist") u
  end.

(** The search of [subscriber_event_call]: an occurrence of the quoted word
    [action] that is neither at the start nor after a backslash. *)
Fixpoint has_action_key (fuel : nat) (pos : nat) (raw : string) : bool :=
  match fuel with
  | O => false
  | S fuel =>
      match str_find_from pos (quoted "action") raw with
      | None => false
      | Some p =>
          if (0 <? p)%nat && negb (bool_decide (String.get (p - 1) raw = Some backslash)) then true
          else has_action_key fuel (p + 8) raw
      end
  end.

(** The channel after [subscriber_event_call] has read where the message comes
    from. *)
Definition routed_channel (raw : string) (c : channel) : channel :=
  if has_action_key (S (String.length raw)) 0 raw then
    let zmq_com := sample_json_str_get raw "zmq_com" in
    let c := if str_empty zmq_com then c else c <| ch_output_url := zmq_com |> in
    c <| ch_request_id := sample_json_str_get raw "request_id" |>
      <| ch_work_id := sample_json_str_get raw "work_id" |>
  else c.

(** The writes of [subscriber_event_call] on channel [work_id_num]. *)
Definition receive_message (work_id_num : Z) (raw : string) (u : llm_unit) : llm_unit :=
  match u_channels u !! work_id_num with
  | Some c => if ch_subscribed c then set_channel work_id_num (routed_channel raw c) u else u
  | None => u
  end.

(** The callback, [task_user_data], which reads the members of the channel
    again: the event loop may have written to them since. *)
Definition process_message (o : outside) (work_id_num : Z) (raw : string) (u : llm_unit) : result llm_unit :=
  match u_channels u !! work_id_num with
  | Some c =>
      if ch_subscribed c then
        task_user_data o c (sample_json_str_get raw "object") (sample_json_str_get raw "data") u
      else mret u
  | None => mret u
  end.

Definition on_user_message (o : outside) (work_id_num : Z) (raw : string) (u : llm_unit) : result llm_unit :=
  process_message o work_id_num raw (receive_message work_id_num raw u).
End unit.

(** ** Lemmas *)

(** The bytes of a set of chunks. *)
Definition chunk_bytes (chunks : gmap Z string) : Z := map_fold (λ _ c n, str_size c + n) 0 chunks.

Lemma chunk_bytes_insert_new chunks i c :
  chunks !! i = None → chunk_bytes (<[i := c]> chunks) = str_size c + chunk_bytes chunks.
Proof.
  intros Hi. unfold chunk_bytes. rewrite map_fold_insert_L; [done| |done]. intros; lia.
Qed.

Lemma chunk_bytes_insert chunks i c :
  chunk_bytes (<[i := c]> chunks) =
  chunk_bytes chunks - match chunks !! i with Some old => str_size old | None => 0 end + str_size c.
Proof.
  destruct (chunks !! i) as [old|] eqn:Hi.
  - rewrite <- (insert_id chunks i old Hi) at 2. rewrite <- (insert_delete_eq chunks i c), <- (insert_delete_eq chunks i old).
    rewrite !chunk_bytes_insert_new by apply lookup_delete_eq. lia.
  - rewrite chunk_bytes_insert_new by done. lia.
Qed.

Definition stream_ok (state : StreamInputState) : Prop := si_total_bytes state = chunk_bytes (si_chunks state).

Lemma store_chunk_ok i d now state : stream_ok state → stream_ok (store_chunk i d now state).
Proof. unfold stream_ok, store_chunk. cbn. intros ->. by rewrite chunk_bytes_insert. Qed.

(** The message of chunk [i]. *)
Definition chunk_meta (i : Z) (delta : string) (finish : bool) : json :=
  mk_obj [("index", JInt i); ("delta", JStr delta); ("finish", JBool finish)].

Lemma chunk_meta_fields i d b :
  json_get (chunk_meta i d b) "index" = Some (JInt i) ∧
  json_string_value (chunk_meta i d b) "delta" "" = d ∧ json_bool_value (chunk_meta i d b) "finish" false = b.
Proof. done. Qed.

(** The text of the chunks [i], [i + 1], ... of a list. *)
Fixpoint text_of (deltas : list string) : string :=
  match deltas with [] => "" | d :: deltas => d +:+ text_of deltas end.

Lemma join_chunks_spec deltas : ∀ i chunks,
  (∀ j d, deltas !! j = Some d → chunks !! (i + Z.of_nat j) = Some d) →
  join_chunks i (length deltas) chunks = Assembled (text_of deltas).
Proof.
  induction deltas as [|d deltas IH]; intros i chunks Hch; [done|]. cbn [length join_chunks text_of].
  pose proof (Hch 0%nat d eq_refl) as H0. rewrite Z.add_0_r in H0. rewrite H0, IH; [done|].
  intros j d' Hj. replace (i + 1 + Z.of_nat j) with (i + Z.of_nat (S j)) by lia. by apply Hch.
Qed.

(** The chunks received so far: those of the indices in [seen]. *)
Definition received (deltas : list string) (seen : list nat) : gmap Z string :=
  list_to_map ((λ i, (Z.of_nat i, default "" (deltas !! i))) <$> seen).

Lemma received_cons deltas i seen :
  received deltas (i :: seen) = <[Z.of_nat i := default "" (deltas !! i)]> (received deltas seen).
Proof. done. Qed.

Lemma received_lookup deltas seen i :
  received deltas seen !! Z.of_nat i = if decide (i ∈ seen) then Some (default "" (deltas !! i)) else None.
Proof.
  induction seen as [|k seen IH]; [done|]. rewrite received_cons.
  destruct (decide (k = i)) as [->|Hne].
  - rewrite lookup_insert_eq, decide_True by (by left). done.
  - rewrite lookup_insert_ne, IH by lia. apply decide_ext. rewrite elem_of_cons. naive_solver.
Qed.

Lemma received_size deltas seen : NoDup seen → size (received deltas seen) = length seen.
Proof.
  induction 1 as [|i seen Hi _ IH]; [done|]. rewrite received_cons, map_size_insert_None, IH; [done|].
  by rewrite received_lookup, decide_False.
Qed.

Definition total_size (deltas : list string) : Z := foldr (λ d n, str_size d + n) 0 deltas.

Lemma total_size_nonneg deltas : 0 <= total_size deltas.
Proof. induction deltas as [|d deltas IH]; simpl; [done|]. unfold str_size. lia. Qed.

Lemma total_size_app l1 l2 : total_size (l1 ++ l2) = total_size l1 + total_size l2.
Proof. induction l1 as [|d l1 IH]; simpl; [done|]. rewrite IH. lia. Qed.

Lemma total_size_perm l1 l2 : l1 ≡ₚ l2 → total_size l1 = total_size l2.
Proof. induction 1; simpl; lia. Qed.

Lemma all_deltas deltas : (λ i, default "" (deltas !! i)) <$> seq 0 (length deltas) = deltas.
Proof.
  apply list_eq. intros i. rewrite list_lookup_fmap.
  destruct (decide (i < length deltas)%nat) as [Hi|Hi].
  - rewrite lookup_seq_lt by done. simpl. destruct (lookup_lt_is_Some_2 deltas i Hi) as [d ->]. done.
  - rewrite lookup_seq_ge by lia. simpl. symmetry. apply lookup_ge_None. lia.
Qed.

(** Any distinct indices account for at most the whole text. *)
Lemma sum_sizes_le deltas seen :
  seen ⊆+ seq 0 (length deltas) →
  total_size ((λ i, default "" (deltas !! i)) <$> seen) <= total_size deltas.
Proof.
  intros [rest E]%submseteq_Permutation.
  rewrite <- (f_equal total_size (all_deltas deltas)).
  rewrite (total_size_perm _ _ (fmap_Permutation _ _ _ E)), fmap_app, total_size_app.
  pose proof (total_size_nonneg ((λ i, default "" (deltas !! i)) <$> rest)). lia.
Qed.

Lemma received_bytes deltas seen :
  NoDup seen → chunk_bytes (received deltas seen) = total_size ((λ i, default "" (deltas !! i)) <$> seen).
Proof.
  induction 1 as [|i seen Hi _ IH]; [done|]. rewrite received_cons, chunk_bytes_insert_new, IH; [done|].
  by rewrite received_lookup, decide_False.
Qed.

(** *** Reassembly of a streamed input *)

(** One streamed message: its arrival time, its stream and its content. *)
Record chunk_event := MkChunkEvent {
  se_ms : Z;
  se_key : string;
  se_meta : json;
}.

Fixpoint feed_all (events : list chunk_event) (states : stream_table) : stream_table * list (string * assembly) :=
  match events with
  | [] => (states, [])
  | e :: events =>
      let '(states, a) := feed_chunk (se_ms e) (se_key e) (se_meta e) states in
      let '(states, out) := feed_all events states in
      (states, (se_key e, a) :: out)
  end.

(** The messages of the chunks [order] of a text; the last one finishes it. *)
Fixpoint chunk_messages (deltas : list string) (order : list nat) : list json :=
  match order with
  | [] => []
  | i :: rest =>
      chunk_meta (Z.of_nat i) (default "" (deltas !! i)) (match rest with [] => true | _ => false end)
        :: chunk_messages deltas rest
  end.

Definition own {A B} (key : string) (f : A → string * B) (l : list A) : list B :=
  snd <$> filter (λ x : string * B, x.1 = key) (f <$> l).

Definition own_messages (key : string) (events : list chunk_event) : list json :=
  own key (λ e, (se_key e, se_meta e)) events.

Definition own_answers (key : string) (out : list (string * assembly)) : list assembly := own key (λ x, x) out.

Lemma own_cons {A B} key (f : A → string * B) x l :
  own key f (x :: l) = if decide ((f x).1 = key) then (f x).2 :: own key f l else own key f l.
Proof. unfold own. rewrite fmap_cons, filter_cons. by case_decide. Qed.

(** The stream [key] holds the chunks [seen], stored at [t0] or later. *)
Definition stream_holds (t0 : Z) (deltas : list string) (seen : list nat) (o : option StreamInputState) : Prop :=
  match o with
  | None => seen = []
  | Some st => si_chunks st = received deltas seen ∧ t0 <= si_updated_ms st ∧ stream_ok st
  end.

Lemma cleanup_lookup now key states t0 deltas seen :
  stream_holds t0 deltas seen (states !! key) → now <= t0 + kStreamInputTtlMs →
  cleanup_expired_stream_states_locked now states !! key = states !! key.
Proof.
  intros Hh Hnow. unfold cleanup_expired_stream_states_locked.
  destruct (states !! key) as [st|] eqn:E.
  - apply map_lookup_filter_Some_2; [done|]. simpl in *. lia.
  - apply map_lookup_filter_None. by left.
Qed.

(** A message of another stream leaves this one alone. *)
Lemma assemble_other now key key' meta states t0 deltas seen r :
  key' ≠ key → stream_holds t0 deltas seen (states !! key) → now <= t0 + kStreamInputTtlMs →
  assemble_stream_input now key' meta states = Ok r → r.1 !! key = states !! key.
Proof.
  intros Hne Hh Hnow. pose proof (cleanup_lookup _ _ _ _ _ _ Hh Hnow) as Hc.
  unfold assemble_stream_input, stream_input_state, mret, result_ret.
  set (cl := cleanup_expired_stream_states_locked now states) in *.
  destruct (stream_chunk_index meta); cbn; [|done].
  destruct (cl !! key'); cbn; intros Hr; split_ifs_in Hr; injection Hr as <-; cbn;
    repeat first [rewrite lookup_delete_ne by done | rewrite lookup_insert_ne by done]; done.
Qed.

Lemma feed_chunk_other now key key' meta states t0 deltas seen :
  key' ≠ key → stream_holds t0 deltas seen (states !! key) → now <= t0 + kStreamInputTtlMs →
  (feed_chunk now key' meta states).1 !! key = states !! key.
Proof.
  intros Hne Hh Hnow. unfold feed_chunk.
  destruct (assemble_stream_input now key' meta states) as [[states' a]|w] eqn:E; cbn.
  - apply (assemble_other _ key _ _ _ _ _ _ _ Hne Hh Hnow) in E. cbn in E.
    destruct a; cbn; [done| |done]. by rewrite lookup_delete_ne.
  - by rewrite lookup_delete_ne.
Qed.

(** The state a chunk of the stream is added to. *)
Lemma stream_input_state_holds now key states t0 deltas seen :
  stream_holds t0 deltas seen (states !! key) → t0 <= now <= t0 + kStreamInputTtlMs →
  let st := (stream_input_state key now states).2 in si_chunks st = received deltas seen ∧ stream_ok st.
Proof.
  intros Hh Hnow. unfold stream_input_state. rewrite (cleanup_lookup now key states t0 deltas seen Hh) by lia.
  destruct (states !! key) as [st|]; simpl in *; [naive_solver|]. by subst.
Qed.

(** The next index is new and in range. *)
Lemma next_chunk (deltas : list string) (seen : list nat) i rest :
  seen ++ i :: rest ≡ₚ seq 0 (length deltas) →
  (i < length deltas)%nat ∧ NoDup (i :: seen) ∧ i :: seen ⊆+ seq 0 (length deltas).
Proof.
  intros Hperm. split_and!.
  - assert (i ∈ seq 0 (length deltas)) as [_ Hlt]%elem_of_seq; [|done].
    rewrite <- Hperm. apply elem_of_app. right. by left.
  - pose proof (NoDup_seq 0 (length deltas)) as Hs. rewrite <- Hperm, <- Permutation_middle in Hs.
    apply (NoDup_app (i :: seen) rest) in Hs. tauto.
  - rewrite <- Hperm, <- Permutation_middle. apply submseteq_skip. by apply submseteq_inserts_r.
Qed.

(** Adding the next chunk to the state keeps it within the limits. *)
Lemma store_next_chunk now deltas seen i rest st :
  si_chunks st = received deltas seen → stream_ok st → seen ++ i :: rest ≡ₚ seq 0 (length deltas) →
  let st' := store_chunk (Z.of_nat i) (default "" (deltas !! i)) now st in
  si_chunks st' = received deltas (i :: seen) ∧ stream_ok st' ∧ si_updated_ms st' = now ∧
  size (si_chunks st') = S (length seen) ∧ si_total_bytes st' <= total_size deltas.
Proof.
  intros Hch Hok Hperm st'. destruct (next_chunk _ _ _ _ Hperm) as (_ & Hnd & Hsub).
  pose proof (store_chunk_ok (Z.of_nat i) (default "" (deltas !! i)) now st Hok) as Hok'. fold st' in Hok'.
  assert (si_chunks st' = received deltas (i :: seen)) as Hch' by (rewrite received_cons, <- Hch; done).
  split_and!; [done..| |].
  - by rewrite Hch', received_size.
  - unfold stream_ok in Hok'. rewrite Hok', Hch', received_bytes by done. by apply sum_sizes_le.
Qed.

(** All chunks together give the text. *)
Lemma join_received deltas seen :
  seen ≡ₚ seq 0 (length deltas) →
  join_chunks 0 (length deltas) (received deltas seen) = Assembled (text_of deltas).
Proof.
  intros Hperm. apply join_chunks_spec. intros j d Hj. rewrite Z.add_0_l, received_lookup, Hj, decide_True; [done|].
  rewrite Hperm. apply elem_of_seq. apply lookup_lt_Some in Hj. lia.
Qed.

(** A chunk of the stream is stored; the last one yields the text. *)
Lemma feed_chunk_own now key states t0 deltas seen i rest :
  stream_holds t0 deltas seen (states !! key) → t0 <= now <= t0 + kStreamInputTtlMs →
  seen ++ i :: rest ≡ₚ seq 0 (length deltas) →
  Z.of_nat (length deltas) <= kMaxStreamInputChunks → total_size deltas <= kMaxStreamInputBytes →
  let finish := match rest with [] => true | _ => false end in
  ∃ states' a, feed_chunk now key (chunk_meta (Z.of_nat i) (default "" (deltas !! i)) finish) states = (states', a) ∧
    if finish then a = Assembled (text_of deltas) ∧ states' !! key = None
    else a = NeedMore ∧ stream_holds t0 deltas (i :: seen) (states' !! key).
Proof.
  intros Hh Hnow Hperm Hn Hsize finish.
  pose proof (stream_input_state_holds now key states t0 deltas seen Hh Hnow) as Hst.
  destruct (next_chunk _ _ _ _ Hperm) as (Hlt & _ & _).
  pose proof (Permutation_length Hperm) as Hlen. rewrite length_app, length_seq in Hlen. cbn in Hlen.
  unfold feed_chunk, assemble_stream_input, stream_chunk_index.
  destruct (chunk_meta_fields (Z.of_nat i) (default "" (deltas !! i)) finish) as (-> & -> & ->).
  rewrite to_int_id by (unfold is_int, INT_MIN, INT_MAX, kMaxStreamInputChunks in *; lia).
  unfold mbind, result_bind, mret, result_ret. destruct (Z.ltb_spec (Z.of_nat i) 0); [lia|].
  destruct (stream_input_state key now states) as [states1 st]. cbn [snd] in Hst. destruct Hst as [Hch Hok].
  destruct (store_next_chunk now _ _ _ _ _ Hch Hok Hperm) as (Hch' & Hok' & Hup & Hcount & Htotal).
  set (st' := store_chunk _ _ _ _) in *. rewrite Hcount.
  destruct (Z.ltb_spec kMaxStreamInputChunks (Z.of_nat (S (length seen)))); [lia|].
  destruct (Z.ltb_spec kMaxStreamInputBytes (si_total_bytes st')); [lia|].
  subst finish. destruct rest as [|j rest]; cbn [negb].
  - cbn in Hlen. replace (S (length seen)) with (length deltas) by lia.
    rewrite Hch', join_received by (by rewrite <- Hperm, <- Permutation_middle, app_nil_r).
    eexists _, _. split_and!; [done..|]. apply lookup_delete_eq.
  - eexists _, _. split_and!; [done..|]. rewrite lookup_insert_eq. cbn. split_and!; [done|lia|done].
Qed.

Lemma feed_all_cons e events states :
  let '(states1, a) := feed_chunk (se_ms e) (se_key e) (se_meta e) states in
  feed_all (e :: events) states =
  ((feed_all events states1).1, (se_key e, a) :: (feed_all events states1).2).
Proof. simpl. destruct (feed_chunk _ _ _ _) as [states1 a]. by destruct (feed_all events states1). Qed.

Lemma own_messages_cons key e events :
  own_messages key (e :: events) =
  if decide (se_key e = key) then se_meta e :: own_messages key events else own_messages key events.
Proof. apply own_cons. Qed.

Lemma own_answers_cons key k a out :
  own_answers key ((k, a) :: out) = if decide (k = key) then a :: own_answers key out else own_answers key out.
Proof. apply own_cons. Qed.

(** A stream nobody writes to stays unknown. *)
Lemma feed_all_silent t0 key events : ∀ states,
  Forall (λ e, t0 <= se_ms e <= t0 + kStreamInputTtlMs) events → own_messages key events = [] → states !! key = None →
  own_answers key (feed_all events states).2 = [] ∧ (feed_all events states).1 !! key = None.
Proof.
  induction events as [|e events IH]; intros states Ht Hown Hk; [done|]. apply Forall_cons in Ht as [Hte Ht].
  rewrite own_messages_cons in Hown. case_decide as Hkey; [done|].
  pose proof (feed_all_cons e events states) as E.
  pose proof (feed_chunk_other (se_ms e) key (se_key e) (se_meta e) states t0 [] [] Hkey) as Ho.
  rewrite Hk in Ho. specialize (Ho eq_refl (proj2 Hte)).
  destruct (feed_chunk _ _ _ _) as [states1 a]. rewrite E. cbn [fst snd] in *.
  rewrite own_answers_cons, decide_False by done. by apply IH.
Qed.

(** From any point of the stream on. *)
Lemma feed_all_stream t0 key deltas events : ∀ seen rest states,
  stream_holds t0 deltas seen (states !! key) → seen ++ rest ≡ₚ seq 0 (length deltas) → rest ≠ [] →
  Z.of_nat (length deltas) <= kMaxStreamInputChunks → total_size deltas <= kMaxStreamInputBytes →
  Forall (λ e, t0 <= se_ms e <= t0 + kStreamInputTtlMs) events →
  own_messages key events = chunk_messages deltas rest →
  own_answers key (feed_all events states).2 = replicate (length rest - 1) NeedMore ++ [Assembled (text_of deltas)] ∧
  (feed_all events states).1 !! key = None.
Proof.
  induction events as [|e events IH]; intros seen rest states Hh Hperm Hrest Hn Hsize Ht Hown;
    [by destruct rest|]. apply Forall_cons in Ht as [Hte Ht].
  pose proof (feed_all_cons e events states) as E. rewrite own_messages_cons in Hown. case_decide as Hkey.
  - destruct rest as [|i rest]; [done|]. cbn [chunk_messages] in Hown. injection Hown as Hmeta Hown.
    destruct (feed_chunk_own (se_ms e) key states t0 deltas seen i rest Hh Hte Hperm Hn Hsize)
      as (states1 & a & Hf & Ha).
    rewrite Hmeta, Hkey, Hf in E. rewrite E. cbn [fst snd]. rewrite own_answers_cons, decide_True by done.
    destruct rest as [|j rest]; destruct Ha as [-> Ha].
    + destruct (feed_all_silent t0 key events states1 Ht Hown Ha) as [-> ->]. done.
    + destruct (IH (i :: seen) (j :: rest) states1) as [-> ->]; try done.
      * rewrite <- Hperm. apply (Permutation_middle seen (j :: rest) i).
      * split; [|done]. cbn [length]. by rewrite !Nat.sub_succ, !Nat.sub_0_r.
  - pose proof (feed_chunk_other (se_ms e) key (se_key e) (se_meta e) states t0 deltas seen Hkey Hh (proj2 Hte)) as Ho.
    destruct (feed_chunk _ _ _ _) as [states1 a]. rewrite E. cbn [fst snd] in *.
    rewrite own_answers_cons, decide_False by done. apply (IH seen); try done. by rewrite Ho.
Qed.

(** C13.  A streamed input is put back together whatever the order of
    its chunks and whatever is streamed by others meanwhile: when the [n]
    chunks of a text arrive in some order, each once, only the last to arrive
    with [finish] set, all within the time to live and within the limits of
    chunks and bytes, then every message but the last asks for more, the last
    one yields the text in index order, and the stream is forgotten. *)
Theorem stream_reassembled (t0 : Z) (key : string) (deltas : list string) (order : list nat)
    (events : list chunk_event) (states : stream_table) :
  order ≡ₚ seq 0 (length deltas) → deltas ≠ [] →
  Z.of_nat (length deltas) <= kMaxStreamInputChunks → total_size deltas <= kMaxStreamInputBytes →
  Forall (λ e, t0 <= se_ms e <= t0 + kStreamInputTtlMs) events →
  own_messages key events = chunk_messages deltas order → states !! key = None →
  own_answers key (feed_all events states).2 =
    replicate (length deltas - 1) NeedMore ++ [Assembled (text_of deltas)] ∧
  (feed_all events states).1 !! key = None.
Proof.
  intros Hperm Hne Hn Hsize Ht Hown Hk.
  pose proof (feed_all_stream t0 key deltas events [] order states) as H.
  rewrite Hk in H. specialize (H eq_refl Hperm).
  assert (length order = length deltas) as Hlen by (by rewrite Hperm, length_seq).
  rewrite Hlen in H. apply H; try done.
  intros ->. by destruct deltas.
Qed.

(** Three chunks out of order, with a message of another stream between. *)
Lemma stream_reassembled_witness :
  own_answers "k" (feed_all [MkChunkEvent 5 "k" (chunk_meta 2 "c" false); MkChunkEvent 6 "x" JNull;
                             MkChunkEvent 7 "k" (chunk_meta 0 "a" false);
                             MkChunkEvent 9 "k" (chunk_meta 1 "b" true)] ∅).2
  = [NeedMore; NeedMore; Assembled "abc"].
Proof.
  apply (stream_reassembled 0 "k" ["a"; "b"; "c"] [2; 0; 1]%nat
           [MkChunkEvent 5 "k" (chunk_meta 2 "c" false); MkChunkEvent 6 "x" JNull;
            MkChunkEvent 7 "k" (chunk_meta 0 "a" false); MkChunkEvent 9 "k" (chunk_meta 1 "b" true)] ∅).
  - apply (Permutation_cons_append [0; 1]%nat 2%nat).
  - done.
  - by vm_compute.
  - by vm_compute.
  - repeat constructor; by vm_compute.
  - reflexivity.
  - reflexivity.
Defined.

(** What the table keeps of a stream. *)
Definition stream_bounded (state : StreamInputState) : Prop :=
  stream_ok state ∧ Z.of_nat (size (si_chunks state)) <= kMaxStreamInputChunks ∧
  si_total_bytes state <= kMaxStreamInputBytes ∧ ∀ i, is_Some (si_chunks state !! i) → 0 <= i.

Lemma stream_input_state_ok key now states :
  map_Forall (λ _, stream_bounded) states →
  map_Forall (λ _, stream_bounded) (stream_input_state key now states).1 ∧
  stream_bounded (stream_input_state key now states).2.
Proof.
  intros Hall. assert (map_Forall (λ _, stream_bounded) (cleanup_expired_stream_states_locked now states)) as Hcl.
  { intros k st [E _]%map_lookup_filter_Some. exact (Hall k st E). }
  unfold stream_input_state. destruct (_ !! key) as [st|] eqn:E; cbn [fst snd].
  - split; [done|]. exact (Hcl _ _ E).
  - assert (stream_bounded (MkStreamInputState ∅ now 0)) as Hnew.
    { split_and!; [done..|]. intros i [? Hi]. done. }
    split; [|done]. by apply map_Forall_insert_2.
Qed.

Lemma assemble_bounded now key meta states r :
  map_Forall (λ _, stream_bounded) states → assemble_stream_input now key meta states = Ok r →
  map_Forall (λ _, stream_bounded) (match r.2 with BadInput _ => delete key r.1 | _ => r.1 end).
Proof.
  intros Hall. unfold assemble_stream_input, mret, result_ret.
  destruct (stream_chunk_index meta) as [index|]; cbn; [|done].
  destruct (stream_input_state_ok key now states Hall) as [Hall' (Hok & _ & _ & Hpos)].
  destruct (stream_input_state key now states) as [states1 st]. cbn [fst snd] in *.
  set (st' := store_chunk _ _ _ _) in *. intros Hr. split_ifs_in Hr; injection Hr as <-; cbn [fst snd].
  - by apply map_Forall_delete.
  - rewrite delete_insert_eq. by apply map_Forall_delete.
  - rewrite delete_insert_eq. by apply map_Forall_delete.
  - apply map_Forall_insert_2; [|done]. split_and!; [by apply store_chunk_ok|by apply Z.ltb_ge|by apply Z.ltb_ge|].
    intros i. subst st'. cbn. intros Hi%lookup_insert_is_Some. destruct Hi as [<-|[_ Hi]]; [lia|auto].
  - destruct (join_chunks _ _ _); rewrite ?delete_insert_eq;
      repeat first [exact Hall' | apply map_Forall_delete].
Qed.

Lemma feed_chunk_bounded now key meta states :
  map_Forall (λ _, stream_bounded) states → map_Forall (λ _, stream_bounded) (feed_chunk now key meta states).1.
Proof.
  intros Hall. unfold feed_chunk.
  destruct (assemble_stream_input now key meta states) as [[states' a]|w] eqn:E.
  - apply (assemble_bounded _ _ _ _ _ Hall) in E. cbn [fst snd] in E. by destruct a.
  - by apply map_Forall_delete.
Qed.

(** Whatever clients stream, and in whatever order, no stream
    that the table keeps has more than 4096 chunks or 8 MiB, the byte count
    is the sum of the sizes of its chunks, and no chunk has a negative
    index. *)
Theorem stream_table_bounded (events : list chunk_event) :
  map_Forall (λ _ state, si_total_bytes state = chunk_bytes (si_chunks state) ∧
    Z.of_nat (size (si_chunks state)) <= kMaxStreamInputChunks ∧
    si_total_bytes state <= kMaxStreamInputBytes ∧
    ∀ i, is_Some (si_chunks state !! i) → 0 <= i) (feed_all events ∅).1.
Proof.
  change (map_Forall (λ _, stream_bounded) (feed_all events ∅).1).
  assert (map_Forall (λ _, stream_bounded) (∅ : stream_table)) as H0 by apply map_Forall_empty.
  revert H0. generalize (∅ : stream_table). induction events as [|e events IH]; intros states H0; [done|].
  pose proof (feed_all_cons e events states) as E.
  pose proof (feed_chunk_bounded (se_ms e) (se_key e) (se_meta e) states H0) as H1.
  destruct (feed_chunk _ _ _ _) as [states1 a]. rewrite E. cbn [fst snd] in *. by apply IH.
Qed.

(** *** Defaults of the session *)

(** A value that accepts members. *)
Definition extensible (j : json) : bool := is_object j || is_null j.

Lemma set_default_get cond k v meta :
  extensible meta = true →
  ∃ meta', set_default cond k v meta = Ok meta' ∧ extensible meta' = true ∧
    ∀ key, json_get meta' key = if cond && (key =? k)%string then Some v else json_get meta key.
Proof.
  intros Hm. unfold set_default. destruct cond; cbn [andb]; [|by exists meta].
  destruct meta; try discriminate Hm; (eexists; split_and!; [reflexivity..|]); intros key; cbn;
    destruct (String.eqb_spec key k) as [->|]; rewrite ?lookup_insert_eq, ?lookup_insert_ne by congruence; try done.
  - apply lookup_singleton_eq.
  - by apply lookup_singleton_ne.
Qed.

(** What the session supplies for a key the request does not have. *)
Definition session_default (s : SessionContext) (meta : json) (key : string) : option json :=
  if (key =? "model")%string then
    if str_empty (sx_model s) then None else Some (JStr (sx_model s))
  else if (key =? "max_tokens")%string then
    if (0 <? sx_default_max_tokens s) && negb (contains meta "max_token_len")
    then Some (JInt (sx_default_max_tokens s)) else None
  else if (key =? "timeout_ms")%string then
    if 0 <? sx_default_timeout_ms s then Some (JInt (sx_default_timeout_ms s)) else None
  else if (key =? "deadline_ms")%string then
    if 0 <? sx_default_deadline_ms s then Some (JInt (sx_default_deadline_ms s)) else None
  else if (key =? "max_retries")%string then
    if 0 <=? sx_default_max_retries s then Some (JInt (sx_default_max_retries s)) else None
  else if (key =? "priority")%string then
    if 0 <=? sx_default_priority s then Some (JInt (sx_default_priority s)) else None
  else if (key =? "allow_model_fallback")%string then
    if contains meta "allow_degrade" then None else Some (JBool (sx_allow_model_fallback s))
  else None.

Lemma apply_defaults_object (session : SessionContext) (meta : json) :
  extensible meta = true →
  ∃ meta', apply_session_defaults session meta = Ok meta' ∧ ∀ key,
    json_get meta' key =
    match json_get meta key with Some v => Some v | None => session_default session meta key end.
Proof.
  intros Hm. unfold apply_session_defaults.
  repeat match goal with
  | Hx : extensible ?m = true |- context [set_default ?c ?k ?v ?m] =>
      let m' := fresh "m" in let E := fresh "E" in let G := fresh "G" in let Hx' := fresh "Hx" in
      destruct (set_default_get c k v m Hx) as (m' & E & Hx' & G); rewrite E; clear E;
      cbn [mbind result_bind]; unfold contains in G
  end.
  eexists. split; [reflexivity|]. intros key. unfold session_default, contains.
  repeat (match goal with G : ∀ key, json_get ?m key = _ |- context [json_get ?m ?k] => rewrite (G k) end;
          cbn [String.eqb Ascii.eqb Bool.eqb]; rewrite ?andb_false_r).
  clear. repeat match goal with
  | |- context [(key =? ?k)%string] => destruct (String.eqb_spec key k) as [->|]
  end; cbn [String.eqb Ascii.eqb Bool.eqb]; rewrite ?andb_true_r, ?andb_false_r;
  repeat match goal with
  | |- context [json_get meta ?k] => destruct (json_get meta k)
  end; cbn [negb]; rewrite ?andb_true_r, ?andb_false_r; try done; by split_ifs.
Qed.

Lemma apply_defaults_other (session : SessionContext) (meta : json) :
  extensible meta = false → ∃ what, apply_session_defaults session meta = Throw what.
Proof.
  intros Hm. unfold apply_session_defaults.
  assert (∀ key, json_get meta key = None) as Hg by (by destruct meta).
  assert (∀ key, contains meta key = false) as Hc by (intros key; unfold contains; by rewrite Hg).
  assert (∀ c k v, set_default c k v meta = if c then Throw "type_error.305" else Ok meta) as Hset.
  { intros c k v. unfold set_default. destruct c; [|done]. by destruct meta. }
  do 6 (rewrite ?Hc, Hset; match goal with |- context [if ?c then Throw _ else _] => destruct c end;
          cbn [mbind result_bind]; [by eexists|]).
  rewrite !Hc, Hset. by eexists.
Qed.

(** Session defaults complete a request and never override it: in
    the request that goes to the scheduler every key of the client keeps the
    client's value, every other key has the default of the session, if the
    session has one ([max_token_len] and [allow_degrade] are the client's
    own forms of two of the keys), and nothing else is added.  A request
    that is a JSON value other than an object or null makes the handler
    throw. *)
Theorem session_defaults_complete (session : SessionContext) (meta : json) :
  if extensible meta then
    ∃ meta', apply_session_defaults session meta = Ok meta' ∧ ∀ key,
      json_get meta' key =
      match json_get meta key with Some v => Some v | None => session_default session meta key end
  else ∃ what, apply_session_defaults session meta = Throw what.
Proof.
  destruct (extensible meta) eqn:Hm; [by apply apply_defaults_object|by apply apply_defaults_other].
Qed.

(** *** The registry of sessions *)

(** What the rest of the process sends to the unit. *)
Inductive unit_event :=
  | SetupEvent (reg : registration) (zmq_url raw : string)
  | ExitEvent (zmq_url raw : string)
  | TaskinfoEvent (zmq_url raw : string)
  | ReloadEvent (zmq_url raw : string)
  | MetricsEvent (wall_now_ms : Z) (zmq_url raw : string)
  | MessageEvent (work_id_num : Z) (raw : string).

Section registry.
Context `{TimeSeriesStore} `{JsonText}.

Definition handle_event (o : outside) (e : unit_event) (u : llm_unit) : result llm_unit :=
  match e with
  | SetupEvent reg zmq_url raw => on_setup o reg zmq_url raw u
  | ExitEvent zmq_url raw => on_exit o zmq_url raw u
  | TaskinfoEvent zmq_url raw => on_taskinfo o zmq_url raw u
  | ReloadEvent zmq_url raw => on_reload_config o zmq_url raw u
  | MetricsEvent wall_now_ms zmq_url raw => on_metrics_query o wall_now_ms zmq_url raw u
  | MessageEvent work_id_num raw => on_user_message o work_id_num raw u
  end.

(** The two phases of an event: what it writes first for all threads to see,
    and the rest, which may come after writes of other threads. *)
Definition begin_event (e : unit_event) (u : llm_unit) : llm_unit :=
  match e with
  | SetupEvent _ zmq_url raw | ExitEvent zmq_url raw | TaskinfoEvent zmq_url raw
  | ReloadEvent zmq_url raw | MetricsEvent _ zmq_url raw => begin_call zmq_url raw u
  | MessageEvent work_id_num raw => receive_message work_id_num raw u
  end.

Definition finish_event (o : outside) (e : unit_event) (u : llm_unit) : result llm_unit :=
  match e with
  | SetupEvent reg zmq_url raw => setup_call o reg zmq_url raw u
  | ExitEvent zmq_url raw => exit_call o zmq_url raw u
  | TaskinfoEvent zmq_url raw => taskinfo_call o zmq_url raw u
  | ReloadEvent zmq_url raw => reload_call o zmq_url raw u
  | MetricsEvent wall_now_ms zmq_url raw => metrics_call o wall_now_ms zmq_url raw u
  | MessageEvent work_id_num raw => process_message o work_id_num raw u
  end.

Lemma handle_event_phases o e u : handle_event o e u = finish_event o e (begin_event e u).
Proof. by destruct e. Qed.

(** The exception of a message the unit could not print. *)
Definition unprintable (o : outside) (what : string) : Prop :=
  ∃ request_id work_id object data error,
    json_dump (message_body o request_id work_id object data error) = Throw what.

(** The unit manager registers a unit under a fresh number that is not
    negative. *)
Definition registered (e : unit_event) (u : llm_unit) : Prop :=
  match e with
  | SetupEvent reg _ _ => ∃ n, stoi (rg_number reg) = Ok n ∧ 0 <= n ∧ u_channels u !! n = None
  | _ => True
  end.

(** Every channel has its session and every session its channel, with the
    subscription to its messages; there are at most [max_sessions_]; with a
    session there is the shared scheduler. *)
Definition registry_ok (channels : gmap Z channel) (sessions : gmap Z SessionContext) (loaded : bool) : Prop :=
  dom channels = dom sessions ∧
  map_Forall (λ n s, sx_work_id_num s = n ∧ 0 <= n) sessions ∧
  map_Forall (λ _ c, ch_subscribed c = true) channels ∧
  Z.of_nat (size sessions) <= max_sessions_ ∧
  (sessions ≠ ∅ → loaded = true).

Definition scheduler_loaded (u : llm_unit) : bool := match u_task u with Some _ => true | None => false end.

Definition unit_ok (u : llm_unit) : Prop :=
  char_in "."%char (u_unit_name u) = false ∧ registry_ok (u_channels u) (u_sessions u) (scheduler_loaded u).

(** Where a channel publishes and listens. *)
Definition channel_urls (c : channel) : string * string := (ch_publisher_url c, ch_inference_url c).

(** The same with the name of the unit, the URLs of its channels by number and
    the units it has given back. *)
Definition unit_at (name : string) (D : gmap Z (string * string)) (released : list string) (u : llm_unit) : Prop :=
  (char_in "."%char (u_unit_name u) = false ∧ u_unit_name u = name ∧ channel_urls <$> u_channels u = D ∧
   u_released u = released) ∧
  registry_ok (u_channels u) (u_sessions u) (scheduler_loaded u).

Lemma unit_at_ok name D released u : unit_at name D released u → unit_ok u.
Proof. intros [[Hname _] Hreg]. by split. Qed.

Lemma unit_ok_at u : unit_ok u → unit_at (u_unit_name u) (channel_urls <$> u_channels u) (u_released u) u.
Proof. intros [Hname Hreg]. by split. Qed.

(** The handlers change the registry in four ways. *)

Lemma registry_update n c c' channels sessions b :
  channels !! n = Some c → ch_subscribed c' = ch_subscribed c →
  registry_ok channels sessions b → registry_ok (<[n := c']> channels) sessions b.
Proof.
  intros Hn Hc (Hdom & Hses & Hsub & Hsize & Htask). split_and!; try done.
  - rewrite dom_insert_lookup_L; [done|by exists c].
  - apply map_Forall_insert_2; [|done]. rewrite Hc. exact (Hsub n c Hn).
Qed.

Lemma registry_add n c s channels sessions b :
  channels !! n = None → 0 <= n → ch_subscribed c = true → sx_work_id_num s = n →
  Z.of_nat (size sessions) < max_sessions_ →
  registry_ok channels sessions b → registry_ok (<[n := c]> channels) (<[n := s]> sessions) true.
Proof.
  intros Hn Hpos Hc Hs Hlt (Hdom & Hses & Hsub & Hsize & Htask).
  assert (sessions !! n = None) as Hns.
  { apply not_elem_of_dom. rewrite <- Hdom. by apply not_elem_of_dom. }
  split_and!; [|..|done].
  - rewrite !dom_insert_L. by f_equal.
  - by apply map_Forall_insert_2.
  - by apply map_Forall_insert_2.
  - rewrite map_size_insert_None by done. lia.
Qed.

Lemma registry_remove n channels sessions b :
  registry_ok channels sessions b → registry_ok (delete n channels) (delete n sessions) b.
Proof.
  intros (Hdom & Hses & Hsub & Hsize & Htask). split_and!.
  - rewrite !dom_delete_L. by f_equal.
  - by apply map_Forall_delete.
  - by apply map_Forall_delete.
  - pose proof (map_subseteq_size (delete n sessions) sessions (delete_subseteq _ _)). lia.
  - intros Hne. apply Htask. intros ->. by rewrite delete_empty in Hne.
Qed.

Lemma registry_loaded channels sessions b : registry_ok channels sessions b → registry_ok channels sessions true.
Proof. intros (? & ? & ? & ? & ?). by split_and!. Qed.

(** *** What each handler does to the registry *)

(** Sending either adds one message to those sent or throws the exception of
    [dump]. *)
Ltac sending :=
  unfold send, send_error, send_client_message, output_body, push_message;
  lazymatch goal with |- context [json_dump ?b] => destruct (json_dump b) eqn:? end;
  cbn [mbind result_bind mret result_ret]; [|try by do 5 eexists].

Lemma set_channel_at name D released n c c' u :
  u_channels u !! n = Some c → ch_subscribed c' = ch_subscribed c → channel_urls c' = channel_urls c →
  unit_at name D released u → unit_at name D released (set_channel n c' u).
Proof.
  intros Hc Hsub Hurl [(Hdot & Hname & Hdom & Hrel) Hreg]. split; [|by apply (registry_update n c)].
  split_and!; [done..| |done]. rewrite <- Hdom. cbn. rewrite fmap_insert, Hurl. apply insert_id.
  by rewrite lookup_fmap, Hc.
Qed.

Lemma try_set_push_url_at name D released work_id zmq_url u :
  unit_at name D released u → unit_at name D released (try_set_push_url work_id zmq_url u).
Proof.
  intros Hok. unfold try_set_push_url, get_channel.
  destruct (sample_get_work_id_num work_id) as [n|]; cbn; [|done].
  destruct (u_channels u !! n) as [c|] eqn:Hc; cbn; [|done]. by apply (set_channel_at _ _ _ n c).
Qed.

Lemma ensure_task_registry o config_body u :
  let '(u', err) := ensure_task o config_body u in
  u_channels u' = u_channels u ∧ u_sessions u' = u_sessions u ∧ u_unit_name u' = u_unit_name u ∧
  u_released u' = u_released u ∧
  scheduler_loaded u' = match err with None => true | Some _ => scheduler_loaded u end.
Proof.
  unfold ensure_task, scheduler_loaded. destruct (u_task u) eqn:E; [by rewrite E|].
  destruct (load_model _ _ _ _ _ _) as [[t p] code]. destruct (negb (code =? 0)); cbn; [by rewrite E|done].
Qed.

(** [vllm_llm::setup] on a channel that was just registered: it adds the
    session or leaves the registry to the caller to clean up. *)
Lemma llm_setup_ok o work_id data n c channels u :
  sample_get_work_id_num work_id = Ok n → u_channels u = <[n := c]> channels → channels !! n = None → 0 <= n →
  registry_ok channels (u_sessions u) (scheduler_loaded u) →
  match llm_setup o work_id data u with
  | Throw what => unprintable o what
  | Ok (u', code) =>
      (u_unit_name u' = u_unit_name u ∧ u_released u' = u_released u ∧
       channel_urls <$> u_channels u' = <[n := channel_urls c]> (channel_urls <$> channels)) ∧
      if code =? 0 then registry_ok (u_channels u') (u_sessions u') (scheduler_loaded u')
      else u_channels u' = u_channels u ∧ u_sessions u' = u_sessions u ∧ scheduler_loaded u' = scheduler_loaded u
  end.
Proof.
  intros Hn Hch Hfresh Hpos Hreg. unfold llm_setup. rewrite Hn. cbn [mbind result_bind mret result_ret].
  assert (channel_urls <$> u_channels u = <[n := channel_urls c]> (channel_urls <$> channels)) as Hdom
    by (by rewrite Hch, fmap_insert).
  destruct (json_parse data) as [config_body|]; [|by sending].
  destruct (u_sessions u !! n) eqn:Hs; [by sending|].
  destruct (Z.leb_spec max_sessions_ (Z.of_nat (size (u_sessions u)))); [by sending|].
  pose proof (ensure_task_registry o config_body u) as Ht.
  destruct (ensure_task o config_body u) as [u1 [message|]]; destruct Ht as (Hc1 & Hs1 & Hn1 & Hr1 & Hl1).
  { sending. split; [|by split_and!]. split_and!; [done..|]. cbn. by rewrite Hc1. }
  unfold get_channel.
  change (u_channels u1 <| u_sessions := <[n:=make_session_context n work_id config_body]> (u_sessions u1) |>)
    with (u_channels u1).
  rewrite Hc1, Hch, lookup_insert_eq. cbn [mbind result_bind]. sending. split.
  { split_and!; [exact Hn1|exact Hr1|]. cbn. by rewrite Hc1, Hch, insert_insert_eq, fmap_insert. }
  change (registry_ok (<[n := c <| ch_enoutput := sx_enoutput (make_session_context n work_id config_body) |>
                           <| ch_enstream := sx_enstream (make_session_context n work_id config_body) |>
                           <| ch_subscribed := true |>]> (u_channels u1))
            (<[n := make_session_context n work_id config_body]> (u_sessions u1)) (scheduler_loaded u1)).
  rewrite Hc1, Hch, Hs1, Hl1, insert_insert_eq. by apply (registry_add n) with (scheduler_loaded u).
Qed.

Lemma setup_call_at name D released o reg zmq_url raw u n :
  unit_at name D released u → stoi (rg_number reg) = Ok n → 0 <= n → u_channels u !! n = None →
  match setup_call o reg zmq_url raw u with
  | Ok u' =>
      unit_at name (<[n := (rg_out_port reg, rg_inference_port reg)]> D) released u' ∨
      unit_at name D (released ++ [sample_get_work_id n name]) u'
  | Throw what => unprintable o what
  end.
Proof.
  intros [(Hdot & Hname & Hdom & Hrel) Hreg] Hn Hpos Hfresh. unfold setup_call, sys_register_unit.
  rewrite Hn. cbn [mbind result_bind mret result_ret]. unfold get_channel.
  set (u0 := set_channel n (new_channel _ _) _).
  assert (u_channels u0 !! n = Some (new_channel (rg_out_port reg) (rg_inference_port reg))) as -> by apply lookup_insert_eq.
  cbn [mbind result_bind].
  assert (sample_get_work_id_num (sample_get_work_id n (u_unit_name u)) = Ok n) as Hid.
  { apply work_id_num_of; [by eapply stoi_is_int|done]. }
  change (u_unit_name u0) with (u_unit_name u).
  set (u1 := set_channel n _ u0).
  pose proof (llm_setup_ok o (sample_get_work_id n (u_unit_name u)) (sample_json_str_get raw "data") n
              (new_channel (rg_out_port reg) (rg_inference_port reg)) <| ch_output_url := zmq_url |>
                 <| ch_request_id := sample_json_str_get raw "request_id" |>
                 <| ch_work_id := sample_get_work_id n (u_unit_name u) |> (u_channels u) u1 Hid
              (insert_insert_eq _ _ _ _) Hfresh Hpos Hreg) as Hset.
  destruct (llm_setup _ _ _ _) as [[u' code]|what]; [|done]. destruct Hset as ((Hname' & Hrel' & Hdom') & Hcase).
  change (u_unit_name u1) with (u_unit_name u) in Hname'. change (u_released u1) with (u_released u) in Hrel'.
  cbn [mbind result_bind]. destruct (code =? 0); cbn [negb].
  - left. split; [|done]. by rewrite Hname', Hrel', Hdom', Hdom.
  - unfold sys_release_unit. destruct Hcase as (Hc' & Hs' & Hl').
    assert ((if str_empty (sample_get_work_id n (u_unit_name u)) then Ok n
             else sample_get_work_id_num (sample_get_work_id n (u_unit_name u))) = Ok n) as ->.
    { by destruct (str_empty _). }
    cbn [mbind result_bind]. right. split.
    { cbn. rewrite Hname', Hrel', Hrel, fmap_delete, Hdom', Hdom, <- Hname. split_and!; [done..| |by destruct (str_empty _)].
      rewrite delete_insert_id; [done|]. by rewrite <- Hdom, lookup_fmap, Hfresh. }
    change (registry_ok (delete n (u_channels u')) (u_sessions u') (scheduler_loaded u')). rewrite Hc', Hs', Hl'.
    change (u_channels u1) with (<[n := (new_channel (rg_out_port reg) (rg_inference_port reg)) <| ch_output_url := zmq_url |>
                 <| ch_request_id := sample_json_str_get raw "request_id" |>
                 <| ch_work_id := sample_get_work_id n (u_unit_name u) |>]>
      (<[n := new_channel (rg_out_port reg) (rg_inference_port reg)]> (u_channels u))).
    by rewrite insert_insert_eq, delete_insert_id.
Qed.

Lemma exit_call_at name D released o zmq_url raw u n :
  sample_get_work_id_num (sample_json_str_get raw "work_id") = Ok n → unit_at name D released u →
  match exit_call o zmq_url raw u with
  | Ok u' =>
      unit_at name D released u' ∨
      is_Some (D !! n) ∧ unit_at name (delete n D) (released ++ [sample_json_str_get raw "work_id"]) u'
  | Throw what => unprintable o what
  end.
Proof.
  intros Hn Hok. unfold exit_call.
  pose proof (try_set_push_url_at _ _ _ (sample_json_str_get raw "work_id") zmq_url u Hok) as Hok1.
  generalize dependent (try_set_push_url (sample_json_str_get raw "work_id") zmq_url u). intros u1 Hok1.
  unfold llm_exit. rewrite Hn. cbn [mbind result_bind mret result_ret].
  destruct (u_sessions u1 !! n) as [session|] eqn:Hs; [|sending; by left].
  destruct Hok1 as [(Hdot & Hname & Hdom & Hrel) Hreg].
  assert (is_Some (u_channels u1 !! n)) as [c Hc].
  { apply elem_of_dom. destruct Hreg as [-> _]. apply elem_of_dom. by exists session. }
  unfold get_channel. change (u_channels u1 <| u_sessions := delete n (u_sessions u1) |>) with (u_channels u1).
  rewrite Hc. cbn [mbind result_bind]. sending. cbn [Z.eqb]. unfold sys_release_unit.
  destruct (str_empty (sample_json_str_get raw "work_id")) eqn:He.
  { exfalso. destruct Hreg as (_ & Hses & _). specialize (Hses _ _ Hs) as [_ Hpos].
    destruct (sample_json_str_get raw "work_id"); [|done]. cbn in Hn. injection Hn as <-. done. }
  rewrite Hn. cbn. right. split; [rewrite <- Hdom, lookup_fmap, Hc; by eexists|]. split.
  { cbn. rewrite Hrel, delete_insert_eq, fmap_delete, Hdom. done. }
  change (registry_ok (delete n (<[n := c <| ch_subscribed := false |>]> (u_channels u1))) (delete n (u_sessions u1)) (scheduler_loaded u1)).
  rewrite delete_insert_eq. by apply registry_remove.
Qed.

Lemma taskinfo_call_at name D released o zmq_url raw u n :
  sample_get_work_id_num (sample_json_str_get raw "work_id") = Ok n → unit_at name D released u →
  match taskinfo_call o zmq_url raw u with
  | Ok u' => unit_at name D released u'
  | Throw what => unprintable o what
  end.
Proof.
  intros Hn Hok. unfold taskinfo_call.
  pose proof (try_set_push_url_at _ _ _ (sample_json_str_get raw "work_id") zmq_url u Hok) as Hok1.
  generalize dependent (try_set_push_url (sample_json_str_get raw "work_id") zmq_url u). intros u1 Hok1.
  unfold llm_taskinfo. rewrite Hn. cbn [mbind result_bind mret result_ret].
  destruct (n =? WORK_ID_NONE); [by sending|].
  destruct (u_sessions u1 !! n); by sending.
Qed.

Lemma reload_answer_at name D released o raw u :
  unit_at name D released u →
  match reload_answer o raw u with
  | Ok u' => unit_at name D released u'
  | Throw what => unprintable o what
  end.
Proof.
  intros Hok. unfold reload_answer. destruct (json_parse raw) as [root|]; [|by sending].
  destruct (call_body "reload_config" root) as [message|config_body]; [by sending|]. cbv zeta.
  destruct (u_task u) as [t|] eqn:Et; [|by sending].
  assert (scheduler_loaded u = true) as Hl by (unfold scheduler_loaded; by rewrite Et).
  destruct Hok as [Hname Hreg]. rewrite Hl in Hreg.
  destruct (reload_config _ _ _ _ _) as [[t' p] [message|]]; sending; split; done.
Qed.

Lemma metrics_answer_at name D released o wall raw u :
  unit_at name D released u →
  match metrics_answer o wall raw u with
  | Ok u' => unit_at name D released u'
  | Throw what => unprintable o what
  end.
Proof.
  intros Hok. unfold metrics_answer. destruct (json_parse raw) as [root|]; [|by sending].
  destruct (call_body "metrics_query" root) as [message|query_body]; [by sending|]. cbv zeta.
  destruct (u_task u); by sending.
Qed.

Lemma reload_call_at name D released o zmq_url raw u :
  unit_at name D released u →
  match reload_call o zmq_url raw u with
  | Ok u' => unit_at name D released u'
  | Throw what => unprintable o what
  end.
Proof. intros Hok. by apply reload_answer_at. Qed.

Lemma metrics_call_at name D released o wall zmq_url raw u :
  unit_at name D released u →
  match metrics_call o wall zmq_url raw u with
  | Ok u' => unit_at name D released u'
  | Throw what => unprintable o what
  end.
Proof. intros Hok. by apply metrics_answer_at. Qed.

Lemma send_client_messages_at name D released o out : ∀ u,
  unit_at name D released u →
  match send_client_messages o out u with
  | Ok u' => unit_at name D released u'
  | Throw what => unprintable o what
  end.
Proof.
  induction out as [|m out IH]; intros u Hok; cbn [send_client_messages]; [done|].
  unfold send_client_message at 1. destruct (str_empty (om_output_url m)); [by apply IH|]. sending. by apply IH.
Qed.

Lemma send_client_message_at name D released o m u :
  unit_at name D released u →
  match send_client_message o m u with
  | Ok u' => unit_at name D released u' ∧ u_task u' = u_task u
  | Throw what => unprintable o what
  end.
Proof. intros Hok. unfold send_client_message. destruct (str_empty (om_output_url m)); [done|]. by sending. Qed.

Lemma request_text_at name D released o c object data request_meta u :
  unit_at name D released u →
  match request_text o c object data request_meta u with
  | Ok (u', _) => unit_at name D released u' ∧ u_task u' = u_task u
  | Throw what => unprintable o what
  end.
Proof.
  intros Hok. unfold request_text. destruct (negb (str_contains object "stream")); [done|].
  destruct (feed_chunk _ _ _ _) as [states [|message|text]]; [done| |done].
  match goal with |- context [send_client_message ?o ?m ?u1] =>
    pose proof (send_client_message_at name D released o m u1 Hok) as Hs;
    destruct (send_client_message o m u1); exact Hs end.
Qed.

Lemma task_swap_at name D released u t :
  unit_at name D released u → scheduler_loaded u = true → unit_at name D released (u <| u_task := Some t |>).
Proof. intros [Hname Hreg] Hl. rewrite Hl in Hreg. by split. Qed.

Lemma task_user_data_at name D released o c object data u :
  unit_at name D released u →
  match task_user_data o c object data u with
  | Ok u' => unit_at name D released u'
  | Throw what =>
      (∀ n, sample_get_work_id_num (ch_work_id c) ≠ Ok n) ∨ (∃ j, json_parse data = Ok j ∧ extensible j = false) ∨
      unprintable o what
  end.
Proof.
  intros Hok. unfold task_user_data.
  assert (∀ m, match send_client_message o m u with
               | Ok u' => unit_at name D released u'
               | Throw what =>
                   (∀ n, sample_get_work_id_num (ch_work_id c) ≠ Ok n) ∨
                   (∃ j, json_parse data = Ok j ∧ extensible j = false) ∨ unprintable o what
               end) as Hsend.
  { intros m. pose proof (send_client_message_at name D released o m u Hok).
    destruct (send_client_message o m u); naive_solver. }
  destruct (sample_get_work_id_num (ch_work_id c)) as [n|]; cbn [mbind result_bind mret result_ret]; [|by left].
  destruct (u_task u) as [t|] eqn:Et; [|apply Hsend].
  destruct (u_sessions u !! n) as [session|]; [|apply Hsend].
  destruct (str_empty data || (data =? "None")%string); [apply Hsend|]. clear Hsend.
  set (meta := match json_parse data with Ok j => j | Throw _ => json_object end).
  pose proof (request_text_at name D released o c object data meta u Hok) as Htext.
  destruct (request_text _ _ _ _ _ _) as [[u1 a]|]; cbn [mbind result_bind]; [|by right; right].
  destruct Htext as [Hok1 Ht].
  destruct a as [|message|text]; [done..|].
  destruct (extensible meta) eqn:Hm.
  - destruct (apply_defaults_object session meta Hm) as (meta' & -> & _). cbn [mbind result_bind].
    destruct (inference _ _ _ _ _ _ _ _ _) as [t' out].
    assert (unit_at name D released (u1 <| u_task := Some t' |>)) as Hok2.
    { apply task_swap_at; [done|]. unfold scheduler_loaded. by rewrite Ht, Et. }
    pose proof (send_client_messages_at name D released o out _ Hok2). destruct (send_client_messages _ _ _); naive_solver.
  - assert (∃ j, json_parse data = Ok j ∧ extensible j = false) as Hj.
    { subst meta. destruct (json_parse data) as [j|]; [by exists j|done]. }
    destruct (apply_defaults_other session meta Hm) as [what ->]. by right; left.
Qed.

Lemma routed_channel_kept raw c :
  ch_subscribed (routed_channel raw c) = ch_subscribed c ∧ channel_urls (routed_channel raw c) = channel_urls c.
Proof.
  unfold routed_channel. destruct (has_action_key _ _ _); [|done]. cbv zeta. by destruct (str_empty _).
Qed.

(** A message that the unit handles without an exception: its work identifier
    has a number, and its data, when it is JSON, is an object or null. *)
Definition message_well_formed (c : channel) (raw : string) : Prop :=
  (∃ n, sample_get_work_id_num (ch_work_id (routed_channel raw c)) = Ok n) ∧
  ∀ j, json_parse (sample_json_str_get raw "data") = Ok j → extensible j = true.

Lemma receive_message_at name D released n raw u :
  unit_at name D released u → unit_at name D released (receive_message n raw u).
Proof.
  intros Hok. unfold receive_message. destruct (u_channels u !! n) as [c|] eqn:Hc; [|done].
  destruct (ch_subscribed c); [|done].
  apply (set_channel_at _ _ _ n c); [done|apply routed_channel_kept..|done].
Qed.

(** A message that was received, for the channel as it is when the callback
    reads it. *)
Lemma process_message_at name D released o n raw u :
  unit_at name D released u →
  match process_message o n raw u with
  | Ok u' => unit_at name D released u'
  | Throw what =>
      (∃ c, u_channels u !! n = Some c ∧
         ((∀ k, sample_get_work_id_num (ch_work_id c) ≠ Ok k) ∨
          ∃ j, json_parse (sample_json_str_get raw "data") = Ok j ∧ extensible j = false)) ∨ unprintable o what
  end.
Proof.
  intros Hok. unfold process_message. destruct (u_channels u !! n) as [c|] eqn:Hc; [|done].
  destruct (ch_subscribed c); [|done].
  pose proof (task_user_data_at _ _ _ o c (sample_json_str_get raw "object") (sample_json_str_get raw "data") _ Hok) as Hmsg.
  destruct (task_user_data _ _ _ _ _); [done|]. destruct Hmsg as [Hmsg|[Hmsg|Hprint]]; [left; eauto|left; eauto|by right].
Qed.

(** An event the handlers have an answer to. *)
Definition event_well_formed (e : unit_event) (u : llm_unit) : Prop :=
  match e with
  | ExitEvent _ raw | TaskinfoEvent _ raw =>
      ∃ n, sample_get_work_id_num (sample_json_str_get raw "work_id") = Ok n
  | MessageEvent n raw => ∀ c, u_channels u !! n = Some c → message_well_formed c raw
  | _ => True
  end.

(** What an event does to the channels and to the units given
    back. *)
Definition event_change (name : string) (D : gmap Z (string * string)) (released : list string) (e : unit_event) (u' : llm_unit) : Prop :=
  match e with
  | SetupEvent reg _ _ =>
      ∃ n, stoi (rg_number reg) = Ok n ∧
        (unit_at name (<[n := (rg_out_port reg, rg_inference_port reg)]> D) released u' ∨
         unit_at name D (released ++ [sample_get_work_id n name]) u')
  | ExitEvent _ raw =>
      let work_id := sample_json_str_get raw "work_id" in
      unit_at name D released u' ∨
      ∃ n, sample_get_work_id_num work_id = Ok n ∧ is_Some (D !! n) ∧ unit_at name (delete n D) (released ++ [work_id]) u'
  | _ => unit_at name D released u'
  end.

(** The second phase of an event has an answer: for a message it is the
    channel as it reads then that counts. *)
Definition finish_well_formed (e : unit_event) (u : llm_unit) : Prop :=
  match e with
  | ExitEvent _ raw | TaskinfoEvent _ raw =>
      ∃ n, sample_get_work_id_num (sample_json_str_get raw "work_id") = Ok n
  | MessageEvent n raw =>
      ∀ c, u_channels u !! n = Some c → (∃ k, sample_get_work_id_num (ch_work_id c) = Ok k) ∧
        ∀ j, json_parse (sample_json_str_get raw "data") = Ok j → extensible j = true
  | _ => True
  end.

Lemma begin_event_at name D released e u :
  unit_at name D released u → unit_at name D released (begin_event e u).
Proof. intros Hok. destruct e; cbn [begin_event]; try exact Hok. by apply receive_message_at. Qed.

Lemma finish_event_at name D released o e u :
  unit_at name D released u → registered e u →
  match finish_event o e u with
  | Ok u' => event_change name D released e u'
  | Throw what => ¬ finish_well_formed e u ∨ unprintable o what
  end.
Proof.
  intros Hok Hreg. destruct e as [reg zmq_url raw|zmq_url raw|zmq_url raw|zmq_url raw|wall zmq_url raw|n raw];
    cbn [finish_event finish_well_formed event_change].
  - destruct Hreg as (n & Hn & Hpos & Hfresh).
    pose proof (setup_call_at _ _ _ o reg zmq_url raw u n Hok Hn Hpos Hfresh). destruct (setup_call _ _ _ _ _); eauto.
  - destruct (sample_get_work_id_num (sample_json_str_get raw "work_id")) as [n|w] eqn:Hn.
    + pose proof (exit_call_at _ _ _ o zmq_url raw u n Hn Hok). destruct (exit_call _ _ _ _); naive_solver.
    + unfold exit_call, llm_exit. rewrite Hn. cbn. left. intros [? ?]. congruence.
  - destruct (sample_get_work_id_num (sample_json_str_get raw "work_id")) as [n|w] eqn:Hn.
    + pose proof (taskinfo_call_at _ _ _ o zmq_url raw u n Hn Hok). destruct (taskinfo_call _ _ _ _); naive_solver.
    + unfold taskinfo_call, llm_taskinfo. rewrite Hn. cbn. left. intros [? ?]. congruence.
  - pose proof (reload_call_at name D released o zmq_url raw u Hok). destruct (reload_call _ _ _ _); auto.
  - pose proof (metrics_call_at name D released o wall zmq_url raw u Hok). destruct (metrics_call _ _ _ _ _); auto.
  - pose proof (process_message_at _ _ _ o n raw u Hok) as Hm.
    destruct (process_message o n raw u); [done|]. destruct Hm as [(c & Hc & Hbad)|Hprint]; [left|auto].
    intros Hch. destruct (Hch c Hc) as [[k Hk] Hj].
    destruct Hbad as [Hbad|(j & Hpj & He)]; [by apply (Hbad k)|]. by rewrite (Hj j Hpj) in He.
Qed.

Lemma begin_well_formed name D released e u :
  unit_at name D released u → event_well_formed e u → finish_well_formed e (begin_event e u).
Proof.
  intros Hok. destruct e as [| | | | |n raw]; try done. cbn [event_well_formed finish_well_formed begin_event].
  intros Hwf c'. unfold receive_message. destruct (u_channels u !! n) as [c|] eqn:Hc; [|congruence].
  destruct Hok as [_ (_ & _ & Hsub & _)]. rewrite (Hsub n c Hc).
  change (u_channels (set_channel n ?d u)) with (<[n := d]> (u_channels u)). rewrite lookup_insert_eq.
  intros [= <-]. by apply Hwf.
Qed.

Lemma handle_event_at name D released o e u :
  unit_at name D released u → registered e u →
  match handle_event o e u with
  | Ok u' => event_change name D released e u'
  | Throw what => ¬ event_well_formed e u ∨ unprintable o what
  end.
Proof.
  intros Hok Hreg. rewrite handle_event_phases.
  pose proof (begin_event_at name D released e u Hok) as Hok'.
  pose proof (finish_event_at name D released o e (begin_event e u) Hok') as Hf.
  pose proof (begin_well_formed name D released e u Hok) as Hwf.
  destruct (finish_event o e (begin_event e u)); [by apply Hf; destruct e|].
  destruct Hf as [Hbad|Hprint]; [by destruct e|left; auto|by right].
Qed.

Lemma event_change_ok name D released e u' : event_change name D released e u' → unit_ok u'.
Proof.
  destruct e; cbn [event_change]; [intros (n & _ & [H1|H1])|intros [H1|(n & _ & _ & H1)]|intros H1..];
    exact (unit_at_ok _ _ _ _ H1).
Qed.

Lemma handle_event_ok o e u :
  unit_ok u → registered e u →
  match handle_event o e u with
  | Ok u' => unit_ok u'
  | Throw what => ¬ event_well_formed e u ∨ unprintable o what
  end.
Proof.
  intros Hok Hreg. pose proof (handle_event_at _ _ _ o e u (unit_ok_at u Hok) Hreg) as Hh.
  destruct (handle_event o e u); [|done]. by eapply event_change_ok.
Qed.

(** The unit as the process starts it. *)
Definition new_unit (name : string) (p : process) : llm_unit := MkUnit name "" "" ∅ ∅ None p ∅ [] [].

Lemma new_unit_ok name p : char_in "."%char name = false → unit_ok (new_unit name p).
Proof.
  intros Hname. split; [done|]. split_and!; [done|apply map_Forall_empty..|done|done].
Qed.

(** One event handled without an exception. *)
Definition unit_step (u u' : llm_unit) : Prop := ∃ o e, registered e u ∧ handle_event o e u = Ok u'.

Lemma reachable_ok name p u :
  char_in "."%char name = false → rtc unit_step (new_unit name p) u → unit_ok u.
Proof.
  intros Hname Hrun. refine (rtc_preserves unit_step unit_ok _ _ _ Hrun (new_unit_ok name p Hname)).
  intros x y (o & e & Hreg & E) Hok. pose proof (handle_event_ok o e x Hok Hreg) as Hy. by rewrite E in Hy.
Qed.

(** C21.  The registry of the unit stays consistent: after any sequence of
    setups, exits, queries, reloads and inference messages, as long as the
    unit manager hands out numbers that are not in use, every channel belongs
    to a session and every session has its channel, subscribed to its
    messages and under the number of its work identifier; there are never
    more than 1024 sessions, and where there is a session the shared
    scheduler is loaded. *)
Theorem session_registry (name : string) (p : process) (u : llm_unit) :
  char_in "."%char name = false → rtc unit_step (new_unit name p) u →
  dom (u_channels u) = dom (u_sessions u) ∧
  map_Forall (λ n s, sx_work_id_num s = n) (u_sessions u) ∧
  map_Forall (λ _ c, ch_subscribed c = true) (u_channels u) ∧
  Z.of_nat (size (u_sessions u)) <= max_sessions_ ∧
  (u_sessions u ≠ ∅ → is_Some (u_task u)).
Proof.
  intros Hname Hrun. destruct (reachable_ok name p u Hname Hrun) as (_ & Hdom & Hses & Hsub & Hsize & Htask).
  split_and!; try done.
  - intros n s Hs. by destruct (Hses n s Hs).
  - intros Hne. specialize (Htask Hne). unfold scheduler_loaded in Htask. by destruct (u_task u).
Qed.

(** C26.  The handlers throw only on malformed events and on text that cannot
    be printed: in any state the unit can reach, a setup under a fresh number,
    a reload and a metrics query, an exit or a task query whose work identifier
    ends in a number or has none, and an inference message whose data is in
    addition no JSON value other than an object or null, are handled to the end
    or stop with the exception [dump] throws on a message to be sent (for the
    library: one with a string that is not UTF-8, such as a request id echoed
    back).  An exception here leaves the thread function and ends the
    process. *)
Theorem handlers_complete (name : string) (p : process) (u : llm_unit) (o : outside) (e : unit_event) :
  char_in "."%char name = false → rtc unit_step (new_unit name p) u →
  registered e u → event_well_formed e u →
  match handle_event o e u with
  | Ok u' => unit_step u u'
  | Throw what => ∃ request_id work_id object data error,
      json_dump (message_body o request_id work_id object data error) = Throw what
  end.
Proof.
  intros Hname Hrun Hreg Hwf.
  pose proof (handle_event_ok o e u (reachable_ok name p u Hname Hrun) Hreg) as Hy.
  destruct (handle_event o e u) as [u'|what] eqn:E; [by exists o, e|]. by destruct Hy.
Qed.
End registry.

(** ** Witnesses *)

(** Every text is the sample document. *)
Definition document_text : JsonText := {| json_parse _ := Ok sample_document; json_dump _ := Ok ""; |}.

Definition quiet_outside : outside := MkOutside 0 0 (λ _, "") (0, 0) (λ _, false).
Definition first_setup : unit_event := SetupEvent (MkRegistration "1000" "ipc:///tmp/out" "ipc:///tmp/in") "ipc:///tmp/c" "".
Definition fresh_unit : @llm_unit open_store := new_unit "llm" (MkProcess ∅ ∅).
Definition unit_with_session : @llm_unit open_store :=
  match handle_event (H0 := document_text) quiet_outside first_setup fresh_unit with Ok u => u | Throw _ => fresh_unit end.

Lemma unit_with_session_step : unit_step (H0 := document_text) fresh_unit unit_with_session.
Proof.
  exists quiet_outside, first_setup. split.
  - exists 1000. split; [reflexivity|]. split; [lia|reflexivity].
  - vm_compute. reflexivity.
Qed.

Lemma session_registry_witness :
  size (u_sessions unit_with_session) = 1%nat ∧ dom (u_channels unit_with_session) = dom (u_sessions unit_with_session).
Proof.
  split; [vm_compute; reflexivity|].
  apply (session_registry (H0 := document_text) "llm" (MkProcess ∅ ∅) unit_with_session).
  - reflexivity.
  - apply rtc_once, unit_with_session_step.
Defined.

Lemma handlers_complete_witness :
  ∃ u', handle_event (H0 := document_text) quiet_outside (MessageEvent 1000 "hello") unit_with_session = Ok u'.
Proof.
  pose proof (handlers_complete (H0 := document_text) "llm" (MkProcess ∅ ∅) unit_with_session quiet_outside
    (MessageEvent 1000 "hello") eq_refl (rtc_once _ _ unit_with_session_step) I) as Hc.
  destruct (handle_event _ _ _) as [u'|what]; [by exists u'|]. destruct Hc as (? & ? & ? & ? & ? & [=]).
  intros c Hc. split.
  - exists 1000. vm_compute in Hc. injection Hc as <-. vm_compute. reflexivity.
  - intros j [= <-]. reflexivity.
Defined.

(** A second registration under a number in use: the setup is refused and the
    clean-up takes away the channel of the session that is there. *)
Lemma duplicate_registration_drops_channel :
  match handle_event (H0 := document_text) quiet_outside first_setup unit_with_session with
  | Ok u => u_sessions u !! 1000 ≠ None ∧ u_channels u !! 1000 = None
  | Throw _ => False
  end.
Proof. vm_compute. done. Qed.

(** Inference data that is the JSON number 42. *)
Lemma number_data_throws session : ∃ what, apply_session_defaults session (JInt 42) = Throw what.
Proof. by apply apply_defaults_other. Qed.
