(* ===== verification/EchoUnit.v ===== *)
(** * The echo unit

    [class llm_llm] of [node/test/src/main.cpp]: a small unit on the same base
    class as the scheduler's ([StackFlow], [llm_channel_obj]), which answers
    every inference message with its own text.  It serves three sessions and
    uses [decode_stream] for streamed input.

    Messages to the publisher of a channel are collected in [e_published],
    those to a client in [e_sent].  [e_count] and [e_stream_buff] are the
    static variables of [task_output] and [task_user_data], which all sessions
    share.  [Throw] is an exception that leaves a handler and ends the
    process, as in [Session]. *)
From S2P Require Import Prelude StdString Doubles Json Observability Metrics Types Endpoint Queue Records Config Stream Task Util Session.

(** ** The task *)

Record llm_task := MkLlmTask {
  et_model : string;
  et_response_format : string;
  et_inputs : list string;
  et_enoutput : bool;
  et_enstream : bool;
  et_out_callback : bool;
}.
#[export] Instance eta_llm_task : Eta llm_task := fun t =>
  MkLlmTask (et_model t) (et_response_format t) (et_inputs t) (et_enoutput t) (et_enstream t) (et_out_callback t).

Definition json_at (j : json) (key : string) : result json :=
  match json_get j key with Some v => Ok v | None => Throw "out_of_range" end.

Definition get_bool (j : json) : result bool := match j with JBool b => Ok b | _ => Throw "type_error" end.

Definition config_inputs (config_body : json) : result (list string) :=
  match json_get config_body "input" with
  | Some (JStr s) => Ok [s]
  | Some (JArr l) => mapM get_string l
  | _ => Ok []
  end.

(** [llm_task::parse_config] and [load_model]; [Throw] is the exception that
    [parse_config] turns into its failure. *)
Definition echo_parse_config (config_body : json) : result llm_task :=
  model ← (j ← json_at config_body "model"; get_string j);
  response_format ← (j ← json_at config_body "response_format"; get_string j);
  enoutput ← (j ← json_at config_body "enoutput"; get_bool j);
  inputs ← config_inputs config_body;
  mret (MkLlmTask model response_format inputs enoutput (str_contains response_format "stream") false).

(** ** The unit *)

Record echo_unit := MkEcho {
  e_unit_name : string;
  e_request_id : string;
  e_out_zmq_url : string;
  e_channels : gmap Z channel;
  e_tasks : gmap Z llm_task;
  e_count : Z;
  e_stream_buff : gmap Z string;
  e_published : list push;
  e_sent : list push;
  e_released : list string;
}.
#[export] Instance eta_echo : Eta echo_unit := fun u =>
  MkEcho (e_unit_name u) (e_request_id u) (e_out_zmq_url u) (e_channels u) (e_tasks u) (e_count u) (e_stream_buff u)
    (e_published u) (e_sent u) (e_released u).

Definition task_count_ : Z := 3.

Definition new_echo_unit : echo_unit := MkEcho "llm" "" "" ∅ ∅ 0 ∅ [] [] [].

Section echo.
Context `{JsonText}.

(** What [StackFlow::send] sends is printed first, which may throw. *)
Definition echo_push (url : string) (body : json) (u : echo_unit) : result echo_unit :=
  _ ← json_dump body;
  mret (u <| e_sent := e_sent u ++ [MkPush url body] |>).

(** [StackFlow::send] with [LLM_NO_ERROR]. *)
Definition echo_send (o : outside) (object : string) (data : json) (work_id : string) (u : echo_unit) : result echo_unit :=
  echo_push (e_out_zmq_url u) (message_body o (e_request_id u) work_id object data (error_json 0 "")) u.

(** [StackFlow::send] with a JSON object for the text of the error. *)
Definition echo_send_error (o : outside) (work_id : string) (code : Z) (message : string) (u : echo_unit) : result echo_unit :=
  error_msg ← get_string (error_json code message);
  echo_push (e_out_zmq_url u) (message_body o (e_request_id u) work_id "None" (JStr "None") (JStr error_msg)) u.

Definition echo_get_channel (work_id_num : Z) (u : echo_unit) : result channel :=
  match e_channels u !! work_id_num with Some c => Ok c | None => Throw "out_of_range" end.

Definition echo_set_channel (work_id_num : Z) (c : channel) (u : echo_unit) : echo_unit :=
  u <| e_channels := <[work_id_num := c]> (e_channels u) |>.

(** [llm_channel_obj::send] with [LLM_NO_ERROR]: to the publisher and, if there
    is output and a URL, to the client. *)
Definition echo_channel_send (o : outside) (c : channel) (object : string) (data : json) (u : echo_unit) : result echo_unit :=
  let out_body := message_body o (ch_request_id c) (ch_work_id c) object data (error_json 0 "") in
  _ ← json_dump out_body;
  let u := u <| e_published := e_published u ++ [MkPush (ch_publisher_url c) out_body] |> in
  mret (if ch_enoutput c && negb (str_empty (ch_output_url c)) then u <| e_sent := e_sent u ++ [MkPush (ch_output_url c) out_body] |> else u).

(** [task_output], bound to the task and the channel of a session. *)
Definition task_output (o : outside) (work_id_num : Z) (data : string) (finish : bool) (u : echo_unit) : result echo_unit :=
  match e_tasks u !! work_id_num, e_channels u !! work_id_num with
  | Some t, Some c =>
      if ch_enstream c then
        let data_body := mk_obj [("index", JInt (e_count u)); ("delta", JStr (if finish then "" else data)); ("finish", JBool finish)] in
        let u := u <| e_count := if finish then 0 else to_int (e_count u + 1) |> in
        echo_channel_send o c (et_response_format t) data_body u
      else if finish then echo_channel_send o c (et_response_format t) (JStr data) u
      else mret u
  | _, _ => mret u
  end.

(** [llm_task::inference]. *)
Definition echo_inference (o : outside) (work_id_num : Z) (t : llm_task) (msg : string) (u : echo_unit) : result echo_unit :=
  if et_out_callback t then
    u ← task_output o work_id_num msg false u;
    u ← task_output o work_id_num "hello" false u;
    task_output o work_id_num "" true u
  else mret u.

Definition echo_task_user_data (o : outside) (work_id_num : Z) (object data : string) (u : echo_unit) : result echo_unit :=
  match e_tasks u !! work_id_num, e_channels u !! work_id_num with
  | Some t, Some _ =>
      if str_empty data || (data =? "None")%string then echo_send_error o (e_unit_name u) (-24) "The inference data is empty." u
      else if str_contains object "stream" then
        match decode_stream data "" (e_stream_buff u) with
        | Ok (true, _, buff) => mret (u <| e_stream_buff := buff |>)
        | Ok (false, tmp_msg, buff) => echo_inference o work_id_num t tmp_msg (u <| e_stream_buff := buff |>)
        | Throw _ => echo_send_error o (e_unit_name u) (-25) "Stream data index error." (u <| e_stream_buff := ∅ |>)
        end
      else echo_inference o work_id_num t data u
  | _, _ => echo_send_error o (e_unit_name u) (-11) "Model run failed." u
  end.

(** [llm_llm::setup]: the code it returns. *)
Definition echo_setup (o : outside) (work_id data : string) (u : echo_unit) : result (echo_unit * Z) :=
  if (Z.of_nat (size (e_channels u)) - 1) mod 2 ^ 64 =? task_count_ then
    u ← echo_send_error o (e_unit_name u) (-21) "task full" u; mret (u, -1)
  else
    work_id_num ← sample_get_work_id_num work_id;
    c ← echo_get_channel work_id_num u;
    match json_parse data with
    | Throw _ => u ← echo_send_error o (e_unit_name u) (-2) "json format error." u; mret (u, -2)
    | Ok config_body =>
        match echo_parse_config config_body with
        | Throw _ => u ← echo_send_error o (e_unit_name u) (-5) "Model loading failed." u; mret (u, -1)
        | Ok t =>
            let c := c <| ch_enoutput := true |> <| ch_enstream := et_enstream t |> <| ch_subscribed := true |> in
            let u := echo_set_channel work_id_num c u in
            let u := u <| e_tasks := <[work_id_num := t <| et_out_callback := true |>]> (e_tasks u) |> in
            u ← echo_send o "None" (JStr "None") work_id u; mret (u, 0)
        end
    end.

Definition echo_taskinfo (o : outside) (work_id : string) (u : echo_unit) : result echo_unit :=
  work_id_num ← sample_get_work_id_num work_id;
  if work_id_num =? WORK_ID_NONE then
    echo_send o "llm.tasklist" (JArr ((λ item, JStr (ch_work_id item.2)) <$> map_to_list (e_channels u))) work_id u
  else
    match e_tasks u !! work_id_num with
    | None => echo_send_error o work_id (-6) "Unit Does Not Exist" u
    | Some t =>
        echo_send o "llm.taskinfo"
          (mk_obj [("model", JStr (et_model t)); ("response_format", JStr (et_response_format t));
                   ("enoutput", JBool (et_enoutput t)); ("inputs", JStrs (et_inputs t))]) work_id u
    end.

Definition echo_exit (o : outside) (work_id : string) (u : echo_unit) : result (echo_unit * Z) :=
  work_id_num ← sample_get_work_id_num work_id;
  match e_tasks u !! work_id_num with
  | None => u ← echo_send_error o work_id (-6) "Unit Does Not Exist" u; mret (u, -1)
  | Some _ =>
      c ← echo_get_channel work_id_num u;
      let u := echo_set_channel work_id_num (c <| ch_subscribed := false |>) u in
      let u := u <| e_tasks := delete work_id_num (e_tasks u) |> in
      u ← echo_send o "None" (JStr "None") work_id u; mret (u, 0)
  end.

(** [~llm_llm], over the tasks that are left. *)
Fixpoint destroy_tasks (tasks : list (Z * llm_task)) (u : echo_unit) : result echo_unit :=
  match tasks with
  | [] => mret u
  | (work_id_num, _) :: tasks =>
      c ← echo_get_channel work_id_num u;
      let u := echo_set_channel work_id_num (c <| ch_subscribed := false |>) u in
      destroy_tasks tasks (u <| e_tasks := delete work_id_num (e_tasks u) |>)
  end.

Definition destroy_echo (u : echo_unit) : result echo_unit := destroy_tasks (map_to_list (e_tasks u)) u.

(** ** The base class on this unit *)

Definition echo_sys_register_unit (reg : registration) (u : echo_unit) : result (echo_unit * Z) :=
  n ← stoi (rg_number reg);
  mret (echo_set_channel n (new_channel (rg_out_port reg) (rg_inference_port reg)) u, n).

Definition echo_sys_release_unit (work_id_num : Z) (work_id : string) (u : echo_unit) : result echo_unit :=
  n ← (if str_empty work_id then Ok work_id_num else sample_get_work_id_num work_id);
  let _work_id := if str_empty work_id then sample_get_work_id work_id_num (e_unit_name u) else work_id in
  mret (u <| e_released := e_released u ++ [_work_id] |> <| e_channels := delete n (e_channels u) |>).

Definition echo_try_set_push_url (work_id zmq_url : string) (u : echo_unit) : echo_unit :=
  match n ← sample_get_work_id_num work_id; c ← echo_get_channel n u; mret (n, c) with
  | Ok (n, c) => echo_set_channel n (c <| ch_output_url := zmq_url |>) u
  | Throw _ => u
  end.

Definition echo_on_setup (o : outside) (reg : registration) (zmq_url raw : string) (u : echo_unit) : result echo_unit :=
  let u := u <| e_request_id := sample_json_str_get raw "request_id" |> <| e_out_zmq_url := zmq_url |> in
  '(u, workid_num) ← echo_sys_register_unit reg u;
  let work_id := sample_get_work_id workid_num (e_unit_name u) in
  c ← echo_get_channel workid_num u;
  let u := echo_set_channel workid_num
             (c <| ch_output_url := zmq_url |> <| ch_request_id := sample_json_str_get raw "request_id" |>
                <| ch_work_id := work_id |>) u in
  '(u, code) ← echo_setup o work_id (sample_json_str_get raw "data") u;
  if negb (code =? 0) then echo_sys_release_unit workid_num work_id u else mret u.

Definition echo_on_exit (o : outside) (zmq_url raw : string) (u : echo_unit) : result echo_unit :=
  let u := u <| e_request_id := sample_json_str_get raw "request_id" |> <| e_out_zmq_url := zmq_url |> in
  let work_id := sample_json_str_get raw "work_id" in
  '(u, code) ← echo_exit o work_id (echo_try_set_push_url work_id zmq_url u);
  if code =? 0 then echo_sys_release_unit (-1) work_id u else mret u.

Definition echo_on_taskinfo (o : outside) (zmq_url raw : string) (u : echo_unit) : result echo_unit :=
  let u := u <| e_request_id := sample_json_str_get raw "request_id" |> <| e_out_zmq_url := zmq_url |> in
  let work_id := sample_json_str_get raw "work_id" in
  echo_taskinfo o work_id (echo_try_set_push_url work_id zmq_url u).

Definition echo_on_user_message (o : outside) (work_id_num : Z) (raw : string) (u : echo_unit) : result echo_unit :=
  match e_channels u !! work_id_num with
  | Some c =>
      if negb (ch_subscribed c) then mret u
      else echo_task_user_data o work_id_num (sample_json_str_get raw "object") (sample_json_str_get raw "data")
             (echo_set_channel work_id_num (routed_channel raw c) u)
  | None => mret u
  end.

(** ** Lemmas *)

(** What a session sends for a list of data: to the publisher and, if there is
    output and a URL, to the client. *)
Definition out_bodies (o : outside) (c : channel) (object : string) (datas : list json) : list json :=
  (λ data, message_body o (ch_request_id c) (ch_work_id c) object data (error_json 0 "")) <$> datas.

Definition emit (o : outside) (c : channel) (object : string) (datas : list json) (u : echo_unit) : echo_unit :=
  let bodies := out_bodies o c object datas in
  u <| e_published := e_published u ++ (MkPush (ch_publisher_url c) <$> bodies) |>
    <| e_sent := e_sent u ++ (if ch_enoutput c && negb (str_empty (ch_output_url c)) then MkPush (ch_output_url c) <$> bodies else []) |>.

(** The same with the exception of a text that cannot be printed. *)
Fixpoint print_all (bodies : list json) : result unit :=
  match bodies with
  | [] => mret tt
  | body :: bodies => _ ← json_dump body; print_all bodies
  end.

Definition print_and_emit (o : outside) (c : channel) (object : string) (datas : list json) (u : echo_unit) : result echo_unit :=
  _ ← print_all (out_bodies o c object datas);
  mret (emit o c object datas u).

Definition chunk_body (index : Z) (delta : string) (finish : bool) : json :=
  mk_obj [("index", JInt index); ("delta", JStr delta); ("finish", JBool finish)].

(** The data of the answers to a text. *)
Definition echo_data (c : channel) (msg : string) : list json :=
  if ch_enstream c then [chunk_body 0 msg false; chunk_body 1 "hello" false; chunk_body 2 "" true] else [JStr ""].

Lemma channel_send_emit o c object data u : echo_channel_send o c object data u = print_and_emit o c object [data] u.
Proof.
  unfold echo_channel_send, print_and_emit, emit. cbn [print_all out_bodies fmap list_fmap]. destruct (json_dump _); [|done].
  cbn [mbind result_bind mret result_ret]. f_equal. destruct (ch_enoutput c && _); [done|]. destruct u. cbn. by rewrite app_nil_r.
Qed.

(** Answers of a session that all can be printed are sent one after the
    other. *)
Lemma print_and_emit_ok o c object datas u u' :
  print_and_emit o c object datas u = Ok u' → u' = emit o c object datas u.
Proof. unfold print_and_emit. destruct (print_all _); [|done]. by intros [= <-]. Qed.

Lemma emit_emit o c object datas datas' u : emit o c object datas' (emit o c object datas u) = emit o c object (datas ++ datas') u.
Proof.
  unfold emit, out_bodies. destruct u. cbn. f_equal; [by rewrite !fmap_app, (assoc_L (++))|].
  destruct (ch_enoutput c && _); [by rewrite !fmap_app, (assoc_L (++))|]. by rewrite !app_nil_r.
Qed.

Lemma inference_answer o n t c msg u :
  e_tasks u !! n = Some t → e_channels u !! n = Some c → et_out_callback t = true → e_count u = 0 →
  echo_inference o n t msg u = print_and_emit o c (et_response_format t) (echo_data c msg) u.
Proof.
  intros Ht Hc Hcb Hcount. unfold echo_inference. rewrite Hcb.
  assert (∀ data finish v, e_tasks v = e_tasks u → e_channels v = e_channels u → task_output o n data finish v =
    if ch_enstream c then
      print_and_emit o c (et_response_format t) [chunk_body (e_count v) (if finish then "" else data) finish]
        (v <| e_count := if finish then 0 else to_int (e_count v + 1) |>)
    else if finish then print_and_emit o c (et_response_format t) [JStr data] v else Ok v) as Hout.
  { intros data finish v Ev1 Ev2. unfold task_output. rewrite Ev1, Ev2, Ht, Hc, !channel_send_emit. done. }
  rewrite (Hout msg false u) by done. unfold echo_data. destruct (ch_enstream c) eqn:Es.
  - rewrite Hcount. unfold print_and_emit at 1 2. cbn [print_all out_bodies fmap list_fmap].
    destruct (json_dump _); [|done]. cbn [mbind result_bind mret result_ret].
    rewrite (Hout "hello" false) by done. unfold print_and_emit at 1. cbn [print_all out_bodies fmap list_fmap].
    match goal with |- context [chunk_body ?i "hello" false] => change i with 1 end.
    destruct (json_dump _); [|done]. cbn [mbind result_bind mret result_ret].
    rewrite (Hout "" true) by done. unfold print_and_emit. cbn [print_all out_bodies fmap list_fmap]. cbv iota.
    match goal with |- context [chunk_body ?i "" true] => change i with 2 end.
    destruct (json_dump _); [|done]. cbn [mbind result_bind mret result_ret]. f_equal.
    change [chunk_body 0 msg false; chunk_body 1 "hello" false; chunk_body 2 "" true]
      with (([chunk_body 0 msg false] ++ [chunk_body 1 "hello" false]) ++ [chunk_body 2 "" true]). rewrite <- !emit_emit.
    destruct u. cbn in Hcount. subst. reflexivity.
  - cbn [mbind result_bind]. rewrite (Hout "hello" false) by done. cbn [mbind result_bind]. by rewrite (Hout "" true) by done.
Qed.

(** Errors are never sent. *)
Lemma send_error_throws o work_id code message u : ∃ what, echo_send_error o work_id code message u = Throw what.
Proof. unfold echo_send_error. cbn. by eexists. Qed.

(** ** The invariant *)

Record echo_ok (u : echo_unit) : Prop := {
  eo_name : e_unit_name u = "llm";
  eo_sessions : dom (e_tasks u) = dom (e_channels u);
  eo_channels : map_Forall (λ n c, 0 <= n ∧ ch_enoutput c = true ∧ ch_subscribed c = true) (e_channels u);
  eo_tasks : map_Forall (λ _ t, et_out_callback t = true) (e_tasks u);
  eo_size : (size (e_channels u) <= 3)%nat;
  eo_count : e_count u = 0;
}.

(** A change of a channel that keeps its flags. *)
Lemma set_channel_ok n c c' u :
  echo_ok u → e_channels u !! n = Some c → ch_enoutput c' = ch_enoutput c → ch_subscribed c' = ch_subscribed c →
  echo_ok (echo_set_channel n c' u).
Proof.
  intros [Hname Hdom Hch Ht Hsize Hcount] Hc Ho Hs. pose proof (Hch n c Hc) as (Hn & Hco & Hcs). split; cbn; try done.
  - rewrite dom_insert_L, Hdom. apply elem_of_dom_2 in Hc. set_solver.
  - by apply map_Forall_insert_2; [rewrite Ho, Hs|].
  - by rewrite map_size_insert_Some by (by eexists).
Qed.

(** What leaves sessions and counter alone keeps the invariant. *)
Lemma frame_ok u u' :
  echo_ok u → e_unit_name u' = e_unit_name u → e_channels u' = e_channels u → e_tasks u' = e_tasks u → e_count u' = e_count u → echo_ok u'.
Proof. intros [Hname Hdom Hch Ht Hsize Hcount] E1 E2 E3 E4. split; by rewrite ?E1, ?E2, ?E3, ?E4. Qed.

Lemma push_url_ok work_id zmq_url u : echo_ok u → echo_ok (echo_try_set_push_url work_id zmq_url u).
Proof.
  intros Hu. unfold echo_try_set_push_url, echo_get_channel. destruct (sample_get_work_id_num work_id) as [n|]; [|done].
  cbn [mbind result_bind]. destruct (e_channels u !! n) as [c|] eqn:Ec; [|done]. by apply (set_channel_ok n c).
Qed.

Lemma event_head_ok request_id zmq_url u : echo_ok u → echo_ok (u <| e_request_id := request_id |> <| e_out_zmq_url := zmq_url |>).
Proof. intros Hu. by apply (frame_ok u). Qed.

Section runs.
(** A setup that comes back has opened its session. *)
Lemma setup_ok o reg zmq_url raw n u u' :
  echo_ok u → stoi (rg_number reg) = Ok n → 0 <= n → echo_on_setup o reg zmq_url raw u = Ok u' →
  echo_ok u' ∧ dom (e_channels u') = {[n]} ∪ dom (e_channels u) ∧ (size (e_channels u') <= 3)%nat.
Proof.
  intros [Hname Hdom Hch Ht Hsize Hcount] Hn Hpos. unfold echo_on_setup, echo_sys_register_unit. rewrite Hn. cbn [mbind result_bind mret result_ret].
  set (u0 := echo_set_channel n (new_channel _ _) _). unfold echo_get_channel.
  assert (e_channels u0 !! n = Some (new_channel (rg_out_port reg) (rg_inference_port reg))) as -> by apply lookup_insert_eq.
  cbn [mbind result_bind]. change (e_unit_name u0) with (e_unit_name u). rewrite Hname.
  match goal with |- context [echo_set_channel n ?ch u0] => generalize ch end. intros c1. set (u1 := echo_set_channel n c1 u0).
  assert (e_channels u1 = <[n := c1]> (e_channels u)) as Ech by apply insert_insert_eq.
  unfold echo_setup. destruct (_ =? task_count_) eqn:Efull; [done|].
  rewrite work_id_num_of by (done || by eapply stoi_is_int). cbn [mbind result_bind]. unfold echo_get_channel. rewrite Ech, lookup_insert_eq.
  cbn [mbind result_bind]. destruct (json_parse _) as [config_body|]; [|done]. destruct (echo_parse_config config_body) as [t|]; [|done].
  unfold echo_send, echo_push. destruct (json_dump _); [|done].
  cbn [mret result_ret mbind result_bind]. change (0 =? 0) with true. cbn [negb]. intros [= <-].
  set (c2 := c1 <| ch_enoutput := true |> <| ch_enstream := et_enstream t |> <| ch_subscribed := true |>).
  match goal with |- echo_ok ?v ∧ _ => set (u2 := v) end.
  assert (e_channels u2 = <[n := c2]> (e_channels u)) as Ech2.
  { change (e_channels u2) with (<[n := c2]> (e_channels u1)). rewrite Ech. apply insert_insert_eq. }
  assert ((size (e_channels u2) <= 3)%nat) as Hsize2.
  { rewrite Ech2. rewrite Ech in Efull. revert Efull. destruct (e_channels u !! n) as [c|] eqn:Ec.
    - intros _. by rewrite map_size_insert_Some by (by eexists).
    - rewrite !map_size_insert_None by done. unfold task_count_. rewrite Z.mod_small by lia. intros Hne%Z.eqb_neq. lia. }
  split; [|split; [by rewrite Ech2, dom_insert_L|done]]. split; try done.
  - change (e_tasks u2) with (<[n := t <| et_out_callback := true |>]> (e_tasks u)). by rewrite Ech2, !dom_insert_L, Hdom.
  - rewrite Ech2. by apply map_Forall_insert_2.
  - change (e_tasks u2) with (<[n := t <| et_out_callback := true |>]> (e_tasks u)). by apply map_Forall_insert_2.
Qed.

(** An exit that comes back has closed its session. *)
Lemma exit_ok o zmq_url raw u u' :
  echo_ok u → echo_on_exit o zmq_url raw u = Ok u' →
  echo_ok u' ∧ ∃ n, sample_get_work_id_num (sample_json_str_get raw "work_id") = Ok n ∧ n ∈ dom (e_channels u) ∧
    dom (e_channels u') = dom (e_channels u) ∖ {[n]}.
Proof.
  intros Hu. unfold echo_on_exit. set (work_id := sample_json_str_get raw "work_id"). cbv zeta.
  pose proof (push_url_ok work_id zmq_url _ (event_head_ok (sample_json_str_get raw "request_id") zmq_url u Hu)) as H1.
  assert (dom (e_channels (echo_try_set_push_url work_id zmq_url (u <| e_request_id := sample_json_str_get raw "request_id" |>
    <| e_out_zmq_url := zmq_url |>))) = dom (e_channels u)) as Hd.
  { unfold echo_try_set_push_url, echo_get_channel. destruct (sample_get_work_id_num work_id) as [n|]; [|done]. cbn [mbind result_bind].
    match goal with |- context [match ?m !! n with _ => _ end] => destruct (m !! n) as [c|] eqn:Ec end; [|done].
    cbn. rewrite dom_insert_L. apply elem_of_dom_2 in Ec. cbn in Ec. set_solver. }
  generalize dependent (echo_try_set_push_url work_id zmq_url (u <| e_request_id := sample_json_str_get raw "request_id" |>
    <| e_out_zmq_url := zmq_url |>)). intros v Hv Hd.
  destruct Hv as [Hname Hdom Hch Ht Hsize Hcount]. unfold echo_exit. destruct (sample_get_work_id_num work_id) as [n|] eqn:En; [|done].
  cbn [mbind result_bind]. destruct (e_tasks v !! n) as [t|] eqn:Et; [|done]. unfold echo_get_channel.
  assert (n ∈ dom (e_channels v)) as Hin by (rewrite <- Hdom; by eapply elem_of_dom_2).
  destruct (e_channels v !! n) as [c|] eqn:Ec; [|done]. cbn [mbind result_bind mret result_ret].
  unfold echo_send, echo_push. destruct (json_dump _); [|done]. cbn [mbind result_bind mret result_ret]. change (0 =? 0) with true.
  pose proof (Hch n c Ec) as (Hpos & _ & _). unfold echo_sys_release_unit. destruct (str_empty work_id) eqn:Ee.
  { destruct work_id; [|done]. cbn in En. injection En as <-. unfold WORK_ID_NONE in Hpos. lia. }
  rewrite En. cbn [mbind result_bind mret result_ret]. intros [= <-]. split.
  - split; cbn; try done.
    + by rewrite delete_insert_eq, !dom_delete_L, Hdom.
    + rewrite delete_insert_eq. by apply map_Forall_delete.
    + by apply map_Forall_delete.
    + rewrite delete_insert_eq, map_size_delete_Some by (by eexists). lia.
  - exists n. split; [done|]. rewrite <- Hd. split; [done|]. cbn. rewrite delete_insert_eq, dom_delete_L. done.
Qed.

(** A message is answered to its sender, kept as a part of a stream, or ends
    the unit. *)
Lemma message_ok o n raw u u' c t :
  echo_ok u → e_channels u !! n = Some c → e_tasks u !! n = Some t → echo_on_user_message o n raw u = Ok u' →
  let c' := routed_channel raw c in let v := echo_set_channel n c' u in
  echo_ok v ∧ (∃ buff, u' = v <| e_stream_buff := buff |> ∨
    ∃ msg, u' = emit o c' (et_response_format t) (echo_data c' msg) (v <| e_stream_buff := buff |>)).
Proof.
  intros Hu Hc Ht E c' v. pose proof Hu as [_ _ Hch Hcb _ Hcount]. destruct (Hch n c Hc) as (_ & _ & Hsub).
  assert (ch_enoutput c' = ch_enoutput c ∧ ch_subscribed c' = ch_subscribed c) as (Ho & Hs).
  { unfold c', routed_channel. destruct (has_action_key _ _ _); [|done]. cbv zeta. by destruct (str_empty _). }
  assert (echo_ok v) as Hv by (by apply (set_channel_ok n c)). split; [exact Hv|].
  assert (e_channels v !! n = Some c') as Hvc by apply lookup_insert_eq.
  unfold echo_on_user_message in E. rewrite Hc, Hsub in E. cbn [negb] in E. fold c' v in E. unfold echo_task_user_data in E.
  change (e_tasks v) with (e_tasks u) in E. rewrite Ht, Hvc in E. pose proof (Hcb n t Ht) as Hcbt. cbn in Hcbt.
  destruct (str_empty _ || _); [done|]. destruct (str_contains _ _).
  - destruct (decode_stream _ _ _) as [[[[] text] buff]|]; [| |done].
    + injection E as <-. exists buff. by left.
    + exists buff. right. exists text. apply print_and_emit_ok. rewrite <- E. symmetry. by apply inference_answer.
  - exists (e_stream_buff v). right. exists (sample_json_str_get raw "data").
    assert (v <| e_stream_buff := e_stream_buff v |> = v) as -> by (by destruct v).
    apply print_and_emit_ok. rewrite <- E. symmetry. by apply inference_answer.
Qed.

(** ** Runs *)

(** The unit manager hands out numbers that are not negative. *)
Inductive echo_step : echo_unit → echo_unit → Prop :=
  | EchoSetup o reg zmq_url raw n u u' :
      stoi (rg_number reg) = Ok n → 0 <= n → echo_on_setup o reg zmq_url raw u = Ok u' → echo_step u u'
  | EchoExit o zmq_url raw u u' : echo_on_exit o zmq_url raw u = Ok u' → echo_step u u'
  | EchoTaskinfo o zmq_url raw u u' : echo_on_taskinfo o zmq_url raw u = Ok u' → echo_step u u'
  | EchoMessage o n raw u u' : echo_on_user_message o n raw u = Ok u' → echo_step u u'.

Lemma taskinfo_ok o zmq_url raw u u' : echo_ok u → echo_on_taskinfo o zmq_url raw u = Ok u' → echo_ok u'.
Proof.
  intros Hu. unfold echo_on_taskinfo. cbv zeta. set (work_id := sample_json_str_get raw "work_id").
  pose proof (push_url_ok work_id zmq_url _ (event_head_ok (sample_json_str_get raw "request_id") zmq_url u Hu)) as Hv.
  generalize dependent (echo_try_set_push_url work_id zmq_url (u <| e_request_id := sample_json_str_get raw "request_id" |>
    <| e_out_zmq_url := zmq_url |>)). intros v Hv.
  unfold echo_taskinfo. destruct (sample_get_work_id_num work_id) as [n|]; [|done]. cbn [mbind result_bind].
  unfold echo_send, echo_push.
  destruct (n =? WORK_ID_NONE); [|destruct (e_tasks v !! n); [|done]]; (destruct (json_dump _); [|done]);
    intros [= <-]; by apply (frame_ok v).
Qed.

Lemma echo_step_ok u u' : echo_step u u' → echo_ok u → echo_ok u'.
Proof.
  intros [o reg url raw n v v' Hn Hpos E|o url raw v v' E|o url raw v v' E|o n raw v v' E] Hu.
  - by apply (setup_ok _ _ _ _ _ _ _ Hu Hn Hpos E).
  - by apply (exit_ok _ _ _ _ _ Hu E).
  - by eapply taskinfo_ok.
  - destruct (e_channels v !! n) as [c|] eqn:Ec; [|unfold echo_on_user_message in E; rewrite Ec in E; by injection E as <-].
    destruct (e_tasks v !! n) as [t|] eqn:Et.
    + destruct (message_ok o n raw v v' c t Hu Ec Et E) as (Hv & buff & [->|[msg ->]]); by apply (frame_ok (echo_set_channel n (routed_channel raw c) v)).
    + apply not_elem_of_dom in Et. rewrite (eo_sessions _ Hu) in Et. by apply elem_of_dom_2 in Ec.
Qed.

(** ** Properties *)

(** The echo unit keeps its sessions and answers them: after any sequence
    of handled events every session has its task and its channel, there are at
    most three, and a message with text is answered to the sender alone: in a
    session that streams with the text, a greeting and the end, numbered from
    zero, in one that does not with a single message (unless one of them cannot
    be printed, which ends the unit). *)
Theorem echo_sessions (u : echo_unit) :
  rtc echo_step new_echo_unit u →
  dom (e_tasks u) = dom (e_channels u) ∧ (size (e_tasks u) <= 3)%nat ∧
  ∀ o n raw c, e_channels u !! n = Some c →
    let data := sample_json_str_get raw "data" in
    str_empty data = false → data ≠ "None" → str_contains (sample_json_str_get raw "object") "stream" = false →
    ∃ t, e_tasks u !! n = Some t ∧
      let c' := routed_channel raw c in
      echo_on_user_message o n raw u = print_and_emit o c' (et_response_format t) (echo_data c' data) (echo_set_channel n c' u).
Proof.
  intros Hrun. assert (echo_ok u) as Hu.
  { refine (rtc_preserves echo_step echo_ok echo_step_ok _ _ Hrun _). split; try done. apply Nat.le_0_l. }
  pose proof Hu as [Hname Hdom Hch Hcb Hsize Hcount]. split; [exact Hdom|]. split; [rewrite <- (size_dom (D := gset Z)), Hdom, size_dom; exact Hsize|].
  intros o n raw c Hc data Hne Hnone Hobj. destruct (e_tasks u !! n) as [t|] eqn:Et.
  - exists t. split; [done|]. destruct (Hch n c Hc) as (_ & _ & Hsub). unfold echo_on_user_message. rewrite Hc, Hsub. cbn [negb].
    unfold echo_task_user_data. fold data. set (v := echo_set_channel n (routed_channel raw c) u). change (e_tasks v) with (e_tasks u). rewrite Et.
    assert (e_channels v !! n = Some (routed_channel raw c)) as Hv by apply lookup_insert_eq. rewrite Hv.
    rewrite Hne, (proj2 (String.eqb_neq _ _) Hnone), Hobj. cbn [orb].
    apply inference_answer; try done. exact (Hcb n t Et).
  - apply not_elem_of_dom in Et. rewrite Hdom in Et. by apply elem_of_dom_2 in Hc.
Qed.

(** Every error ends the unit instead of being reported: a setup when three
    sessions are open, an exit or a query of a session that is not there, a
    message without text. *)
Lemma errors_end_unit o work_id data n u :
  sample_get_work_id_num work_id = Ok n → n ≠ WORK_ID_NONE → e_tasks u !! n = None →
  (∃ w, echo_exit o work_id u = Throw w) ∧ (∃ w, echo_taskinfo o work_id u = Throw w) ∧ (∃ w, echo_task_user_data o n "" "" u = Throw w) ∧
  (size (e_channels u) = 4%nat → ∃ w, echo_setup o work_id data u = Throw w).
Proof.
  intros Hn Hnone Ht. split_and!.
  - unfold echo_exit. rewrite Hn. cbn [mbind result_bind]. rewrite Ht. by eexists.
  - unfold echo_taskinfo. rewrite Hn. cbn [mbind result_bind]. rewrite (proj2 (Z.eqb_neq _ _) Hnone), Ht. by eexists.
  - unfold echo_task_user_data. rewrite Ht. by eexists.
  - intros Hs. unfold echo_setup. rewrite Hs. by eexists.
Qed.
End runs.
End echo.

(** ** Two sessions *)

Definition echo_text : JsonText := {|
  json_parse _ := Ok (mk_obj [("model", JStr "echo"); ("response_format", JStr "llm.utf-8.stream"); ("enoutput", JBool true)]);
  json_dump _ := Ok "";
|}.

Definition open_session (number url : string) (u : echo_unit) : echo_unit :=
  match echo_on_setup (H := echo_text) quiet_outside (MkRegistration number ("pub" +:+ number) ("inf" +:+ number)) url "" u with
  | Ok u' => u'
  | Throw _ => u
  end.

Definition two_sessions : echo_unit := open_session "1" "ipc:///tmp/b" (open_session "0" "ipc:///tmp/a" new_echo_unit).

Definition member (key value : string) : string := quoted key +:+ ":" +:+ value.

Definition text_message : string := "{" +:+ member "object" (quoted "llm.utf-8") +:+ "," +:+ member "data" (quoted "hi") +:+ "}".

Lemma echo_sessions_witness :
  ∃ t u', e_tasks two_sessions !! 0 = Some t ∧ echo_on_user_message (H := echo_text) quiet_outside 0 text_message two_sessions = Ok u' ∧
    length (e_sent u') = (length (e_sent two_sessions) + 3)%nat.
Proof.
  assert (rtc (echo_step (H := echo_text)) new_echo_unit two_sessions) as Hrun.
  { apply (rtc_l _ _ (open_session "0" "ipc:///tmp/a" new_echo_unit)).
    - refine (EchoSetup (H := echo_text) quiet_outside (MkRegistration "0" "pub0" "inf0") "ipc:///tmp/a" "" 0 _ _ _ _ _); vm_compute; done.
    - apply rtc_once.
      refine (EchoSetup (H := echo_text) quiet_outside (MkRegistration "1" "pub1" "inf1") "ipc:///tmp/b" "" 1 _ _ _ _ _); vm_compute; done. }
  destruct (e_channels two_sessions !! 0) as [c|] eqn:Ec; [|vm_compute in Ec; discriminate Ec].
  destruct (proj2 (proj2 (echo_sessions (H := echo_text) two_sessions Hrun)) quiet_outside 0 text_message c Ec) as (t & Et & E).
  - vm_compute. reflexivity.
  - vm_compute. discriminate.
  - vm_compute. reflexivity.
  - vm_compute in Ec. injection Ec as <-. pose proof Et as Et'. vm_compute in Et'. injection Et' as <-.
    eexists _, _. split; [exact Et|]. split; [etransitivity; [exact E|]; vm_compute; reflexivity|].
    vm_compute. reflexivity.
Defined.

(** The sessions share one counter: when the answers of two sessions interleave,
    neither is numbered from zero without gaps. *)
Lemma answers_share_counter :
  let out n data finish u := task_output (H := echo_text) quiet_outside n data finish u in
  match u ← out 0 "a1" false two_sessions; u ← out 1 "b1" false u; u ← out 0 "a2" false u; out 1 "" true u with
  | Throw _ => False
  | Ok u => (λ m, json_get (push_body m) "data" ≫= λ d, json_get d "index") <$> filter (λ m, push_url m = "ipc:///tmp/a") (drop 2 (e_sent u)) =
  [Some (JInt 0); Some (JInt 2)]
  end.
Proof. vm_compute. reflexivity. Qed.

(** The sessions share one buffer: a part of the text of session 0 ends up in
    the text of session 1. *)
Definition stream_part (index : Z) (delta : string) (finish : bool) : string :=
  "{" +:+ member "index" (to_string index) +:+ "," +:+ member "delta" (quoted delta) +:+ "," +:+
  member "finish" (if finish then "true" else "false") +:+ "}".

Lemma streams_share_buffer :
  match echo_task_user_data (H := echo_text) quiet_outside 0 "llm.utf-8.stream" (stream_part 0 "secret of a, " false) two_sessions with
  | Ok u =>
      match echo_task_user_data (H := echo_text) quiet_outside 1 "llm.utf-8.stream" (stream_part 1 "text of b" true) u with
      | Ok u' => (λ m, json_get (push_body m) "data" ≫= λ d, json_get d "delta") <$> filter (λ m, push_url m = "ipc:///tmp/b") (drop 2 (e_sent u')) =
                 [Some (JStr "secret of a, text of b"); Some (JStr "hello"); Some (JStr "")]
      | Throw _ => False
      end
  | Throw _ => False
  end.
Proof. vm_compute. reflexivity. Qed.
