(* ===== verification/System.v ===== *)
(** * The unit manager and the LLM unit together

    A setup of the unit registers it with the unit manager
    ([StackFlow::sys_register_unit] calls [rpc_allocate_unit]), an exit or a
    failed setup gives the registration back ([StackFlow::sys_release_unit]
    calls [rpc_release_unit]).  The state is that of the manager ([Manager])
    and that of the unit ([Session]); the answer of the manager travels as a
    message of two nested parameters ([Framing]). *)
From S2P Require Import Prelude StdString Doubles Json Observability Metrics Types Endpoint Queue Records Config Stream Task Util Framing Manager Session.

(** ** The answer of the manager *)

Definition param_value (p : param) : result string :=
  match p with
  | Value s => Ok s
  | LengthError => Throw "length_error"
  | Undefined => Throw "undefined: read outside of the message"
  end.

(** The callback of [sys_register_unit] on the answer. *)
Definition decode_registration (reply : string) : result registration :=
  str_port ← param_value (get_param reply 1 "");
  out_port ← param_value (get_param reply 0 str_port);
  inference_port ← param_value (get_param reply 1 str_port);
  str_port ← param_value (get_param reply 0 "");
  mret (MkRegistration str_port out_port inference_port).

Lemma decode_encoded number out inf :
  (String.length number <= 127)%nat → (String.length out <= 127)%nat →
  decode_registration (set_param number (set_param out inf)) = Ok (MkRegistration number out inf).
Proof.
  intros Hn Ho. unfold decode_registration. set (msg := set_param number (set_param out inf)).
  assert (∀ i, get_param msg i "" = Value (if Z.rem i 2 =? 0 then number else set_param out inf)) as Houter
    by (intros i; apply get_set_param; auto).
  assert (∀ i, get_param msg i (set_param out inf) = Value (if Z.rem i 2 =? 0 then out else inf)) as Hinner
    by (intros i; apply get_set_param; auto).
  rewrite (Houter 1). change (Z.rem 1 2 =? 0) with false. cbn [param_value mbind result_bind].
  rewrite (Hinner 0), (Hinner 1), (Houter 0). reflexivity.
Qed.

Section system.
Context `{TimeSeriesStore} `{JsonText}.

Record system := MkSystem {
  y_manager : manager;
  y_unit : llm_unit;
}.

(** The releases the unit has sent while it went from [u] to [u']. *)
Definition deliver_releases (u u' : llm_unit) (m : manager) : manager :=
  foldl (λ m work_id, (rpc_release_unit work_id m).1) m (drop (length (u_released u)) (u_released u')).

(** The first phase of an event of the unit. *)
Definition system_begin (e : unit_event) (s : system) : system :=
  MkSystem (y_manager s) (begin_event e (y_unit s)).

(** The setup of the unit with the manager's answer, after [_setup] has written
    where the answer goes, and as a whole. *)
Definition system_setup_call (o : outside) (zmq_url raw : string) (s : system) : result system :=
  '(m, reply) ← rpc_allocate_unit (u_unit_name (y_unit s)) (y_manager s);
  reg ← decode_registration reply;
  u' ← setup_call o reg zmq_url raw (y_unit s);
  mret (MkSystem (deliver_releases (y_unit s) u' m) u').

Definition system_setup (o : outside) (zmq_url raw : string) (s : system) : result system :=
  system_setup_call o zmq_url raw (MkSystem (y_manager s) (begin_call zmq_url raw (y_unit s))).

(** The other events of the unit, the second phase and the whole. *)
Definition system_finish (o : outside) (e : unit_event) (s : system) : result system :=
  u' ← finish_event o e (y_unit s);
  mret (MkSystem (deliver_releases (y_unit s) u' (y_manager s)) u').

Definition system_event (o : outside) (e : unit_event) (s : system) : result system :=
  system_finish o e (system_begin e s).

Definition is_setup (e : unit_event) : bool := match e with SetupEvent _ _ _ => true | _ => false end.

(** An exit names the session by the identifier it was given. *)
Definition exact_exit (e : unit_event) (u : llm_unit) : Prop :=
  match e with
  | ExitEvent _ raw =>
      let work_id := sample_json_str_get raw "work_id" in
      ∀ n, sample_get_work_id_num work_id = Ok n → is_Some (u_sessions u !! n) →
        work_id = sample_get_work_id n (u_unit_name u)
  | _ => True
  end.

(** A registration can be served. *)
Definition can_register (m : manager) : Prop := m_counter m < INT_MAX ∧ (2 <= free_ports (m_ports m))%nat.

(** The orderly steps of the system.  The two phases of an event are steps of
    their own, so that those of events on different threads may come in any
    order (more runs than the program has: a second phase may come without its
    first).  Setups come while the manager has ports left; an exit names a
    session by the identifier it was given; other units register under other
    names and release their own work identifiers; key-value calls do not name a
    registered unit.  The code enforces none of these conditions: what happens without
    them is shown by [inexact_exit_leaks] below and
    [Manager.key_value_call_leaks_ports]. *)
Inductive orderly_step : system → system → Prop :=
  | SystemBegin e s : orderly_step s (system_begin e s)
  | SystemSetup o zmq_url raw s s' :
      can_register (y_manager s) → system_setup_call o zmq_url raw s = Ok s' → orderly_step s s'
  | SystemEvent o e s s' :
      is_setup e = false → exact_exit e (y_unit s) → system_finish o e s = Ok s' → orderly_step s s'
  | OtherRegister name s m' r :
      char_in "%"%char name = false → char_in "."%char name = false → name ≠ u_unit_name (y_unit s) →
      m_counter (y_manager s) < INT_MAX → sys_allocate_unit name (y_manager s) = Ok (m', r) →
      orderly_step s (MkSystem m' (y_unit s))
  | OtherRelease work_id s :
      sample_get_work_id_name work_id ≠ u_unit_name (y_unit s) →
      orderly_step s (MkSystem (rpc_release_unit work_id (y_manager s)).1 (y_unit s))
  | OtherSqlSet raw s :
      read_unit (m_sql (y_manager s)) (sample_json_str_get raw "key") = None →
      orderly_step s (MkSystem (rpc_sql_set raw (y_manager s)).1 (y_unit s))
  | OtherSqlUnset key s :
      read_unit (m_sql (y_manager s)) key = None →
      orderly_step s (MkSystem (rpc_sql_unset key (y_manager s)).1 (y_unit s)).

(** ** The invariant *)

(** The registrations of unit [name] in [m] are exactly the channels [D]. *)
Definition registrations_are (name : string) (D : gmap Z (string * string)) (m : manager) : Prop :=
  ∀ n urls, D !! n = Some urls ↔
    0 <= n <= INT_MAX ∧ ∃ v, live m (sample_get_work_id n name) v ∧ urls = (ud_output_url v, ud_inference_url v).

(** The format leaves room for the URLs in a message. *)
Definition short_format (name : string) (m : manager) : Prop :=
  char_in "%"%char name = false ∧ (String.length (m_s_format m) + String.length name <= 80)%nat.

Definition system_ok (name : string) (s : system) : Prop :=
  manager_ok (y_manager s) ∧ short_format name (y_manager s) ∧
  ∃ D released, unit_at name D released (y_unit s) ∧ registrations_are name D (y_manager s).

(** ** Lemmas *)

Lemma is_int_nonneg n : 0 <= n <= INT_MAX → is_int n = true.
Proof. unfold is_int, INT_MIN, INT_MAX. lia. Qed.

Lemma sample_work_id_inj n n' name :
  0 <= n <= INT_MAX → 0 <= n' <= INT_MAX → sample_get_work_id n name = sample_get_work_id n' name → n = n'.
Proof. intros Hn Hn'. apply work_id_number; by apply is_int_nonneg. Qed.

(** Numbers in use are below the counter. *)
Lemma registered_below name D m n :
  manager_ok m → registrations_are name D m → is_Some (D !! n) → n < m_counter m.
Proof.
  intros Hok Hreg [urls Hn]. apply Hreg in Hn as (Hint & v & Hv & _).
  destruct (ok_key Hok _ _ Hv) as (name' & E & Hr). pose proof (ok_counter Hok).
  apply work_id_number in E; [lia|by apply is_int_nonneg|apply is_int_nonneg; lia].
Qed.

Lemma work_id_free name m v :
  manager_ok m → m_counter m < INT_MAX → ¬ live m (sample_get_work_id (m_counter m) name) v.
Proof.
  intros Hok Hlt Hv. destruct (ok_key Hok _ _ Hv) as (name' & E & Hr). pose proof (ok_counter Hok).
  apply work_id_number in E; [lia|apply is_int_nonneg; lia..].
Qed.

Lemma registrations_same name D m m' :
  registrations_are name D m →
  (∀ n v, live m' (sample_get_work_id n name) v ↔ live m (sample_get_work_id n name) v) → registrations_are name D m'.
Proof. intros Hreg Hlive n urls. setoid_rewrite Hlive. apply Hreg. Qed.

Lemma registrations_insert name D m m' v n :
  registrations_are name D m → 0 <= n <= INT_MAX → (∀ w, ¬ live m (sample_get_work_id n name) w) →
  (∀ k w, live m' k w ↔ (k = sample_get_work_id n name ∧ w = v) ∨ live m k w) →
  registrations_are name (<[n := (ud_output_url v, ud_inference_url v)]> D) m'.
Proof.
  intros Hreg Hn Hfree Hlive n' urls. setoid_rewrite Hlive. destruct (decide (n' = n)) as [->|Hne].
  - rewrite lookup_insert_eq. split.
    + intros [= <-]. eauto 6.
    + intros (_ & w & [[_ ->]|Hw] & ->); [done|]. by destruct (Hfree w).
  - rewrite lookup_insert_ne by done. rewrite (Hreg n' urls). split.
    + intros (Hint & w & Hw & E). eauto 6.
    + intros (Hint & w & [[E _]|Hw] & Eu); [|eauto 6]. by apply sample_work_id_inj in E.
Qed.

Lemma registrations_delete name D m m' n :
  registrations_are name D m → 0 <= n <= INT_MAX →
  (∀ k w, live m' k w ↔ k ≠ sample_get_work_id n name ∧ live m k w) → registrations_are name (delete n D) m'.
Proof.
  intros Hreg Hn Hlive n' urls. setoid_rewrite Hlive. destruct (decide (n' = n)) as [->|Hne].
  - rewrite lookup_delete_eq. split; [done|]. by intros (_ & w & [? _] & _).
  - rewrite lookup_delete_ne by done. rewrite (Hreg n' urls). split.
    + intros (Hint & w & Hw & E). split; [done|]. exists w. split_and!; [|done..].
      intros Eid. by apply sample_work_id_inj in Eid.
    + intros (Hint & w & [_ Hw] & E). eauto.
Qed.

Lemma deliver_none name D D' released u u' m :
  unit_at name D released u → unit_at name D' released u' → deliver_releases u u' m = m.
Proof. intros [(_ & _ & _ & H1) _] [(_ & _ & _ & H2) _]. unfold deliver_releases. by rewrite H1, H2, drop_all. Qed.

Lemma deliver_one name D D' released work_id u u' m :
  unit_at name D released u → unit_at name D' (released ++ [work_id]) u' →
  deliver_releases u u' m = (sys_free_unit work_id m).1.
Proof.
  intros [(_ & _ & _ & H1) _] [(_ & _ & _ & H2) _]. unfold deliver_releases. by rewrite H1, H2, drop_app_length.
Qed.

Lemma unit_at_sessions name D released u : unit_at name D released u → dom (u_sessions u) = dom D.
Proof. intros [(_ & _ & <- & _) [<- _]]. by rewrite dom_fmap_L. Qed.

Lemma short_format_frame name m m' :
  manager_frame m' = manager_frame m → short_format name m → short_format name m'.
Proof. intros Hf [Hp Hl]. injection Hf as _ _ Hfmt _. split; [done|]. by rewrite Hfmt. Qed.

(** What a setup through the manager leads to: a session under the next number
    and its registration, or nothing. *)
Definition setup_outcome (name : string) (s s' : system) : Prop :=
  let n := m_counter (y_manager s) in
  (dom (u_sessions (y_unit s')) = {[n]} ∪ dom (u_sessions (y_unit s)) ∧
   (n ∉ dom (u_sessions (y_unit s))) ∧
   ∃ v, ∀ k w, live (y_manager s') k w ↔ (k = sample_get_work_id n name ∧ w = v) ∨ live (y_manager s) k w) ∨
  (dom (u_sessions (y_unit s')) = dom (u_sessions (y_unit s)) ∧
   m_ports (y_manager s') = m_ports (y_manager s) ∧
   ∀ k w, live (y_manager s') k w ↔ live (y_manager s) k w).

(** What is left when the answer of a setup cannot be printed: the unit ends
    with the exception, and the manager keeps the registration. *)
Definition setup_aborted (name : string) (o : outside) (what : string) (s : system) : Prop :=
  unprintable o what ∧
  ∃ m1 reply v, rpc_allocate_unit name (y_manager s) = Ok (m1, reply) ∧
    live m1 (sample_get_work_id (m_counter (y_manager s)) name) v.

(** The manager's part of a setup. *)
Lemma register_reply name m :
  manager_ok m → short_format name m → can_register m →
  ∃ m1 v reply, rpc_allocate_unit name m = Ok (m1, reply) ∧ manager_ok m1 ∧ manager_frame m1 = manager_frame m ∧
    decode_registration reply = Ok (MkRegistration (to_string (m_counter m)) (ud_output_url v) (ud_inference_url v)) ∧
    (∀ k w, live m1 k w ↔ (k = sample_get_work_id (m_counter m) name ∧ w = v) ∨ live m k w).
Proof.
  intros Hok [Hpct Hshort] [Hlt Hfree].
  destruct (allocate_unit_ok ∅ name m Hok Hpct Hlt) as (m1 & r & E & Hok1 & Hr).
  destruct r as [v|]; [|lia]. destruct Hr as (Hport & Hcount & Hid & Hframe & Hlen & Hlive).
  pose proof (ok_counter Hok) as Hc.
  eexists m1, v, _. unfold rpc_allocate_unit. rewrite E. cbn [mbind result_bind mret result_ret]. rewrite Hport.
  split_and!; [reflexivity|done|done| |].
  - apply decode_encoded; [|lia]. pose proof (to_string_length (m_counter m) Hc). lia.
  - intros k w. by rewrite Hlive, Hid.
Qed.

Lemma system_begin_ok name e s : system_ok name s → system_ok name (system_begin e s).
Proof.
  intros (Hok & Hshort & D & released & Hat & Hreg). split_and!; [done|done|]. exists D, released.
  split; [by apply begin_event_at|done].
Qed.

Lemma system_setup_ok name o zmq_url raw s :
  system_ok name s → can_register (y_manager s) →
  match system_setup_call o zmq_url raw s with
  | Ok s' => system_ok name s' ∧ setup_outcome name s s'
  | Throw what => setup_aborted name o what s
  end.
Proof.
  intros (Hok & Hshort & D & released & Hat & Hreg) Hcan. destruct s as [m u]. cbn [y_manager y_unit] in *.
  assert (u_unit_name u = name) as Hname by apply Hat.
  destruct (register_reply name m Hok Hshort Hcan) as (m1 & v & reply & E & Hok1 & Hframe & Hdec & Hlive).
  pose proof (ok_counter Hok) as Hn. destruct Hcan as [Hlt _]. set (n := m_counter m) in *.
  assert (∀ w, ¬ live m (sample_get_work_id n name) w) as Hfresh by (intros w; by apply work_id_free).
  assert (D !! n = None) as HD.
  { destruct (D !! n) eqn:HD; [|done]. exfalso. assert (n < n); [|lia]. apply (registered_below name D m); [done..|].
    by rewrite HD. }
  assert (u_channels u !! n = None) as Hnone.
  { destruct Hat as [(_ & _ & <- & _) _]. rewrite lookup_fmap in HD. by apply fmap_None in HD. }
  unfold system_setup_call. cbn [y_manager y_unit]. rewrite Hname, E. cbn [mbind result_bind]. rewrite Hdec.
  cbn [mbind result_bind].
  assert (stoi (to_string n) = Ok n) as Hstoi.
  { rewrite <- (str_app_nil_r (to_string n)). apply stoi_to_string; [by apply is_int_nonneg|done]. }
  pose proof (setup_call_at name D released o (MkRegistration (to_string n) (ud_output_url v) (ud_inference_url v))
              zmq_url raw u n Hat Hstoi (proj1 Hn) Hnone) as Hcase.
  destruct (setup_call _ _ _ _ _) as [u'|what]; cbn [mbind result_bind mret result_ret].
  2: { split; [done|]. exists m1, reply, v. split; [done|]. apply Hlive. by left. }
  cbn [rg_out_port rg_inference_port] in Hcase.
  pose proof (unit_at_sessions _ _ _ _ Hat) as Hs.
  destruct Hcase as [Hat'|Hat']; pose proof (unit_at_sessions _ _ _ _ Hat') as Hs'.
  - rewrite (deliver_none _ _ _ _ _ _ m1 Hat Hat'). split; [split_and!; [done| |]|left; split_and!; cbn].
    + by apply (short_format_frame name m).
    + eexists _, _. split; [exact Hat'|]. by apply (registrations_insert name D m).
    + by rewrite Hs', Hs, dom_insert_L.
    + rewrite Hs. by apply not_elem_of_dom.
    + by exists v.
  - rewrite (deliver_one _ _ _ _ _ _ _ m1 Hat Hat').
    destruct (free_unit_ok ∅ (sample_get_work_id n name) m1 Hok1) as (Hok2 & _ & Hlive2).
    assert (manager_frame (sys_free_unit (sample_get_work_id n name) m1).1 = manager_frame m) as Hframe2
      by (by rewrite free_unit_frame).
    assert (∀ k w, live (sys_free_unit (sample_get_work_id n name) m1).1 k w ↔ live m k w) as Hsame.
    { intros k w. rewrite Hlive2, Hlive. split.
      - by intros [? [[? _]|?]].
      - intros Hw. split; [|by right]. intros Ek. rewrite Ek in Hw. by destruct (Hfresh w). }
    split; [split_and!; [done| |]|right; split_and!; cbn].
    + by apply (short_format_frame name m).
    + eexists _, _. split; [exact Hat'|]. by apply (registrations_same name D m).
    + by rewrite Hs', Hs.
    + by apply ports_determined.
    + done.
Qed.

(** The other events of the unit. *)
Lemma system_event_ok name o e s :
  system_ok name s → is_setup e = false → exact_exit e (y_unit s) →
  match system_finish o e s with
  | Ok s' => system_ok name s'
  | Throw what => ¬ finish_well_formed e (y_unit s) ∨ unprintable o what
  end.
Proof.
  intros (Hok & Hshort & D & released & Hat & Hreg) Hsetup Hexit. destruct s as [m u]. cbn [y_manager y_unit] in *.
  unfold system_finish. cbn [y_manager y_unit].
  assert (registered e u) as Hrg by (by destruct e).
  pose proof (finish_event_at name D released o e u Hat Hrg) as Hh.
  destruct (finish_event o e u) as [u'|]; cbn [mbind result_bind mret result_ret]; [|done].
  assert (unit_at name D released u' → system_ok name (MkSystem (deliver_releases u u' m) u')) as Hquiet.
  { intros Hat'. rewrite (deliver_none _ _ _ _ _ _ m Hat Hat'). split_and!; [done..|]. by exists D, released. }
  destruct e as [reg zmq_url raw|zmq_url raw|zmq_url raw|zmq_url raw|wall zmq_url raw|n raw]; try (by apply Hquiet).
  cbn [event_change exact_exit] in *. destruct Hh as [Hat'|(n & Hnum & Hin & Hat')]; [by apply Hquiet|].
  pose proof Hat as [(Hdot & Hname & Hdom & Hrel) Hregistry].
  assert (is_Some (u_sessions u !! n)) as Hses.
  { apply elem_of_dom. destruct Hregistry as [<- _]. rewrite <- Hdom, lookup_fmap in Hin.
    apply elem_of_dom. by apply fmap_is_Some in Hin. }
  rewrite (Hexit n Hnum Hses), Hname in Hat'.
  assert (0 <= n <= INT_MAX) as Hn by (destruct Hin as [urls Hin]; apply Hreg in Hin as [? _]; done).
  rewrite (deliver_one name D (delete n D) released (sample_get_work_id n name) u u' m Hat Hat').
  destruct (free_unit_ok ∅ (sample_get_work_id n name) m Hok) as (Hok2 & _ & Hlive2).
  split_and!; [done| |].
  - apply (short_format_frame name m); [by apply free_unit_frame|done].
  - eexists _, _. split; [exact Hat'|]. by apply (registrations_delete name D m).
Qed.

Lemma system_step_ok name s s' :
  char_in "."%char name = false → orderly_step s s' → system_ok name s → system_ok name s'.
Proof.
  intros Hdot Hstep Hs.
  assert (u_unit_name (y_unit s) = name) as Hname by (destruct Hs as (_ & _ & D & rel & Hat & _); apply Hat).
  assert (∀ m', manager_ok m' → manager_frame m' = manager_frame (y_manager s) →
    (∀ n v, live m' (sample_get_work_id n name) v ↔ live (y_manager s) (sample_get_work_id n name) v) →
    system_ok name (MkSystem m' (y_unit s))) as Hother.
  { intros m' Hok' Hframe Hlive. destruct Hs as (_ & Hshort & D & rel & Hat & Hreg). split_and!; [done| |].
    - by apply (short_format_frame name (y_manager s)).
    - exists D, rel. split; [done|]. by apply (registrations_same name D (y_manager s)). }
  destruct Hstep as [e s|o zmq_url raw s s' Hcan E|o e s s' Hset Hex E|name' s m' r Hp Hd Hne Hlt E|work_id s Hne
                    |raw s Hkey|key s Hkey].
  - by apply system_begin_ok.
  - pose proof (system_setup_ok name o zmq_url raw s Hs Hcan) as Hy. rewrite E in Hy. apply Hy.
  - pose proof (system_event_ok name o e s Hs Hset Hex) as Hy. by rewrite E in Hy.
  - destruct (allocate_unit_ok ∅ name' (y_manager s) (proj1 Hs) Hp Hlt) as (m2 & r2 & E2 & Hok2 & Hr).
    assert (m2 = m' ∧ r2 = r) as [-> ->] by (split; congruence). destruct r as [v|].
    + destruct Hr as (_ & _ & Hid & Hframe & _ & Hlive). apply Hother; [done..|]. intros n w. rewrite Hlive, Hid.
      split; [|by right]. intros [[Ek _]|Hw]; [|done]. exfalso. apply Hne. rewrite Hname.
      rewrite <- (work_id_name_of n name Hdot), Ek. symmetry. by apply (work_id_name_of (m_counter (y_manager s))).
    + destruct Hr as [-> _]. by apply Hother.
  - destruct (free_unit_ok ∅ work_id (y_manager s) (proj1 Hs)) as (Hok2 & _ & Hlive).
    apply Hother; [done|by apply free_unit_frame|]. intros n w. cbn. rewrite Hlive. split; [by intros [_ ?]|].
    intros Hw. split; [|done]. intros <-. apply Hne. by rewrite work_id_name_of.
  - destruct (sql_set_ok raw (y_manager s) Hkey (proj1 Hs)) as [Hok2 Hlive]. apply Hother; [done| |done].
    unfold rpc_sql_set. by destruct (str_empty _).
  - destruct (sql_unset_ok key (y_manager s) Hkey (proj1 Hs)) as [Hok2 Hlive]. by apply Hother.
Qed.

(** ** Properties *)

(** The manager starts idle and the unit without sessions. *)
Definition system_start (sql : gmap string any) (name : string) (p : process) (m0 : manager) : Prop :=
  good_start sql m0 ∧ char_in "."%char name = false ∧ short_format name m0.

Lemma system_start_ok sql name p m0 :
  system_start sql name p m0 → system_ok name (MkSystem m0 (new_unit name p)).
Proof.
  intros (Hgood & Hdot & Hshort). split_and!; [by eapply good_start_ok|done|]. exists ∅, []. split.
  - split; [done|]. by apply new_unit_ok.
  - intros n urls. rewrite lookup_empty. split; [done|]. intros (_ & v & Hv & _).
    destruct Hgood as (Hstart & _ & _ & _ & _ & Hsql). unfold live in Hv. unfold start_manager in Hstart.
    repeat case_match; simplify_eq. by destruct (Hsql _ _ Hv).
Qed.

Lemma reachable_system_ok sql name p m0 s :
  system_start sql name p m0 → rtc orderly_step (MkSystem m0 (new_unit name p)) s → system_ok name s.
Proof.
  intros Hstart Hrun. refine (rtc_preserves orderly_step (system_ok name) _ _ _ Hrun (system_start_ok _ _ _ _ Hstart)).
  intros x y Hxy. apply system_step_ok; [by apply Hstart|done].
Qed.

Lemma channel_registered name s n c :
  system_ok name s → u_channels (y_unit s) !! n = Some c →
  0 <= n <= INT_MAX ∧ ∃ v, live (y_manager s) (sample_get_work_id n name) v ∧
    ch_publisher_url c = ud_output_url v ∧ ch_inference_url c = ud_inference_url v.
Proof.
  intros (_ & _ & D & released & Hat & Hreg) Hc. destruct Hat as [(_ & _ & HD & _) _].
  assert (D !! n = Some (channel_urls c)) as Hn by (by rewrite <- HD, lookup_fmap, Hc).
  apply Hreg in Hn as (Hint & v & Hv & [= H1 H2]). eauto 6.
Qed.

Lemma inference_urls_distinct name s n n' c c' :
  system_ok name s → u_channels (y_unit s) !! n = Some c → u_channels (y_unit s) !! n' = Some c' →
  ch_inference_url c = ch_inference_url c' → n = n'.
Proof.
  intros Hs Hc Hc' E.
  destruct (channel_registered name s n c Hs Hc) as (Hn & v & Hv & _ & Hi).
  destruct (channel_registered name s n' c' Hs Hc') as (Hn' & v' & Hv' & _ & Hi').
  destruct Hs as (Hok & _). apply (sample_work_id_inj n n' name); [done..|].
  destruct (ok_urls Hok _ _ Hv) as (i & j & _ & _ & Hj).
  apply (ok_exclusive Hok _ _ v v' j Hv Hv'); right; [done|]. by rewrite <- Hi', <- E, Hi.
Qed.

(** C14.  Manager and unit agree in every orderly run: as long as exits name a
    session by the identifier it was given, the key-value calls of clients and
    units name no registered unit, and other units register and release under
    other names, whatever clients set up, exit, query, reload and send, the
    sessions of the unit are exactly the registrations the manager holds in its
    name, under the same numbers and with the same pair of URLs, and no two
    sessions share an inference URL.  (Without these conditions, which the code
    does not enforce, it fails: [inexact_exit_leaks],
    [Manager.key_value_call_leaks_ports].) *)
Theorem sessions_match_registrations (sql : gmap string any) (name : string) (p : process) (m0 : manager) (s : system) :
  system_start sql name p m0 → rtc orderly_step (MkSystem m0 (new_unit name p)) s →
  (∀ n, 0 <= n <= INT_MAX →
     is_Some (u_sessions (y_unit s) !! n) ↔ ∃ v, live (y_manager s) (sample_get_work_id n name) v) ∧
  (∀ n c v, u_channels (y_unit s) !! n = Some c → live (y_manager s) (sample_get_work_id n name) v →
     ch_publisher_url c = ud_output_url v ∧ ch_inference_url c = ud_inference_url v) ∧
  (∀ n n' c c', u_channels (y_unit s) !! n = Some c → u_channels (y_unit s) !! n' = Some c' →
     ch_inference_url c = ch_inference_url c' → n = n').
Proof.
  intros Hstart Hrun. pose proof (reachable_system_ok _ _ _ _ _ Hstart Hrun) as Hs. split_and!.
  - intros n Hn. destruct Hs as (_ & _ & D & released & Hat & Hreg).
    rewrite <- elem_of_dom, (unit_at_sessions _ _ _ _ Hat), elem_of_dom. split.
    + intros [urls Hu]. apply Hreg in Hu as (_ & v & Hv & _). by exists v.
    + intros [v Hv]. exists (ud_output_url v, ud_inference_url v). apply Hreg. eauto.
  - intros n c v Hc Hv. destruct (channel_registered name s n c Hs Hc) as (_ & v' & Hv' & H1 & H2).
    assert (v' = v) as -> by (unfold live in *; congruence). done.
  - intros n n' c c'. by apply (inference_urls_distinct name).
Qed.

(** A client's inference message reaches its session and no other: the
    manager publishes a message for the work identifier of session [n], with
    the client's URL in front, on the URL that the channel of session [n]
    listens to, and no other channel of the unit listens there. *)
Theorem message_reaches_session `{DocumentReader} (sql : gmap string any) (name : string) (p : process) (m0 : manager)
    (s : system) rpc (n : Z) (c : channel) (com_id : Z) (json_str request_id url : string) :
  system_start sql name p m0 → rtc orderly_step (MkSystem m0 (new_unit name p)) s →
  u_channels (y_unit s) !! n = Some c →
  doc_ok json_str = true → doc_string json_str "request_id" = Some request_id →
  doc_string json_str "work_id" = Some (sample_get_work_id n name) → doc_string json_str "action" = Some "inference" →
  sprintf_int (m_c_format (y_manager s)) (Some com_id) = Ok url →
  char_in quote url = false → str_back url ≠ Some backslash →
  (∃ raw, unit_action_match rpc (y_manager s) com_id json_str = Ok [Publish (ch_inference_url c) raw] ∧
     sample_json_str_get raw "zmq_com" = url) ∧
  ∀ n' c', u_channels (y_unit s) !! n' = Some c' → ch_inference_url c' = ch_inference_url c → n' = n.
Proof.
  intros Hstart Hrun Hc Hdoc Hreq Hwork Hact Hurl Hq Hb. pose proof (reachable_system_ok _ _ _ _ _ Hstart Hrun) as Hs.
  destruct (channel_registered name s n c Hs Hc) as (_ & v & Hv & _ & Hi). split.
  - rewrite Hi. apply (inference_dispatched rpc _ _ _ request_id (sample_get_work_id n name) url v); try done.
    + unfold sample_get_work_id. by destruct name.
    + unfold read_unit. by rewrite Hv.
  - intros n' c' Hc' E. by apply (inference_urls_distinct name s n' n c' c).
Qed.

(** C28.  A setup is all or nothing unless it ends the unit: in any state an
    orderly run reaches in which the manager has two ports and a number left,
    the setup of a client either completes, and afterwards there is a new
    session under a number that was free together with its registration, or
    sessions, registrations and ports are what they were before; or the message
    that answers it cannot be printed (for the library: it has a string that is
    not UTF-8, such as the request id of the client), and then the exception
    ends the unit and the registration stays with the manager. *)
Theorem setup_all_or_nothing (sql : gmap string any) (name : string) (p : process) (m0 : manager) (s : system)
    (o : outside) (zmq_url raw : string) :
  system_start sql name p m0 → rtc orderly_step (MkSystem m0 (new_unit name p)) s → can_register (y_manager s) →
  match system_setup o zmq_url raw s with
  | Ok s' => setup_outcome name s s'
  | Throw what => setup_aborted name o what s
  end.
Proof.
  intros Hstart Hrun Hcan. pose proof (reachable_system_ok _ _ _ _ _ Hstart Hrun) as Hs.
  unfold system_setup. set (s0 := MkSystem (y_manager s) (begin_call zmq_url raw (y_unit s))).
  assert (system_ok name s0) as Hs0.
  { exact (system_begin_ok name (SetupEvent (MkRegistration "" "" "") zmq_url raw) s Hs). }
  pose proof (system_setup_ok name o zmq_url raw s0 Hs0 Hcan) as Hy.
  destruct (system_setup_call o zmq_url raw s0); [apply Hy|exact Hy].
Qed.
End system.

(** ** Witnesses *)

Definition idle_system : @system open_store := MkSystem idle_manager fresh_unit.
Definition busy_system : @system open_store :=
  match system_setup (H0 := document_text) quiet_outside "ipc:///tmp/c" "" idle_system with
  | Ok s => s
  | Throw _ => idle_system
  end.

Lemma idle_system_start : system_start master_sql "llm" (MkProcess ∅ ∅) idle_manager.
Proof.
  split; [apply idle_manager_good|]. split; [reflexivity|]. split; [reflexivity|]. vm_compute. lia.
Qed.

Lemma idle_can_register : can_register idle_manager.
Proof. split; vm_compute; [reflexivity|lia]. Qed.

Lemma busy_system_step : rtc (orderly_step (H0 := document_text)) idle_system busy_system.
Proof.
  apply (rtc_l _ _ (system_begin (SetupEvent (MkRegistration "" "" "") "ipc:///tmp/c" "") idle_system)).
  - apply SystemBegin.
  - apply rtc_once, (SystemSetup (H0 := document_text) quiet_outside "ipc:///tmp/c" "").
    + apply idle_can_register.
    + vm_compute. reflexivity.
Qed.

Lemma sessions_match_registrations_witness :
  ∃ v, live (y_manager busy_system) (sample_get_work_id 0 "llm") v.
Proof.
  apply (sessions_match_registrations (H0 := document_text) master_sql "llm" (MkProcess ∅ ∅) idle_manager busy_system).
  - apply idle_system_start.
  - apply busy_system_step.
  - vm_compute. split; discriminate.
  - vm_compute. eexists. reflexivity.
Defined.

Lemma message_reaches_session_witness :
  ∃ c raw, u_channels (y_unit busy_system) !! 0 = Some c ∧
    unit_action_match (H := chat_reader) (λ _ _ _, 0) (y_manager busy_system) 8000 "{}" =
      Ok [Publish (ch_inference_url c) raw].
Proof.
  destruct (u_channels (y_unit busy_system) !! 0) as [c|] eqn:Hc; [|vm_compute in Hc; discriminate Hc].
  destruct (message_reaches_session (H0 := document_text) (H1 := chat_reader) master_sql "llm" (MkProcess ∅ ∅)
              idle_manager busy_system (λ _ _ _, 0) 0 c 8000 "{}" "7" "ipc:///tmp/llm/8000.sock")
    as [(raw & E & _) _].
  - apply idle_system_start.
  - apply busy_system_step.
  - exact Hc.
  - reflexivity.
  - reflexivity.
  - vm_compute. reflexivity.
  - reflexivity.
  - vm_compute. reflexivity.
  - reflexivity.
  - vm_compute. discriminate.
  - exists c, raw. split; [reflexivity|exact E].
Defined.

Lemma setup_all_or_nothing_witness :
  ∃ s', system_setup (H0 := document_text) quiet_outside "ipc:///tmp/c" "" idle_system = Ok s' ∧
    setup_outcome "llm" idle_system s'.
Proof.
  pose proof (setup_all_or_nothing (H0 := document_text) master_sql "llm" (MkProcess ∅ ∅) idle_manager idle_system
    quiet_outside "ipc:///tmp/c" "" idle_system_start (rtc_refl _ _) idle_can_register) as Hs.
  destruct (system_setup _ _ _ _) as [s'|what]; [by exists s'|]. destruct Hs as [(? & ? & ? & ? & ? & [=]) _].
Defined.

(** An exit under another spelling of the number ends the session but not the
    registration: the ports are lost until the manager ends. *)
Lemma inexact_exit_leaks :
  match system_event (H0 := document_text) quiet_outside
          (ExitEvent "ipc:///tmp/c" ("{" +:+ quoted "work_id" +:+ ":" +:+ quoted "llm.00" +:+ "}")) busy_system with
  | Ok s => size (u_sessions (y_unit s)) = 0%nat ∧ (∃ v, live (y_manager s) "llm.0" v) ∧
      m_ports (y_manager s) = m_ports (y_manager busy_system)
  | Throw _ => False
  end.
Proof. vm_compute. split; [reflexivity|]. split; [eexists; reflexivity|reflexivity]. Qed.
