(* ===== verification/Bridge.v ===== *)
(** * The TCP front end of the unit manager

    [onConnection], [onMessage] ([unit-manager/src/tcp_comm.cpp]), [class
    zmq_bus_com] ([unit-manager/src/zmq_bus.cpp]), [class TcpSession]
    ([unit-manager/include/session.h]) and the answers of the manager itself
    ([usr_print_error], [zmq_com_send]).  Every TCP connection has a session
    with a number and a URL of its own; what is pushed to the URL is sent to
    the connection.

    The answers to a client do not come back on its connection's call chain:
    a unit pushes them to the URL that the dispatch has put into the message.
    The table of bound URLs stands for the ipc sockets: a bind takes a URL
    over, and the close of a socket removes its file.  A connection is a
    number ([Connection] models its life). *)
From S2P Require Import Prelude StdString Doubles Json Observability Types Endpoint Config Stream Util Framing Manager.

Record bus := MkBus {
  bus_port : Z;
  bus_url : string;
  bus_running : bool;
}.

Record bridge := MkBridge {
  g_counter_port : Z;
  g_contexts : gmap nat bus;
  g_bound : gmap string nat;
}.
#[export] Instance eta_bridge : Eta bridge := fun g => MkBridge (g_counter_port g) (g_contexts g) (g_bound g).

Definition new_bridge : bridge := MkBridge 8000 ∅ ∅.

(** [zmq_bus_com::work]. *)
Definition bus_work (zmq_url_format : string) (port : Z) (conn : nat) (g : bridge) : result bridge :=
  url ← sprintf_int zmq_url_format (Some port);
  mret (g <| g_contexts := <[conn := MkBus port url true]> (g_contexts g) |>
          <| g_bound := <[url := conn]> (g_bound g) |>).

(** [zmq_bus_com::stop]: the socket goes with its file. *)
Definition bus_stop (conn : nat) (s : bus) (g : bridge) : bridge :=
  g <| g_contexts := <[conn := MkBus (bus_port s) (bus_url s) false]> (g_contexts g) |>
    <| g_bound := delete (bus_url s) (g_bound g) |>.

(** [onConnection] of a connection that opens, and of one that closes. *)
Definition on_connected (m : manager) (conn : nat) (g : bridge) : result bridge :=
  let '(port, counter) := next_com_port (g_counter_port g) in
  bus_work (m_s_format m) port conn (g <| g_counter_port := counter |>).

Definition on_disconnected (conn : nat) (g : bridge) : result bridge :=
  match g_contexts g !! conn with
  | Some s => mret (bus_stop conn s g)
  | None => Throw "bad_any_cast"
  end.

(** [onMessage]: the dispatch under the number of the session. *)
Definition on_message `{DocumentReader} (rpc : string → string → string → Z) (m : manager) (conn : nat) (msg : string)
    (g : bridge) : result (list effect) :=
  match g_contexts g !! conn with
  | Some s => unit_action_match rpc m (bus_port s) (select_json_str msg)
  | None => Ok []
  end.

(** A push to a URL: [TcpSession::send_data] of the session that is bound to
    it sends the text to its connection. *)
Definition push_to (url text : string) (g : bridge) : list (nat * string) :=
  match g_bound g !! url with Some conn => [(conn, text)] | None => [] end.

(** [zmq_com_send]; the URL has to fit into 128 bytes. *)
Definition zmq_com_send (m : manager) (com_id : Z) (out_str : string) (g : bridge) : result (list (nat * string)) :=
  url ← sprintf_int (m_c_format m) (Some com_id);
  if (128 <=? String.length url)%nat then Throw "undefined: buffer overflow"
  else mret (push_to url (out_str +:+ String "010" "") g).

Definition error_body (now : Z) (request_id work_id : string) (code : Z) (message : string) : json :=
  mk_obj [("request_id", JStr request_id); ("work_id", JStr work_id); ("created", JInt now);
          ("error", mk_obj [("code", JInt code); ("message", JStr message)]); ("object", JStr "None"); ("data", JStr "None")].

Definition usr_print_error `{JsonText} (now : Z) (request_id work_id : string) (code : Z) (message : string) (m : manager)
    (zmq_out : Z) (g : bridge) : result (list (nat * string)) :=
  out ← json_dump (error_body now request_id work_id code message);
  zmq_com_send m zmq_out out g.

(** ** Runs *)

Inductive bridge_event :=
  | Connected (conn : nat)
  | Disconnected (conn : nat).

Definition run_bridge_event (m : manager) (e : bridge_event) (g : bridge) : result bridge :=
  match e with
  | Connected conn => on_connected m conn g
  | Disconnected conn => on_disconnected conn g
  end.

(** A connection opens once and closes once after that. *)
Definition bridge_enabled (e : bridge_event) (g : bridge) : Prop :=
  match e with
  | Connected conn => g_contexts g !! conn = None
  | Disconnected conn => ∃ s, g_contexts g !! conn = Some s ∧ bus_running s = true
  end.

(** The next number is not that of a session still running.  The code does not
    check this: numbers repeat after 57536 sessions. *)
Definition number_free (e : bridge_event) (g : bridge) : Prop :=
  match e with
  | Connected conn => ∀ conn' s, g_contexts g !! conn' = Some s → bus_running s = true → bus_port s ≠ g_counter_port g
  | Disconnected _ => True
  end.

(** The steps of the front end, where each event satisfies [provided]. *)
Definition bridge_step (provided : bridge_event → bridge → Prop) (m : manager) (g g' : bridge) : Prop :=
  ∃ e, bridge_enabled e g ∧ provided e g ∧ run_bridge_event m e g = Ok g'.

(** ** The invariant *)

(** A format for URLs that can travel in messages. *)
Definition plain_format (fmt : string) : Prop :=
  good_format fmt ∧ char_in quote fmt = false ∧ char_in backslash fmt = false ∧ (String.length fmt <= 80)%nat.

Record bridge_ok (fmt : string) (g : bridge) : Prop := {
  go_counter : 8000 <= g_counter_port g <= 65535;
  go_bus : ∀ conn s, g_contexts g !! conn = Some s →
    8000 <= bus_port s <= 65535 ∧ sprintf_int fmt (Some (bus_port s)) = Ok (bus_url s);
  go_running : ∀ conn s, g_contexts g !! conn = Some s → bus_running s = true → g_bound g !! bus_url s = Some conn;
}.

(** ** Lemmas *)

Lemma str_back_in c s : str_back s = Some c → char_in c s = true.
Proof.
  induction s as [|d s IH]; [done|]. destruct s as [|d' s].
  - intros [= ->]. cbn. by rewrite Ascii.eqb_refl.
  - change (str_back (String d (String d' s))) with (str_back (String d' s)). intros E%IH. change (String d (String d' s)) with (String d "" +:+ String d' s).
    by rewrite char_in_app, E, orb_true_r.
Qed.

(** What is needed of the URL of a session. *)
Definition session_url (fmt : string) (port : Z) (url : string) : Prop :=
  sprintf_int fmt (Some port) = Ok url ∧ sscanf_int fmt url = Some port ∧ (String.length url <= 110)%nat ∧
  char_in quote url = false ∧ str_back url ≠ Some backslash.

Lemma format_url fmt port : plain_format fmt → 0 < port <= 65535 → ∃ url, session_url fmt port url.
Proof.
  intros ((pre & post & -> & Hlit & Hpre & Hpost & Hhead) & Hq & Hb & Hlen) Hp.
  destruct (format_port_round_trip pre post post port) as (E & Hl & Hs); try done; [lia|unfold is_int, INT_MIN, INT_MAX; lia|].
  rewrite !char_in_app in Hq, Hb. boolean. exists (pre +:+ to_string port +:+ post). split_and!; [done|done|..].
  - rewrite !str_length_app in *. cbn in Hlen. lia.
  - rewrite !char_in_app, to_string_no_char by done. by apply orb_false_iff; split; [|apply orb_false_iff].
  - intros Hback%str_back_in. rewrite !char_in_app, to_string_no_char in Hback by done. cbn in Hback.
    apply orb_true_iff in Hback as [?|?]; congruence.
Qed.

Lemma session_url_unique fmt port port' url : session_url fmt port url → session_url fmt port' url → port = port'.
Proof. intros (_ & E & _) (_ & E' & _). congruence. Qed.

Lemma bus_session_url fmt g conn s :
  plain_format fmt → bridge_ok fmt g → g_contexts g !! conn = Some s → session_url fmt (bus_port s) (bus_url s).
Proof.
  intros Hfmt Hg Hs. destruct (go_bus fmt g Hg conn s Hs) as [Hp E].
  destruct (format_url fmt (bus_port s) Hfmt) as (url & Hurl); [lia|]. pose proof Hurl as (E' & _).
  assert (url = bus_url s) as -> by congruence. done.
Qed.

Lemma connected_ok m conn g :
  plain_format (m_s_format m) → bridge_ok (m_s_format m) g → number_free (Connected conn) g →
  ∃ g', on_connected m conn g = Ok g' ∧ bridge_ok (m_s_format m) g'.
Proof.
  intros Hfmt Hg Hport. pose proof Hg as [Hc Hbus Hrun]. unfold on_connected, next_com_port, bus_work.
  destruct (format_url _ (g_counter_port g) Hfmt) as (url & Hurl); [lia|]. pose proof Hurl as (E & _). rewrite E.
  cbn [mbind result_bind mret result_ret]. eexists. split; [done|]. split; cbn.
  - destruct (Z.ltb_spec 65535 (g_counter_port g + 1)); lia.
  - intros conn' s. destruct (decide (conn' = conn)) as [->|Hne].
    + rewrite lookup_insert_eq. by intros [= <-].
    + rewrite lookup_insert_ne by done. apply Hbus.
  - intros conn' s. destruct (decide (conn' = conn)) as [->|Hne].
    + rewrite lookup_insert_eq. intros [= <-] _. apply lookup_insert_eq.
    + rewrite lookup_insert_ne by done. intros Hs Hr. rewrite lookup_insert_ne; [by apply Hrun|]. intros ->.
      apply (Hport conn' s Hs Hr). apply (session_url_unique (m_s_format m) _ _ (bus_url s)); [by apply (bus_session_url _ g conn')|done].
Qed.

Lemma disconnected_ok fmt conn g :
  bridge_ok fmt g → bridge_enabled (Disconnected conn) g → ∃ g', on_disconnected conn g = Ok g' ∧ bridge_ok fmt g'.
Proof.
  intros [Hc Hbus Hrun] (s & Hs & Hr). unfold on_disconnected. rewrite Hs. eexists. split; [done|]. split; cbn; [done|..].
  - intros conn' s'. destruct (decide (conn' = conn)) as [->|Hne].
    + rewrite lookup_insert_eq. intros [= <-]. exact (Hbus conn s Hs).
    + rewrite lookup_insert_ne by done. apply Hbus.
  - intros conn' s'. destruct (decide (conn' = conn)) as [->|Hne].
    + rewrite lookup_insert_eq. by intros [= <-].
    + rewrite lookup_insert_ne by done. intros Hs' Hr'. rewrite lookup_delete_ne; [by apply Hrun|]. intros E.
      pose proof (Hrun conn s Hs Hr). pose proof (Hrun conn' s' Hs' Hr'). congruence.
Qed.

Lemma reachable_bridge_ok m g : plain_format (m_s_format m) → rtc (bridge_step number_free m) new_bridge g → bridge_ok (m_s_format m) g.
Proof.
  intros Hfmt Hrun. refine (rtc_preserves (bridge_step number_free m) (bridge_ok (m_s_format m)) _ _ _ Hrun _).
  - intros x y ([conn|conn] & Hen & Hfree & E) Hx.
    + destruct (connected_ok m conn x Hfmt Hx Hfree) as (y' & E' & Hy). cbn [run_bridge_event] in E. congruence.
    + destruct (disconnected_ok _ conn x Hx Hen) as (y' & E' & Hy). cbn [run_bridge_event] in E. congruence.
  - split; [cbn; lia|..]; intros conn s; change (g_contexts new_bridge) with (∅ : gmap nat bus); by rewrite lookup_empty.
Qed.

(** What an effect of the dispatch says about where its answer goes. *)
Definition answers_to (com_id : Z) (url : string) (e : effect) : Prop :=
  match e with
  | PushError id _ _ _ _ => id = com_id
  | Publish _ raw => sample_json_str_get raw "zmq_com" = url
  | CallUnit _ _ data => get_param data 0 "" = Value url
  end.

Lemma dispatch_answers_to `{DocumentReader} rpc m com_id json_str url effects :
  session_url (m_c_format m) com_id url → unit_action_match rpc m com_id json_str = Ok effects →
  Forall (answers_to com_id url) effects.
Proof.
  intros (Hs & _ & Hlen & Hq & Hb) E. unfold unit_action_match in E. rewrite Hs in E.
  assert (∀ x y c t b, Forall (answers_to com_id url) (if (b : bool) then [PushError com_id x y c t] else [])) as Herr
    by (intros x y c t []; by repeat constructor).
  assert (∀ x y c t, Forall (answers_to com_id url) [PushError com_id x y c t]) as Herr1 by (by repeat constructor).
  destruct (negb (doc_ok json_str)); [by injection E as <-|].
  destruct (doc_string json_str "request_id") as [request_id|]; [|by injection E as <-].
  destruct (doc_string json_str "work_id") as [work_id|]; [|by injection E as <-].
  destruct (doc_string json_str "action") as [action|]; [|by injection E as <-].
  set (w := if str_empty work_id then _ else _) in E. destruct (action =? "inference")%string.
  - cbn [mbind result_bind mret result_ret] in E. unfold zmq_bus_publisher_push in E.
    assert (Forall (answers_to com_id url) (match read_unit (m_sql m) w with
      | Some u => [Publish (ud_inference_url u) (inference_raw_data url json_str)] | None => [] end)) as Hpub.
    { destruct (read_unit (m_sql m) w); [|done]. constructor; [by apply raw_zmq_com|done]. }
    destruct (str_empty w); [by injection E as <-|]. destruct (SAMPLE_LOG_WARN <=? log_level);
      injection E as <-; by apply Forall_app.
  - destruct (fragments "" w) as [|[|ch rest] l]; [by injection E as <-|by injection E as <-|].
    destruct (remote_call rpc m com_id json_str) as [[out ret]|] eqn:Ecall; [|done].
    cbn [mbind result_bind mret result_ret] in E. injection E as <-. apply Forall_app. split; [|done].
    unfold remote_call in Ecall. destruct (str_empty _ || str_empty _); [done|]. rewrite Hs in Ecall.
    cbn [mbind result_bind mret result_ret] in Ecall. rewrite str_take_ge in Ecall by lia. injection Ecall as <- _.
    constructor; [|done]. cbn [answers_to]. rewrite (get_set_param _ _ url json_str) by (lia || by right). done.
Qed.

(** ** Properties *)

(** C15.  Every answer returns to the client that asked and to no other, as
    long as a session never gets the number of another that is still running
    ([number_free]; the code does not check it, and numbers repeat after 57536
    sessions) and the formats of server and client URLs are configured the
    same: in whatever order clients come and go, when the manager dispatches a
    message of a connected client, each of its effects names the URL of this
    client's session - a published inference in its first member, a remote call
    in its first parameter, an error of the manager by the number of the
    session - and everything that is pushed to this URL is sent to this
    client's connection only.  An error of the manager that cannot be printed
    is an exception instead of an answer.  (Without the two conditions it
    fails: [reused_number_loses_answers], [different_formats_lose_answers].) *)
Theorem replies_return_to_sender `{DocumentReader} `{JsonText} (m m' : manager) (g : bridge) rpc (conn : nat) (s : bus)
    (msg : string) (effects : list effect) :
  plain_format (m_s_format m) → rtc (bridge_step number_free m) new_bridge g →
  g_contexts g !! conn = Some s → bus_running s = true → m_c_format m' = m_s_format m →
  on_message rpc m' conn msg g = Ok effects →
  (∀ text, push_to (bus_url s) text g = [(conn, text)]) ∧
  Forall (λ e, match e with
    | Publish _ raw => sample_json_str_get raw "zmq_com" = bus_url s
    | CallUnit _ _ data => get_param data 0 "" = Value (bus_url s)
    | PushError com_id request_id work_id code message => ∀ now,
        usr_print_error now request_id work_id code message m' com_id g =
          (text ← json_dump (error_body now request_id work_id code message); mret [(conn, text +:+ String "010" "")])
    end) effects.
Proof.
  intros Hfmt Hrun Hs Hr Hc E. pose proof (reachable_bridge_ok m g Hfmt Hrun) as Hg.
  pose proof (bus_session_url _ g conn s Hfmt Hg Hs) as Hurl. pose proof (go_running _ g Hg conn s Hs Hr) as Hbound.
  assert (∀ text, push_to (bus_url s) text g = [(conn, text)]) as Hpush by (intros text; unfold push_to; by rewrite Hbound).
  split; [done|]. unfold on_message in E. rewrite Hs in E. rewrite <- Hc in Hurl.
  eapply Forall_impl; [exact (dispatch_answers_to _ _ _ _ _ _ Hurl E)|]. intros [com_id r w code t|u raw|u a d]; cbn [answers_to]; try done.
  intros -> now. destruct Hurl as (Esp & _ & Hlen & _). unfold usr_print_error, zmq_com_send. rewrite Esp.
  destruct (json_dump _); [|done]. cbn [mbind result_bind mret result_ret]. destruct (Nat.leb_spec 128 (String.length (bus_url s))); [lia|]. by rewrite Hpush.
Qed.

(** A manager with one client. *)
Definition one_session : bridge :=
  match on_connected idle_manager 0 new_bridge with Ok g => g | Throw _ => new_bridge end.

Lemma master_format_plain : plain_format (m_s_format idle_manager).
Proof. split_and!; [apply (ok_format (good_start_ok _ _ idle_manager_good))|reflexivity|reflexivity|vm_compute; lia]. Qed.

Lemma replies_return_to_sender_witness :
  push_to "ipc:///tmp/llm/8000.sock" "answer" one_session = [(0%nat, "answer")].
Proof.
  destruct (replies_return_to_sender (H := chat_reader) (H0 := echo_text) idle_manager manager_with_llm one_session (λ _ _ _, 0) 0
    (MkBus 8000 "ipc:///tmp/llm/8000.sock" true) "{}"
    (match on_message (H := chat_reader) (λ _ _ _, 0) manager_with_llm 0 "{}" one_session with Ok l => l | Throw _ => [] end)) as [Hpush _].
  - apply master_format_plain.
  - apply rtc_once. exists (Connected 0). split; [reflexivity|]. split; [|vm_compute; reflexivity].
    intros conn' s Hs. discriminate Hs.
  - vm_compute. reflexivity.
  - reflexivity.
  - vm_compute. reflexivity.
  - vm_compute. reflexivity.
  - exact (Hpush "answer").
Defined.

(** With different formats for the two directions, which the configuration
    allows, a session listens where nobody answers. *)
Lemma different_formats_lose_answers :
  let m := idle_manager <| m_c_format := "tcp://127.0.0.1:%i" |> in
  zmq_com_send m 8000 "answer" one_session = Ok [].
Proof. vm_compute. reflexivity. Qed.

(** When a number is used again while its session still runs, the older
    connection gets no more answers, and its close takes them from the newer
    one too. *)
Lemma reused_number_loses_answers :
  match (g ← on_connected idle_manager 1 (one_session <| g_counter_port := 8000 |>);
         g' ← on_disconnected 0 g; mret (push_to "ipc:///tmp/llm/8000.sock" "x" g, push_to "ipc:///tmp/llm/8000.sock" "x" g')) with
  | Ok r => r = ([(1%nat, "x")], [])
  | Throw _ => False
  end.
Proof. vm_compute. reflexivity. Qed.
