(* ===== verification/Rpc.v ===== *)
(** * Remote calls between units

    The RPC half of [class pzmq] ([hybrid-comm/include/pzmq.hpp]): the table of
    actions of a server, the answer to a request and the outcome of a call;
    the actions of the unit manager ([remote_server_work]) and the calls of
    [StackFlow] that go to it.  The sockets are ZeroMQ's: what a caller gets
    back is an argument.  A handler is a function on the state of its
    process that gives the state it leaves and a text or an exception;
    [zmq_event_loop] turns an exception into the answer [NotAction]. *)
From S2P Require Import Prelude StdString Doubles Json Observability Metrics Types Endpoint Queue Records Config Stream Task Util Framing Manager Session System.

Section rpc.
Context {S : Type}.

Definition handler : Type := string → S → S * result string.

Inductive rpc_action :=
  | ListAction
  | Custom (h : handler).

Abbreviation rpc_table := (gmap string rpc_action).

Definition register_rpc_action (action : string) (h : handler) (table : rpc_table) : rpc_table :=
  match table !! action with
  | Some _ => <[action := Custom h]> table
  | None =>
      let table := if decide (table = ∅) then <["list_action" := ListAction]> table else table in
      <[action := Custom h]> table
  end.

Definition unregister_rpc_action (action : string) (table : rpc_table) : rpc_table := delete action table.

(** The names of the table, in its order, as a JSON text. *)
Fixpoint action_names (names : list string) : string :=
  match names with
  | [] => ""
  | [name] => quoted name +:+ "]}"
  | name :: names => quoted name +:+ "," +:+ action_names names
  end.

Definition _rpc_list_action (table : rpc_table) : string :=
  "{" +:+ quoted "actions" +:+ ":[" +:+ action_names (map_to_list table).*1.

(** The body of [zmq_event_loop] for a request. *)
Definition serve_rpc (table : rpc_table) (action data : string) (s : S) : S * string :=
  match table !! action with
  | None => (s, "NotAction")
  | Some ListAction => (s, _rpc_list_action table)
  | Some (Custom h) =>
      let '(s, retval) := h data s in
      (s, match retval with Ok text => text | Throw _ => "NotAction" end)
  end.

Definition register_all (actions : list (string * handler)) (table : rpc_table) : rpc_table :=
  foldl (λ table a, register_rpc_action a.1 a.2 table) table actions.
End rpc.
Arguments handler : clear implicits.
Arguments rpc_action : clear implicits.

(** What the transport gives a caller: the server's socket file is missing,
    the time is up, or an answer. *)
Inductive transport :=
  | Unreachable
  | TimedOut
  | Answered (answer : string).

(** [call_rpc_action]: its result and the message the callback gets, if it is
    called; after the time is up the callback gets an empty message. *)
Definition call_rpc_action (t : transport) : Z * option string :=
  match t with
  | Unreachable => (-1, None)
  | TimedOut => (0, Some "")
  | Answered answer => (0, Some answer)
  end.

(** [unit_call] that returns the answer. *)
Definition unit_call (t : transport) : string := default "" (call_rpc_action t).2.

(** The call of [register_unit] in [StackFlow::sys_register_unit]: without an
    answer the three texts stay empty. *)
Definition call_register_unit (t : transport) : result registration :=
  match (call_rpc_action t).2 with
  | None => Ok (MkRegistration "" "" "")
  | Some reply => decode_registration reply
  end.

(** ** The actions of the unit manager *)

(** A handler that returns. *)
Definition returns (h : string → manager → manager * string) : handler manager :=
  λ raw m, let '(m, text) := h raw m in (m, Ok text).

Definition manager_actions : list (string * handler manager) :=
  [("sql_select", returns (λ raw m, (m, rpc_sql_select raw m)));
   ("register_unit", λ raw m,
      match rpc_allocate_unit raw m with Ok (m', text) => (m', Ok text) | Throw what => (m, Throw what) end);
   ("release_unit", returns rpc_release_unit);
   ("sql_set", returns rpc_sql_set);
   ("sql_unset", returns rpc_sql_unset)].

Definition manager_table : gmap string (rpc_action manager) := register_all manager_actions ∅.

(** [StackFlow::sys_sql_select], [sys_sql_set] and [sys_sql_unset] on a manager
    that answers; the request of a set is the JSON text of the two members. *)
Definition sys_sql_select (key : string) (m : manager) : string :=
  unit_call (Answered (serve_rpc manager_table "sql_select" key m).2).

Definition sys_sql_set `{JsonText} (key val : string) (m : manager) : result manager :=
  out ← json_dump (mk_obj [("key", JStr key); ("val", JStr val)]);
  mret (serve_rpc manager_table "sql_set" out m).1.

Definition sys_sql_unset (key : string) (m : manager) : manager := (serve_rpc manager_table "sql_unset" key m).1.

(** ** Lemmas *)

Section table.
Context {S : Type}.
Implicit Types table : gmap string (rpc_action S).

Lemma register_lookup action h table :
  register_rpc_action action h table !! action = Some (Custom h).
Proof. unfold register_rpc_action. destruct (table !! action); apply lookup_insert_eq. Qed.

Lemma register_other action h table action' :
  action' ≠ action → action' ≠ "list_action" → register_rpc_action action h table !! action' = table !! action'.
Proof.
  intros Hne Hl. unfold register_rpc_action. destruct (table !! action); rewrite lookup_insert_ne by done; [done|].
  destruct (decide (table = ∅)); [|done]. by rewrite lookup_insert_ne.
Qed.

(** The handler registered last for an action. *)
Fixpoint last_handler (action : string) (actions : list (string * handler S)) : option (handler S) :=
  match actions with
  | [] => None
  | (a, h) :: actions =>
      match last_handler action actions with
      | Some h' => Some h'
      | None => if decide (a = action) then Some h else None
      end
  end.

Lemma register_all_lookup actions action : ∀ table,
  action ≠ "list_action" →
  register_all actions table !! action =
  match last_handler action actions with Some h => Some (Custom h) | None => table !! action end.
Proof.
  induction actions as [|[a h] actions IH]; intros table Hl; [done|]. cbn [last_handler]. unfold register_all in *. cbn [foldl fst snd].
  rewrite IH by done. destruct (last_handler action actions); [done|]. destruct (decide (a = action)) as [->|Hne].
  - apply register_lookup.
  - by apply register_other.
Qed.
End table.

(** ** Properties *)

(** A server answers with the handler registered last: for every sequence
    of registrations on a new server, a request runs the latest handler of
    its action and answers with its result, a handler that throws is answered
    with [NotAction] and an action nobody registered too, without any
    effect. *)
Theorem rpc_serves_latest {S : Type} (actions : list (string * handler S)) (action data : string) (s : S) :
  action ≠ "list_action" →
  serve_rpc (register_all actions ∅) action data s =
  match last_handler action actions with
  | Some h => ((h data s).1, match (h data s).2 with Ok text => text | Throw _ => "NotAction" end)
  | None => (s, "NotAction")
  end.
Proof.
  intros Hl. unfold serve_rpc. rewrite register_all_lookup by done. destruct (last_handler action actions) as [h|].
  - by destruct (h data s).
  - by rewrite lookup_empty.
Qed.

Lemma rpc_serves_latest_witness :
  serve_rpc manager_table "sql_select" "config_zmq_s_format" idle_manager = (idle_manager, "ipc:///tmp/llm/%i.sock") ∧
  serve_rpc manager_table "no_such_action" "" idle_manager = (idle_manager, "NotAction").
Proof.
  split.
  - unfold manager_table. rewrite (rpc_serves_latest manager_actions "sql_select" "config_zmq_s_format" idle_manager) by discriminate.
    vm_compute. reflexivity.
  - unfold manager_table. rewrite (rpc_serves_latest manager_actions "no_such_action" "" idle_manager) by discriminate.
    vm_compute. reflexivity.
Defined.

(** The call of [register_unit] over a manager that answers is the one of
    [system_setup]. *)
Lemma register_over_rpc name m m' reply :
  rpc_allocate_unit name m = Ok (m', reply) →
  serve_rpc manager_table "register_unit" name m = (m', reply) ∧
  call_register_unit (Answered reply) = decode_registration reply.
Proof.
  intros E. split; [|done]. unfold serve_rpc, manager_table. rewrite register_all_lookup by done.
  change (last_handler "register_unit" manager_actions) with (Some (λ raw m,
    match rpc_allocate_unit raw m with Ok (m', text) => (m', Ok text) | Throw what => (m, Throw what) end)).
  cbv beta iota. by rewrite E.
Qed.

(** A setup while the manager does not answer throws, in the event loop of the
    unit: its process ends. *)
Lemma setup_without_manager `{TimeSeriesStore} (u : llm_unit) :
  (∃ what, (reg ← call_register_unit Unreachable; sys_register_unit reg u) = Throw what) ∧
  (∃ what, (reg ← call_register_unit TimedOut; sys_register_unit reg u) = Throw what).
Proof. split; eexists; reflexivity. Qed.

(** The key-value table keeps what was set, when the reader of the manager
    finds the two members in the request. *)
Lemma sql_set_select `{JsonText} key val text m :
  str_empty key = false → json_dump (mk_obj [("key", JStr key); ("val", JStr val)]) = Ok text →
  sample_json_str_get text "key" = key → sample_json_str_get text "val" = val →
  ∃ m', sys_sql_set key val m = Ok m' ∧ sys_sql_select key m' = val ∧ sys_sql_select key (sys_sql_unset key m') = "".
Proof.
  intros Hne Htext Hk Hv. unfold sys_sql_set. rewrite Htext. cbn [mbind result_bind mret result_ret].
  eexists. split; [reflexivity|]. unfold sys_sql_select, sys_sql_unset, unit_call, serve_rpc, manager_table.
  rewrite !register_all_lookup by done.
  change (last_handler "sql_select" manager_actions) with (Some (returns (λ raw m, (m, rpc_sql_select raw m)))).
  change (last_handler "sql_set" manager_actions) with (Some (returns rpc_sql_set)).
  change (last_handler "sql_unset" manager_actions) with (Some (returns rpc_sql_unset)).
  cbv beta iota. cbn [fst snd call_rpc_action from_option id]. unfold returns, rpc_sql_set, rpc_sql_select, rpc_sql_unset, read_string. rewrite Hk, Hv, Hne. cbn.
  by rewrite lookup_insert_eq, lookup_delete_eq.
Qed.
