(* ===== verification/Events.v ===== *)
(** * The event queue of a unit

    The remote actions of [class StackFlow] ([infra-controller/src/StackFlow.cpp],
    [infra-controller/include/StackFlow.h]) and of [class vllm_llm]: setup,
    exit, pause and taskinfo are put into a queue and answered at once, and
    the event loop handles them one after the other; reload_config and
    metrics_query are handled on the thread of the call.  The state is that of
    manager and unit ([System]) with the queue; the table of actions is that
    of [Rpc].

    The queue is eventpp's, which is not in the sources: events come out in
    the order they went in.  An exception in the event loop ends the process
    ([Throw]). *)
From S2P Require Import Prelude StdString Doubles Json Observability Metrics Types Endpoint Queue Records Config Stream Task Util Framing Manager Session System Rpc.

Inductive LOCAL_EVENT := EVENT_NONE | EVENT_SETUP | EVENT_EXIT | EVENT_PAUSE | EVENT_TASKINFO.

Section events.
Context `{TimeSeriesStore} `{JsonText}.

Record stackflow := MkStackflow {
  f_system : system;
  f_events : list (LOCAL_EVENT * string);
}.

(** [event_queue_.enqueue] in [_rpc_setup] and the like. *)
Definition enqueue (ev : LOCAL_EVENT) : handler stackflow :=
  λ data f, (MkStackflow (f_system f) (f_events f ++ [(ev, data)]), Ok "None").

(** A call that is handled on its own thread; the parameters are read first. *)
Definition handle_now (o : outside) (event : string → string → unit_event) : handler stackflow :=
  λ data f,
    match (zmq_url ← param_value (get_param data 0 ""); raw ← param_value (get_param data 1 "");
           system_event o (event zmq_url raw) (f_system f)) with
    | Ok s => (MkStackflow s (f_events f), Ok "None")
    | Throw what => (f, Throw what)
    end.

(** The actions the constructors of [StackFlow] and [vllm_llm] register. *)
Definition unit_actions (o : outside) (wall_now_ms : Z) : list (string * handler stackflow) :=
  [("setup", enqueue EVENT_SETUP); ("pause", enqueue EVENT_PAUSE); ("exit", enqueue EVENT_EXIT);
   ("taskinfo", enqueue EVENT_TASKINFO); ("reload_config", handle_now o ReloadEvent);
   ("metrics_query", handle_now o (MetricsEvent wall_now_ms))].

Definition unit_table (o : outside) (wall_now_ms : Z) : gmap string (rpc_action stackflow) :=
  register_all (unit_actions o wall_now_ms) ∅.

(** [StackFlow::pause], which [vllm_llm] inherits: the error is a JSON object
    that is passed where a string is expected, and the conversion throws. *)
Definition on_pause (o : outside) (zmq_url raw : string) (u : llm_unit) : result llm_unit :=
  let u := begin_call zmq_url raw u in
  let work_id := sample_json_str_get raw "work_id" in
  let u := try_set_push_url work_id zmq_url u in
  error_msg ← get_string (error_json (-18) "not have unit action!");
  push_message (u_out_zmq_url u)
    (message_body o (u_request_id u) work_id "None" (JStr "None") (JStr error_msg)) u.

(** [_setup], [_exit], [_taskinfo] and [_pause], whose data is parameter 0. *)
Definition process_event (o : outside) (ev : LOCAL_EVENT) (data : string) (s : system) : result system :=
  match ev with
  | EVENT_NONE => mret s
  | EVENT_SETUP =>
      zmq_url ← param_value (get_param data 0 ""); raw ← param_value (get_param data 1 "");
      system_setup o zmq_url raw s
  | EVENT_EXIT =>
      zmq_url ← param_value (get_param data 0 ""); raw ← param_value (get_param data 1 "");
      system_event o (ExitEvent zmq_url raw) s
  | EVENT_TASKINFO =>
      zmq_url ← param_value (get_param data 0 ""); raw ← param_value (get_param data 1 "");
      system_event o (TaskinfoEvent zmq_url raw) s
  | EVENT_PAUSE =>
      zmq_url ← param_value (get_param data 0 ""); raw ← param_value (get_param data 0 "");
      u ← on_pause o zmq_url raw (y_unit s);
      mret (MkSystem (y_manager s) u)
  end.

(** One turn of [even_loop]. *)
Definition even_loop (o : outside) (f : stackflow) : result stackflow :=
  match f_events f with
  | [] => mret f
  | (ev, data) :: events => s ← process_event o ev data (f_system f); mret (MkStackflow s events)
  end.

(** The destructors, when the event loop has ended: [~vllm_llm] drops sessions
    and scheduler, [~StackFlow] joins the thread again for every channel that
    is left, and a second join throws. *)
Definition drop_sessions (u : llm_unit) : llm_unit := u <| u_sessions := ∅ |> <| u_task := None |>.

Definition destroy_unit (u : llm_unit) : result llm_unit :=
  let u := drop_sessions u in
  match map_to_list (u_channels u) with
  | [] => mret u
  | (n, _) :: _ => u ← sys_release_unit n "" u; Throw "system_error: join"
  end.

(** The queued event of a remote action. *)
Definition event_of (action : string) : option LOCAL_EVENT :=
  if (action =? "setup")%string then Some EVENT_SETUP
  else if (action =? "pause")%string then Some EVENT_PAUSE
  else if (action =? "exit")%string then Some EVENT_EXIT
  else if (action =? "taskinfo")%string then Some EVENT_TASKINFO
  else None.

(** ** Lemmas *)

(** A queued action is answered at once and changes only the queue. *)
Lemma queued_call o wall_now_ms action ev data f :
  event_of action = Some ev →
  serve_rpc (unit_table o wall_now_ms) action data f = (MkStackflow (f_system f) (f_events f ++ [(ev, data)]), "None").
Proof.
  unfold event_of, serve_rpc, unit_table. intros E.
  repeat (match type of E with context [(action =? ?x)%string] =>
    destruct (String.eqb_spec action x) as [->|_]; [injection E as <-; rewrite register_all_lookup by done; reflexivity|] end).
  done.
Qed.

(** The calls of the manager carry the URL of the client and its message. *)
Lemma process_encoded o url raw s :
  (String.length url <= 127)%nat →
  process_event o EVENT_SETUP (set_param url raw) s = system_setup o url raw s ∧
  process_event o EVENT_EXIT (set_param url raw) s = system_event o (ExitEvent url raw) s ∧
  process_event o EVENT_TASKINFO (set_param url raw) s = system_event o (TaskinfoEvent url raw) s.
Proof.
  intros Hlen. assert (∀ i, get_param (set_param url raw) i "" = Value (if Z.rem i 2 =? 0 then url else raw)) as Hp
    by (intros i; apply get_set_param; auto).
  split_and!; cbn [process_event]; rewrite (Hp 0), (Hp 1); reflexivity.
Qed.

(** A pause ends the unit, whatever it says. *)
Lemma pause_ends_unit o data events s : ∃ what, even_loop o (MkStackflow s ((EVENT_PAUSE, data) :: events)) = Throw what.
Proof.
  unfold even_loop. cbn [f_events f_system process_event]. destruct (param_value (get_param data 0 "")) as [url|what]; [|by eexists].
  cbn [mbind result_bind]. eexists. reflexivity.
Qed.

(** A unit that is shut down while a session is open throws in a destructor. *)
Lemma shutdown_with_channel_throws u : u_channels u ≠ ∅ → ∃ what, destroy_unit u = Throw what.
Proof.
  intros Hne. unfold destroy_unit. change (u_channels (drop_sessions u)) with (u_channels u).
  destruct (map_to_list (u_channels u)) as [|[n c] l] eqn:E; [by apply map_to_list_empty_iff in E|].
  unfold sys_release_unit. cbn. by eexists.
Qed.
End events.
