(* ===== verification/Route.v ===== *)
(** * From a client's message to its answers

    The path of a request through the whole program: the TCP front end of the
    unit manager reads a message ([Bridge]), the dispatch publishes it or
    calls the unit ([Manager]), the unit's handlers answer it or queue an
    inference request ([Session], [Task]), a worker thread serves the request
    and sends its output ([Worker]), and whatever is pushed to the URL of the
    client's session leaves on the client's connection ([Bridge]).  Nothing on
    this path refers to the connection: the answers find it by the URL that
    the dispatch has written into the message.

    [writes] is a weakest precondition for the programs of the worker threads:
    it bounds what every run sends, whatever the clock, the servers and the
    other threads answer. *)
From S2P Require Import Prelude StdString Doubles Json Observability Metrics Types Endpoint Queue Records Config Stream Task Worker Util Framing Manager Session System Bridge Rpc Events.

(** ** What a program sends *)

(** Every message [p] sends satisfies [P], and what it returns satisfies [Q]. *)
Fixpoint writes {A} (P : output_message → Prop) (p : prog A) (Q : A → Prop) : Prop :=
  match p with
  | Ret a => Q a
  | Raise _ => True
  | Act e k => match e with Emit out => Forall P out | _ => True end ∧ ∀ r, writes P (k r) Q
  end.

Lemma writes_bind {A B} P (p : prog A) (f : A → prog B) Q :
  writes P p (λ a, writes P (f a) Q) → writes P (bind p f) Q.
Proof. induction p as [a|what|e k IH]; cbn [writes bind]; [done|done|]. intros [He Hk]. split; [done|]. intros r. by apply IH. Qed.

(** One action at the head of a program, and a program that is at its end. *)
Lemma writes_act {B} P e (f : answer e → prog B) Q :
  match e with Emit out => Forall P out | _ => True end → (∀ r, writes P (f r) Q) → writes P (bind (act e) f) Q.
Proof. intros He Hf. by split. Qed.

Lemma writes_ret {A} P (a : A) (Q : A → Prop) : Q a → writes P (Ret a) Q.
Proof. done. Qed.

Ltac silent_act := apply writes_act; [exact I|cbn beta; cbn [answer]].

Lemma writes_weaken {A} P (p : prog A) (Q Q' : A → Prop) : (∀ a, Q a → Q' a) → writes P p Q → writes P p Q'.
Proof. intros HQ. induction p as [a|what|e k IH]; cbn [writes]; [apply HQ|done|]. intros [He Hk]. split; [done|]. intros r. by apply IH. Qed.

Lemma writes_runs {A} P (p : prog A) Q : ∀ tr a, writes P p Q → runs p tr a → Forall P (sent tr) ∧ Q a.
Proof.
  induction p as [a'|what|e k IH]; intros tr a Hw Hr; cbn [writes runs] in *.
  - by destruct Hr as [-> ->].
  - done.
  - destruct Hw as [He Hk]. destruct Hr as (r & tr' & -> & Hr). destruct (IH r tr' a (Hk r) Hr) as [Hs HQ].
    split; [|done]. destruct e; cbn [sent]; try done. by apply Forall_app.
Qed.

(** The message goes where the request came from and carries its names. *)
Definition addressed (url request_id work_id : string) (m : output_message) : Prop :=
  om_output_url m = url ∧ om_request_id m = request_id ∧ om_work_id m = work_id.

Definition comes_from (url request_id work_id : string) (req : InferenceRequest) : Prop :=
  req_output_url req = url ∧ req_request_id req = request_id ∧ req_work_id req = work_id.

Section sending.
Context `{JsonText} (url request_id work_id : string).
Abbreviation to_sender := (addressed url request_id work_id).
Abbreviation of_sender := (comes_from url request_id work_id).

Lemma emit_delta_addressed req delta finish index : of_sender req → Forall to_sender (emit_delta req delta finish index).
Proof. unfold emit_delta. intros (? & ? & ?). destruct (negb _); by repeat constructor. Qed.

Lemma emit_text_addressed req text : of_sender req → Forall to_sender (emit_text req text).
Proof. unfold emit_text. intros (? & ? & ?). destruct (negb _); by repeat constructor. Qed.

Lemma emit_error_addressed req code message : of_sender req → Forall to_sender (emit_error req code message).
Proof. intros (? & ? & ?). by repeat constructor. Qed.

Lemma delta_messages_addressed req i deltas : of_sender req → Forall to_sender (delta_messages req i deltas).
Proof.
  intros Hreq. unfold delta_messages. apply Forall_concat, Forall_lookup. intros j out. rewrite list_lookup_imap.
  destruct (deltas !! j); [|done]. intros [= <-]. by apply emit_delta_addressed.
Qed.

Lemma prepared_comes_from ep n req : of_sender req → of_sender (prepare_request_for_endpoint ep (req <| req_retry_count := n |>)).
Proof. unfold prepare_request_for_endpoint. cbv zeta. by destruct (req_degraded _). Qed.

(** A call sends to the sender only and hands the request back as its own. *)
Lemma read_reply_addressed reply begin_ms msg started req :
  of_sender req → let o := read_reply reply begin_ms msg started req in Forall to_sender (co_output o) ∧ of_sender (co_req o).
Proof.
  intros Hreq. cbv zeta. unfold read_reply. destruct (negb (hr_init _)); [done|].
  destruct (feed_streams (hr_chunks reply) (new_stream_state req begin_ms)) as (ds & Hout & _).
  set (r := if req_enstream req then _ else _).
  assert (Forall to_sender r.2) as Hr.
  { subst r. destruct (req_enstream req); [|done]. rewrite Hout. by apply delta_messages_addressed. }
  destruct r as [s out]. cbv zeta. set (req' := _ <| req_first_token_latency_ms := _ |>).
  assert (of_sender req') as Hreq' by exact Hreq.
  destruct (hr_error _); [done|]. destruct (negb _); [done|]. destruct (req_enstream req).
  - destruct (st_failed s); [done|]. split; [|done]. cbn [co_output]. apply Forall_app. split; [done|]. by apply emit_delta_addressed.
  - destruct (extract_response_text _); [done|]. split; [|done]. cbn [co_output]. apply Forall_app. split; [done|]. by apply emit_text_addressed.
Qed.

(** Programs that send nothing. *)
Lemma deadline_writes req (Q : bool → Prop) : (∀ b, Q b) → writes to_sender (deadline_exceeded req) Q.
Proof. intros HQ. unfold deadline_exceeded. destruct (0 <? _); cbn; auto. Qed.

Lemma wait_polls_writes fuel req until (Q : wait_result → Prop) : (∀ w, Q w) → writes to_sender (wait_polls fuel req until) Q.
Proof.
  intros HQ. induction fuel as [|fuel IH]; cbn [wait_polls]; [apply writes_ret, HQ|]. silent_act. intros []; [apply writes_ret, HQ|].
  silent_act. intros now. destruct (now <? until); [|apply writes_ret, HQ]. silent_act. intros []. silent_act.
  intros [l|]; [apply writes_ret, HQ|]. apply writes_bind, deadline_writes. intros []; [apply writes_ret, HQ|done].
Qed.

Lemma wait_writes fuel req (Q : wait_result → Prop) : (∀ w, Q w) → writes to_sender (wait_for_endpoint fuel req) Q.
Proof.
  intros HQ. silent_act. intros [l|]; [apply writes_ret, HQ|]. silent_act. intros c.
  destruct (tc_endpoint_wait_ms c <=? 0); [apply writes_ret, HQ|].
  silent_act. intros now. silent_act. intros c'. by apply wait_polls_writes.
Qed.

Lemma attempt_writes attempt l st req :
  of_sender req → writes to_sender (attempt_call attempt l st req) (λ o, of_sender (co_req o)).
Proof.
  intros Hreq. silent_act. intros ep. silent_act. intros c. silent_act. intros begin_ms.
  destruct (vllm_http_request _ _ _) as [request|what]; [|exact I]. silent_act. intros reply.
  destruct (read_reply_addressed reply begin_ms (as_error_message st) (as_stream_started st)
    (prepare_request_for_endpoint ep (req <| req_retry_count := attempt |>)) (prepared_comes_from _ _ _ Hreq)) as [Hout Hr].
  apply writes_act; [exact Hout|]. intros []. silent_act. intros []. exact Hr.
Qed.

Lemma close_writes req status ok timeout code message (Q : unit → Prop) :
  Q tt → writes to_sender (close_request req status ok timeout code message) Q.
Proof. intros HQ. unfold close_request. do 3 (silent_act; intros []). done. Qed.

Lemma attempts_writes fuel req n : of_sender req → ∀ attempt st, of_sender (as_final_req st) →
  writes to_sender (attempts n fuel attempt req st) (λ r, ∀ st', r = Some st' → of_sender (as_final_req st')).
Proof.
  intros Hreq. induction n as [|n IH]; intros attempt st Hst; cbn [attempts]; [by intros st' [= <-]|].
  silent_act. intros []; [by intros st' [= <-]|]. apply writes_bind, deadline_writes. intros []; [by intros st' [= <-]|].
  apply writes_bind, wait_writes. intros [[l|]|]; [|by intros st' [= <-]|by intros st'].
  apply writes_bind. eapply writes_weaken; [|by apply attempt_writes]. intros o Ho. cbn beta. destruct (co_ok o).
  - silent_act. intros now. apply writes_bind, close_writes. by intros st' [= <-].
  - silent_act. intros []. destruct (co_stream_started o); [by intros st' [= <-]|]. by apply IH.
Qed.

Lemma handle_request_writes fuel req : of_sender req → writes to_sender (handle_request fuel req) (λ _, True).
Proof.
  intros Hreq. silent_act. intros c. destruct (tc_mock_mode c).
  - apply writes_act.
    + set (mock := _ <| req_served_model := _ |>). assert (of_sender mock) by exact Hreq. unfold run_mock.
      destruct (req_enstream mock); [|by apply emit_text_addressed]. rewrite !Forall_app. by split_and!; apply emit_delta_addressed.
    + intros []. silent_act. intros now. by do 3 (silent_act; intros []).
  - apply writes_bind. eapply writes_weaken; [|by apply attempts_writes]. intros [st|] Hst; [|done]. cbn beta match.
    destruct (as_ok st); [done|]. silent_act. intros []; [done|]. apply writes_bind. unfold fail_request. cbv zeta.
    silent_act. intros now. apply writes_bind, close_writes. apply writes_act; [|by intros []].
    apply emit_error_addressed. exact (Hst st eq_refl).
Qed.

(** Everything a worker sends for a request goes where the request came from. *)
Lemma worker_turn_writes fuel req : of_sender req → writes to_sender (worker_turn fuel req) (λ _, True).
Proof.
  intros Hreq. silent_act. intros now. cbv zeta. do 2 (silent_act; intros []). apply writes_bind.
  eapply writes_weaken; [|by apply handle_request_writes]. intros r _. silent_act. intros []; [done|]. by silent_act; intros [].
Qed.
End sending.

(** ** What the handlers of the unit answer *)

Section handlers.
Context `{TimeSeriesStore} `{JsonText}.

(** Exactly one message has been pushed, to [url] and under [request_id]. *)
Definition answered_once (url request_id : string) (u u' : llm_unit) : Prop :=
  ∃ body, u_sent u' = u_sent u ++ [MkPush url body] ∧ json_get body "request_id" = Some (JStr request_id).

Lemma push_once url body u u' :
  push_message url body u = Ok u' → u' = u <| u_sent := u_sent u ++ [MkPush url body] |>.
Proof. unfold push_message. destruct (json_dump body); [|done]. by intros [= <-]. Qed.

Lemma send_once o object data work_id u u' :
  send o object data work_id u = Ok u' → answered_once (u_out_zmq_url u) (u_request_id u) u u'.
Proof. intros ->%push_once. by eexists. Qed.

Lemma send_error_once o work_id code message u u' :
  send_error o work_id code message u = Ok u' → answered_once (u_out_zmq_url u) (u_request_id u) u u'.
Proof. intros ->%push_once. by eexists. Qed.

(** What else a handler changes does not matter. *)
Lemma answered_frame url request_id u1 u1' u2 u2' :
  answered_once url request_id u1 u1' → u_sent u1 = u_sent u2 → u_sent u1' = u_sent u2' → answered_once url request_id u2 u2'.
Proof. intros (body & E & Hid) E1 E2. exists body. split; [|done]. congruence. Qed.

(** A handler whose last act is to send. *)
Ltac answers :=
  lazymatch goal with
  | |- (_ ← ?m; mret (_, _)) = Ok (_, _) → _ =>
      let E := fresh "E" in destruct m eqn:E; cbn [mbind result_bind mret result_ret]; [|done]; intros [= <- _]
  end.

Lemma llm_setup_once o work_id data u u' code :
  llm_setup o work_id data u = Ok (u', code) → answered_once (u_out_zmq_url u) (u_request_id u) u u'.
Proof.
  unfold llm_setup. destruct (sample_get_work_id_num work_id) as [n|]; cbn [mbind result_bind]; [|done].
  destruct (json_parse data) as [body|]; [|answers; by eapply send_error_once]. cbv zeta.
  destruct (u_sessions u !! n); [answers; by eapply send_error_once|].
  destruct (max_sessions_ <=? _); [answers; by eapply send_error_once|].
  assert (∀ u1 r, ensure_task o body u = (u1, r) →
    u_sent u1 = u_sent u ∧ u_out_zmq_url u1 = u_out_zmq_url u ∧ u_request_id u1 = u_request_id u) as Hens.
  { intros u1 r. unfold ensure_task. destruct (u_task u); [by intros [= <- _]|]. destruct (load_model _ _ _ _ _ _) as [[t p] c].
    cbv zeta. by destruct (negb _); intros [= <- _]. }
  destruct (ensure_task o body u) as [u1 [message|]] eqn:E; destruct (Hens _ _ eq_refl) as (Hs & Hz & Hr); clear E Hens.
  - answers. apply send_error_once in E. rewrite <- Hz, <- Hr. by eapply answered_frame.
  - unfold get_channel. change (u_channels (u1 <| u_sessions := _ |>)) with (u_channels u1). destruct (u_channels u1 !! n) as [c|]; [|done].
    cbn [mbind result_bind]. answers. apply send_once in E. rewrite <- Hz, <- Hr.
    by eapply answered_frame; [exact E|exact Hs|].
Qed.

Lemma sys_release_unit_sent n work_id u u' : sys_release_unit n work_id u = Ok u' → u_sent u' = u_sent u.
Proof. unfold sys_release_unit. destruct (str_empty work_id); cbn; [by intros [= <-]|]. destruct (sample_get_work_id_num _); by intros [= <-]. Qed.

Lemma set_channel_lookup n c u : u_channels (set_channel n c u) !! n = Some c.
Proof. apply lookup_insert_eq. Qed.

Lemma setup_call_once o reg zmq_url raw u u' :
  setup_call o reg zmq_url raw u = Ok u' → answered_once (u_out_zmq_url u) (u_request_id u) u u'.
Proof.
  unfold setup_call, sys_register_unit, get_channel. cbv zeta. destruct (stoi (rg_number reg)) as [n|]; [|done].
  cbn [mbind result_bind mret result_ret]. rewrite set_channel_lookup. cbn [mbind result_bind mret result_ret].
  destruct (llm_setup _ _ _ _) as [[u1 code]|] eqn:E; [|done]. apply llm_setup_once in E. cbn [mbind result_bind].
  destruct (negb (code =? 0)).
  - intros Hrel%sys_release_unit_sent. eapply answered_frame; [exact E|reflexivity|done].
  - intros [= <-]. eapply answered_frame; [exact E|reflexivity|done].
Qed.

Lemma try_set_push_url_sent work_id zmq_url u :
  let u' := try_set_push_url work_id zmq_url u in
  u_sent u' = u_sent u ∧ u_out_zmq_url u' = u_out_zmq_url u ∧ u_request_id u' = u_request_id u.
Proof. unfold try_set_push_url. destruct (_ ≫= _) as [[n c]|]; done. Qed.

Lemma llm_exit_once o work_id u u' code :
  llm_exit o work_id u = Ok (u', code) → answered_once (u_out_zmq_url u) (u_request_id u) u u'.
Proof.
  unfold llm_exit. destruct (sample_get_work_id_num _) as [n|]; [|done]. cbn [mbind result_bind].
  destruct (u_sessions u !! n); [|answers; by eapply send_error_once].
  unfold get_channel. change (u_channels (u <| u_sessions := _ |>)) with (u_channels u).
  destruct (u_channels u !! n) as [c|]; [|done]. cbn [mbind result_bind]. answers. by apply send_once in E.
Qed.

Lemma exit_call_once o zmq_url raw u u' :
  exit_call o zmq_url raw u = Ok u' → answered_once (u_out_zmq_url u) (u_request_id u) u u'.
Proof.
  unfold exit_call. cbv zeta. destruct (try_set_push_url_sent (sample_json_str_get raw "work_id") zmq_url u) as (Hs & Hz & Hr).
  destruct (llm_exit _ _ _) as [[u2 code]|] eqn:E; [|done]. cbn [mbind result_bind]. apply llm_exit_once in E.
  rewrite Hz, Hr in E. destruct (code =? 0).
  - intros Er%sys_release_unit_sent. by eapply answered_frame.
  - intros [= <-]. by eapply answered_frame.
Qed.

Lemma taskinfo_call_once o zmq_url raw u u' :
  taskinfo_call o zmq_url raw u = Ok u' → answered_once (u_out_zmq_url u) (u_request_id u) u u'.
Proof.
  unfold taskinfo_call. cbv zeta.
  destruct (try_set_push_url_sent (sample_json_str_get raw "work_id") zmq_url u) as (Hs & Hz & Hr).
  set (u1 := try_set_push_url _ _ u) in *. unfold llm_taskinfo.
  assert (∀ u2, answered_once (u_out_zmq_url u1) (u_request_id u1) u1 u2 →
    answered_once (u_out_zmq_url u) (u_request_id u) u u2) as Hone.
  { intros u2 Hu2. rewrite Hz, Hr in Hu2. by eapply answered_frame. }
  destruct (sample_get_work_id_num _) as [n|]; [|done]. cbn [mbind result_bind mret result_ret].
  destruct (n =? WORK_ID_NONE); [intros E%send_once; by apply Hone|].
  destruct (u_sessions u1 !! n); [intros E%send_once|intros E%send_error_once]; by apply Hone.
Qed.

Lemma reload_answer_once o raw u u' :
  reload_answer o raw u = Ok u' → answered_once (u_out_zmq_url u) (u_request_id u) u u'.
Proof.
  unfold reload_answer. destruct (json_parse raw) as [root|]; [|apply send_error_once].
  destruct (call_body "reload_config" root) as [message|body]; [apply send_error_once|].
  destruct (u_task u) as [t|]; [|apply send_error_once].
  destruct (reload_config _ _ _ _ _) as [[t' p'] [message|]]; [intros E%send_error_once|intros E%send_once]; by eapply answered_frame.
Qed.

Lemma metrics_answer_once o wall raw u u' :
  metrics_answer o wall raw u = Ok u' → answered_once (u_out_zmq_url u) (u_request_id u) u u'.
Proof.
  unfold metrics_answer. destruct (json_parse raw) as [root|]; [|apply send_error_once].
  destruct (call_body "metrics_query" root) as [message|body]; [apply send_error_once|].
  destruct (u_task u) as [t|]; [apply send_once|apply send_error_once].
Qed.

Definition is_call (e : unit_event) : bool := match e with MessageEvent _ _ => false | _ => true end.

(** Where the second phase sends its answer: a reload and a metrics query write
    the URL a second time. *)
Definition answer_url (e : unit_event) (u : llm_unit) : string :=
  match e with ReloadEvent zmq_url _ | MetricsEvent _ zmq_url _ => zmq_url | _ => u_out_zmq_url u end.

(** The second phase of a remote call answers once, with what the members say
    then. *)
Lemma finish_call_once o e u u' :
  is_call e = true → finish_event o e u = Ok u' → answered_once (answer_url e u) (u_request_id u) u u'.
Proof.
  destruct e; intros He; cbn [finish_event answer_url]; [apply setup_call_once|apply exit_call_once|apply taskinfo_call_once| | |done].
  - intros E%reload_answer_once. exact E.
  - intros E%metrics_answer_once. exact E.
Qed.

(** *** Inference messages *)

(** The requests that wait in the scheduler. *)
Definition waiting (u : llm_unit) : list InferenceRequest :=
  match u_task u with Some t => q_pending (t_queue t) | None => [] end.

(** An inference message is queued as a request, refused with one error, or
    kept as a part of a streamed input. *)
Inductive message_outcome (url request_id work_id : string) (u u' : llm_unit) : Prop :=
  | MessageQueued req :
      waiting u' = waiting u ++ [req] → comes_from url request_id work_id req → u_sent u' = u_sent u →
      message_outcome url request_id work_id u u'
  | MessageRefused :
      waiting u' = waiting u → answered_once url request_id u u' → message_outcome url request_id work_id u u'
  | MessageKept :
      waiting u' = waiting u → u_sent u' = u_sent u → is_Some (u_streams u' !! (work_id +:+ ":" +:+ request_id)) →
      message_outcome url request_id work_id u u'.

Lemma refuse_message o c code message u u' :
  str_empty (ch_output_url c) = false → send_client_message o (client_error c code message) u = Ok u' →
  u_task u' = u_task u ∧ message_outcome (ch_output_url c) (ch_request_id c) (ch_work_id c) u u'.
Proof.
  intros Hne. unfold send_client_message, client_error. cbn [om_output_url]. rewrite Hne. intros ->%push_once.
  split; [done|]. apply MessageRefused; [done|by eexists].
Qed.

Lemma join_chunks_decided n : ∀ i chunks, join_chunks i n chunks ≠ NeedMore.
Proof.
  induction n as [|n IH]; intros i chunks; cbn [join_chunks]; [done|]. destruct (chunks !! i); [|done].
  specialize (IH (i + 1) chunks). by destruct (join_chunks (i + 1) n chunks).
Qed.

Lemma feed_chunk_kept now key meta states states' :
  feed_chunk now key meta states = (states', NeedMore) → is_Some (states' !! key).
Proof.
  unfold feed_chunk, assemble_stream_input. destruct (stream_chunk_index meta) as [index|]; cbn [mbind result_bind mret result_ret]; [|done].
  destruct (index <? 0); [done|]. cbv zeta. destruct (stream_input_state key now states) as [s st].
  destruct (_ <? _); [done|]. destruct (_ <? _); [done|]. destruct (negb _).
  - intros [= <-]. rewrite lookup_insert_eq. by eexists.
  - pose proof (join_chunks_decided (size (si_chunks (store_chunk index (json_string_value meta "delta" "") now st))) 0
      (si_chunks (store_chunk index (json_string_value meta "delta" "") now st))) as Hj.
    by destruct (join_chunks _ _ _).
Qed.

Lemma made_request_from now rid wid url object prompt meta options t :
  comes_from url rid wid (make_request now rid wid url object prompt meta options t).
Proof. done. Qed.

Lemma send_refusal o (u u' : llm_unit) t req code message :
  str_empty (req_output_url req) = false →
  send_client_messages o (emit_error req code message) (u <| u_task := Some t |>) = Ok u' →
  u_task u' = Some t ∧ answered_once (req_output_url req) (req_request_id req) u u'.
Proof.
  intros Hne. unfold emit_error. cbn [send_client_messages]. unfold send_client_message. cbn [om_output_url]. rewrite Hne.
  destruct (push_message _ _ _) as [u1|] eqn:E; [|done]. cbn [mbind result_bind]. intros [= <-].
  apply push_once in E as ->. split; [done|]. by eexists.
Qed.

Lemma request_text_outcome o c object data meta u u1 a :
  str_empty (ch_output_url c) = false → request_text o c object data meta u = Ok (u1, a) →
  u_task u1 = u_task u ∧ match a with
  | Assembled _ => u_sent u1 = u_sent u
  | _ => message_outcome (ch_output_url c) (ch_request_id c) (ch_work_id c) u u1 end.
Proof.
  intros Hne. unfold request_text. destruct (negb _); [by intros [= <- <-]|].
  destruct (feed_chunk _ _ _ _) as [states a0] eqn:Ef. destruct a0 as [|message|text].
  - intros [= <- <-]. split; [done|]. apply MessageKept; [done|done|]. by apply feed_chunk_kept in Ef.
  - destruct (send_client_message _ _ _) as [u2|] eqn:E; [|done]. cbn [mbind result_bind mret result_ret]. intros [= <- <-].
    apply refuse_message in E as [Ht Hout]; [|done]. split; [exact Ht|].
    destruct Hout as [req H1 H2 H3|H1 H2|H1 H2 H3]; [by apply (MessageQueued _ _ _ _ _ req)|by apply MessageRefused|by apply MessageKept].
  - by intros [= <- <-].
Qed.

Lemma task_user_data_outcome o c object data u u' :
  str_empty (ch_output_url c) = false → task_user_data o c object data u = Ok u' →
  message_outcome (ch_output_url c) (ch_request_id c) (ch_work_id c) u u'.
Proof.
  intros Hne. unfold task_user_data. destruct (sample_get_work_id_num _) as [n|]; [|done]. cbn [mbind result_bind mret result_ret].
  destruct (u_task u) as [t|] eqn:Et; [|intros E; by apply (refuse_message _ _ _ _ _ _ Hne) in E as [_ ?]].
  destruct (u_sessions u !! n) as [session|]; [|intros E; by apply (refuse_message _ _ _ _ _ _ Hne) in E as [_ ?]].
  destruct (str_empty data || _); [intros E; by apply (refuse_message _ _ _ _ _ _ Hne) in E as [_ ?]|]. cbv zeta.
  set (meta := match json_parse data with Ok j => j | Throw _ => json_object end).
  destruct (request_text o c object data meta u) as [[u1 a]|] eqn:Er; [|done]. cbn [mbind result_bind].
  apply request_text_outcome in Er as [Ht Ha]; [|done].
  destruct a as [|message|text]; [by intros [= <-]..|]. destruct (apply_session_defaults session meta) as [meta'|]; [|done].
  cbn [mbind result_bind]. destruct (inference _ _ _ _ _ _ _ _ _) as [t' out] eqn:Ei.
  unfold inference in Ei. set (req := make_request _ _ _ _ _ _ _ _ t) in Ei.
  destruct (admit_locked _ req _) as [pending|code message] eqn:Ea; injection Ei as <- <-.
  - cbn [send_client_messages mret result_ret]. intros [= <-].
    apply admit_enqueued in Ea as (-> & _). apply (MessageQueued _ _ _ _ _ req); [|done|done].
    unfold waiting. by rewrite Et.
  - intros E. apply (send_refusal o u1 u' _ req code message Hne) in E as [Ht' Hans]. apply MessageRefused.
    + unfold waiting. by rewrite Et, Ht'.
    + by eapply answered_frame.
Qed.
End handlers.

(** ** The whole program *)

Section program.
Context `{TimeSeriesStore} `{JsonText}.

Record program := MkProgram {
  pr_system : system;
  pr_bridge : bridge;
}.

(** [send_client_message] for an output of a worker, delivered by the front
    end; a message that cannot be printed is an exception in the worker. *)
Definition deliver_output (o : outside) (m : output_message) (g : bridge) : result (list (nat * string)) :=
  if str_empty (om_output_url m) then mret []
  else out ← json_dump (output_body o m);
       mret (push_to (om_output_url m) (out +:+ String "010" "") g).

(** The parts of the program run side by side: the unit and the manager (the
    orderly steps of [System], where the phases of different handlers mix), the
    connections of the clients, whose sessions get numbers that no running
    session has, and the threads of the scheduler, which may do anything to it
    but unload it. *)
Inductive program_step : program → program → Prop :=
  | ProgramSystem y y' g : orderly_step y y' → program_step (MkProgram y g) (MkProgram y' g)
  | ProgramClients y g g' : bridge_step number_free (y_manager y) g g' → program_step (MkProgram y g) (MkProgram y g')
  | ProgramScheduler y g t t' p' out :
      u_task (y_unit y) = Some t →
      program_step (MkProgram y g)
        (MkProgram (MkSystem (y_manager y)
          ((y_unit y) <| u_task := Some t' |> <| u_process := p' |> <| u_sent := u_sent (y_unit y) ++ out |>)) g).

(** The configuration uses one format for both directions. *)
Definition program_start (sql : gmap string any) (name : string) (p : process) (m0 : manager) : Prop :=
  system_start sql name p m0 ∧ plain_format (m_s_format m0) ∧ m_c_format m0 = m_s_format m0.

Definition initial (name : string) (p : process) (m0 : manager) : program :=
  MkProgram (MkSystem m0 (new_unit name p)) new_bridge.

(** *** The invariant *)

Definition program_ok (name fmt : string) (x : program) : Prop :=
  system_ok name (pr_system x) ∧ bridge_ok fmt (pr_bridge x) ∧
  m_s_format (y_manager (pr_system x)) = fmt ∧ m_c_format (y_manager (pr_system x)) = fmt.

Lemma deliver_releases_frame u u' m : manager_frame (deliver_releases u u' m) = manager_frame m.
Proof.
  unfold deliver_releases. generalize (drop (length (u_released u)) (u_released u')). intros l. revert m.
  induction l as [|w l IH]; intros m; [done|]. cbn [foldl]. rewrite IH. apply free_unit_frame.
Qed.

Lemma system_step_frame name s s' :
  system_ok name s → orderly_step s s' → manager_frame (y_manager s') = manager_frame (y_manager s).
Proof.
  intros Hs Hstep. assert (∀ m name' m' r, manager_ok m → char_in "%"%char name' = false → m_counter m < INT_MAX →
    sys_allocate_unit name' m = Ok (m', r) → manager_frame m' = manager_frame m) as Halloc.
  { intros m name' m' r Hok Hp Hlt E. destruct (allocate_unit_ok ∅ name' m Hok Hp Hlt) as (m2 & r2 & E2 & _ & Hr).
    assert (m2 = m' ∧ r2 = r) as [-> ->] by (split; congruence). destruct r; [by apply Hr|]. by destruct Hr as [-> _]. }
  destruct Hstep as [e s|o zmq_url raw s s' [Hlt _] E|o e s s' _ _ E|name' s m' r Hp _ _ Hlt E|work_id s _|raw s _|key s _]; cbn [y_manager].
  - done.
  - destruct Hs as (Hok & [Hp _] & D & rel & [(_ & Hname & _) _] & _). unfold system_setup_call, rpc_allocate_unit in E. rewrite Hname in E.
    destruct (sys_allocate_unit name (y_manager s)) as [[m1 r]|] eqn:Ea; [|done]. apply (Halloc _ _ _ _ Hok Hp Hlt) in Ea.
    destruct r; cbn [mbind result_bind mret result_ret] in E; destruct (decode_registration _); [|done| |done];
      cbn [mbind result_bind] in E; destruct (setup_call _ _ _ _ _); try done; injection E as <-; cbn [y_manager];
      by rewrite deliver_releases_frame.
  - unfold system_finish in E. destruct (finish_event o e (y_unit s)); [|done]. injection E as <-. apply deliver_releases_frame.
  - apply (Halloc _ _ _ _ (proj1 Hs) Hp Hlt E).
  - apply free_unit_frame.
  - unfold rpc_sql_set. by destruct (str_empty _).
  - done.
Qed.

Lemma scheduler_step_ok name y t t' p' out :
  system_ok name y → u_task (y_unit y) = Some t →
  system_ok name (MkSystem (y_manager y)
    ((y_unit y) <| u_task := Some t' |> <| u_process := p' |> <| u_sent := u_sent (y_unit y) ++ out |>)).
Proof.
  intros (Hok & Hshort & D & rel & Hat & Hreg) Ht. split_and!; [done..|]. exists D, rel. split; [|done].
  apply (task_swap_at name D rel (y_unit y) t' Hat). unfold scheduler_loaded. by rewrite Ht.
Qed.

Lemma program_step_ok name fmt x x' :
  char_in "."%char name = false → plain_format fmt → program_step x x' → program_ok name fmt x → program_ok name fmt x'.
Proof.
  intros Hdot Hfmt Hstep (Hs & Hg & Hsf & Hcf). destruct Hstep as [y y' g Hy|y g g' Hb|y g t t' p' out Ht]; cbn [pr_system pr_bridge] in *.
  - pose proof (system_step_frame name y y' Hs Hy) as Hf. injection Hf as _ _ Hf1 Hf2.
    split_and!; [by eapply system_step_ok|done|cbn; congruence..].
  - split_and!; [done| |done..]. destruct Hb as ([conn|conn] & Hen & Hfree & E); cbn [run_bridge_event pr_bridge] in *.
    + rewrite <- Hsf in *. destruct (connected_ok (y_manager y) conn g Hfmt Hg Hfree) as (g2 & E2 & Hg2). congruence.
    + destruct (disconnected_ok fmt conn g Hg Hen) as (g2 & E2 & Hg2). congruence.
  - split_and!; [by eapply scheduler_step_ok|done..].
Qed.

Lemma reachable_program_ok sql name p m0 x :
  program_start sql name p m0 → rtc program_step (initial name p m0) x → program_ok name (m_s_format m0) x.
Proof.
  intros (Hstart & Hfmt & Hc) Hrun.
  refine (rtc_preserves program_step (program_ok name (m_s_format m0)) _ _ _ Hrun _).
  - intros a b Hab. apply program_step_ok; [by apply Hstart|done..].
  - split_and!; [by eapply system_start_ok| |done..]. by apply (reachable_bridge_ok m0 new_bridge Hfmt), rtc_refl.
Qed.
(** ** Clients *)

(** Connection [conn] is open and [s] is its session. *)
Definition connected (conn : nat) (s : bus) (x : program) : Prop :=
  g_contexts (pr_bridge x) !! conn = Some s ∧ bus_running s = true.

Lemma connected_url name fmt conn s x :
  plain_format fmt → program_ok name fmt x → connected conn s x →
  session_url fmt (bus_port s) (bus_url s) ∧ str_empty (bus_url s) = false ∧
  ∀ text, push_to (bus_url s) text (pr_bridge x) = [(conn, text)].
Proof.
  intros Hfmt (_ & Hg & _) [Hs Hr]. pose proof (bus_session_url fmt _ conn s Hfmt Hg Hs) as Hurl. split; [done|]. split.
  - destruct Hurl as (_ & Hscan & _). destruct (bus_url s) eqn:E; [|done]. exfalso.
    destruct Hfmt as ((pre & post & -> & Hlit & _) & _). destruct pre as [|ch pre]; [done|]. rewrite str_app_cons in Hscan. cbn [sscanf_int literal] in *.
    boolean. destruct (is_space ch); [done|]. by destruct (ch =? "%")%char.
  - intros text. unfold push_to. by rewrite (go_running fmt _ Hg conn s Hs Hr).
Qed.

(** What a worker sends to the URL of a session leaves on its connection,
    whenever it is sent while the connection is open, or cannot be printed. *)
Lemma output_delivered name fmt conn s x o m request_id work_id :
  plain_format fmt → program_ok name fmt x → connected conn s x → addressed (bus_url s) request_id work_id m →
  match deliver_output o m (pr_bridge x) with
  | Ok out => ∃ text, out = [(conn, text)]
  | Throw what => json_dump (output_body o m) = Throw what
  end.
Proof.
  intros Hfmt Hx Hc (Eu & Er & Ew). destruct (connected_url name fmt conn s x Hfmt Hx Hc) as (_ & Hne & Hpush).
  unfold deliver_output. rewrite Eu, Hne. destruct (json_dump _); cbn [mbind result_bind mret result_ret]; [|done].
  rewrite Hpush. by eexists.
Qed.

(** The first phase of an event is a step of the program. *)
Definition program_begin (e : unit_event) (x : program) : program :=
  MkProgram (system_begin e (pr_system x)) (pr_bridge x).

Lemma program_begin_step e x : program_step x (program_begin e x).
Proof. destruct x as [y g]. apply ProgramSystem, SystemBegin. Qed.

(** *** Inference *)

(** An inference message for [work_id] that both readers understand: the
    dispatch, which sees the client's text, and the scanner of the unit, which
    sees it with the URL in front; its data is a text or an object. *)
Definition inference_message `{DocumentReader} (request_id work_id url json_str : string) : Prop :=
  let raw := inference_raw_data url json_str in
  (doc_ok json_str = true ∧ doc_string json_str "request_id" = Some request_id ∧
   doc_string json_str "work_id" = Some work_id ∧ doc_string json_str "action" = Some "inference") ∧
  (has_action_key (S (String.length raw)) 0 raw = true ∧ sample_json_str_get raw "request_id" = request_id ∧
   sample_json_str_get raw "work_id" = work_id ∧
   ∀ j, json_parse (sample_json_str_get raw "data") = Ok j → extensible j = true).

(** The channel after a message that both readers understand. *)
Lemma routed_to url request_id work_id raw c :
  sample_json_str_get raw "zmq_com" = url → str_empty url = false →
  has_action_key (S (String.length raw)) 0 raw = true → sample_json_str_get raw "request_id" = request_id →
  sample_json_str_get raw "work_id" = work_id →
  routed_channel raw c = c <| ch_output_url := url |> <| ch_request_id := request_id |> <| ch_work_id := work_id |>.
Proof. intros Hz Hne Hkey Hr Hw. unfold routed_channel. rewrite Hkey, Hz, Hne. cbv zeta. by rewrite Hr, Hw. Qed.

(** The callback of a message on a channel that says where it came from. *)
Lemma message_processed name y o n c raw :
  system_ok name y → u_channels (y_unit y) !! n = Some c →
  str_empty (ch_output_url c) = false → ch_work_id c = sample_get_work_id n name →
  (∀ j, json_parse (sample_json_str_get raw "data") = Ok j → extensible j = true) →
  match process_message o n raw (y_unit y) with
  | Ok u' => message_outcome (ch_output_url c) (ch_request_id c) (sample_get_work_id n name) (y_unit y) u'
  | Throw what => unprintable o what
  end.
Proof.
  intros Hy Hc Hne Hw Hj. pose proof Hy as (_ & _ & D & rel & Hat & Hreg).
  destruct (channel_registered name y n c Hy Hc) as (Hn & _). pose proof Hat as [(Hdot & Hname & _) Hregistry].
  pose proof (process_message_at name D rel o n raw (y_unit y) Hat) as Hm.
  destruct (process_message o n raw (y_unit y)) as [u'|what] eqn:E.
  - unfold process_message in E. rewrite Hc in E. destruct Hregistry as (_ & _ & Hsub & _). rewrite (Hsub n c Hc) in E.
    rewrite <- Hw. by apply task_user_data_outcome in E.
  - destruct Hm as [(c' & Hc' & Hbad)|Hprint]; [|done]. assert (c' = c) as -> by congruence. exfalso. destruct Hbad as [Hbad|(j & Hpj & He)].
    + apply (Hbad n). rewrite Hw. apply work_id_num_of; [by apply is_int_nonneg|by rewrite <- Hname].
    + by rewrite (Hj j Hpj) in He.
Qed.

(** What becomes of an inference request once the message has been processed:
    the state [u] of the unit at that moment has become [u']. *)
Inductive inference_outcome (conn : nat) (s : bus) (request_id work_id : string) (x1 : program) (u u' : llm_unit) : Prop :=
  | InferenceQueued req :
      waiting u' = waiting u ++ [req] → u_sent u' = u_sent u →
      (∀ fuel tr r o' m x', runs (worker_turn fuel req) tr r → m ∈ sent tr →
         rtc program_step x1 x' → connected conn s x' →
         om_request_id m = request_id ∧
         match deliver_output o' m (pr_bridge x') with
         | Ok out => ∃ text, out = [(conn, text)]
         | Throw what => json_dump (output_body o' m) = Throw what
         end) →
      inference_outcome conn s request_id work_id x1 u u'
  | InferenceRefused body :
      waiting u' = waiting u → u_sent u' = u_sent u ++ [MkPush (bus_url s) body] →
      json_get body "request_id" = Some (JStr request_id) →
      (connected conn s x1 → ∀ text, push_to (bus_url s) text (pr_bridge x1) = [(conn, text)]) →
      inference_outcome conn s request_id work_id x1 u u'
  | InferenceKept :
      waiting u' = waiting u → u_sent u' = u_sent u → is_Some (u_streams u' !! (work_id +:+ ":" +:+ request_id)) →
      inference_outcome conn s request_id work_id x1 u u'.

Lemma outcome_delivered sql name p m0 conn s request_id work_id x1 u u' :
  program_start sql name p m0 → rtc program_step (initial name p m0) x1 →
  message_outcome (bus_url s) request_id work_id u u' → inference_outcome conn s request_id work_id x1 u u'.
Proof.
  intros Hstart Hrun Hout. pose proof Hstart as (_ & Hfmt & _).
  destruct Hout as [req Hwait Hreq Hs|Hwait (body & Hs & Hid)|Hwait Hs Hst].
  - apply (InferenceQueued _ _ _ _ _ _ _ req); [done..|]. intros fuel tr r o' m x' Hruns Hm Hx' Hconn'.
    destruct (writes_runs _ _ _ tr r (worker_turn_writes _ _ _ fuel req Hreq) Hruns) as [Hall _].
    rewrite Forall_forall in Hall. pose proof (Hall m Hm) as Haddr. split; [apply Haddr|].
    apply (output_delivered name (m_s_format m0) conn s x' o' m request_id work_id); try done.
    apply (reachable_program_ok sql name p m0); [done|by etrans].
  - apply (InferenceRefused _ _ _ _ _ _ _ body); [done..|]. intros Hconn.
    apply (connected_url name (m_s_format m0)); [done| |done]. by apply (reachable_program_ok sql name p m0).
  - by apply InferenceKept.
Qed.


(** *** Remote calls *)

(** What the unit does with a call of the manager, one call at a time ([Events]
    shows that the queue and the event loop come to this). *)
Definition serve_call (o : outside) (wall_now_ms : Z) (action data : string) (y : system) : result system :=
  match event_of action with
  | Some ev => process_event o ev data y
  | None =>
      let event := if (action =? "reload_config")%string then ReloadEvent else MetricsEvent wall_now_ms in
      zmq_url ← param_value (get_param data 0 ""); raw ← param_value (get_param data 1 "");
      system_event o (event zmq_url raw) y
  end.

(** The name in front of the first dot. *)
Definition work_unit_of (work_id : string) : string :=
  match char_find "."%char work_id with Some p => str_take p work_id | None => work_id end.

(** The calls that are answered, and when the handler is ready for one: a setup
    while the manager has room, an exit (exact or not) or a task query with a
    number or without one, a reload or a metrics query at any time. *)
Definition remote_action (action : string) : Prop :=
  action = "setup" ∨ action = "exit" ∨ action = "taskinfo" ∨ action = "reload_config" ∨ action = "metrics_query".

Definition call_ready (action json_str : string) (y : system) : Prop :=
  (action = "setup" → can_register (y_manager y)) ∧
  (action = "exit" ∨ action = "taskinfo" → ∃ n, sample_get_work_id_num (sample_json_str_get json_str "work_id") = Ok n).

(** The two phases of [serve_call]: the members [request_id_] and [out_zmq_url_]
    are written, and the handler runs. *)
Definition begin_served (url json_str : string) (y : system) : system :=
  MkSystem (y_manager y) (begin_call url json_str (y_unit y)).

Definition finish_served (o : outside) (wall_now_ms : Z) (action url json_str : string) (y : system) : result system :=
  if (action =? "setup")%string then system_setup_call o url json_str y
  else if (action =? "exit")%string then system_finish o (ExitEvent url json_str) y
  else if (action =? "taskinfo")%string then system_finish o (TaskinfoEvent url json_str) y
  else if (action =? "reload_config")%string then system_finish o (ReloadEvent url json_str) y
  else system_finish o (MetricsEvent wall_now_ms url json_str) y.

Lemma fragments_nonempty s : ∀ current, str_empty current = false → ∃ c r l, fragments current s = String c r :: l.
Proof.
  induction s as [|d s IH]; intros [|c r] Hc; try done; cbn [fragments].
  - cbn. by eauto.
  - destruct (d =? ".")%char; [by eauto|]. by apply IH.
Qed.

Lemma work_unit_fragments name work_id :
  work_unit_of work_id = name → str_empty name = false → char_in "."%char name = false →
  ∃ c r l, fragments "" work_id = String c r :: l.
Proof.
  intros Hu Hne Hdot. destruct work_id as [|c w]; [by subst|]. cbn [fragments]. destruct (Ascii.eqb_spec c "."%char) as [->|].
  - by subst.
  - by apply fragments_nonempty.
Qed.

(** The dispatch of a call to the unit [name]. *)
Lemma call_dispatched `{DocumentReader} rpc m com_id json_str request_id work_id action url name :
  doc_ok json_str = true → doc_string json_str "request_id" = Some request_id →
  doc_string json_str "work_id" = Some work_id → doc_string json_str "action" = Some action →
  action ≠ "inference" → str_empty action = false →
  work_unit_of work_id = name → str_empty name = false → char_in "."%char name = false →
  sprintf_int (m_c_format m) (Some com_id) = Ok url → (String.length url <= 127)%nat →
  rpc name action (set_param url json_str) = 0 →
  unit_action_match rpc m com_id json_str = Ok [CallUnit name action (set_param url json_str)].
Proof.
  intros Hdoc Hr Hw Ha Hinf Hact Hu Hne Hdot Hurl Hlen Hrpc. unfold unit_action_match, remote_call. rewrite Hdoc, Hr, Hw, Ha. cbn [negb].
  assert (str_empty work_id = false) as Hwe by (destruct work_id; [by subst|done]). rewrite Hwe.
  destruct (String.eqb_spec action "inference") as [|_]; [done|].
  destruct (work_unit_fragments name work_id Hu Hne Hdot) as (c & r & l & ->).
  cbn [default from_option id]. rewrite Hwe, Hact, Hurl. cbn [orb mbind result_bind mret result_ret].
  change (match char_find "."%char work_id with Some p => str_take p work_id | None => work_id end) with (work_unit_of work_id).
  rewrite Hu, str_take_ge by lia. by rewrite Hrpc.
Qed.

Lemma begin_served_sent url json_str y : u_sent (y_unit (begin_served url json_str y)) = u_sent (y_unit y).
Proof. reflexivity. Qed.

Lemma serve_call_phases o wall action url json_str y :
  (String.length url <= 127)%nat → remote_action action →
  serve_call o wall action (set_param url json_str) y = finish_served o wall action url json_str (begin_served url json_str y).
Proof.
  intros Hlen Hact. destruct (process_encoded o url json_str y Hlen) as (Es & Ee & Et).
  assert (∀ i, get_param (set_param url json_str) i "" = Value (if Z.rem i 2 =? 0 then url else json_str)) as Hp
    by (intros i; apply get_set_param; auto).
  destruct Hact as [->|[->|[->|[->| ->]]]].
  - change (serve_call o wall "setup" (set_param url json_str) y) with (process_event o EVENT_SETUP (set_param url json_str) y). by rewrite Es.
  - change (serve_call o wall "exit" (set_param url json_str) y) with (process_event o EVENT_EXIT (set_param url json_str) y). by rewrite Ee.
  - change (serve_call o wall "taskinfo" (set_param url json_str) y) with (process_event o EVENT_TASKINFO (set_param url json_str) y). by rewrite Et.
  - unfold serve_call. change (event_of "reload_config") with (@None LOCAL_EVENT). cbv iota zeta. by rewrite (Hp 0), (Hp 1).
  - unfold serve_call. change (event_of "metrics_query") with (@None LOCAL_EVENT). cbv iota zeta. by rewrite (Hp 0), (Hp 1).
Qed.

Lemma setup_once o url raw y y' :
  system_setup_call o url raw y = Ok y' →
  answered_once (u_out_zmq_url (y_unit y)) (u_request_id (y_unit y)) (y_unit y) (y_unit y').
Proof.
  unfold system_setup_call. destruct (rpc_allocate_unit _ _) as [[m reply]|]; [|done]. cbn [mbind result_bind].
  destruct (decode_registration reply) as [reg|]; [|done]. cbn [mbind result_bind].
  destruct (setup_call _ _ _ _ _) as [u'|] eqn:E; [|done]. intros [= <-]. by eapply setup_call_once.
Qed.

(** The second phase of an event other than a setup: one answer, or an answer
    that cannot be printed. *)
Lemma system_finish_once name o e y :
  system_ok name y → is_setup e = false → is_call e = true → finish_well_formed e (y_unit y) →
  match system_finish o e y with
  | Ok y' => answered_once (answer_url e (y_unit y)) (u_request_id (y_unit y)) (y_unit y) (y_unit y')
  | Throw what => unprintable o what
  end.
Proof.
  intros (_ & _ & D & rel & Hat & _) Hset Hcall Hwf. unfold system_finish.
  assert (registered e (y_unit y)) as Hrg by (by destruct e).
  pose proof (finish_event_at name D rel o e (y_unit y) Hat Hrg) as Hh.
  destruct (finish_event o e (y_unit y)) as [u'|] eqn:E; cbn [mbind result_bind mret result_ret].
  - by apply (finish_call_once o e).
  - by destruct Hh.
Qed.

Lemma call_served name o wall action url json_str y :
  system_ok name y → u_out_zmq_url (y_unit y) = url → remote_action action → call_ready action json_str y →
  match finish_served o wall action url json_str y with
  | Ok y' => answered_once url (u_request_id (y_unit y)) (y_unit y) (y_unit y')
  | Throw what => unprintable o what
  end.
Proof.
  intros Hy Hurl Hact [Hcan Hnum].
  assert (∀ e, answer_url e (y_unit y) = url → is_setup e = false → is_call e = true → finish_well_formed e (y_unit y) →
    match system_finish o e y with
    | Ok y' => answered_once url (u_request_id (y_unit y)) (y_unit y) (y_unit y')
    | Throw what => unprintable o what
    end) as Hfin by (intros e <- ? ? ?; by apply (system_finish_once name)).
  destruct Hact as [->|[->|[->|[->| ->]]]].
  - change (finish_served o wall "setup" url json_str y) with (system_setup_call o url json_str y).
    pose proof (system_setup_ok name o url json_str y Hy (Hcan eq_refl)) as Hs.
    destruct (system_setup_call o url json_str y) as [y'|] eqn:E; [|apply Hs].
    apply setup_once in E. by rewrite Hurl in E.
  - apply (Hfin (ExitEvent url json_str)); [done..|]. by apply Hnum; left.
  - apply (Hfin (TaskinfoEvent url json_str)); [done..|]. by apply Hnum; right.
  - by apply (Hfin (ReloadEvent url json_str)).
  - by apply (Hfin (MetricsEvent wall url json_str)).
Qed.

(** The first phase of a call is a step of the program. *)
Definition program_call (url json_str : string) (x : program) : program :=
  MkProgram (begin_served url json_str (pr_system x)) (pr_bridge x).

Lemma program_call_step url json_str x : program_step x (program_call url json_str x).
Proof. destruct x as [y g]. exact (ProgramSystem _ _ g (SystemBegin (ReloadEvent url json_str) y)). Qed.

(** C16.  A remote call of a client is answered exactly once, to this client,
    unless another call comes in between: in any state an orderly run reaches
    ([program_step]), when a connected client asks for a setup, an exit, the
    task information, a reload or the metrics, the manager calls the unit with
    the client's URL and message, and serving the call is to write the
    session's URL and the request id into two members of the unit and to run
    the handler.  When the handler runs, after whatever steps of the program
    have come in between (ports must be left for a setup, the work id must
    have a readable number for an exit or a task query), provided that nobody
    else has written the two members meanwhile, it pushes exactly one message,
    under the request id of the call, to the URL whose messages leave on the
    client's connection only while it is open, or the answer cannot be printed
    and the exception leaves the handler.  The members are shared between the
    thread of the remote calls and the event loop without a lock, so the
    proviso is not enforced ([calls_race_for_the_answer]). *)
Theorem remote_call_answered `{DocumentReader} sql name p m0 (x : program) rpc o wall (conn : nat) (s : bus) msg request_id work_id action :
  program_start sql name p m0 → str_empty name = false → rtc program_step (initial name p m0) x → connected conn s x →
  let json_str := select_json_str msg in
  doc_ok json_str = true → doc_string json_str "request_id" = Some request_id →
  doc_string json_str "work_id" = Some work_id → doc_string json_str "action" = Some action →
  work_unit_of work_id = name → remote_action action → rpc name action (set_param (bus_url s) json_str) = 0 →
  ∃ data, on_message rpc (y_manager (pr_system x)) conn msg (pr_bridge x) = Ok [CallUnit name action data] ∧
    (∀ y, serve_call o wall action data y =
       finish_served o wall action (bus_url s) json_str (begin_served (bus_url s) json_str y)) ∧
    ∀ x0 x1, rtc program_step x x0 → rtc program_step (program_call (bus_url s) json_str x0) x1 →
      u_request_id (y_unit (pr_system x1)) = request_id → u_out_zmq_url (y_unit (pr_system x1)) = bus_url s →
      call_ready action json_str (pr_system x1) →
      match finish_served o wall action (bus_url s) json_str (pr_system x1) with
      | Ok y' =>
          (∃ body, u_sent (y_unit y') = u_sent (y_unit (pr_system x1)) ++ [MkPush (bus_url s) body] ∧
             json_get body "request_id" = Some (JStr request_id)) ∧
          (connected conn s x1 → ∀ text, push_to (bus_url s) text (pr_bridge x1) = [(conn, text)])
      | Throw what => unprintable o what
      end.
Proof.
  intros Hstart Hne Hrun Hconn json_str Hdoc Hr Hw Ha Hu Hact Hrpc.
  pose proof (reachable_program_ok _ _ _ _ _ Hstart Hrun) as Hx. pose proof Hstart as ((_ & Hdot & _) & Hfmt & _).
  destruct (connected_url _ _ _ _ _ Hfmt Hx Hconn) as ((Hsp & _ & Hlen & _) & _ & _). pose proof Hx as (_ & _ & _ & Hcf).
  exists (set_param (bus_url s) json_str). split_and!.
  - unfold on_message. rewrite (proj1 Hconn). rewrite <- Hcf in Hsp.
    apply (call_dispatched rpc _ _ _ request_id work_id action (bus_url s) name); try done; [..|lia];
      by destruct Hact as [->|[->|[->|[->| ->]]]].
  - intros y. apply serve_call_phases; [lia|done].
  - intros x0 x1 Hx0 Hx1 Hid Hout Hready.
    assert (rtc program_step (initial name p m0) x1) as Hrun1.
    { do 2 (etrans; [eassumption|]). etrans; [apply rtc_once, program_call_step|eassumption]. }
    pose proof (reachable_program_ok _ _ _ _ _ Hstart Hrun1) as Hok1.
    pose proof (call_served name o wall action (bus_url s) json_str (pr_system x1) (proj1 Hok1) Hout Hact Hready) as Hs.
    destruct (finish_served _ _ _ _ _ _) as [y'|]; [|done]. rewrite Hid in Hs. split; [exact Hs|].
    intros Hconn1. by apply (connected_url name (m_s_format m0)).
Qed.
End program.

(** ** Witnesses *)

(** A reader that uses the scanner of the units. *)
Definition scanning_reader : DocumentReader := {|
  doc_ok s := negb (str_empty s);
  doc_string s key := let v := sample_json_str_get s key in if str_empty v then None else Some v;
|}.

Definition client_text (request_id work_id action data : string) : string :=
  "{" +:+ quoted "request_id" +:+ ":" +:+ quoted request_id +:+ "," +:+ quoted "work_id" +:+ ":" +:+ quoted work_id +:+ "," +:+
  quoted "action" +:+ ":" +:+ quoted action +:+ "," +:+ quoted "object" +:+ ":" +:+ quoted "llm.utf-8" +:+ "," +:+
  quoted "data" +:+ ":" +:+ quoted data +:+ "}".

(** One client, and the unit with one session. *)
Definition one_client : @program open_store := MkProgram busy_system one_session.
Definition client_session : bus := MkBus 8000 "ipc:///tmp/llm/8000.sock" true.

Lemma one_client_start : program_start master_sql "llm" (MkProcess ∅ ∅) idle_manager.
Proof. split_and!; [apply idle_system_start|apply master_format_plain|reflexivity]. Qed.

(** Steps of the unit and the manager are steps of the program. *)
Lemma system_run_program `{TimeSeriesStore} `{JsonText} y y' g :
  rtc orderly_step y y' → rtc program_step (MkProgram y g) (MkProgram y' g).
Proof. induction 1 as [y|y y1 y' Hstep _ IH]; [done|]. eapply rtc_l; [by apply ProgramSystem|exact IH]. Qed.

Lemma one_client_reached : rtc (program_step (H0 := document_text)) (initial "llm" (MkProcess ∅ ∅) idle_manager) one_client.
Proof.
  apply (rtc_l _ _ (MkProgram idle_system one_session)).
  - apply ProgramClients. exists (Connected 0). split; [reflexivity|].
    split; [intros conn' s Hs; discriminate Hs|vm_compute; reflexivity].
  - apply system_run_program, busy_system_step.
Qed.

Definition hello : string := client_text "7" "llm.0" "inference" "hi".
Definition hello_raw : string := inference_raw_data "ipc:///tmp/llm/8000.sock" hello.


Definition goodbye : string := client_text "8" "llm.0" "exit" "None".

Lemma remote_call_answered_witness :
  ∃ data y' body, on_message (H := scanning_reader) (λ _ _ _, 0) (y_manager busy_system) 0 goodbye one_session =
      Ok [CallUnit "llm" "exit" data] ∧
    serve_call (H0 := document_text) quiet_outside 0 "exit" data busy_system = Ok y' ∧
    u_sent (y_unit y') = u_sent (y_unit busy_system) ++ [MkPush (bus_url client_session) body].
Proof.
  destruct (remote_call_answered (H0 := document_text) (H1 := scanning_reader) master_sql "llm" (MkProcess ∅ ∅) idle_manager one_client
    (λ _ _ _, 0) quiet_outside 0 0 client_session goodbye "8" "llm.0" "exit") as (data & Em & Es & Hout).
  - apply one_client_start.
  - reflexivity.
  - apply one_client_reached.
  - split; vm_compute; reflexivity.
  - vm_compute. reflexivity.
  - vm_compute. reflexivity.
  - vm_compute. reflexivity.
  - vm_compute. reflexivity.
  - vm_compute. reflexivity.
  - right. left. reflexivity.
  - reflexivity.
  - set (x1 := program_call (bus_url client_session) (select_json_str goodbye) one_client) in *.
    assert (u_request_id (y_unit (pr_system x1)) = "8") as Hid by (vm_compute; reflexivity).
    assert (u_out_zmq_url (y_unit (pr_system x1)) = bus_url client_session) as Hurl by (vm_compute; reflexivity).
    specialize (Hout one_client x1 (rtc_refl _ _) (rtc_refl _ _) Hid Hurl).
    assert (call_ready "exit" (select_json_str goodbye) (pr_system x1)) as Hready.
    { split; [discriminate|]. intros _. exists 0. vm_compute. reflexivity. }
    specialize (Hout Hready). specialize (Es busy_system).
    change (begin_served (bus_url client_session) (select_json_str goodbye) busy_system) with (pr_system x1) in Es.
    destruct (finish_served _ _ _ _ _ (pr_system x1)) as [y'|what] eqn:E; [|vm_compute in E; discriminate E].
    destruct Hout as [(body & Eb & _) _]. change (pr_system x1) with
      (begin_served (bus_url client_session) (select_json_str goodbye) busy_system) in Eb. rewrite begin_served_sent in Eb.
    exists data, y', body. split; [exact Em|]. split; [exact Es|exact Eb].
Defined.

(** Between the two phases of a message the event loop may serve a task query
    of another client for the same session: the query writes its client's URL
    into the channel, and the inference request goes to that client. *)
Lemma task_query_misdirects_inference :
  let u := receive_message 0 hello_raw (y_unit busy_system) in
  match (u ← on_taskinfo (H0 := document_text) quiet_outside "ipc:///tmp/llm/8001.sock" (client_text "9" "llm.0" "taskinfo" "None") u;
         process_message (H0 := document_text) quiet_outside 0 hello_raw u) with
  | Ok u' => (λ req, (req_output_url req, req_request_id req)) <$> waiting u' = [("ipc:///tmp/llm/8001.sock", "7")]
  | Throw _ => False
  end.
Proof. vm_compute. reflexivity. Qed.

(** Between the two phases of a call another thread may begin one: both answers
    go out under the second one's request id, to the second one's client. *)
Lemma calls_race_for_the_answer :
  let y := begin_served "ipc:///tmp/llm/8001.sock" (client_text "9" "llm" "metrics_query" "None")
             (begin_served "ipc:///tmp/llm/8000.sock" (client_text "8" "llm.0" "taskinfo" "None") busy_system) in
  match finish_served (H0 := document_text) quiet_outside 0 "taskinfo" "ipc:///tmp/llm/8000.sock"
          (client_text "8" "llm.0" "taskinfo" "None") y with
  | Ok y' => (λ m, (push_url m, json_get (push_body m) "request_id")) <$> drop (length (u_sent (y_unit busy_system))) (u_sent (y_unit y')) =
      [("ipc:///tmp/llm/8001.sock", Some (JStr "9"))]
  | Throw _ => False
  end.
Proof. vm_compute. reflexivity. Qed.

(** Without the word [action] in the text the unit answers to the client that
    spoke to the session before: the message below reaches a session whose
    channel still has the URL of its setup. *)
Lemma message_without_action_misdirected :
  let raw := "{" +:+ quoted "zmq_com" +:+ ":" +:+ quoted "ipc:///tmp/llm/8001.sock" +:+ "}" in
  match on_user_message (H0 := document_text) quiet_outside 0 raw (y_unit busy_system) with
  | Ok u' => push_url <$> u_sent u' = (push_url <$> u_sent (y_unit busy_system)) ++ ["ipc:///tmp/c"]
  | Throw _ => False
  end.
Proof. vm_compute. reflexivity. Qed.
