(* ===== verification/Wire.v ===== *)
(** * Texts between the parts

    The JSON library put into its place: [JsonText], against which the calls
    and the messages are modelled, is implemented by [JsonParse.parse] and
    [JsonDump.dump].  Then the texts of both ends can be followed: from the
    event stream of a model server ([node/vllm-client/src/main.cpp],
    [call_vllm]) to the deltas, from the messages ([send_client_message]) to
    the lines a client reads, and from a unit to the table of the manager
    ([infra-controller/src/StackFlow.cpp], [sys_sql_set]). *)
From S2P Require Import Prelude StdString Doubles Json Observability Types Endpoint Config Stream Util Manager Session System Bridge Rpc Route JsonDump JsonParse JsonStrings JsonDocument JsonRoundTrip.

(** ** The library as [JsonText] *)

(** The parser always answers ([JsonDocument.parse_answers]). *)
Definition library_text : JsonText := {|
  json_parse s := default (Throw "assertion") (parse s);
  json_dump j := dump j;
|}.

Lemma clean_json_text j :
  clean j = true → ∃ text, dump j = Ok text ∧ printable text ∧ parse text = Some (Ok j).
Proof.
  intros Hc. destruct (clean_text j Hc) as (text & Hd & Hp & Hr). exists text. split_and!; [done..|]. rewrite <- (str_app_nil_r text). by apply Hr.
Qed.

(** ** Lines *)

Lemma lines_of_line l rest :
  char_in "010"%char l = false → lines_of (l +:+ String "010" rest) = (l :: (lines_of rest).1, (lines_of rest).2).
Proof.
  induction l as [|c l IH]; intros Hl.
  - change ("" +:+ ?r) with r. cbn [lines_of]. destruct (lines_of rest). by rewrite decide_True.
  - cbn [char_in] in Hl. apply orb_false_iff in Hl as [Hc Hl]. rewrite str_app_cons. cbn [lines_of]. rewrite (IH Hl). cbn [fst snd].
    rewrite decide_False; [done|]. intros ->. by rewrite Ascii.eqb_refl in Hc.
Qed.

Lemma printable_line s : printable s → char_in "010"%char s = false.
Proof. intros Hs. apply Hs. by vm_compute. Qed.

(** Lines that were sent one after the other. *)
Definition sent_lines (ls : list string) : string := foldr (λ l rest, l +:+ String "010" rest) "" ls.

Lemma lines_of_no_feed s : char_in "010"%char s = false → lines_of s = ([], s).
Proof.
  induction s as [|c s IH]; [done|]. cbn [char_in]. intros [Hc Hs]%orb_false_iff. cbn [lines_of]. rewrite (IH Hs).
  rewrite decide_False; [done|]. intros ->. by rewrite Ascii.eqb_refl in Hc.
Qed.

Lemma lines_of_sent_rest ls rest :
  Forall (λ l, char_in "010"%char l = false) ls → char_in "010"%char rest = false → lines_of (sent_lines ls +:+ rest) = (ls, rest).
Proof.
  intros Hls Hr. induction Hls as [|l ls Hl _ IH]; [by apply lines_of_no_feed|]. cbn [sent_lines foldr]. fold (sent_lines ls).
  by rewrite str_app_assoc, str_app_cons, lines_of_line, IH.
Qed.

Lemma lines_of_sent ls : Forall (λ l, char_in "010"%char l = false) ls → lines_of (sent_lines ls) = (ls, "").
Proof. intros Hls. rewrite <- (str_app_nil_r (sent_lines ls)). by apply lines_of_sent_rest. Qed.

(** ** The event stream of a server *)

(** The token of an event: the content of the first choice's delta, or its
    text, when it is not empty. *)
Definition tokens_of (j : json) : list string :=
  match json_get j "choices" with
  | Some (JArr (choice :: _)) =>
      let token :=
        match json_get choice "delta" ≫= λ delta, json_get delta "content" with
        | Some (JStr content) => content
        | _ => match json_get choice "text" with Some (JStr text) => text | _ => "" end
        end in
      if str_empty token then [] else [token]
  | _ => []
  end.

Fixpoint spaces (n : nat) : string := match n with O => "" | S n => String " " (spaces n) end.

(** A line of an event stream and the tokens in it: an event, whose JSON text
    may have any layout and is not an error report; the end mark; or any other
    line (an empty one, a comment, another field).  A carriage return may come
    before the line feed. *)
Inductive server_line : string → list string → Prop :=
  | EventLine n text j cr :
      (cr = "" ∨ cr = String "013" "") → String.prefix " " text = false → str_back text ≠ Some "013"%char →
      parse text = Some (Ok j) → json_get j "error" = None →
      server_line ("data:" +:+ spaces n +:+ text +:+ cr) (tokens_of j)
  | DoneLine n cr : (cr = "" ∨ cr = String "013" "") → server_line ("data:" +:+ spaces n +:+ "[DONE]" +:+ cr) []
  | OtherLine l : str_take 5 l ≠ "data:" → server_line l [].

Lemma str_back_app s c : str_back (s +:+ String c "") = Some c.
Proof.
  induction s as [|d s IH]; [done|]. rewrite str_app_cons. destruct (s +:+ String c "") as [|e t] eqn:E; [by destruct s|]. exact IH.
Qed.

Lemma str_back_suffix s t : str_empty t = false → str_back (s +:+ t) = str_back t.
Proof.
  intros Ht. induction s as [|c s IH]; [done|]. rewrite str_app_cons. destruct (s +:+ t) as [|d r] eqn:E; [by destruct s, t|]. exact IH.
Qed.

Lemma str_pop_back_app s c : str_pop_back (s +:+ String c "") = s.
Proof.
  induction s as [|d s IH]; [done|]. rewrite str_app_cons. destruct (s +:+ String c "") as [|e t] eqn:E; [by destruct s|].
  change (str_pop_back (String d (String e t))) with (String d (str_pop_back (String e t))). by rewrite IH.
Qed.

(** The carriage return goes, and nothing else. *)
Lemma strip_cr_end s cr :
  (cr = "" ∨ cr = String "013" "") → str_back s ≠ Some "013"%char → strip_cr (s +:+ cr) = s.
Proof.
  intros [->| ->] Hs; unfold strip_cr.
  - rewrite str_app_nil_r. destruct (str_back s); [|done]. by rewrite decide_False by congruence.
  - by rewrite str_back_app, decide_True, str_pop_back_app.
Qed.

Lemma strip_cr_prefix l : str_take 5 (strip_cr l) = "data:" → str_take 5 l = "data:".
Proof.
  assert (∀ s t, str_take 5 s = "data:" → str_take 5 (s +:+ t) = "data:") as Htake
    by (intros [|c1 [|c2 [|c3 [|c4 [|c5 s]]]]] t; try discriminate; intros E; cbn in E; injection E as -> -> -> -> ->; done).
  assert (∀ s, s = "" ∨ ∃ t, s = str_pop_back s +:+ t) as Hpop.
  { intros s. induction s as [|c [|d s] IH]; [by left|right; by exists (String c "")|]. right. destruct IH as [|[t IH]]; [done|]. exists t.
    change (str_pop_back (String c (String d s))) with (String c (str_pop_back (String d s))). by rewrite str_app_cons, <- IH. }
  unfold strip_cr. destruct (str_back l); [|done]. destruct (decide _); [|done]. intros E. destruct (Hpop l) as [->|[t Et]]; [done|].
  rewrite Et. by apply Htake.
Qed.

Lemma skip_spaces n text : String.prefix " " text = false → skip_blanks (spaces n +:+ text) = text.
Proof.
  intros Hp. induction n as [|n IH]; cbn [spaces]; [|rewrite str_app_cons; exact IH]. change ("" +:+ text) with text.
  destruct text as [|c text]; [done|]. destruct c as [[] [] [] [] [] [] [] []]; try reflexivity. by destruct text.
Qed.

Lemma event_tokens j :
  json_get j "error" = None →
  match event_of_json (H := library_text) j with
  | EventError _ => False
  | EventNothing => tokens_of j = []
  | EventDelta delta => tokens_of j = [delta]
  end.
Proof.
  intros Herr. unfold event_of_json, tokens_of. rewrite Herr. destruct (json_get j "choices") as [[| | | | |[|choice l]|]|]; try done.
  cbv zeta. unfold delta_of_choice, json_string_value.
  destruct (json_get choice "delta") as [d|]; cbn [mbind option_bind]; [destruct (json_get d "content") as [[]|]|];
    destruct (json_get choice "text") as [[]|]; by destruct (str_empty _).
Qed.

(** The tokens of a line are sent on, and nothing else happens to the stream
    but that they are counted. *)
Definition passes_on (tokens : list string) (state : StreamState) (r : StreamState * list output_message) : Prop :=
  r.2 = delta_messages (st_req state) (st_index state) tokens ∧ st_req r.1 = st_req state ∧
  st_failed r.1 = st_failed state ∧ st_index r.1 = st_index state + Z.of_nat (length tokens).

Lemma nothing_passed state state' :
  st_req state' = st_req state → st_failed state' = st_failed state → st_index state' = st_index state → passes_on [] state (state', []).
Proof. intros Hr Hf Hi. split_and!; [done..|]. cbn [fst length]. lia. Qed.

Lemma payload_handled now state text :
  String.prefix " " text = false → str_back text ≠ Some "013"%char → ∀ n cr, (cr = "" ∨ cr = String "013" "") →
  handle_stream_line (H := library_text) now state (strip_cr ("data:" +:+ spaces n +:+ text +:+ cr)) =
  handle_stream_line (H := library_text) now state ("data:" +:+ text).
Proof.
  intros Hp Hb n cr Hcr. rewrite <- !str_app_assoc, strip_cr_end; [|done|].
  - unfold handle_stream_line. change (str_drop 5 (("data:" +:+ spaces n) +:+ text)) with (spaces n +:+ text).
    change (str_drop 5 ("data:" +:+ text)) with text. rewrite skip_spaces by done.
    assert (skip_blanks text = text) as -> by (exact (skip_spaces 0 text Hp)). done.
  - destruct text as [|c text]; [|by rewrite str_back_suffix]. rewrite str_app_nil_r. clear. induction n as [|n IH]; [done|].
    destruct n; [done|]. exact IH.
Qed.

Lemma server_line_handled now state l tokens :
  server_line l tokens → passes_on tokens state (handle_stream_line (H := library_text) now state (strip_cr l)).
Proof.
  destruct 1 as [n text j cr Hcr Hp Hb Hparse Herr|n cr Hcr|l Hl].
  - rewrite payload_handled by done. unfold handle_stream_line. change (str_take 5 ("data:" +:+ text)) with "data:".
    change (str_drop 5 ("data:" +:+ text)) with text. assert (skip_blanks text = text) as -> by (exact (skip_spaces 0 text Hp)).
    change (negb ("data:" =? "data:")%string) with false. cbv iota.
    destruct (String.eqb_spec text "[DONE]") as [->|_]; [vm_compute in Hparse; discriminate Hparse|].
    assert (json_parse (JsonText := library_text) text = Ok j) as -> by (cbn; by rewrite Hparse).
    pose proof (event_tokens j Herr) as Hev. destruct (event_of_json j) as [| |delta]; [done|rewrite Hev; by apply nothing_passed|].
    rewrite Hev. split_and!; [|done..]. unfold delta_messages. cbn [snd imap concat]. by rewrite Z.add_0_r, app_nil_r.
  - rewrite payload_handled by done. by apply nothing_passed.
  - unfold handle_stream_line. destruct (String.eqb_spec (str_take 5 (strip_cr l)) "data:") as [E%strip_cr_prefix|_]; [done|].
    by apply nothing_passed.
Qed.

Lemma server_lines_handled now lines tokens : Forall2 server_line lines tokens → ∀ state,
  passes_on (concat tokens) state (handle_lines (H := library_text) now lines state).
Proof.
  induction 1 as [|l ts lines tokens Hl _ IH]; intros state; [by apply nothing_passed|]. cbn [handle_lines concat].
  pose proof (server_line_handled now state l ts Hl) as (E & Hr & Hf & Hi). destruct (handle_stream_line _ _ _) as [state1 out]. cbn [fst snd] in *.
  destruct (IH state1) as (E' & Hr' & Hf' & Hi'). destruct (handle_lines _ _ _) as [state2 more]. cbn [fst snd] in *.
  split_and!; cbn [fst snd]; [|congruence..|rewrite length_app; lia]. by rewrite E, E', Hr, Hi, delta_messages_app.
Qed.

(** The stream, however it is cut into chunks. *)
Lemma event_stream_fed chunks lines rest tokens req begin_ms :
  Forall2 server_line lines tokens → Forall (λ l, char_in "010"%char l = false) lines → char_in "010"%char rest = false →
  bytes_of chunks = sent_lines lines +:+ rest →
  let '(state, out) := feed (H := library_text) chunks (new_stream_state req begin_ms) in
  out = delta_messages req 0 (concat tokens) ∧ st_failed state = false ∧ st_index state = Z.of_nat (length (concat tokens)).
Proof.
  intros Hl Hn Hrest Hb. set (s := new_stream_state req begin_ms).
  destruct (feed_bytes (H := library_text) 0 chunks s s (reflexivity _) eq_refl) as [Hs Ho]. rewrite Hb, write_stream_spec in Hs, Ho.
  change (st_buffer s +:+ ?t) with t in Hs, Ho. rewrite lines_of_sent_rest in Hs, Ho by done. cbn [fst snd] in Hs, Ho.
  destruct (server_lines_handled 0 lines tokens Hl (s <| st_buffer := rest |>)) as (E & _ & Hf & Hi).
  destruct (handle_lines _ _ _) as [s1 out1]. cbn [fst snd] in *.
  destruct (feed chunks s) as [s2 out2]. cbn [fst snd] in *. unfold same_stream in Hs. destruct s1, s2. cbn in *. injection Hs as. subst. done.
Qed.

(** ** What a client reads *)

(** Outputs, each sent at its time, delivered one after the other; an exception
    ends the sending. *)
Fixpoint deliver_outputs (g : bridge) (outputs : list (outside * output_message)) : result (list (nat * string)) :=
  match outputs with
  | [] => mret []
  | (o, m) :: outputs =>
      sent ← deliver_output (H0 := library_text) o m g;
      more ← deliver_outputs g outputs;
      mret (sent ++ more)
  end.

(** All the bytes on a connection. *)
Definition received (conn : nat) (sent : list (nat * string)) : string :=
  foldr (λ '(c, text) rest, if decide (c = conn) then text +:+ rest else rest) "" sent.

Lemma received_app conn l l' : received conn (l ++ l') = received conn l +:+ received conn l'.
Proof.
  induction l as [|[c text] l IH]; [done|]. unfold received in *. cbn [app foldr]. rewrite IH.
  destruct (decide (c = conn)); [by rewrite str_app_assoc|done].
Qed.

(** What a client reads on its connection is what was sent to it: the outputs
    leave as lines, one for each, whatever characters the texts in them have,
    and the text of each line is the JSON of its message. *)
Lemma bodies_received g url conn outputs :
  str_empty url = false → g_bound g !! url = Some conn → Forall (λ '(o, m), om_output_url m = url) outputs →
  Forall (λ '(o, m), clean (output_body o m) = true) outputs →
  ∃ sent ls, deliver_outputs g outputs = Ok sent ∧ lines_of (received conn sent) = (ls, "") ∧
    map parse ls = map (λ '(o, m), Some (Ok (output_body o m))) outputs.
Proof.
  intros Hne Hb Hurl Hs. assert (∃ sent ls, deliver_outputs g outputs = Ok sent ∧ received conn sent = sent_lines ls ∧
    Forall (λ l, char_in "010"%char l = false) ls ∧ map parse ls = map (λ '(o, m), Some (Ok (output_body o m))) outputs) as (sent & ls & E & Er & Hl & Hp).
  { induction outputs as [|[o m] outputs IH]; [by exists [], []|]. apply Forall_cons in Hurl as [Hm Hurl]. apply Forall_cons in Hs as [Hc Hs].
    destruct (IH Hurl Hs) as (sent & ls & E & Er & Hl & Hp). destruct (clean_json_text _ Hc) as (text & Hd & Hpr & Hparse).
    exists ((conn, text +:+ String "010" "") :: sent), (text :: ls). split_and!.
    - cbn [deliver_outputs]. unfold deliver_output. rewrite Hm, Hne. cbn [json_dump library_text]. rewrite Hd. cbn [mbind result_bind mret result_ret].
      unfold push_to. rewrite Hb, E. done.
    - change (?a :: sent) with ([a] ++ sent). rewrite received_app, Er. unfold received. cbn [foldr]. rewrite decide_True by done.
      cbn [sent_lines foldr]. by rewrite !str_app_assoc.
    - constructor; [by apply printable_line|done].
    - cbn [map]. by rewrite Hparse, Hp. }
  exists sent, ls. split_and!; [done| |done]. rewrite Er. by apply lines_of_sent.
Qed.

(** The texts of a request are UTF-8 and its numbers fit into their types. *)
Definition request_clean (req : InferenceRequest) : Prop :=
  Forall (λ s, utf8 s = true) [req_request_id req; req_work_id req; req_response_format req; req_action req; req_profile_name req;
    req_logical_model req; req_served_model req; req_endpoint_name req; req_degrade_reason req] ∧
  Forall (λ z, clean (JInt z) = true) [req_queue_wait_ms req; req_first_token_latency_ms req; req_total_latency_ms req; req_retry_count req].

(** What a message says of a token: its number, the text and whether it is the
    last. *)
Definition token_in (body : json) : option json * option json * option json :=
  let field k := json_get body "data" ≫= λ data, json_get data k in (field "index", field "delta", field "finish").

Definition token_json (token : Z * string * bool) : option json * option json * option json :=
  let '(index, delta, finish) := token in (Some (JInt index), Some (JStr delta), Some (JBool finish)).

(** Texts numbered from [first] on. *)
Definition numbered (first : Z) (texts : list string) : list (Z * string * bool) :=
  imap (λ i text, (first + Z.of_nat i, text, false)) texts.

Lemma clean_get j k v : clean j = true → json_get j k = Some v → clean v = true.
Proof. destruct j as [| | | | | |m]; try done. intros Hc%clean_object Hk. by destruct (Hc k v Hk). Qed.

Lemma tokens_of_utf8 j : clean j = true → Forall (λ d, utf8 d = true) (tokens_of j).
Proof.
  intros Hc. unfold tokens_of. destruct (json_get j "choices") as [[| | | | |[|choice l]|]|] eqn:E; try done. cbv zeta.
  apply (clean_get _ _ _ Hc) in E. apply clean_array, Forall_cons in E as [E _].
  assert (utf8 (match json_get choice "text" with Some (JStr s) => s | _ => "" end) = true) as Htext.
  { destruct (json_get choice "text") as [[]|] eqn:Et; try done. by apply (clean_get _ _ _ E) in Et. }
  destruct (str_empty _); [done|]. apply Forall_singleton. destruct (json_get choice "delta") as [d|] eqn:Ed; [|done].
  apply (clean_get _ _ _ E) in Ed. cbn [mbind option_bind].
  destruct (json_get d "content") as [[]|] eqn:Et; try done. by apply (clean_get _ _ _ Ed) in Et.
Qed.

Lemma server_line_utf8 l tokens : server_line l tokens → Forall (λ d, utf8 d = true) tokens.
Proof.
  destruct 1 as [n text j cr _ _ _ Hparse _|n cr _|l _]; [|done..]. apply tokens_of_utf8.
  destruct (parse_answers text) as (r & Hr & Hclean). apply Hclean. congruence.
Qed.

(** Objects made of given members. *)
Section bodies.

Lemma clean_insert k v (m : gmap string json) : utf8 k = true → clean v = true → clean (JObj m) = true → clean (JObj (<[k := v]> m)) = true.
Proof. rewrite !clean_object. intros Hk Hv Hm. by apply map_Forall_insert_2. Qed.

Lemma clean_members l : Forall (λ member : string * json, utf8 member.1 = true ∧ clean member.2 = true) l → clean (mk_obj l) = true.
Proof.
  intros Hl. unfold mk_obj. induction Hl as [|[k v] l [Hk Hv] _ IH]; [done|]. by apply clean_insert.
Qed.

Lemma clean_str s : utf8 s = true → clean (JStr s) = true.
Proof. done. Qed.

Lemma clean_bool b : clean (JBool b) = true.
Proof. done. Qed.

Ltac members := repeat first [apply Forall_nil_2 | apply Forall_cons_2; [split; [vm_compute; reflexivity|]|]].
Hint Resolve clean_str clean_bool : wire.

Lemma delta_fields_clean req delta finish index :
  request_clean req → utf8 delta = true → clean (JInt index) = true → clean (JObj (delta_fields req delta finish index)) = true.
Proof.
  intros [Hs Hz] Hd Hi. rewrite !Forall_cons in Hs. rewrite !Forall_cons in Hz. destruct_and!. unfold delta_fields.
  set (base := list_to_map _ : gmap string json). assert (clean (JObj base) = true) as Hbase.
  { apply clean_members. members; cbn [fst snd]; auto with wire; [by destruct finish|by destruct (str_empty _)]. }
  clearbody base. cbv zeta. destruct finish, (str_empty (req_degrade_reason req)); cbn [negb];
    repeat (apply clean_insert; [vm_compute; reflexivity|by auto with wire|]); done.
Qed.

Lemma delta_fields_token req delta finish index :
  delta_fields req delta finish index !! "index" = Some (JInt index) ∧
  delta_fields req delta finish index !! "delta" = Some (JStr (if finish then "" else delta)) ∧
  delta_fields req delta finish index !! "finish" = Some (JBool finish).
Proof.
  unfold delta_fields. set (base := list_to_map _ : gmap string json).
  assert (base !! "index" = Some (JInt index) ∧ base !! "delta" = Some (JStr (if finish then "" else delta)) ∧
    base !! "finish" = Some (JBool finish)) as (H1 & H2 & H3) by done.
  clearbody base. cbv zeta. destruct finish, (str_empty (req_degrade_reason req)); cbn [negb]; by rewrite ?lookup_insert_ne by done.
Qed.

(** A message with a token, whose body has a text. *)
Definition token_message (req : InferenceRequest) (token : Z * string * bool) (m : output_message) : Prop :=
  om_output_url m = req_output_url req ∧
  ∀ o, clean (JInt (o_time o)) = true → clean (output_body o m) = true ∧
    json_get (output_body o m) "request_id" = Some (JStr (req_request_id req)) ∧ token_in (output_body o m) = token_json token.

Lemma emit_delta_message req delta finish index :
  request_clean req → req_enoutput req = true → utf8 delta = true → clean (JInt index) = true →
  ∃ m, emit_delta req delta finish index = [m] ∧ token_message req (index, if finish then "" else delta, finish) m.
Proof.
  intros Hr Ho Hd Hi. unfold emit_delta. rewrite Ho. eexists. split; [reflexivity|]. split; [done|]. intros o Ht. split_and!; [|done|].
  - pose proof (delta_fields_clean req delta finish index Hr Hd Hi) as Hf. destruct Hr as [Hs _]. rewrite !Forall_cons in Hs. destruct_and!.
    unfold output_body, message_body, error_json. cbn [om_request_id om_work_id om_object om_data om_error_code om_error_message].
    apply clean_members. members; cbn [fst snd]; auto with wire.
  - unfold token_in. change (json_get (output_body o ?m) "data") with (Some (om_data m)). cbn [mbind option_bind json_get om_data].
    destruct (delta_fields_token req delta finish index) as (-> & -> & ->). done.
Qed.

Lemma clean_index z : 0 <= z < 2 ^ 31 → clean (JInt z) = true.
Proof. intros Hz. cbn [clean]. apply andb_true_iff. split; [apply Z.leb_le|apply Z.ltb_lt]; lia. Qed.

Lemma delta_messages_read req deltas : ∀ first,
  request_clean req → req_enoutput req = true → Forall (λ d, utf8 d = true) deltas → 0 <= first → first + Z.of_nat (length deltas) < 2 ^ 31 →
  Forall2 (token_message req) (numbered first deltas) (delta_messages req first deltas).
Proof.
  induction deltas as [|d deltas IH]; intros first Hr Ho Hd Hf Hlt; [constructor|]. apply Forall_cons in Hd as [Hd Hds]. cbn [length] in Hlt.
  change (d :: deltas) with ([d] ++ deltas). rewrite delta_messages_app. unfold delta_messages at 1. cbn [imap concat]. rewrite app_nil_r.
  destruct (emit_delta_message req d false (first + Z.of_nat 0) Hr Ho Hd) as (m & -> & Hm); [apply clean_index; lia|].
  unfold numbered. cbn [app imap]. constructor; [done|].
  assert (imap ((λ (i : nat) text, (first + Z.of_nat i, text, false)) ∘ S) deltas = numbered (first + 1) deltas) as ->.
  { apply imap_ext. intros i x _. cbn [compose]. f_equal. f_equal. lia. }
  apply IH; cbn [length]; [done..|lia|lia].
Qed.
End bodies.

(** The reply of a server that streams events. *)
Lemma reply_streamed begin_ms msg started req lines rest tokens chunks code end_ms :
  http_status_ok code = true → req_enstream req = true →
  Forall2 server_line lines tokens → Forall (λ l, char_in "010"%char l = false) lines → char_in "010"%char rest = false →
  bytes_of chunks = sent_lines lines +:+ rest →
  let o := read_reply (H := library_text) (MkHttpReply true chunks None code end_ms) begin_ms msg started req in
  co_ok o = true ∧ (req_output_url (co_req o) = req_output_url req ∧ req_request_id (co_req o) = req_request_id req) ∧
  req_enoutput (co_req o) = req_enoutput req ∧
  co_output o = delta_messages req 0 (concat tokens) ++ emit_delta (co_req o) "" true (Z.of_nat (length (concat tokens))).
Proof.
  intros Hcode Hstr Hl Hn Hrest Hb. cbv zeta. unfold read_reply. rewrite Hstr. cbn [hr_init negb hr_chunks].
  pose proof (event_stream_fed chunks lines rest tokens req begin_ms Hl Hn Hrest Hb) as Hfed.
  destruct (feed chunks _) as [state out]. destruct Hfed as (-> & Hf & Hi).
  cbn [hr_error hr_http_code]. rewrite Hcode. cbn [negb]. rewrite Hf, Hi. done.
Qed.

(** Messages with tokens, sent at any time. *)
Lemma token_outputs_read req tokens outputs :
  Forall2 (token_message req) tokens (map snd outputs) → Forall (λ '(o, m), clean (JInt (o_time o)) = true) outputs →
  Forall (λ '(o, m), om_output_url m = req_output_url req) outputs ∧ Forall (λ '(o, m), clean (output_body o m) = true) outputs ∧
  Forall (λ body, json_get body "request_id" = Some (JStr (req_request_id req))) (map (λ '(o, m), output_body o m) outputs) ∧
  map (λ '(o, m), token_in (output_body o m)) outputs = map token_json tokens.
Proof.
  revert tokens. induction outputs as [|[o m] outputs IH]; intros tokens Hd Ht; cbn [map snd] in Hd.
  - by apply Forall2_nil_inv_r in Hd as ->.
  - apply Forall2_cons_inv_r in Hd as (d & tokens' & [Hu Hm] & Hd & ->). apply Forall_cons in Ht as [Ht Hts].
    destruct (Hm o Ht) as (Hs & Hid & Htoken). destruct (IH tokens' Hd Hts) as (H1 & H2 & H3 & H4). split_and!; [by constructor..|].
    cbn [map]. by rewrite Htoken, H4.
Qed.

(** ** From a unit to the table of the manager *)

(** A text without characters that JSON escapes. *)
Fixpoint unescaped (s : string) : bool :=
  match s with
  | EmptyString => true
  | String c s => (escape_char c =? String c "")%string && unescaped s
  end.

Definition plain (s : string) : bool := utf8 s && unescaped s.

Lemma unescaped_escape s : unescaped s = true → escape s = s.
Proof.
  induction s as [|c s IH]; [done|]. cbn [unescaped escape]. intros [Hc Hs]%andb_true_iff. apply String.eqb_eq in Hc as ->. by rewrite IH.
Qed.

Lemma unescaped_no_char c s : unescaped s = true → escape_char c ≠ String c "" → char_in c s = false.
Proof.
  intros Hs Hc. induction s as [|d s IH]; [done|]. cbn [unescaped char_in] in *. apply andb_true_iff in Hs as [Hd Hs].
  rewrite (IH Hs), orb_false_r. destruct (Ascii.eqb_spec c d) as [->|]; [|done]. by apply String.eqb_eq in Hd.
Qed.

(** The request of [sys_sql_set]. *)
Definition set_request (key val : string) : string :=
  "{" +:+ quoted "key" +:+ String ":" (String quote (key +:+ String quote ("," +:+ quoted "val" +:+ String ":" (String quote (val +:+ String quote "}"))))).

Lemma plain_member k v :
  plain k = true → plain v = true → dump_member (k, dump (JStr v)) = Ok (in_quotes k +:+ ":" +:+ in_quotes v).
Proof.
  intros [Hk Ek]%andb_true_iff [Hv Ev]%andb_true_iff. apply dump_member_text. split; [done|]. exists (in_quotes v). cbn [fst snd dump].
  rewrite dump_escaped_spec, Hv, (unescaped_escape k Ek), (unescaped_escape v Ev). done.
Qed.

Lemma set_request_text key val :
  plain key = true → plain val = true → dump (mk_obj [("key", JStr key); ("val", JStr val)]) = Ok (set_request key val).
Proof.
  intros Hk Hv. assert (∀ a b : result string, merge_sort (rel_of by_key) [("key", a); ("val", b)] = [("key", a); ("val", b)] ∧
    merge_sort (rel_of by_key) [("val", b); ("key", a)] = [("key", a); ("val", b)]) as Hsort by (intros; by vm_compute).
  unfold mk_obj. set (m := list_to_map _ : gmap string json). cbn [dump]. unfold dump_object. rewrite dumped_members.
  assert (merge_sort (rel_of by_key) (prod_map id dump <$> map_to_list m) = [("key", dump (JStr key)); ("val", dump (JStr val))]) as ->.
  { assert (map_to_list m = [("key", JStr key); ("val", JStr val)] ∨ map_to_list m = [("val", JStr val); ("key", JStr key)]) as [-> | ->]
      by (first [left; by vm_compute|right; by vm_compute]); [exact (proj1 (Hsort (dump (JStr key)) (dump (JStr val))))|
      exact (proj2 (Hsort (dump (JStr key)) (dump (JStr val))))]. }
  cbn [mapM]. rewrite (plain_member "key" key eq_refl Hk), (plain_member "val" val eq_refl Hv). cbn [mbind result_bind mret result_ret String.concat].
  unfold set_request, quoted, in_quotes. repeat (rewrite str_app_cons || rewrite str_app_assoc). reflexivity.
Qed.

(** Searching a quoted word. *)
Lemma find_step needle c s : String.prefix needle (String c s) = false → str_find needle (String c s) = S <$> str_find needle s.
Proof. intros Hp. unfold str_find. cbn [String.index]. rewrite Hp. by destruct (String.index 0 needle s). Qed.

Lemma find_skip word s rest :
  char_in quote s = false → str_find (quoted word) (s +:+ rest) = Nat.add (String.length s) <$> str_find (quoted word) rest.
Proof.
  induction s as [|c s IH]; intros Hs; [cbn [String.length]; change ("" +:+ rest) with rest; by destruct (str_find _ rest)|].
  cbn [char_in] in Hs. apply orb_false_iff in Hs as [Hc Hs]. rewrite str_app_cons, find_step, (IH Hs).
  - by destruct (str_find _ rest).
  - unfold quoted. cbn [String.prefix]. destruct (ascii_dec quote c) as [<-|]; [by rewrite Ascii.eqb_refl in Hc|done].
Qed.

(** A quoted word without quotes matches only itself. *)
Lemma prefix_quoted word s rest :
  char_in quote word = false → char_in quote s = false → s ≠ word →
  String.prefix (word +:+ String quote "") (s +:+ String quote rest) = false.
Proof.
  revert s. induction word as [|c word IH]; intros s Hw Hs Hne.
  - destruct s as [|d s]; [done|]. cbn [char_in] in Hs. apply orb_false_iff in Hs as [Hd _]. change ("" +:+ ?r) with r. rewrite str_app_cons. cbn [String.prefix].
    destruct (ascii_dec quote d) as [<-|]; [by rewrite Ascii.eqb_refl in Hd|done].
  - cbn [char_in] in Hw. apply orb_false_iff in Hw as [Hc Hw]. rewrite str_app_cons. destruct s as [|d s].
    + change ("" +:+ ?r) with r. cbn [String.prefix]. destruct (ascii_dec c quote) as [->|]; [by rewrite Ascii.eqb_refl in Hc|done].
    + cbn [char_in] in Hs. apply orb_false_iff in Hs as [_ Hs]. rewrite str_app_cons. cbn [String.prefix]. destruct (ascii_dec c d) as [->|]; [|done].
      apply IH; [done..|]. by intros ->.
Qed.

Lemma plain_no_quote s : plain s = true → char_in quote s = false ∧ str_back s ≠ Some backslash.
Proof.
  intros [_ Hs]%andb_true_iff. split; [by apply unescaped_no_char|].
  assert (char_in backslash s = false) as Hb by (by apply unescaped_no_char). revert Hb. clear. induction s as [|c [|d s] IH]; [done|..].
  - cbn. rewrite orb_false_r. by intros Hc [= ->].
  - cbn [char_in]. intros [_ Hb]%orb_false_iff. by apply IH.
Qed.

Lemma find_val key rest :
  char_in quote key = false → key ≠ "val" →
  str_find (quoted "val") ("{" +:+ quoted "key" +:+ String ":" (String quote (key +:+ String quote (String "," (quoted "val" +:+ rest))))) =
    Some (10 + String.length key)%nat.
Proof.
  intros Hq Hne. change ("{" +:+ quoted "key" +:+ ?r) with (String "{" (String quote (String "k" (String "e" (String "y" (String quote r)))))).
  rewrite !(find_step _ _ (String _ _)) by reflexivity. rewrite find_step; [|by apply (prefix_quoted "val")].
  rewrite (find_skip "val" key), find_step, find_step by done.
  assert (str_find (quoted "val") (quoted "val" +:+ rest) = Some O) as -> by (unfold str_find; cbn; by destruct rest). cbn. f_equal. lia.
Qed.

Lemma set_request_read key val :
  plain key = true → plain val = true → key ≠ "val" →
  sample_json_str_get (set_request key val) "key" = key ∧ sample_json_str_get (set_request key val) "val" = val.
Proof.
  intros [Hkq Hkb]%plain_no_quote [Hvq Hvb]%plain_no_quote Hne. split.
  - apply (scan_string_member "{" "key" key); [|done..]. vm_compute. reflexivity.
  - set (pre := "{" +:+ quoted "key" +:+ String ":" (String quote (key +:+ String quote ","))).
    set (rest := String ":" (String quote (val +:+ String quote "}"))).
    assert (∀ tail, pre +:+ tail = "{" +:+ quoted "key" +:+ String ":" (String quote (key +:+ String quote (String "," tail)))) as Hpre.
    { intros tail. subst pre. repeat (rewrite str_app_cons || rewrite str_app_assoc). reflexivity. }
    assert (set_request key val = pre +:+ quoted "val" +:+ rest) as -> by (by rewrite Hpre).
    apply scan_string_member; [|done..]. fold rest. rewrite Hpre, find_val by done. f_equal. subst pre. unfold quoted. repeat (rewrite str_length_app || cbn [String.length]). lia.
Qed.

(** ** Properties *)


(** The table of the manager keeps what a unit puts there, end to end: the
    request is printed by the JSON library and read by the scanner of the
    manager, for every non-empty key but [val] and every value, when neither
    has a character that JSON escapes; after the key is unset it is gone. *)
Theorem table_keeps_values key val (m : manager) :
  plain key = true → plain val = true → str_empty key = false → key ≠ "val" →
  ∃ m', sys_sql_set (H := library_text) key val m = Ok m' ∧
    sys_sql_select key m' = val ∧ sys_sql_select key (sys_sql_unset key m') = "".
Proof.
  intros Hk Hv Hne Hval. destruct (set_request_read key val Hk Hv Hval) as [Ek Ev].
  by apply (sql_set_select (H := library_text) key val (set_request key val)); [done|apply set_request_text|..].
Qed.

(** What the scanner of the manager does not read back: a key named [val], a
    value that ends in a backslash, and a quote, which keeps its backslash. *)
Theorem table_damages_values :
  let read key val := text ← dump (mk_obj [("key", JStr key); ("val", JStr val)]); mret (sample_json_str_get text "val") in
  read "val" "x" = Ok "" ∧ read "path" "C:\" = Ok "" ∧ read "word" (String quote "") = Ok (String backslash (String quote "")).
Proof. vm_compute. done. Qed.

(** *** Error pages that are not UTF-8 *)

Lemma encodable_member m k v : m !! k = Some v → encodable v = false → encodable (JObj m) = false.
Proof.
  intros Hk Hv. rewrite encodable_object. apply not_true_iff_false. intros Hall. rewrite forallb_forall in Hall.
  specialize (Hall (k, v)). cbn [fst snd] in Hall. rewrite Hv, andb_false_r in Hall. by discriminate Hall; apply list_elem_of_In, elem_of_map_to_list.
Qed.

Lemma ascii_run s : (∀ c, char_in c s = true → byte_value c <= 0x7F) → utf8_run [] s = Some [].
Proof.
  induction s as [|c s IH]; intros Hs; [done|]. cbn [utf8_run].
  assert (∀ z, 0 <= z < Z.of_nat 128 → bool_decide (utf8_next [] z = Some []) = true) as Hb by (apply check_range; vm_compute; reflexivity).
  pose proof (byte_value_range c). pose proof (Hs c) as Hc. cbn [char_in] in Hc. rewrite Ascii.eqb_refl in Hc. specialize (Hc eq_refl).
  specialize (Hb (byte_value c) ltac:(lia)). apply bool_decide_eq_true in Hb as ->. cbn [mbind option_bind]. apply IH.
  intros d Hd. apply Hs. cbn [char_in]. by rewrite Hd, orb_true_r.
Qed.

Lemma numeral_run z : utf8_run [] (to_string z) = Some [].
Proof.
  apply ascii_run. intros c Hc. destruct (is_digit c) eqn:Ed; [|destruct (Ascii.eqb_spec c "-") as [->|Hne]; [by vm_compute|by rewrite to_string_no_char in Hc]].
  assert (implb (is_digit c) (byte_value c <=? 0x7F) = true) as Hcheck by (clear; revert c; apply check_bytes; by vm_compute).
  rewrite Ed in Hcheck. by apply Z.leb_le in Hcheck.
Qed.

(** A server that refuses a request with a page that is not UTF-8 (a proxy with
    another encoding, a compressed page) makes the call fail with this page in
    the message, and the printing of the error for the client throws: in a
    worker, outside of any handler. *)
Theorem error_page_throws (http : http_client) c begin_ms ep msg started req request chunks code end_ms :
  vllm_http_request (H := library_text) c ep req = Ok request →
  http request = MkHttpReply true chunks None code end_ms → http_status_ok code = false →
  req_enstream req = false → utf8 (response_body (MkHttpReply true chunks None code end_ms)) = false →
  ∃ o, call_vllm (H := library_text) http c begin_ms ep msg started req = Ok o ∧ co_ok o = false ∧
  ∀ out error_code m, m ∈ emit_error (co_req o) error_code (co_error_message o) → dump (output_body out m) = Throw "type_error.316".
Proof.
  intros Hreq Hhttp Hcode Hstr Hbody. unfold call_vllm. rewrite Hreq. cbn [mbind result_bind mret result_ret]. eexists. split; [reflexivity|].
  rewrite Hhttp. unfold read_reply. rewrite Hstr. cbn [hr_init negb hr_error hr_http_code]. rewrite Hcode. cbn [negb].
  set (body := response_body _) in *. split; [done|]. intros out error_code m Hm. unfold emit_error in Hm. apply list_elem_of_singleton in Hm as ->.
  assert (utf8 ("HTTP " +:+ to_string code +:+ ": " +:+ body) = false) as Hbad.
  { unfold utf8 in *. apply bool_decide_eq_false in Hbody. apply bool_decide_eq_false.
    rewrite utf8_run_app. change (utf8_run [] "HTTP ") with (Some ([] : list (Z * Z))). cbn [mbind option_bind].
    rewrite utf8_run_app, numeral_run. cbn [mbind option_bind]. rewrite utf8_run_app. exact Hbody. }
  destruct (dump_or_throw (output_body out (MkOutputMessage (req_request_id req) (req_work_id req) (req_output_url req) "None" (JStr "None")
    error_code ("HTTP " +:+ to_string code +:+ ": " +:+ body)))) as [text E].
  etrans; [exact E|]. clear E.
  assert (∀ o m, encodable (error_json (om_error_code m) (om_error_message m)) = false → encodable (output_body o m) = false) as Henc
    by (intros o m; by apply (encodable_member _ "error")).
  rewrite Henc; [done|]. by apply (encodable_member _ "message" (JStr ("HTTP " +:+ to_string code +:+ ": " +:+ body))).
Qed.

(** *** A setup whose answer cannot be printed *)

(** A setup with data that is no JSON, under a request id that is not UTF-8:
    printing the error throws before the registration is released, the
    exception ends the unit, and the manager keeps the registration. *)
Lemma refused_setup_keeps_registration :
  let raw := "{" +:+ quoted "request_id" +:+ ":" +:+ quoted (String "255" "") +:+ "," +:+ quoted "data" +:+ ":" +:+ quoted "nothing" +:+ "}" in
  match system_setup (H0 := library_text) quiet_outside "ipc:///tmp/llm/8000.sock" raw idle_system with
  | Ok _ => False
  | Throw what => what = "type_error.316"
  end ∧
  match rpc_allocate_unit "llm" idle_manager with
  | Ok (m, _) => ∃ v, live m "llm.0" v
  | Throw _ => False
  end.
Proof. vm_compute. split; [reflexivity|eexists; reflexivity]. Qed.

(** ** A concrete stream *)

(** Two events in different layouts, a comment, an event without a token, and
    the end mark; lines with and without a carriage return, and the beginning
    of a line that never ends. *)
Definition first_event : string :=
  "{ " +:+ quoted "id" +:+ ": " +:+ quoted "c1" +:+ ", " +:+ quoted "choices" +:+ " : [ {" +:+ quoted "delta" +:+ ": {" +:+
  quoted "content" +:+ ": " +:+ quoted "Hel\u006co" +:+ "} } ] }".
Definition second_event : string := "{" +:+ quoted "choices" +:+ ":[{" +:+ quoted "text" +:+ ":" +:+ quoted "\nworld" +:+ "}]}".
Definition silent_event : string := "{" +:+ quoted "choices" +:+ ":[]}".

Definition sample_lines : list string :=
  ["data:" +:+ spaces 2 +:+ first_event +:+ String "013" ""; ": ping"; "data:" +:+ spaces 0 +:+ second_event +:+ "";
   "data:" +:+ spaces 1 +:+ silent_event +:+ ""; ""; "data:" +:+ spaces 1 +:+ "[DONE]" +:+ String "013" ""].

Definition sample_tokens : list (list string) := [["Hello"]; []; [String "010" "world"]; []; []; []].

Definition sample_stream : string := sent_lines sample_lines +:+ "dat".

(** Cut inside the first event. *)
Definition sample_chunks : list (Z * string) := [(3, str_take 20 sample_stream); (5, str_drop 20 sample_stream)].

Definition parsed_text (text : string) : json := match parse text with Some (Ok j) => j | _ => JNull end.

Lemma sample_lines_read : Forall2 server_line sample_lines sample_tokens.
Proof.
  assert (∀ n text cr, (cr = "" ∨ cr = String "013" "") → String.prefix " " text = false → str_back text ≠ Some "013"%char →
    parse text = Some (Ok (parsed_text text)) → json_get (parsed_text text) "error" = None → ∀ tokens, tokens_of (parsed_text text) = tokens →
    server_line ("data:" +:+ spaces n +:+ text +:+ cr) tokens) as Hev by (intros n text cr ? ? ? ? ? ? <-; by apply EventLine).
  repeat apply Forall2_cons_2; [|apply OtherLine; vm_compute; discriminate|..|apply OtherLine; vm_compute; discriminate|
    apply DoneLine; by right|apply Forall2_nil_2].
  - apply Hev; [by right|vm_compute; first [reflexivity|discriminate]..].
  - apply Hev; [by left|vm_compute; first [reflexivity|discriminate]..].
  - apply Hev; [by left|vm_compute; first [reflexivity|discriminate]..].
Qed.

Definition sample_request : InferenceRequest := default_request <| req_output_url := "ipc:///tmp/llm/8000.sock" |>.

Definition sample_call : call_outcome :=
  read_reply (H := library_text) (MkHttpReply true sample_chunks None 200 50) 0 "" false sample_request.

Definition sample_outputs : list (outside * output_message) :=
  map (λ m, (MkOutside 1700000000 0 (λ _, "") (0, 0) (λ _, false), m)) (co_output sample_call).

Definition sample_bridge : bridge := MkBridge 8001 ∅ {["ipc:///tmp/llm/8000.sock" := 7%nat]}.

