(* ===== verification/Pzmq.v ===== *)
(** * Message sockets

    The life of a [pzmq] object ([hybrid-comm/include/pzmq.hpp]): its two
    constructors, the creation of the socket for each mode, the close and the
    destructor, the thread that receives messages, and a whole remote call
    ([call_rpc_action] with the socket it opens and closes).

    ZeroMQ is outside the sources.  The world holds the contexts and sockets
    that are open and the files of the ipc endpoints: binding an ipc address
    makes its file, and closing a socket that is not open is an error that
    the world remembers.  The results of [zmq_bind] and [zmq_connect] and what
    arrives are arguments. *)
From S2P Require Import Prelude StdString Doubles Json Observability Metrics Types Endpoint Queue Records Config Stream Task Util Framing Manager Session System Rpc.

(** ** The world *)

Record zmq_world := MkWorld {
  w_next : nat;
  w_contexts : gset nat;
  w_sockets : gset nat;
  w_files : gset string;
  w_misused : bool;
}.
#[export] Instance eta_world : Eta zmq_world := fun w =>
  MkWorld (w_next w) (w_contexts w) (w_sockets w) (w_files w) (w_misused w).

Definition zmq_ctx_new (w : zmq_world) : zmq_world * nat :=
  (w <| w_next := S (w_next w) |> <| w_contexts := {[w_next w]} ∪ w_contexts w |>, w_next w).

Definition zmq_socket (w : zmq_world) : zmq_world * nat :=
  (w <| w_next := S (w_next w) |> <| w_sockets := {[w_next w]} ∪ w_sockets w |>, w_next w).

Definition zmq_close (socket : nat) (w : zmq_world) : zmq_world :=
  if decide (socket ∈ w_sockets w) then w <| w_sockets := w_sockets w ∖ {[socket]} |> else w <| w_misused := true |>.

Definition zmq_ctx_destroy (context : nat) (w : zmq_world) : zmq_world :=
  if decide (context ∈ w_contexts w) then w <| w_contexts := w_contexts w ∖ {[context]} |> else w <| w_misused := true |>.

(** The file of an ipc address. *)
Definition ipc_file (url : string) : option string :=
  if (str_take 6 url =? "ipc://")%string then Some (str_drop 6 url) else None.

(** A bind with result 0 makes the file. *)
Definition zmq_bind (result : Z) (url : string) (w : zmq_world) : zmq_world :=
  if result =? 0 then
    match ipc_file url with Some file => w <| w_files := {[file]} ∪ w_files w |> | None => w end
  else w.

(** ** The object *)

Inductive zmq_mode := ZMQ_PUB | ZMQ_SUB | ZMQ_PUSH | ZMQ_PULL | ZMQ_RPC_FUN | ZMQ_RPC_CALL.

#[export] Instance zmq_mode_eq_dec : EqDecision zmq_mode.
Proof. solve_decision. Defined.

Record pzmq := MkPzmq {
  rpc_url_head_ : string;
  pz_handles : option (nat * nat);
  pz_mode : zmq_mode;
  rpc_server_ : string;
  zmq_url_ : string;
  flage_ : bool;
  zmq_thread_ : bool;
  timeout_ : Z;
}.
#[export] Instance eta_pzmq : Eta pzmq := fun p =>
  MkPzmq (rpc_url_head_ p) (pz_handles p) (pz_mode p) (rpc_server_ p) (zmq_url_ p) (flage_ p) (zmq_thread_ p) (timeout_ p).

Definition rpc_url_head_length : nat := 6.
Definition default_head : string := "ipc:///tmp/rpc.".

Definition is_bind (p : pzmq) : bool := match pz_mode p with ZMQ_PUB | ZMQ_PULL | ZMQ_RPC_FUN => true | _ => false end.

(** [pzmq(server)]: no socket yet.  The mode is not set before the first use;
    any value will do. *)
Definition new_rpc (server : string) : pzmq :=
  MkPzmq (if str_contains server "://" then "" else default_head) None ZMQ_RPC_CALL server "" true false 3000.

Definition set_timeout (ms : Z) (p : pzmq) : pzmq := p <| timeout_ := ms |>.
Definition get_timeout (p : pzmq) : Z := timeout_ p.

(** What ZeroMQ answers when the socket is set up. *)
Record zmq_answers := MkZmqAnswers {
  za_bind : Z;
  za_connect : Z;
}.

(** The thread is started with the flag down. *)
Definition start_thread (p : pzmq) : pzmq := p <| flage_ := false |> <| zmq_thread_ := true |>.

(** [creat_pub], [creat_push], [creat_pull], [subscriber_url], [creat_rep] and
    [creat_req]: the object, the world and the result. *)
Definition creat_pub (za : zmq_answers) (url : string) (p : pzmq) (w : zmq_world) : pzmq * zmq_world * Z :=
  (p, zmq_bind (za_bind za) url w, za_bind za).
Definition creat_push (za : zmq_answers) (p : pzmq) (w : zmq_world) : pzmq * zmq_world * Z := (p, w, za_connect za).
Definition creat_pull (za : zmq_answers) (url : string) (p : pzmq) (w : zmq_world) : pzmq * zmq_world * Z :=
  (start_thread p, zmq_bind (za_bind za) url w, za_bind za).
Definition subscriber_url (za : zmq_answers) (p : pzmq) (w : zmq_world) : pzmq * zmq_world * Z := (start_thread p, w, za_connect za).
Definition creat_rep (za : zmq_answers) (url : string) (p : pzmq) (w : zmq_world) : pzmq * zmq_world * Z :=
  (start_thread p, zmq_bind (za_bind za) url w, za_bind za).

(** [url.substr(rpc_url_head_length)]. *)
Definition socket_file (url : string) : result string :=
  if (String.length url <? rpc_url_head_length)%nat then Throw "out_of_range" else Ok (str_drop rpc_url_head_length url).

Definition creat_req (za : zmq_answers) (url : string) (p : pzmq) (w : zmq_world) : result (pzmq * zmq_world * Z) :=
  if negb (str_empty (rpc_url_head_ p)) then
    file ← socket_file url;
    mret (if decide (file ∈ w_files w) then (p, w, za_connect za) else (p, w, -1))
  else mret (p, w, za_connect za).

Definition creat (za : zmq_answers) (url : string) (p : pzmq) (w : zmq_world) : result (pzmq * zmq_world * Z) :=
  let p := p <| zmq_url_ := url |> in
  let '(w, context) := zmq_ctx_new w in
  let '(w, socket) := zmq_socket w in
  let p := p <| pz_handles := Some (context, socket) |> in
  match pz_mode p with
  | ZMQ_PUB => mret (creat_pub za url p w)
  | ZMQ_SUB => mret (subscriber_url za p w)
  | ZMQ_PUSH => mret (creat_push za p w)
  | ZMQ_PULL => mret (creat_pull za url p w)
  | ZMQ_RPC_FUN => mret (creat_rep za url p w)
  | ZMQ_RPC_CALL => creat_req za url p w
  end.

(** [pzmq(url, mode, raw_call)]; [url] has to have a first character. *)
Definition new_pzmq (za : zmq_answers) (url : string) (mode : zmq_mode) (w : zmq_world) : result (pzmq * zmq_world) :=
  match url with
  | EmptyString => Throw "undefined: url[1] of an empty string"
  | String c rest =>
      let second := match rest with String d _ => d | EmptyString => "000"%char end in
      let head := if negb (c =? "i")%char && negb (second =? "p")%char then "" else default_head in
      let p := MkPzmq head None mode "" "" true false 3000 in
      if decide (mode = ZMQ_RPC_FUN) then mret (p, w) else '(p, w, _) ← creat za url p w; mret (p, w)
  end.

(** [close_zmq]. *)
Definition close_zmq (p : pzmq) (w : zmq_world) : result (pzmq * zmq_world) :=
  let w := match pz_handles p with Some (context, socket) => zmq_ctx_destroy context (zmq_close socket w) | None => w <| w_misused := true |> end in
  w ← (if is_bind p && negb (str_empty (rpc_url_head_ p)) then
         file ← socket_file (zmq_url_ p); mret (w <| w_files := w_files w ∖ {[file]} |>)
       else mret w);
  mret (p <| pz_handles := None |>, w).

(** [~pzmq]; [polling] says whether the thread of a PULL socket waits in
    [zmq_poll], which fails when the context is shut down: the thread then
    closes the socket itself. *)
Definition destroy_pzmq (polling : bool) (p : pzmq) (w : zmq_world) : result (pzmq * zmq_world) :=
  match pz_handles p with
  | None => mret (p, w)
  | Some (context, socket) =>
      let p := p <| flage_ := true |> in
      let w := if zmq_thread_ p && polling && bool_decide (pz_mode p = ZMQ_PULL) then zmq_close socket w else w in
      close_zmq p w
  end.

(** The first action of a server object opens its socket. *)
Definition open_server (za : zmq_answers) (p : pzmq) (w : zmq_world) : result (pzmq * zmq_world * Z) :=
  creat za (rpc_url_head_ p +:+ rpc_server_ p) (p <| pz_mode := ZMQ_RPC_FUN |>) w.

(** [call_rpc_action] with its socket: the result, what the callback gets if it
    is called, and what is left.  [reply] is what arrives in time; without it
    the callback gets an empty message.  On an object whose socket is open the
    result would be read without having been set. *)
Definition rpc_call (za : zmq_answers) (reply : option string) (p : pzmq) (w : zmq_world) : result (pzmq * zmq_world * Z * option string) :=
  match pz_handles p with
  | Some _ => Throw "undefined: uninitialized ret"
  | None =>
      if str_empty (rpc_server_ p) then mret (p, w, -1, None)
      else
        '(p, w, ret) ← creat za (rpc_url_head_ p +:+ rpc_server_ p) (p <| pz_mode := ZMQ_RPC_CALL |>) w;
        let got := if negb (ret =? 0) then None else Some (default "" reply) in
        '(p, w) ← close_zmq p w;
        mret (p, w, ret, got)
  end.

(** ** Receiving *)

(** One turn of [zmq_event_loop]: the flag at its head, the answer of the poll
    of a PULL socket (failed, nothing to read, readable) and the messages that
    are received, if there are any. *)
Inductive poll_answer := PollFailed | PollNothing | PollReadable.

Record loop_turn := MkTurn {
  lt_flag : bool;
  lt_poll : poll_answer;
  lt_message : option string;
  lt_second : string;
}.

Inductive loop_action :=
  | RawCall (message : string)
  | SendReply (text : string)
  | CloseSocket.

#[export] Instance loop_action_eq_dec : EqDecision loop_action.
Proof. solve_decision. Defined.

Section loop.
Context {S : Type} (table : gmap string (rpc_action S)).

(** What a turn does with the state of the server. *)
Definition loop_body (mode : zmq_mode) (t : loop_turn) (s : S) : S * list loop_action :=
  let receive :=
    match lt_message t with
    | None | Some EmptyString => (s, [])
    | Some message =>
        if decide (mode = ZMQ_RPC_FUN) then
          let '(s, retval) := serve_rpc table message (lt_second t) s in (s, [SendReply retval])
        else (s, [RawCall message])
    end in
  if decide (mode = ZMQ_PULL) then
    match lt_poll t with PollFailed => (s, [CloseSocket]) | PollNothing => (s, []) | PollReadable => receive end
  else receive.

(** The loop over its turns, up to the first with the flag up. *)
Fixpoint zmq_event_loop (mode : zmq_mode) (turns : list loop_turn) (s : S) : S * list loop_action :=
  match turns with
  | [] => (s, [])
  | t :: turns =>
      if lt_flag t then (s, [])
      else
        let '(s, out) := loop_body mode t s in
        let '(s, more) := zmq_event_loop mode turns s in
        (s, out ++ more)
  end.
End loop.

(** ** Lemmas *)

(** Handles are numbers that have been given out. *)
Definition world_ok (w : zmq_world) : Prop := ∀ h, h ∈ w_contexts w ∪ w_sockets w → (h < w_next w)%nat.

(** Two worlds with the same things open. *)
Definition same_resources (w w' : zmq_world) : Prop :=
  w_contexts w' = w_contexts w ∧ w_sockets w' = w_sockets w ∧ w_misused w' = w_misused w.

(** A context and a socket, made and closed again: whatever happens to the
    files, nothing else is left. *)
Definition opened (w : zmq_world) : zmq_world := (zmq_socket (zmq_ctx_new w).1).1.

Lemma close_opened w files :
  world_ok w →
  same_resources w (zmq_ctx_destroy (w_next w) (zmq_close (S (w_next w)) ((opened w) <| w_files := files |>))).
Proof.
  intros Hw. unfold opened, zmq_close.
  assert (w_next w ∉ w_contexts w) as Hc by (intros Hin; pose proof (Hw (w_next w) (elem_of_union_l _ _ _ Hin)); lia).
  assert (S (w_next w) ∉ w_sockets w) as Hs by (intros Hin; pose proof (Hw (S (w_next w)) (elem_of_union_r _ _ _ Hin)); lia).
  set (w1 := (zmq_socket (zmq_ctx_new w).1).1 <| w_files := files |>).
  assert (w_sockets w1 = {[S (w_next w)]} ∪ w_sockets w) as Es by reflexivity.
  rewrite decide_True by (rewrite Es; set_solver).
  set (w2 := w1 <| w_sockets := w_sockets w1 ∖ {[S (w_next w)]} |>).
  assert (w_contexts w2 = {[w_next w]} ∪ w_contexts w) as Ec by reflexivity. unfold zmq_ctx_destroy.
  rewrite decide_True by (rewrite Ec; set_solver). split_and!; [|change (w_sockets w1 ∖ {[S (w_next w)]} = w_sockets w); rewrite Es; set_solver|reflexivity].
  change (w_contexts w2 ∖ {[w_next w]} = w_contexts w). rewrite Ec. set_solver.
Qed.

Lemma zmq_bind_files result url w : ∃ files, zmq_bind result url w = w <| w_files := files |>.
Proof.
  exists (w_files (zmq_bind result url w)). unfold zmq_bind. destruct (result =? 0); [|by destruct w].
  destruct (ipc_file url); by destruct w.
Qed.

Lemma destroy_files context w : w_files (zmq_ctx_destroy context w) = w_files w.
Proof. unfold zmq_ctx_destroy. by destruct (decide _). Qed.
Lemma close_files socket w : w_files (zmq_close socket w) = w_files w.
Proof. unfold zmq_close. by destruct (decide _). Qed.

(** [close_zmq] of an object whose handles are the last ones. *)
Lemma close_zmq_opened p w files :
  world_ok w → pz_handles p = Some (w_next w, S (w_next w)) → (is_bind p = true → 6 <= String.length (zmq_url_ p))%nat →
  ∃ w', close_zmq p ((opened w) <| w_files := files |>) = Ok (p <| pz_handles := None |>, w') ∧ same_resources w w' ∧
    w_files w' = if is_bind p && negb (str_empty (rpc_url_head_ p)) then files ∖ {[str_drop 6 (zmq_url_ p)]} else files.
Proof.
  intros Hw Hh Hl. unfold close_zmq. rewrite Hh. pose proof (close_opened w files Hw) as Hsame.
  assert (w_files (zmq_ctx_destroy (w_next w) (zmq_close (S (w_next w)) ((opened w) <| w_files := files |>))) = files) as Hf
    by (by rewrite destroy_files, close_files).
  set (w1 := zmq_ctx_destroy _ _) in *. clearbody w1. destruct (is_bind p && _) eqn:Eb.
  - apply andb_true_iff in Eb as [Eb _]. specialize (Hl Eb).
    unfold socket_file, rpc_url_head_length. destruct (Nat.ltb_spec (String.length (zmq_url_ p)) 6); [lia|].
    cbn [mbind result_bind mret result_ret]. eexists. split; [reflexivity|]. split; [exact Hsame|].
    change (w_files w1 ∖ {[str_drop 6 (zmq_url_ p)]} = files ∖ {[str_drop 6 (zmq_url_ p)]}). by rewrite Hf.
  - cbn [mbind result_bind mret result_ret]. eexists. split; [reflexivity|]. split; [exact Hsame|exact Hf].
Qed.

(** What a socket for messages opens. *)
Lemma creat_opens za url p w :
  pz_mode p ≠ ZMQ_RPC_CALL →
  ∃ p1 ret, creat za url p w =
      Ok (p1, (opened w) <| w_files := if is_bind p then w_files (zmq_bind (za_bind za) url w) else w_files w |>, ret) ∧
    pz_handles p1 = Some (w_next w, S (w_next w)) ∧ zmq_url_ p1 = url ∧ pz_mode p1 = pz_mode p ∧ rpc_url_head_ p1 = rpc_url_head_ p ∧
    zmq_thread_ p1 = match pz_mode p with ZMQ_SUB | ZMQ_PULL | ZMQ_RPC_FUN => true | _ => zmq_thread_ p end.
Proof.
  intros Hm. assert (zmq_bind (za_bind za) url (opened w) = (opened w) <| w_files := w_files (zmq_bind (za_bind za) url w) |>) as Hb.
  { unfold zmq_bind. destruct (za_bind za =? 0); [|by destruct w]. by destruct (ipc_file url), w. }
  assert ((opened w) = (opened w) <| w_files := w_files w |>) as Ho by (by destruct w).
  unfold creat. cbn [zmq_ctx_new zmq_socket]. change (pz_mode (p <| zmq_url_ := url |> <| pz_handles := _ |>)) with (pz_mode p).
  unfold is_bind. destruct (pz_mode p) eqn:Em; [..|done]; unfold creat_pub, creat_pull, creat_rep, creat_push, subscriber_url;
    (eexists _, _; split; [first [by rewrite <- Hb|by rewrite <- Ho]|split_and!; done]).
Qed.

Lemma ipc_file_url url file : ipc_file url = Some file → url = "ipc://" +:+ file ∧ file = str_drop 6 url ∧ (6 <= String.length url)%nat.
Proof.
  unfold ipc_file. destruct (String.eqb_spec (str_take 6 url) "ipc://") as [E|]; [|done]. intros [= <-].
  do 6 (destruct url as [|? url]; [discriminate E|]). cbn in E. injection E as -> -> -> -> -> ->. split; [done|]. split; [done|]. cbn. lia.
Qed.

Definition binds (mode : zmq_mode) : bool := match mode with ZMQ_PUB | ZMQ_PULL | ZMQ_RPC_FUN => true | _ => false end.

(** The files once a message socket is open. *)
Lemma new_pzmq_opens za url mode file w :
  ipc_file url = Some file → mode ≠ ZMQ_RPC_FUN → mode ≠ ZMQ_RPC_CALL →
  let files := if binds mode && (za_bind za =? 0) then {[file]} ∪ w_files w else w_files w in
  ∃ p, new_pzmq za url mode w = Ok (p, (opened w) <| w_files := files |>) ∧
    pz_handles p = Some (w_next w, S (w_next w)) ∧ zmq_url_ p = url ∧ pz_mode p = mode ∧ rpc_url_head_ p = default_head ∧
    zmq_thread_ p = match mode with ZMQ_SUB | ZMQ_PULL => true | _ => false end.
Proof.
  intros Hf H1 H2 files. destruct (ipc_file_url url file Hf) as (Eu & _ & _).
  set (p0 := MkPzmq default_head None mode "" "" true false 3000).
  assert (new_pzmq za url mode w = '(p, w, _) ← creat za url p0 w; mret (p, w)) as Enew.
  { rewrite Eu, str_app_cons. unfold new_pzmq. cbn [andb negb]. change (("i" =? "i")%char) with true. cbn [andb negb]. by rewrite decide_False. }
  destruct (creat_opens za url p0 w H2) as (p1 & ret & E & Hh & Hu & Hm & Hr & Ht). exists p1.
  rewrite Enew, E. cbn [mbind result_bind mret result_ret].
  split; [|split_and!; try done; rewrite Ht; cbn; by destruct mode]. do 3 f_equal. subst files. unfold is_bind, p0. cbn [pz_mode]. unfold zmq_bind. rewrite Hf.
  by destruct mode; cbn [binds andb]; try done; destruct (za_bind za =? 0).
Qed.

(** ** Properties *)


(** The address of a server, and its file when the server is not named by an
    address. *)
Definition server_url (server : string) : string := rpc_url_head_ (new_rpc server) +:+ server.
Definition server_file (server : string) : string := "/tmp/rpc." +:+ server.

(** What a call gets: it is refused without the server's file; otherwise it
    depends on the connect. *)
Definition call_result (za : zmq_answers) (server : string) (w : zmq_world) : Z :=
  if str_contains server "://" || bool_decide (server_file server ∈ w_files w) then za_connect za else -1.

Lemma rpc_creat za server w :
  let p0 := (new_rpc server) <| pz_mode := ZMQ_RPC_CALL |> in
  ∃ p1, creat za (server_url server) p0 w = Ok (p1, (opened w) <| w_files := w_files w |>, call_result za server w) ∧
    pz_handles p1 = Some (w_next w, S (w_next w)) ∧ is_bind p1 = false ∧ zmq_url_ p1 = server_url server ∧
    rpc_url_head_ p1 = rpc_url_head_ (new_rpc server) ∧ rpc_server_ p1 = server.
Proof.
  intros p0. subst p0. assert (opened w = (opened w) <| w_files := w_files w |>) as Ho by (by destruct w). rewrite <- Ho.
  unfold call_result, server_url. destruct (str_contains server "://") eqn:Ec.
  - assert (new_rpc server = MkPzmq "" None ZMQ_RPC_CALL server "" true false 3000) as -> by (unfold new_rpc; by rewrite Ec).
    eexists. split; [reflexivity|]. by split_and!.
  - assert (new_rpc server = MkPzmq default_head None ZMQ_RPC_CALL server "" true false 3000) as -> by (unfold new_rpc; by rewrite Ec).
    cbn [rpc_url_head_ orb]. set (p0 := MkPzmq default_head None ZMQ_RPC_CALL server "" true false 3000).
    set (url := default_head +:+ server). set (p1 := p0 <| pz_mode := ZMQ_RPC_CALL |> <| zmq_url_ := url |> <| pz_handles := Some (w_next w, S (w_next w)) |>).
    change (creat za url (p0 <| pz_mode := ZMQ_RPC_CALL |>) w) with (creat_req za url p1 (opened w)). exists p1. split; [|by split_and!].
    unfold creat_req. change (str_empty (rpc_url_head_ p1)) with false. cbn [negb]. unfold socket_file, rpc_url_head_length.
    destruct (Nat.ltb_spec (String.length url) 6) as [Hlt|_]; [subst url; rewrite str_length_app in Hlt; cbn in Hlt; lia|].
    change (str_drop 6 url) with (server_file server). change (w_files (opened w)) with (w_files w). cbn [mbind result_bind mret result_ret].
    by destruct (decide (server_file server ∈ w_files w)); [rewrite bool_decide_true|rewrite bool_decide_false].
Qed.

(** A remote call leaves nothing behind: a call to a named server
    returns in every case, with the error -1 when the server's file is
    missing and otherwise with the result of the connect, calls the callback
    exactly when that result is 0, and whatever happens no context, no socket
    and no file differs from before and the object can make the next call. *)
Theorem rpc_call_life (za : zmq_answers) (reply : option string) (server : string) (w : zmq_world) :
  world_ok w → str_empty server = false →
  ∃ p' w', rpc_call za reply (new_rpc server) w =
      Ok (p', w', call_result za server w,
          if call_result za server w =? 0 then Some (default "" reply) else None) ∧
    pz_handles p' = None ∧ rpc_server_ p' = server ∧ same_resources w w' ∧ w_files w' = w_files w.
Proof.
  intros Hw Hs. destruct (rpc_creat za server w) as (p1 & E & Hh & Hb & Hu & Hr & Hserver).
  destruct (close_zmq_opened p1 w (w_files w) Hw Hh) as (w' & E' & Hsame & Hfiles); [by rewrite Hb|]. rewrite Hb in Hfiles. cbn [andb] in Hfiles.
  exists (p1 <| pz_handles := None |>), w'. split_and!; try done. unfold rpc_call. change (pz_handles (new_rpc server)) with (@None (nat * nat)).
  change (rpc_server_ (new_rpc server)) with server. rewrite Hs. fold (server_url server). rewrite E. cbn [mbind result_bind].
  rewrite E'. cbn [mbind result_bind mret result_ret]. by destruct (call_result za server w =? 0).
Qed.

(** A pull socket that is destroyed while its thread waits for messages is
    closed twice, by the thread and by the destructor. *)
Lemma pull_socket_closed_twice (za : zmq_answers) (url file : string) (w : zmq_world) :
  world_ok w → ipc_file url = Some file →
  ∃ p w1 p2 w2, new_pzmq za url ZMQ_PULL w = Ok (p, w1) ∧ destroy_pzmq true p w1 = Ok (p2, w2) ∧ w_misused w2 = true.
Proof.
  intros Hw Hf. destruct (ipc_file_url url file Hf) as (_ & Ef & Hl).
  destruct (new_pzmq_opens za url ZMQ_PULL file w Hf ltac:(done) ltac:(done)) as (p & E & Hh & Hu & Hm & Hhead & Ht).
  set (files := if _ && _ then _ else _) in *. eexists p, _, _, _. split; [exact E|]. unfold destroy_pzmq. rewrite Hh. cbv zeta.
  set (p' := p <| flage_ := true |>). change (zmq_thread_ p') with (zmq_thread_ p). change (pz_mode p') with (pz_mode p).
  rewrite Ht, bool_decide_true by done. cbn [andb]. unfold close_zmq. change (pz_handles p') with (pz_handles p). rewrite Hh.
  set (w1 := zmq_close (S (w_next w)) ((opened w) <| w_files := files |>)). assert (S (w_next w) ∉ w_sockets w1) as Hgone.
  { subst w1. unfold zmq_close. destruct (decide _) as [_|Hno]; [|done]. cbn. set_solver. }
  assert (zmq_close (S (w_next w)) w1 = w1 <| w_misused := true |>) as -> by (unfold zmq_close; by rewrite decide_False). unfold socket_file, rpc_url_head_length. change (zmq_url_ p') with (zmq_url_ p). rewrite Hu.
  destruct (Nat.ltb_spec (String.length url) 6); [lia|]. set (w2 := zmq_ctx_destroy _ _).
  assert (w_misused w2 = true) as Hbad by (subst w2; unfold zmq_ctx_destroy; by destruct (decide _)).
  assert (is_bind p' && negb (str_empty (rpc_url_head_ p')) = true) as ->.
  { unfold is_bind. change (pz_mode p') with (pz_mode p). change (rpc_url_head_ p') with (rpc_url_head_ p). by rewrite Hm, Hhead. }
  cbn [mbind result_bind mret result_ret]. split; [reflexivity|exact Hbad].
Qed.

(** *** The loop *)

(** The requests of a server, in order. *)
Fixpoint serve_all {S} (table : gmap string (rpc_action S)) (requests : list (string * string)) (s : S) : S * list string :=
  match requests with
  | [] => (s, [])
  | (action, data) :: requests =>
      let '(s, retval) := serve_rpc table action data s in
      let '(s, rest) := serve_all table requests s in
      (s, retval :: rest)
  end.

(** What arrives before the flag goes up. *)
Fixpoint arrived (mode : zmq_mode) (turns : list loop_turn) : list (string * string) :=
  match turns with
  | [] => []
  | t :: turns =>
      if lt_flag t then []
      else match lt_message t, bool_decide (mode = ZMQ_PULL) && negb (match lt_poll t with PollReadable => true | _ => false end) with
           | Some (String c m), false => (String c m, lt_second t) :: arrived mode turns
           | _, _ => arrived mode turns
           end
  end.

(** Requests are served one after the other, each is answered once and in
    order, and messages reach the callback of a subscription or a pull socket
    once and in order. *)
Theorem received_in_order {S} (table : gmap string (rpc_action S)) (mode : zmq_mode) (turns : list loop_turn) (s : S) :
  let r := zmq_event_loop table mode turns s in
  if bool_decide (mode = ZMQ_RPC_FUN) then
    r.1 = (serve_all table (arrived mode turns) s).1 ∧ r.2 = SendReply <$> (serve_all table (arrived mode turns) s).2
  else r.1 = s ∧ filter (λ a, a ≠ CloseSocket) r.2 = RawCall <$> (arrived mode turns).*1.
Proof.
  cbv zeta. revert s. induction turns as [|t turns IH]; intros s; cbn [zmq_event_loop arrived].
  { by destruct (bool_decide (mode = ZMQ_RPC_FUN)). }
  destruct (lt_flag t); [by destruct (bool_decide (mode = ZMQ_RPC_FUN))|]. unfold loop_body.
  destruct (decide (mode = ZMQ_RPC_FUN)) as [->|Hne].
  - rewrite (bool_decide_true (ZMQ_RPC_FUN = ZMQ_RPC_FUN)) in * by done. rewrite (bool_decide_false (ZMQ_RPC_FUN = ZMQ_PULL)), decide_False by done.
    cbn [andb]. destruct (lt_message t) as [[|c m]|].
    + specialize (IH s). by destruct (zmq_event_loop table ZMQ_RPC_FUN turns s).
    + cbn [serve_all]. destruct (serve_rpc table (String c m) (lt_second t) s) as [s1 retval]. specialize (IH s1).
      destruct (zmq_event_loop table ZMQ_RPC_FUN turns s1), (serve_all table (arrived ZMQ_RPC_FUN turns) s1). cbn in *. destruct IH as [-> ->]. done.
    + specialize (IH s). by destruct (zmq_event_loop table ZMQ_RPC_FUN turns s).
  - rewrite (bool_decide_false (mode = ZMQ_RPC_FUN)) in * by done. specialize (IH s).
    destruct (zmq_event_loop table mode turns s) as [s2 out] eqn:El. cbn [fst snd] in IH. destruct IH as [Es Eo].
    destruct (decide (mode = ZMQ_PULL)) as [Hp|Hp].
    + rewrite (bool_decide_true (mode = ZMQ_PULL)) by done. cbn [andb].
      destruct (lt_poll t), (lt_message t) as [[|c m]|]; cbn [negb]; rewrite ?El; cbn [fst snd app]; try done.
      all: try (rewrite filter_cons_False by (by intros []); by split). cbn [fmap list_fmap]. rewrite filter_cons_True by done. by rewrite Eo.
    + rewrite (bool_decide_false (mode = ZMQ_PULL)) by done. cbn [andb].
      destruct (lt_message t) as [[|c m]|]; rewrite ?El; cbn [fst snd app]; try done. rewrite filter_cons_True by done. by rewrite Eo.
Qed.

(** ** Witnesses *)

Definition empty_world : zmq_world := MkWorld 0 ∅ ∅ ∅ false.

Lemma empty_world_ok : world_ok empty_world.
Proof. intros h Hh. unfold empty_world in Hh. cbn in Hh. set_solver. Qed.


Lemma rpc_call_life_witness :
  ∃ p' w', rpc_call (MkZmqAnswers 0 0) None (new_rpc "sys") empty_world = Ok (p', w', -1, None) ∧ w_files w' = ∅.
Proof.
  destruct (rpc_call_life (MkZmqAnswers 0 0) None "sys" empty_world) as (p' & w' & E & _ & _ & _ & Ef).
  - exact empty_world_ok.
  - reflexivity.
  - exists p', w'. split; [exact E|exact Ef].
Defined.
