(* ===== verification/Sockets.v ===== *)
(** * The sockets of a channel

    [class llm_channel_obj] ([infra-controller/src/channel.cpp],
    [infra-controller/include/channel.h]): the table of its ZeroMQ sockets by
    number.  Number -1 publishes, -2 pushes to the client, 0 listens to the
    channel's own inference URL, a positive number to the output of the unit
    with that number, and numbers from -1000 down to other URLs.

    A socket is what it was created for.  Using a socket that is not there
    dereferences a null pointer ([Throw]).  [std::regex_match] is modelled for
    the one pattern the code uses; the answer of the unit manager to
    [sql_select] is an argument. *)
From S2P Require Import Prelude StdString Doubles Json Observability Types Endpoint Config Stream.

Inductive socket :=
  | Pub (url : string)
  | Push (url : string)
  | Sub (url : string).

(** [zmq_] maps a number to a pointer, which may be null. *)
Record llm_channel := MkLlmChannel {
  zmq_ : gmap Z (option socket);
  zmq_url_index_ : Z;
  zmq_url_map_ : gmap string Z;
  lc_inference_url : string;
  lc_output_url : string;
  lc_enoutput : bool;
  lc_request_id : string;
  lc_work_id : string;
}.
#[export] Instance eta_lc : Eta llm_channel := fun c =>
  MkLlmChannel (zmq_ c) (zmq_url_index_ c) (zmq_url_map_ c) (lc_inference_url c) (lc_output_url c) (lc_enoutput c)
    (lc_request_id c) (lc_work_id c).

Definition new_llm_channel (publisher_url inference_url : string) : llm_channel :=
  MkLlmChannel (<[-2 := None]> {[-1 := Some (Pub publisher_url)]}) (-1000) ∅ inference_url "" false "" "".

(** *** The pattern of a work identifier *)

Definition is_word (c : ascii) : bool :=
  let n := nat_of_ascii c in
  is_digit c || ((65 <=? n) && (n <=? 90))%nat || ((97 <=? n) && (n <=? 122))%nat || (n =? 95)%nat.

Fixpoint all_chars (f : ascii → bool) (s : string) : bool :=
  match s with
  | EmptyString => true
  | String c s => f c && all_chars f s
  end.

(** One or more word characters, a dot, one or more digits: the digits. *)
Definition match_work_id (work_id : string) : option string :=
  match char_find "."%char work_id with
  | None => None
  | Some a =>
      let name := str_take a work_id in
      let digits := str_drop (a + 1) work_id in
      if negb (str_empty name) && all_chars is_word name && negb (str_empty digits) && all_chars is_digit digits
      then Some digits else None
  end.

(** ** Operations *)

Definition set_socket (n : Z) (s : option socket) (c : llm_channel) : llm_channel := c <| zmq_ := <[n := s]> (zmq_ c) |>.

(** [select] is what the unit manager has stored under a key.  The result is
    the code returned. *)
Definition subscriber_work_id (select : string → string) (work_id : string) (c : llm_channel) : result (llm_channel * Z) :=
  match match_work_id work_id with
  | Some digits =>
      id_num ← stoi digits;
      let input_url := select (work_id +:+ ".out_port") in
      if str_empty input_url then mret (c, -1) else mret (set_socket id_num (Some (Sub input_url)) c, 0)
  | None => mret (set_socket 0 (Some (Sub (lc_inference_url c))) c, 0)
  end.

Definition stop_subscriber_work_id (work_id : string) (c : llm_channel) : result llm_channel :=
  id_num ← match match_work_id work_id with Some digits => stoi digits | None => Ok 0 end;
  mret (c <| zmq_ := delete id_num (zmq_ c) |>).

Definition subscriber (zmq_url : string) (c : llm_channel) : llm_channel :=
  let index := zmq_url_index_ c in
  c <| zmq_url_map_ := <[zmq_url := index]> (zmq_url_map_ c) |> <| zmq_url_index_ := index - 1 |>
    <| zmq_ := <[index := Some (Sub zmq_url)]> (zmq_ c) |>.

Definition stop_subscriber (zmq_url : string) (c : llm_channel) : llm_channel :=
  if str_empty zmq_url then c <| zmq_ := ∅ |> <| zmq_url_map_ := ∅ |>
  else
    match zmq_url_map_ c !! zmq_url with
    | Some index => c <| zmq_ := delete index (zmq_ c) |> <| zmq_url_map_ := delete zmq_url (zmq_url_map_ c) |>
    | None => c
    end.

Definition set_push_url (url : string) (c : llm_channel) : llm_channel :=
  if (lc_output_url c =? url)%string then c
  else set_socket (-2) (Some (Push url)) (c <| lc_output_url := url |>).

Definition cear_push_url (c : llm_channel) : llm_channel := set_socket (-2) None c.

(** Sends as pairs of URL and text. *)
Definition send_raw_to_pub (raw : string) (c : llm_channel) : result (list (string * string)) :=
  match zmq_ c !! (-1) with
  | Some (Some (Pub url)) => Ok [(url, raw)]
  | Some (Some _) => Ok []
  | _ => Throw "null pointer"
  end.

Definition send_raw_to_usr (raw : string) (c : llm_channel) : list (string * string) * Z :=
  match zmq_ c !! (-2) with
  | Some (Some (Push url)) => ([(url, raw)], Z.of_nat (String.length raw))
  | Some (Some _) => ([], -1)
  | _ => ([], -1)
  end.

(** The body of a message; [error_msg] is a text here. *)
Definition channel_body (now : Z) (object : string) (data : json) (error_msg work_id : string) (c : llm_channel) : json :=
  mk_obj [("request_id", JStr (lc_request_id c));
          ("work_id", JStr (if str_empty work_id then lc_work_id c else work_id));
          ("created", JInt now); ("object", JStr object); ("data", data);
          ("error", if str_empty error_msg then mk_obj [("code", JInt 0); ("message", JStr "")] else JStr error_msg)].

Definition channel_send `{JsonText} (now : Z) (object : string) (data : json) (error_msg work_id : string) (c : llm_channel)
    : result (list (string * string) * Z) :=
  text ← json_dump (channel_body now object data error_msg work_id c);
  let out := text +:+ String "010" "" in
  published ← send_raw_to_pub out c;
  if lc_enoutput c then
    let '(pushed, ret) := send_raw_to_usr out c in
    mret (published ++ pushed, ret)
  else mret (published, 0).

(** ** Lemmas *)

Lemma stoi_digits_nonneg digits n :
  str_empty digits = false → all_chars is_digit digits = true → stoi digits = Ok n → 0 <= n.
Proof.
  intros Hne Hall. destruct digits as [|c s]; [done|]. cbn [all_chars] in Hall. apply andb_true_iff in Hall as [Hc _].
  unfold stoi. destruct (digit_not_space_sign c Hc) as (Hsp & _ & _). cbn [skip_spaces]. rewrite Hsp.
  assert (scan_sign (String c s) = (false, String c s)) as -> by (destruct c as [[] [] [] [] [] [] [] []]; done).
  pose proof (scan_digits_nonneg (String c s) 0 0 ltac:(lia)) as Hv.
  destruct (scan_digits 0 0 (String c s)) as [[v count] rest]. cbn [fst] in Hv.
  destruct (count =? 0)%nat; [done|]. destruct (is_int v); [|done]. by intros [= <-].
Qed.

Lemma work_id_number_nonneg work_id digits n : match_work_id work_id = Some digits → stoi digits = Ok n → 0 <= n.
Proof.
  unfold match_work_id. destruct (char_find _ _) as [a|]; [|done]. cbv zeta. intros E.
  destruct (negb (str_empty (str_take a work_id)) && all_chars is_word (str_take a work_id) &&
            negb (str_empty (str_drop (a + 1) work_id)) && all_chars is_digit (str_drop (a + 1) work_id)) eqn:Ec; [|done].
  injection E as <-. boolean. by apply stoi_digits_nonneg.
Qed.

(** What is kept by every operation but the stop of everything. *)
Record channel_ok (publisher_url : string) (c : llm_channel) : Prop := {
  lok_pub : zmq_ c !! (-1) = Some (Some (Pub publisher_url));
  lok_push : zmq_ c !! (-2) = Some None ∨ zmq_ c !! (-2) = Some (Some (Push (lc_output_url c)));
  lok_index : zmq_url_index_ c <= -1000;
  lok_urls : ∀ url i, zmq_url_map_ c !! url = Some i →
    zmq_url_index_ c < i <= -1000 ∧ zmq_ c !! i = Some (Some (Sub url));
}.

Lemma channel_ok_set publisher_url n s c :
  channel_ok publisher_url c → 0 <= n → channel_ok publisher_url (set_socket n s c).
Proof.
  intros [Hpub Hpush Hidx Hurls] Hn. split; cbn; [by rewrite lookup_insert_ne by lia..|done|].
  intros url i Hi. destruct (Hurls url i Hi). rewrite lookup_insert_ne by lia. done.
Qed.

Lemma channel_ok_delete publisher_url n c :
  channel_ok publisher_url c → 0 <= n → channel_ok publisher_url (c <| zmq_ := delete n (zmq_ c) |>).
Proof.
  intros [Hpub Hpush Hidx Hurls] Hn. split; cbn; [by rewrite lookup_delete_ne by lia..|done|].
  intros url i Hi. destruct (Hurls url i Hi). rewrite lookup_delete_ne by lia. done.
Qed.

Lemma channel_ok_push publisher_url s url c :
  channel_ok publisher_url c → s = None ∨ s = Some (Push url) →
  channel_ok publisher_url (set_socket (-2) s (c <| lc_output_url := url |>)).
Proof.
  intros [Hpub Hpush Hidx Hurls] Hs. split; cbn.
  - by rewrite lookup_insert_ne.
  - rewrite lookup_insert_eq. destruct Hs as [->| ->]; auto.
  - done.
  - intros url' i Hi. destruct (Hurls url' i Hi). rewrite lookup_insert_ne by lia. done.
Qed.

Inductive channel_op :=
  | SubscribeWorkId (work_id : string)
  | StopWorkId (work_id : string)
  | Subscribe (zmq_url : string)
  | Stop (zmq_url : string)
  | SetPushUrl (url : string)
  | ClearPushUrl.

Definition run_channel_op (select : string → string) (op : channel_op) (c : llm_channel) : result llm_channel :=
  match op with
  | SubscribeWorkId work_id => '(c, _) ← subscriber_work_id select work_id c; mret c
  | StopWorkId work_id => stop_subscriber_work_id work_id c
  | Subscribe zmq_url => mret (subscriber zmq_url c)
  | Stop zmq_url => mret (stop_subscriber zmq_url c)
  | SetPushUrl url => mret (set_push_url url c)
  | ClearPushUrl => mret (cear_push_url c)
  end.

(** The stop of everything, with an empty URL, is left out: see below. *)
Definition keeps_publisher (op : channel_op) : Prop := match op with Stop zmq_url => str_empty zmq_url = false | _ => True end.

Definition channel_step (select : string → string) (c c' : llm_channel) : Prop :=
  ∃ op, keeps_publisher op ∧ run_channel_op select op c = Ok c'.

Lemma channel_step_ok select publisher_url c c' :
  channel_step select c c' → channel_ok publisher_url c → channel_ok publisher_url c'.
Proof.
  intros (op & Hkeep & E) Hc. destruct op as [work_id|work_id|zmq_url|zmq_url|url|]; cbn [run_channel_op] in E.
  - unfold subscriber_work_id in E. destruct (match_work_id work_id) as [digits|] eqn:Em.
    + destruct (stoi digits) as [n|] eqn:En; cbn in E; [|done].
      destruct (str_empty _); cbn in E; injection E as <-; [done|]. apply channel_ok_set; [done|].
      by apply (work_id_number_nonneg work_id digits).
    + injection E as <-. by apply channel_ok_set.
  - unfold stop_subscriber_work_id in E. destruct (match_work_id work_id) as [digits|] eqn:Em.
    + destruct (stoi digits) as [n|] eqn:En; cbn in E; [|done]. injection E as <-.
      apply channel_ok_delete; [done|]. by apply (work_id_number_nonneg work_id digits).
    + injection E as <-. by apply channel_ok_delete.
  - injection E as <-. destruct Hc as [Hpub Hpush Hidx Hurls]. unfold subscriber. split; cbn.
    + by rewrite lookup_insert_ne by lia.
    + by rewrite lookup_insert_ne by lia.
    + lia.
    + intros url i. destruct (decide (url = zmq_url)) as [->|Hne].
      * rewrite lookup_insert_eq. intros [= <-]. rewrite lookup_insert_eq. split; [lia|done].
      * rewrite lookup_insert_ne by done. intros Hi. destruct (Hurls url i Hi).
        rewrite lookup_insert_ne by lia. split; [lia|done].
  - injection E as <-. unfold stop_subscriber. cbn in Hkeep. rewrite Hkeep.
    destruct (zmq_url_map_ c !! zmq_url) as [index|] eqn:Ei; [|done]. destruct Hc as [Hpub Hpush Hidx Hurls].
    destruct (Hurls _ _ Ei) as [Hrange Hsub]. split; cbn.
    + by rewrite lookup_delete_ne by lia.
    + by rewrite lookup_delete_ne by lia.
    + done.
    + intros url i [Hne Hi]%lookup_delete_Some. destruct (Hurls url i Hi) as [Hr Hs].
      split; [done|]. rewrite lookup_delete_ne; [done|]. intros <-. rewrite Hsub in Hs. injection Hs as <-. done.
  - injection E as <-. unfold set_push_url. destruct (_ =? _)%string; [done|]. apply channel_ok_push; auto.
  - injection E as <-. unfold cear_push_url. pose proof (channel_ok_push publisher_url None (lc_output_url c) c Hc) as Hp.
    destruct c. apply Hp; auto.
Qed.

Lemma new_llm_channel_ok publisher_url inference_url : channel_ok publisher_url (new_llm_channel publisher_url inference_url).
Proof.
  split; cbn.
  - rewrite lookup_insert_ne by done. apply lookup_singleton_eq.
  - left. apply lookup_insert_eq.
  - done.
  - intros url i. by rewrite lookup_empty.
Qed.

(** ** Properties *)

(** No subscription takes away the sockets a channel sends with: after any
    sequence of subscriptions and stops, by work identifier or by URL, and of
    changes of the client's URL, the channel publishes on its own URL, pushes
    to the last URL that was set or to none, and every URL subscribed and not
    stopped has its own subscription. *)
Theorem channel_sockets_kept (select : string → string) (publisher_url inference_url raw : string) (c : llm_channel) :
  rtc (channel_step select) (new_llm_channel publisher_url inference_url) c →
  send_raw_to_pub raw c = Ok [(publisher_url, raw)] ∧
  ((send_raw_to_usr raw c).1 = [] ∨ (send_raw_to_usr raw c).1 = [(lc_output_url c, raw)]) ∧
  (∀ url i, zmq_url_map_ c !! url = Some i → zmq_ c !! i = Some (Some (Sub url))).
Proof.
  intros Hrun. assert (channel_ok publisher_url c) as [Hpub Hpush _ Hurls].
  { refine (rtc_preserves (channel_step select) (channel_ok publisher_url) _ _ _ Hrun (new_llm_channel_ok _ _)).
    intros x y. apply channel_step_ok. }
  unfold send_raw_to_pub, send_raw_to_usr. rewrite Hpub. split_and!; [done| |].
  - destruct Hpush as [-> | ->]; auto.
  - intros url i Hi. by destruct (Hurls url i Hi).
Qed.

Lemma channel_sockets_kept_witness :
  send_raw_to_pub "x" (subscriber "tcp://a" (new_llm_channel "pub" "inf")) = Ok [("pub", "x")].
Proof.
  apply (channel_sockets_kept (λ _, "") "pub" "inf" "x").
  apply rtc_once. exists (Subscribe "tcp://a"). split; [exact I|reflexivity].
Defined.

(** A unit numbered 0 and the channel's own inference URL share a slot: after a
    subscription to that unit the channel no longer hears its clients. *)
Lemma unit_zero_replaces_inference :
  match (c ← (subscriber_work_id (λ _, "ipc:///tmp/cam") "" (new_llm_channel "pub" "inf"));
         subscriber_work_id (λ _, "ipc:///tmp/cam") "camera.0" c.1) with
  | Ok (c, 0) => zmq_ c !! 0 = Some (Some (Sub "ipc:///tmp/cam"))
  | _ => False
  end.
Proof. vm_compute. reflexivity. Qed.

(** A URL subscribed twice keeps its first subscription for ever. *)
Lemma second_subscription_leaks :
  zmq_ (stop_subscriber "tcp://a" (subscriber "tcp://a" (subscriber "tcp://a" (new_llm_channel "pub" "inf")))) !! (-1000)
  = Some (Some (Sub "tcp://a")).
Proof. vm_compute. reflexivity. Qed.

(** The stop of everything closes the publisher too; the next message
    dereferences a null pointer. *)
Lemma stop_all_closes_publisher raw :
  send_raw_to_pub raw (stop_subscriber "" (new_llm_channel "pub" "inf")) = Throw "null pointer".
Proof. reflexivity. Qed.
