(* ===== verification/NetBuffer.v ===== *)
(** * The byte buffer of the network library

    [class Buffer] of [network/include/network/Buffer.h] and
    [network/src/Buffer.cc]: a vector of bytes with a reader and a writer
    index.  Every [assert] of the class is a guard: an operation whose
    assertion fails is [None].  Sizes are [size_t]; no operation adds up more
    than the size of the vector and the length of its argument, so they are
    natural numbers here.  What the kernel delivers to [readFd] is an
    argument. *)
From S2P Require Import Prelude.

Abbreviation bytes := (list ascii).

Record Buffer := MkBuffer {
  buffer_ : bytes;
  readerIndex_ : nat;
  writerIndex_ : nat;
}.

Definition kCheapPrepend : nat := 8.
Definition kInitialSize : nat := Z.to_nat (1024 * 4).

Definition zero_byte : ascii := ascii_of_nat 0.

Definition new_buffer (initialSize : nat) : Buffer :=
  MkBuffer (replicate (kCheapPrepend + initialSize) zero_byte) kCheapPrepend kCheapPrepend.

Definition readableBytes (b : Buffer) : nat := writerIndex_ b - readerIndex_ b.
Definition writableBytes (b : Buffer) : nat := length (buffer_ b) - writerIndex_ b.
Definition prependableBytes (b : Buffer) : nat := readerIndex_ b.

(** The [len] bytes at [peek()]. *)
Definition peek (len : nat) (b : Buffer) : bytes := take len (drop (readerIndex_ b) (buffer_ b)).

(** ** Taking bytes out *)

Definition retrieveAll (b : Buffer) : Buffer := MkBuffer (buffer_ b) kCheapPrepend kCheapPrepend.

Definition retrieve (len : nat) (b : Buffer) : option Buffer :=
  _ ← assertion (len <=? readableBytes b)%nat;
  Some (if (len <? readableBytes b)%nat
        then MkBuffer (buffer_ b) (readerIndex_ b + len) (writerIndex_ b) else retrieveAll b).

Definition retrieveAsString (len : nat) (b : Buffer) : option (Buffer * bytes) :=
  _ ← assertion (len <=? readableBytes b)%nat;
  let result := peek len b in
  b ← retrieve len b;
  Some (b, result).

Definition retrieveAllAsString (b : Buffer) : option (Buffer * bytes) := retrieveAsString (readableBytes b) b.

(** ** Putting bytes in *)

(** [std::copy(data, data + len, begin() + i)]. *)
Definition blit (i : nat) (data : bytes) (l : bytes) : bytes := take i l ++ data ++ drop (i + length data) l.

(** [buffer_.resize(n)] to a larger size. *)
Definition grow (n : nat) (l : bytes) : bytes := l ++ replicate (n - length l) zero_byte.

Definition makeSpace (len : nat) (b : Buffer) : option Buffer :=
  if (writableBytes b + prependableBytes b <? len + kCheapPrepend)%nat then
    Some (MkBuffer (grow (writerIndex_ b + len) (buffer_ b)) (readerIndex_ b) (writerIndex_ b))
  else
    _ ← assertion (kCheapPrepend <? readerIndex_ b)%nat;
    let readable := readableBytes b in
    let b := MkBuffer (blit kCheapPrepend (peek readable b) (buffer_ b)) kCheapPrepend (kCheapPrepend + readable) in
    _ ← assertion (readable =? readableBytes b)%nat;
    Some b.

Definition ensureWritableBytes (len : nat) (b : Buffer) : option Buffer :=
  b ← (if (writableBytes b <? len)%nat then makeSpace len b else Some b);
  _ ← assertion (len <=? writableBytes b)%nat;
  Some b.

Definition hasWritten (len : nat) (b : Buffer) : option Buffer :=
  _ ← assertion (len <=? writableBytes b)%nat;
  Some (MkBuffer (buffer_ b) (readerIndex_ b) (writerIndex_ b + len)).

Definition append (data : bytes) (b : Buffer) : option Buffer :=
  b ← ensureWritableBytes (length data) b;
  hasWritten (length data) (MkBuffer (blit (writerIndex_ b) data (buffer_ b)) (readerIndex_ b) (writerIndex_ b)).

Definition unwrite (len : nat) (b : Buffer) : option Buffer :=
  _ ← assertion (len <=? readableBytes b)%nat;
  Some (MkBuffer (buffer_ b) (readerIndex_ b) (writerIndex_ b - len)).

Definition prepend (data : bytes) (b : Buffer) : option Buffer :=
  _ ← assertion (length data <=? prependableBytes b)%nat;
  let reader := (readerIndex_ b - length data)%nat in
  Some (MkBuffer (blit reader data (buffer_ b)) reader (writerIndex_ b)).

(** ** Reading from a socket *)

Definition kExtraBuf : Z := 1024 * 1024.

(** How many bytes one [readv] can deliver. *)
Definition read_limit (b : Buffer) : Z :=
  let writable := Z.of_nat (writableBytes b) in
  if writable <? kExtraBuf then writable + kExtraBuf else writable.

(** What [readv] returns: an error number or the bytes it has stored, first in
    the buffer and the rest in the array on the stack. *)
Definition readFd (got : Z + bytes) (b : Buffer) : option (Buffer * Z) :=
  match got with
  | inl errno => Some (b, -1)
  | inr data =>
      let writable := writableBytes b in
      let stored := MkBuffer (blit (writerIndex_ b) (take writable data) (buffer_ b)) (readerIndex_ b) in
      if (length data <=? writable)%nat then
        Some (stored (writerIndex_ b + length data)%nat, Z.of_nat (length data))
      else
        b ← append (drop writable data) (stored (length (buffer_ b)));
        Some (b, Z.of_nat (length data))
  end.

(** ** Integers in network byte order *)

(** The [n] bytes of [x], most significant first: [hostToNetwork] and the store
    of its result. *)
Fixpoint be_bytes (n : nat) (x : Z) : bytes :=
  match n with
  | O => []
  | S n => ascii_of_N (Z.to_N (Z.land (Z.shiftr x (8 * Z.of_nat n)) 255)) :: be_bytes n x
  end.

Fixpoint be_value (acc : Z) (l : bytes) : Z :=
  match l with
  | [] => acc
  | c :: l => be_value (acc * 256 + Z.of_N (N_of_ascii c)) l
  end.

(** The [8 * n] bits of [u] as a signed integer. *)
Definition to_signed (n : nat) (u : Z) : Z :=
  if u <? 2 ^ (8 * Z.of_nat n - 1) then u else u - 2 ^ (8 * Z.of_nat n).

(** [appendInt8] to [appendInt64], by the number of bytes, and so on. *)
Definition appendInt (n : nat) (x : Z) (b : Buffer) : option Buffer := append (be_bytes n x) b.

Definition peekInt (n : nat) (b : Buffer) : option Z :=
  _ ← assertion (n <=? readableBytes b)%nat;
  Some (to_signed n (be_value 0 (peek n b))).

Definition readInt (n : nat) (b : Buffer) : option (Buffer * Z) :=
  result ← peekInt n b;
  b ← retrieve n b;
  Some (b, result).

Definition prependInt (n : nat) (x : Z) (b : Buffer) : option Buffer := prepend (be_bytes n x) b.

(** ** The abstract queue of bytes *)

(** The content of a buffer: what has been written and not read yet. *)
Definition content (b : Buffer) : bytes := drop (readerIndex_ b) (take (writerIndex_ b) (buffer_ b)).

Definition buffer_ok (b : Buffer) : Prop :=
  (readerIndex_ b <= writerIndex_ b <= length (buffer_ b))%nat ∧ (kCheapPrepend <= length (buffer_ b))%nat.

(** The public operations and what each returns. *)
Inductive buffer_op :=
  | OpAppend (data : bytes)
  | OpReadFd (got : Z + bytes)
  | OpPrepend (data : bytes)
  | OpUnwrite (len : nat)
  | OpRetrieve (len : nat)
  | OpRetrieveAll
  | OpRetrieveAsString (len : nat)
  | OpRetrieveAllAsString
  | OpEnsureWritableBytes (len : nat).

Definition silent (r : option Buffer) : option (Buffer * bytes) := b ← r; Some (b, []).

Definition run_op (op : buffer_op) (b : Buffer) : option (Buffer * bytes) :=
  match op with
  | OpAppend data => silent (append data b)
  | OpReadFd got => silent (fst <$> readFd got b)
  | OpPrepend data => silent (prepend data b)
  | OpUnwrite len => silent (unwrite len b)
  | OpRetrieve len => silent (retrieve len b)
  | OpRetrieveAll => Some (retrieveAll b, [])
  | OpRetrieveAsString len => retrieveAsString len b
  | OpRetrieveAllAsString => retrieveAllAsString b
  | OpEnsureWritableBytes len => silent (ensureWritableBytes len b)
  end.

Fixpoint run_ops (ops : list buffer_op) (b : Buffer) : option (Buffer * list bytes) :=
  match ops with
  | [] => Some (b, [])
  | op :: ops =>
      '(b, out) ← run_op op b;
      '(b, outs) ← run_ops ops b;
      Some (b, out :: outs)
  end.

(** The same operations on a plain queue of bytes. *)
Definition queue_op (op : buffer_op) (q : bytes) : bytes * bytes :=
  match op with
  | OpAppend data => (q ++ data, [])
  | OpReadFd (inl _) => (q, [])
  | OpReadFd (inr data) => (q ++ data, [])
  | OpPrepend data => (data ++ q, [])
  | OpUnwrite len => (take (length q - len) q, [])
  | OpRetrieve len => (drop len q, [])
  | OpRetrieveAll => ([], [])
  | OpRetrieveAsString len => (drop len q, take len q)
  | OpRetrieveAllAsString => ([], q)
  | OpEnsureWritableBytes _ => (q, [])
  end.

Fixpoint queue_ops (ops : list buffer_op) (q : bytes) : bytes * list bytes :=
  match ops with
  | [] => (q, [])
  | op :: ops =>
      let '(q, out) := queue_op op q in
      let '(q, outs) := queue_ops ops q in
      (q, out :: outs)
  end.

(** What the caller has to respect: not to take more than there is, and not to
    prepend more than the room in front. *)
Definition op_allowed (op : buffer_op) (b : Buffer) : bool :=
  match op with
  | OpPrepend data => (length data <=? prependableBytes b)%nat
  | OpUnwrite len | OpRetrieve len | OpRetrieveAsString len => (len <=? length (content b))%nat
  | _ => true
  end.

(** ** Lemmas *)

Lemma content_length b : buffer_ok b → length (content b) = readableBytes b.
Proof. intros [H _]. unfold content, readableBytes. rewrite length_drop, length_take. lia. Qed.

Lemma peek_content len b : buffer_ok b → (len <= readableBytes b)%nat → peek len b = take len (content b).
Proof.
  intros [H _] Hlen. unfold peek, content, readableBytes in *. rewrite (take_drop_commute _ len).
  rewrite (take_drop_commute _ len (readerIndex_ b)), take_take. do 2 f_equal. lia.
Qed.

Lemma length_blit i data l : (i + length data <= length l)%nat → length (blit i data l) = length l.
Proof. intros H. unfold blit. rewrite !length_app, length_take, length_drop. lia. Qed.

Lemma take_blit i data l :
  (i <= length l)%nat → take (i + length data) (blit i data l) = take i l ++ data.
Proof.
  intros H. unfold blit. rewrite (assoc_L (++)). apply take_app_length'. rewrite length_app, length_take. lia.
Qed.

(** Writing behind the content. *)
Lemma written_content b data :
  buffer_ok b → (length data <= writableBytes b)%nat →
  let b' := MkBuffer (blit (writerIndex_ b) data (buffer_ b)) (readerIndex_ b) (writerIndex_ b + length data) in
  buffer_ok b' ∧ content b' = content b ++ data.
Proof.
  intros [H H8] Hlen b'. unfold writableBytes in Hlen. split.
  - unfold buffer_ok, b'. cbn [buffer_ readerIndex_ writerIndex_]. rewrite length_blit by lia. lia.
  - unfold content, b'. cbn [buffer_ readerIndex_ writerIndex_]. rewrite take_blit by lia.
    apply drop_app_le. rewrite length_take. lia.
Qed.

Lemma makeSpace_ok len b :
  buffer_ok b → (writableBytes b < len)%nat →
  ∃ b', makeSpace len b = Some b' ∧ buffer_ok b' ∧ content b' = content b ∧ (len <= writableBytes b')%nat.
Proof.
  intros Hok Hlen. pose proof Hok as [H H8]. unfold makeSpace, prependableBytes, kCheapPrepend in *.
  destruct (Nat.ltb_spec (writableBytes b + readerIndex_ b) (len + 8)) as [Hlt|Hge].
  - eexists. split; [done|]. unfold buffer_ok, content, writableBytes, grow in *.
    cbn [buffer_ readerIndex_ writerIndex_]. rewrite length_app, length_replicate. split_and!; try lia.
    rewrite take_app_le by lia. done.
  - destruct (Nat.ltb_spec 8 (readerIndex_ b)) as [Hr|Hr]; [|unfold writableBytes in *; lia].
    set (readable := readableBytes b). set (b' := MkBuffer (blit 8 (peek readable b) (buffer_ b)) 8 (8 + readable)).
    assert (readableBytes b' = readable) as -> by (unfold b', readableBytes at 1; cbn [writerIndex_ readerIndex_]; lia).
    rewrite Nat.eqb_refl.
    cbn. exists b'. split; [done|].
    assert (length (peek readable b) = readable) as Hpeek.
    { rewrite peek_content by done. rewrite length_take, content_length by done. unfold readable. lia. }
    assert (length (buffer_ b') = length (buffer_ b)) as Hl.
    { unfold b'. cbn [buffer_]. apply length_blit. rewrite Hpeek. unfold readable, readableBytes. lia. }
    assert (readerIndex_ b' = 8%nat ∧ writerIndex_ b' = (8 + readable)%nat) as [Er Ew] by done.
    unfold buffer_ok, writableBytes in *. rewrite Hl, Er, Ew.
    split_and!; try (unfold readable, readableBytes, kCheapPrepend; lia).
    unfold content at 1, b'. cbn [buffer_ readerIndex_ writerIndex_]. rewrite <- Hpeek at 1. rewrite take_blit by done.
    rewrite drop_app_length' by (rewrite length_take; lia).
    rewrite peek_content by done. apply take_ge. rewrite content_length by done. done.
Qed.

Lemma ensureWritableBytes_ok len b :
  buffer_ok b →
  ∃ b', ensureWritableBytes len b = Some b' ∧ buffer_ok b' ∧ content b' = content b ∧ (len <= writableBytes b')%nat.
Proof.
  intros Hok. unfold ensureWritableBytes. destruct (Nat.ltb_spec (writableBytes b) len) as [Hlt|Hge].
  - destruct (makeSpace_ok len b Hok Hlt) as (b' & -> & Hok' & Hc & Hlen). cbn.
    destruct (Nat.leb_spec len (writableBytes b')); [|lia]. by exists b'.
  - cbn. destruct (Nat.leb_spec len (writableBytes b)); [|lia]. by exists b.
Qed.

Lemma append_ok data b :
  buffer_ok b → ∃ b', append data b = Some b' ∧ buffer_ok b' ∧ content b' = content b ++ data.
Proof.
  intros Hok. unfold append. destruct (ensureWritableBytes_ok (length data) b Hok) as (b1 & -> & Hok1 & Hc & Hlen).
  cbn [mbind option_bind]. unfold hasWritten.
  destruct (written_content b1 data Hok1 Hlen) as [Hok2 Hc2]. destruct Hok1 as [H1 _].
  set (b2 := MkBuffer _ _ (writerIndex_ b1)).
  assert (writableBytes b2 = writableBytes b1) as ->.
  { unfold writableBytes, b2. cbn [buffer_ writerIndex_]. rewrite length_blit; [done|]. unfold writableBytes in Hlen. lia. }
  destruct (Nat.leb_spec (length data) (writableBytes b1)); [|lia]. cbn. eexists. split; [done|].
  split; [exact Hok2|]. by rewrite <- Hc.
Qed.

Lemma retrieve_ok len b :
  buffer_ok b → (len <= length (content b))%nat →
  ∃ b', retrieve len b = Some b' ∧ buffer_ok b' ∧ content b' = drop len (content b).
Proof.
  intros Hok Hlen. rewrite content_length in Hlen by done. pose proof Hok as [H H8]. unfold retrieve.
  destruct (Nat.leb_spec len (readableBytes b)); [|lia]. cbn [assertion mbind option_bind]. eexists. split; [done|].
  destruct (Nat.ltb_spec len (readableBytes b)) as [Hlt|Hge].
  - unfold buffer_ok, content, readableBytes in *. cbn [buffer_ readerIndex_ writerIndex_]. split; [lia|].
    by rewrite drop_drop.
  - split; [unfold buffer_ok, retrieveAll, kCheapPrepend in *; cbn [buffer_ readerIndex_ writerIndex_]; lia|].
    rewrite (drop_ge (content b)) by (rewrite content_length by done; lia). unfold content, retrieveAll.
    cbn [buffer_ readerIndex_ writerIndex_]. apply drop_ge. rewrite length_take. lia.
Qed.

Lemma retrieveAsString_ok len b :
  buffer_ok b → (len <= length (content b))%nat →
  ∃ b', retrieveAsString len b = Some (b', take len (content b)) ∧ buffer_ok b' ∧ content b' = drop len (content b).
Proof.
  intros Hok Hlen. destruct (retrieve_ok len b Hok Hlen) as (b' & E & Hok' & Hc).
  unfold retrieveAsString. rewrite E. rewrite content_length in Hlen by done.
  destruct (Nat.leb_spec len (readableBytes b)); [|lia]. cbn. exists b'. by rewrite peek_content.
Qed.

Lemma prepend_ok data b :
  buffer_ok b → (length data <= prependableBytes b)%nat →
  ∃ b', prepend data b = Some b' ∧ buffer_ok b' ∧ content b' = data ++ content b.
Proof.
  intros [H H8] Hlen. unfold prepend, prependableBytes in *.
  destruct (Nat.leb_spec (length data) (readerIndex_ b)); [|lia]. cbn. eexists. split; [done|]. split.
  - unfold buffer_ok. cbn [buffer_ readerIndex_ writerIndex_]. rewrite length_blit by lia. lia.
  - unfold content, blit. cbn [buffer_ readerIndex_ writerIndex_].
    replace (readerIndex_ b - length data + length data)%nat with (readerIndex_ b) by lia.
    rewrite take_app_ge by (rewrite length_take; lia). rewrite drop_app_length' by (rewrite length_take; lia).
    rewrite length_take, take_app_ge by lia. f_equal. rewrite take_drop_commute. f_equal. f_equal. lia.
Qed.

Lemma unwrite_ok len b :
  buffer_ok b → (len <= length (content b))%nat →
  ∃ b', unwrite len b = Some b' ∧ buffer_ok b' ∧ content b' = take (length (content b) - len) (content b).
Proof.
  intros Hok Hlen. rewrite content_length in * by done. pose proof Hok as [H H8]. unfold unwrite.
  destruct (Nat.leb_spec len (readableBytes b)); [|lia]. cbn. eexists. split; [done|].
  unfold buffer_ok, content, readableBytes in *. cbn [buffer_ readerIndex_ writerIndex_]. split; [lia|].
  rewrite take_drop_commute, take_take. do 2 f_equal. lia.
Qed.

Lemma readFd_ok got b :
  buffer_ok b →
  ∃ b', readFd got b = Some (b', match got with inl _ => -1 | inr data => Z.of_nat (length data) end) ∧ buffer_ok b' ∧
    content b' = content b ++ match got with inl _ => [] | inr data => data end.
Proof.
  intros Hok. destruct got as [errno|data]; cbn [readFd].
  { exists b. by rewrite app_nil_r. }
  pose proof Hok as [H H8]. destruct (Nat.leb_spec (length data) (writableBytes b)) as [Hle|Hgt].
  - rewrite take_ge by done. eexists. split; [done|]. by apply written_content.
  - assert (length (take (writableBytes b) data) = writableBytes b) as Hlen by (rewrite length_take; lia).
    destruct (written_content b (take (writableBytes b) data) Hok) as [Hok1 Hc1]; [lia|]. rewrite Hlen in *.
    replace (writerIndex_ b + writableBytes b)%nat with (length (buffer_ b)) in * by (unfold writableBytes in *; lia).
    destruct (append_ok (drop (writableBytes b) data) _ Hok1) as (b2 & -> & Hok2 & Hc2). cbn.
    exists b2. split_and!; [done..|]. by rewrite Hc2, Hc1, <- (assoc_L (++)), take_drop.
Qed.

(** Every operation, inside and outside of its precondition. *)
Lemma run_op_spec op b :
  buffer_ok b →
  if op_allowed op b then
    ∃ b', run_op op b = Some (b', (queue_op op (content b)).2) ∧ buffer_ok b' ∧ content b' = (queue_op op (content b)).1
  else run_op op b = None.
Proof.
  intros Hok. destruct op as [data|got|data|len|len| |len| |len]; cbn [op_allowed run_op queue_op fst snd].
  - destruct (append_ok data b Hok) as (b' & -> & Hr). by exists b'.
  - destruct (readFd_ok got b Hok) as (b' & -> & Hok' & Hc). exists b'. destruct got; [|done].
    rewrite app_nil_r in Hc. done.
  - destruct (Nat.leb_spec (length data) (prependableBytes b)) as [Hle|Hgt].
    + destruct (prepend_ok data b Hok Hle) as (b' & -> & Hr). by exists b'.
    + unfold prepend. by rewrite (proj2 (Nat.leb_gt _ _)).
  - destruct (Nat.leb_spec len (length (content b))) as [Hle|Hgt].
    + destruct (unwrite_ok len b Hok Hle) as (b' & -> & Hr). by exists b'.
    + rewrite content_length in Hgt by done. unfold unwrite. by rewrite (proj2 (Nat.leb_gt _ _)).
  - destruct (Nat.leb_spec len (length (content b))) as [Hle|Hgt].
    + destruct (retrieve_ok len b Hok Hle) as (b' & -> & Hr). by exists b'.
    + rewrite content_length in Hgt by done. unfold retrieve. by rewrite (proj2 (Nat.leb_gt _ _)).
  - exists (retrieveAll b). split; [done|]. destruct Hok as [H H8]. unfold buffer_ok, content, retrieveAll, kCheapPrepend in *.
    cbn [buffer_ readerIndex_ writerIndex_]. split; [lia|]. apply drop_ge. rewrite length_take. lia.
  - destruct (Nat.leb_spec len (length (content b))) as [Hle|Hgt].
    + by apply retrieveAsString_ok.
    + rewrite content_length in Hgt by done. unfold retrieveAsString. by rewrite (proj2 (Nat.leb_gt _ _)).
  - unfold retrieveAllAsString. rewrite <- content_length by done.
    destruct (retrieveAsString_ok (length (content b)) b Hok) as (b' & -> & Hok' & Hc); [done|].
    exists b'. rewrite take_ge by done. rewrite drop_ge in Hc by done. done.
  - destruct (ensureWritableBytes_ok len b Hok) as (b' & -> & Hok' & Hc & _). by exists b'.
Qed.

Lemma run_ops_spec ops : ∀ b,
  buffer_ok b →
  match run_ops ops b with
  | Some (b', outs) => buffer_ok b' ∧ queue_ops ops (content b) = (content b', outs)
  | None => ∃ before op after b' outs, ops = before ++ op :: after ∧ run_ops before b = Some (b', outs) ∧
      op_allowed op b' = false
  end.
Proof.
  induction ops as [|op ops IH]; intros b Hok; [done|]. cbn [run_ops queue_ops].
  pose proof (run_op_spec op b Hok) as Hop. destruct (op_allowed op b) eqn:Hallowed.
  - destruct Hop as (b1 & E & Hok1 & Hc1). rewrite E. cbn [mbind option_bind]. specialize (IH b1 Hok1).
    destruct (queue_op op (content b)) as [q out]. cbn [fst snd] in *. subst q.
    destruct (run_ops ops b1) as [[b2 outs]|]; cbn [mbind option_bind].
    + destruct IH as [Hok2 ->]. done.
    + destruct IH as (before & op' & after & b' & outs & -> & Er & Ha).
      exists (op :: before), op', after, b', (out :: outs). split_and!; [done| |done].
      cbn [run_ops]. rewrite E. cbn [mbind option_bind]. by rewrite Er.
  - rewrite Hop. cbn. by exists [], op, ops, b, [].
Qed.

Lemma new_buffer_ok n : buffer_ok (new_buffer n) ∧ content (new_buffer n) = [].
Proof.
  unfold buffer_ok, content, new_buffer. cbn [buffer_ readerIndex_ writerIndex_]. rewrite length_replicate.
  split; [unfold kCheapPrepend; lia|]. apply drop_ge. rewrite length_take. lia.
Qed.

(** *** Integers *)

Lemma be_bytes_length n x : length (be_bytes n x) = n.
Proof. induction n as [|n IH]; [done|]. cbn. by rewrite IH. Qed.

Lemma byte_value z : 0 <= z < 256 → Z.of_N (N_of_ascii (ascii_of_N (Z.to_N z))) = z.
Proof. intros Hz. rewrite N_ascii_embedding; [lia|]. change 256%N with (Z.to_N 256). apply Z2N.inj_lt; lia. Qed.

Lemma be_value_bytes n x acc :
  be_value acc (be_bytes n x) = acc * 2 ^ (8 * Z.of_nat n) + x mod 2 ^ (8 * Z.of_nat n).
Proof.
  revert acc. induction n as [|n IH]; intros acc; cbn [be_bytes be_value].
  { rewrite Z.mod_1_r. change (2 ^ (8 * Z.of_nat 0)) with 1. lia. }
  rewrite IH. change 255 with (Z.ones 8). rewrite Z.land_ones, Z.shiftr_div_pow2 by lia.
  rewrite byte_value by (apply Z.mod_pos_bound; lia).
  replace (8 * Z.of_nat (S n)) with (8 * Z.of_nat n + 8) by lia. rewrite Z.pow_add_r by lia.
  rewrite Z.rem_mul_r by lia. change (2 ^ 8) with 256. ring.
Qed.

(** The range of an integer of [n] bytes. *)
Definition fits (n : nat) (x : Z) : Prop := - 2 ^ (8 * Z.of_nat n - 1) <= x < 2 ^ (8 * Z.of_nat n - 1).

Lemma to_signed_mod n x : (0 < n)%nat → fits n x → to_signed n (x mod 2 ^ (8 * Z.of_nat n)) = x.
Proof.
  intros Hn [Hlo Hhi]. unfold to_signed.
  assert (2 ^ (8 * Z.of_nat n) = 2 * 2 ^ (8 * Z.of_nat n - 1)) as Hp
    by (rewrite <- Z.pow_succ_r by lia; f_equal; lia).
  assert (0 < 2 ^ (8 * Z.of_nat n - 1)) by (apply Z.pow_pos_nonneg; lia).
  destruct (Z.ltb_spec x 0) as [Hneg|Hpos].
  - rewrite <- (Z_mod_plus_full x 1), Z.mod_small by lia.
    destruct (Z.ltb_spec (x + 1 * 2 ^ (8 * Z.of_nat n)) (2 ^ (8 * Z.of_nat n - 1))); lia.
  - rewrite Z.mod_small by lia. destruct (Z.ltb_spec x (2 ^ (8 * Z.of_nat n - 1))); lia.
Qed.

Lemma readInt_front n x rest b :
  (0 < n)%nat → fits n x → buffer_ok b → content b = be_bytes n x ++ rest →
  peekInt n b = Some x ∧ ∃ b', readInt n b = Some (b', x) ∧ buffer_ok b' ∧ content b' = rest.
Proof.
  intros Hn Hx Hok Hc. assert (n <= length (content b))%nat as Hlen by (rewrite Hc, length_app, be_bytes_length; lia).
  assert (peekInt n b = Some x) as Hp.
  { unfold peekInt. rewrite content_length in Hlen by done. rewrite (proj2 (Nat.leb_le _ _)) by done. cbn.
    rewrite peek_content, Hc, take_app_length' by (done || by rewrite be_bytes_length).
    by rewrite be_value_bytes, Z.mul_0_l, Z.add_0_l, to_signed_mod. }
  split; [done|]. destruct (retrieve_ok n b Hok Hlen) as (b' & E & Hok' & Hc'). exists b'.
  unfold readInt. rewrite Hp, E. split_and!; [done..|]. by rewrite Hc', Hc, drop_app_length' by (by rewrite be_bytes_length).
Qed.

(** ** Properties *)

(** C18.  The buffer is a queue of bytes: for every sequence of operations on a
    fresh buffer of any size, the content and every result are those of the
    same operations on a plain list of bytes (append and socket reads at the
    end, prepend in front, retrieve from the front, unwrite from the end);
    growing and moving the bytes is never visible.  An assertion fails only
    when a caller takes more than there is or prepends more than the room in
    front. *)
Theorem buffer_refines_queue (initialSize : nat) (ops : list buffer_op) :
  match run_ops ops (new_buffer initialSize) with
  | Some (b, outs) => queue_ops ops [] = (content b, outs) ∧ readableBytes b = length (content b)
  | None => ∃ before op after b outs, ops = before ++ op :: after ∧
      run_ops before (new_buffer initialSize) = Some (b, outs) ∧ op_allowed op b = false
  end.
Proof.
  destruct (new_buffer_ok initialSize) as [Hok Hc]. pose proof (run_ops_spec ops (new_buffer initialSize) Hok) as Hs.
  destruct (run_ops ops (new_buffer initialSize)) as [[b outs]|]; [|done]. rewrite Hc in Hs.
  destruct Hs as [Hok' E]. by rewrite content_length.
Qed.

(** Integers of 1, 2, 4 and 8 bytes survive the buffer: one that was
    appended to an empty buffer is read back and nothing is left; one that
    was prepended is read back and the content behind it is untouched. *)
Theorem integer_round_trip (n : nat) (x : Z) (b : Buffer) :
  n ∈ [1; 2; 4; 8]%nat → fits n x → buffer_ok b →
  (content b = [] → ∃ b1 b2, appendInt n x b = Some b1 ∧ readInt n b1 = Some (b2, x) ∧ content b2 = []) ∧
  ((n <= prependableBytes b)%nat →
     ∃ b1 b2, prependInt n x b = Some b1 ∧ peekInt n b1 = Some x ∧ readInt n b1 = Some (b2, x) ∧ content b2 = content b).
Proof.
  intros Hn Hx Hok. assert (0 < n)%nat as Hpos by set_solver by lia. split.
  - intros He. destruct (append_ok (be_bytes n x) b Hok) as (b1 & E1 & Hok1 & Hc1). rewrite He in Hc1.
    destruct (readInt_front n x [] b1) as (_ & b2 & E2 & _ & Hc2); [done..|by rewrite app_nil_r|].
    by exists b1, b2.
  - intros Hroom. destruct (prepend_ok (be_bytes n x) b Hok) as (b1 & E1 & Hok1 & Hc1).
    { by rewrite be_bytes_length. }
    destruct (readInt_front n x (content b) b1) as (Hp & b2 & E2 & _ & Hc2); [done..|]. by exists b1, b2.
Qed.

(** The room in front of a fresh buffer is enough for a length header. *)
Lemma integer_round_trip_witness :
  ∃ b1 b2, prependInt 4 (-2) (new_buffer 4) = Some b1 ∧ readInt 4 b1 = Some (b2, -2).
Proof.
  destruct (integer_round_trip 4 (-2) (new_buffer 4)) as [_ Hp].
  - set_solver.
  - vm_compute. split; [discriminate|reflexivity].
  - apply new_buffer_ok.
  - destruct Hp as (b1 & b2 & E1 & _ & E2 & _); [vm_compute; lia|]. exists b1, b2. split; [exact E1|exact E2].
Defined.
