(* ===== verification/Reactor.v ===== *)
(** * Channels and the poller of the network library

    [class Channel] ([network/src/Channel.cc], [network/include/network/Channel.h]),
    [class Poller] ([network/src/Poller.cc]) and the channel operations of
    [class EventLoop] ([network/src/EventLoop.cc]).  Channels are objects that
    the poller refers to by pointer: a store maps an object number to its
    members.  The interest list of the kernel is a map from descriptors to
    events, changed as epoll_ctl(2) documents.  A failed [assert] and
    [LOG(FATAL)] end the process: the operation is [None]. *)
From S2P Require Import Prelude.

(** The constants of <sys/epoll.h>. *)
Definition POLLIN : Z := 1.
Definition POLLPRI : Z := 2.
Definition POLLOUT : Z := 4.
Definition POLLERR : Z := 8.
Definition POLLHUP : Z := 16.
Definition POLLNVAL : Z := 32.
Definition POLLRDHUP : Z := 0x2000.

Definition NoneEvent : Z := 0.
Definition ReadEvent : Z := POLLIN.
Definition WriteEvent : Z := POLLOUT.

Definition kNew : Z := -1.
Definition kAdded : Z := 1.
Definition kDeleted : Z := 2.

Record Channel := MkChannel {
  fd_ : Z;
  events_ : Z;
  revents_ : Z;
  index_ : Z;
  addedToLoop_ : bool;
}.
#[export] Instance eta_channel : Eta Channel := fun c =>
  MkChannel (fd_ c) (events_ c) (revents_ c) (index_ c) (addedToLoop_ c).

Definition new_channel (fd : Z) : Channel := MkChannel fd 0 0 kNew false.

Definition isNoneEvent (c : Channel) : bool := events_ c =? NoneEvent.
Definition isWriting (c : Channel) : bool := negb (Z.land (events_ c) WriteEvent =? 0).
Definition isReading (c : Channel) : bool := negb (Z.land (events_ c) ReadEvent =? 0).

(** The poller with the kernel's interest list, and what the event loop knows
    while it handles events. *)
Record reactor := MkReactor {
  r_store : gmap nat Channel;
  r_channels : gmap Z nat;
  r_interest : gmap Z Z;
  r_event_list : Z;
  r_handling : bool;
  r_active : list nat;
  r_current : option nat;
}.
#[export] Instance eta_reactor : Eta reactor := fun r =>
  MkReactor (r_store r) (r_channels r) (r_interest r) (r_event_list r) (r_handling r) (r_active r) (r_current r).

Definition kInitEventListSize : Z := 16.
Definition new_reactor : reactor := MkReactor ∅ ∅ ∅ kInitEventListSize false [] None.

(** ** The poller *)

Inductive ctl_op := EPOLL_CTL_ADD | EPOLL_CTL_MOD | EPOLL_CTL_DEL.

(** epoll_ctl(2): a descriptor is added once, and changed or deleted only
    while it is there. *)
Definition epoll_ctl (op : ctl_op) (fd events : Z) (interest : gmap Z Z) : option (gmap Z Z) :=
  match op, interest !! fd with
  | EPOLL_CTL_ADD, None => Some (<[fd := events]> interest)
  | EPOLL_CTL_MOD, Some _ => Some (<[fd := events]> interest)
  | EPOLL_CTL_DEL, Some _ => Some (delete fd interest)
  | _, _ => None
  end.

(** [Poller::update]: a failed deletion is only logged. *)
Definition poller_update (op : ctl_op) (c : Channel) (r : reactor) : option reactor :=
  match epoll_ctl op (fd_ c) (events_ c) (r_interest r), op with
  | Some interest, _ => Some (r <| r_interest := interest |>)
  | None, EPOLL_CTL_DEL => Some r
  | None, _ => None
  end.

Definition set_channel (id : nat) (c : Channel) (r : reactor) : reactor :=
  r <| r_store := <[id := c]> (r_store r) |>.

Definition points_to (fd : Z) (id : nat) (r : reactor) : bool := bool_decide (r_channels r !! fd = Some id).

(** [Poller::updateChannel]. *)
Definition updateChannel (id : nat) (r : reactor) : option reactor :=
  c ← r_store r !! id;
  if (index_ c =? kNew) || (index_ c =? kDeleted) then
    r ← (if index_ c =? kNew then
           _ ← assertion (bool_decide (r_channels r !! fd_ c = None));
           Some (r <| r_channels := <[fd_ c := id]> (r_channels r) |>)
         else
           _ ← assertion (points_to (fd_ c) id r);
           Some r);
    let c := c <| index_ := kAdded |> in
    poller_update EPOLL_CTL_ADD c (set_channel id c r)
  else
    _ ← assertion (points_to (fd_ c) id r);
    _ ← assertion (index_ c =? kAdded);
    if isNoneEvent c then
      r ← poller_update EPOLL_CTL_DEL c r;
      Some (set_channel id (c <| index_ := kDeleted |>) r)
    else poller_update EPOLL_CTL_MOD c r.

(** [EventLoop::removeChannel] and [Poller::removeChannel]. *)
Definition removeChannel (id : nat) (r : reactor) : option reactor :=
  _ ← assertion (negb (r_handling r) || bool_decide (r_current r = Some id) || bool_decide (id ∉ r_active r));
  c ← r_store r !! id;
  _ ← assertion (points_to (fd_ c) id r);
  _ ← assertion (isNoneEvent c);
  _ ← assertion ((index_ c =? kAdded) || (index_ c =? kDeleted));
  let r := r <| r_channels := delete (fd_ c) (r_channels r) |> in
  r ← (if index_ c =? kAdded then poller_update EPOLL_CTL_DEL c r else Some r);
  Some (set_channel id (c <| index_ := kNew |>) r).

(** ** Channel operations *)

(** A change of the events of interest, then [Channel::update]. *)
Definition change_events (f : Z → Z) (id : nat) (r : reactor) : option reactor :=
  c ← r_store r !! id;
  updateChannel id (set_channel id (c <| events_ := f (events_ c) |> <| addedToLoop_ := true |>) r).

Definition enableReading : nat → reactor → option reactor := change_events (λ e, Z.lor e ReadEvent).
Definition disableReading : nat → reactor → option reactor := change_events (λ e, Z.land e (Z.lnot ReadEvent)).
Definition enableWriting : nat → reactor → option reactor := change_events (λ e, Z.lor e WriteEvent).
Definition disableWriting : nat → reactor → option reactor := change_events (λ e, Z.land e (Z.lnot WriteEvent)).
Definition disableAll : nat → reactor → option reactor := change_events (λ _, NoneEvent).

(** [Channel::remove]. *)
Definition remove (id : nat) (r : reactor) : option reactor :=
  c ← r_store r !! id;
  _ ← assertion (isNoneEvent c);
  removeChannel id (set_channel id (c <| addedToLoop_ := false |>) r).

(** The callbacks of [Channel::handleEvent], in order. *)
Inductive callback := CloseCallback | ReadCallback | WriteCallback | ErrorCallback.

Definition handleEvent (revents : Z) : list callback :=
  let has mask := negb (Z.land revents mask =? 0) in
  (if has POLLHUP && negb (has POLLIN) then [CloseCallback] else []) ++
  (if has (Z.lor POLLIN (Z.lor POLLPRI POLLRDHUP)) then [ReadCallback] else []) ++
  (if has POLLOUT then [WriteCallback] else []) ++
  (if has (Z.lor POLLERR POLLNVAL) then [ErrorCallback] else []).

(** [Poller::fillActiveChannels] on what [epoll_wait] has reported. *)
Fixpoint fillActiveChannels (ready : list (nat * Z)) (r : reactor) : option (reactor * list nat) :=
  match ready with
  | [] => Some (r, [])
  | (id, revents) :: ready =>
      c ← r_store r !! id;
      _ ← assertion (points_to (fd_ c) id r);
      '(r, active) ← fillActiveChannels ready (set_channel id (c <| revents_ := revents |>) r);
      Some (r, id :: active)
  end.

(** [Poller::poll]: the list of events doubles when it was filled. *)
Definition poll (ready : list (nat * Z)) (r : reactor) : option (reactor * list nat) :=
  let numEvents := Z.of_nat (length ready) in
  if 0 <? numEvents then
    _ ← assertion (numEvents <=? r_event_list r);
    '(r, active) ← fillActiveChannels ready r;
    Some (if numEvents =? r_event_list r then r <| r_event_list := r_event_list r * 2 |> else r, active)
  else Some (r, []).

(** ** The invariant *)

(** What the poller knows of a channel agrees with what the kernel knows. *)
Definition channel_ok (r : reactor) (id : nat) (c : Channel) : Prop :=
  (index_ c = kNew ∧ r_channels r !! fd_ c ≠ Some id) ∨
  (r_channels r !! fd_ c = Some id ∧ index_ c = kAdded ∧ r_interest r !! fd_ c = Some (events_ c)) ∨
  (r_channels r !! fd_ c = Some id ∧ index_ c = kDeleted ∧ r_interest r !! fd_ c = None ∧ events_ c = NoneEvent).

Record reactor_ok (r : reactor) : Prop := {
  ok_channels : ∀ id c, r_store r !! id = Some c → channel_ok r id c;
  ok_map : ∀ fd id, r_channels r !! fd = Some id → ∃ c, r_store r !! id = Some c ∧ fd_ c = fd;
  ok_interest : ∀ fd, is_Some (r_interest r !! fd) → is_Some (r_channels r !! fd);
}.

(** ** Lemmas *)

Lemma assertion_true b : b = true → assertion b = Some tt.
Proof. by intros ->. Qed.

(** A channel after a change of its events to [e], and the reactor with it. *)
Definition updated (e : Z) (c : Channel) : Channel :=
  c <| events_ := e |> <| addedToLoop_ := true |>
    <| index_ := if (index_ c =? kAdded) && (e =? NoneEvent) then kDeleted else kAdded |>.

Definition with_update (e : Z) (id : nat) (c : Channel) (r : reactor) : reactor :=
  r <| r_store := <[id := updated e c]> (r_store r) |>
    <| r_channels := <[fd_ c := id]> (r_channels r) |>
    <| r_interest := if (index_ c =? kAdded) && (e =? NoneEvent) then delete (fd_ c) (r_interest r)
                     else <[fd_ c := e]> (r_interest r) |>.

(** A channel may be registered when its descriptor is not in use. *)
Definition may_update (r : reactor) (id : nat) (c : Channel) : Prop :=
  index_ c = kNew → r_channels r !! fd_ c = None.

Lemma interest_free r fd : reactor_ok r → r_channels r !! fd = None → r_interest r !! fd = None.
Proof.
  intros Hr Hfd. destruct (r_interest r !! fd) eqn:E; [|done].
  destruct (ok_interest r Hr fd) as [id Hid]; [by eexists|congruence].
Qed.

Lemma change_events_eq f id c r :
  reactor_ok r → r_store r !! id = Some c → may_update r id c →
  change_events f id r = Some (with_update (f (events_ c)) id c r).
Proof.
  intros Hr Hc Hmay. unfold change_events, updateChannel, with_update, updated, may_update, points_to in *. rewrite Hc.
  cbn [mbind option_bind]. set (e := f (events_ c)).
  set (r1 := set_channel id _ r).
  assert (r_store r1 !! id = Some (c <| events_ := e |> <| addedToLoop_ := true |>)) as -> by apply lookup_insert_eq.
  unfold poller_update, epoll_ctl, isNoneEvent, r1, set_channel. cbn.
  destruct (ok_channels r Hr id c Hc) as [[Hi Hn]|[(Hm & Hi & Hint)|(Hm & Hi & Hint & Hev)]]; rewrite !Hi; cbn.
  - specialize (Hmay Hi). pose proof (interest_free r _ Hr Hmay) as Hfree.
    rewrite bool_decide_true by done. cbn. by rewrite Hfree, insert_insert_eq.
  - rewrite bool_decide_true by done. cbn. rewrite Hint, (insert_id (r_channels r)) by done.
    destruct (e =? NoneEvent); cbn; [by rewrite insert_insert_eq|done].
  - rewrite bool_decide_true by done. cbn. by rewrite Hint, insert_insert_eq, (insert_id (r_channels r)).
Qed.

(** Channels with the same descriptor: at most one is registered. *)
Lemma same_fd_new r id c id' c' :
  reactor_ok r → may_update r id c → r_store r !! id = Some c → r_store r !! id' = Some c' → id' ≠ id →
  fd_ c' = fd_ c → index_ c' = kNew.
Proof.
  intros Hr Hmay Hc Hc' Hne Hfd.
  destruct (ok_channels r Hr id' c' Hc') as [[Hi _]|Hreg]; [done|exfalso].
  assert (r_channels r !! fd_ c' = Some id') as Hm' by (destruct Hreg as [(? & _)|(? & _)]; done).
  rewrite Hfd in Hm'.
  destruct (ok_channels r Hr id c Hc) as [[Hi _]|[(Hm & _)|(Hm & _)]]; [|congruence..].
  specialize (Hmay Hi). congruence.
Qed.

Lemma with_update_ok e id c r :
  reactor_ok r → r_store r !! id = Some c → may_update r id c → reactor_ok (with_update e id c r).
Proof.
  intros Hr Hc Hmay. split.
  - intros id' c'. cbn. destruct (decide (id' = id)) as [->|Hne].
    + rewrite lookup_insert_eq. intros [= <-]. unfold channel_ok, with_update, updated. cbn. rewrite !lookup_insert_eq. right.
      destruct ((index_ c =? kAdded) && (e =? NoneEvent)) eqn:E.
      * right. rewrite lookup_delete_eq. apply andb_true_iff in E as [_ ->%Z.eqb_eq]. done.
      * left. by rewrite lookup_insert_eq.
    + rewrite lookup_insert_ne by done. intros Hc'.
      destruct (decide (fd_ c' = fd_ c)) as [Hfd|Hfd].
      * left. split; [by apply (same_fd_new r id c id' c')|]. cbn. rewrite Hfd, lookup_insert_eq. congruence.
      * pose proof (ok_channels r Hr id' c' Hc') as Hok. unfold channel_ok in *. cbn.
        rewrite lookup_insert_ne by done.
        destruct ((index_ c =? kAdded) && (e =? NoneEvent)); [by rewrite lookup_delete_ne|by rewrite lookup_insert_ne].
  - intros fd id'. cbn. destruct (decide (fd = fd_ c)) as [->|Hfd].
    + rewrite lookup_insert_eq. intros [= <-]. exists (updated e c). by rewrite lookup_insert_eq.
    + rewrite lookup_insert_ne by done. intros Hm. destruct (ok_map r Hr fd id' Hm) as (c' & Hc' & <-).
      exists c'. split; [|done]. rewrite lookup_insert_ne; [done|]. congruence.
  - intros fd. cbn. destruct (decide (fd = fd_ c)) as [->|Hfd].
    + intros _. rewrite lookup_insert_eq. by eexists.
    + rewrite lookup_insert_ne by done. intros Hi. apply (ok_interest r Hr).
      destruct ((index_ c =? kAdded) && (e =? NoneEvent)); [by rewrite lookup_delete_ne in Hi|by rewrite lookup_insert_ne in Hi].
Qed.

(** The reactor after the removal of a channel. *)
Definition with_removal (id : nat) (c : Channel) (r : reactor) : reactor :=
  r <| r_store := <[id := c <| addedToLoop_ := false |> <| index_ := kNew |>]> (r_store r) |>
    <| r_channels := delete (fd_ c) (r_channels r) |>
    <| r_interest := delete (fd_ c) (r_interest r) |>.

Definition may_remove (r : reactor) (id : nat) (c : Channel) : Prop :=
  events_ c = NoneEvent ∧ index_ c ≠ kNew ∧ (r_handling r = false ∨ r_current r = Some id).

Lemma remove_eq id c r :
  reactor_ok r → r_store r !! id = Some c → may_remove r id c → remove id r = Some (with_removal id c r).
Proof.
  intros Hr Hc (Hev & Hne & Hh). unfold remove, removeChannel, with_removal, points_to, isNoneEvent. rewrite Hc.
  cbn [mbind option_bind]. rewrite Hev. cbn [assertion Z.eqb NoneEvent mbind option_bind].
  rewrite assertion_true by (cbn; destruct Hh as [->| ->]; [done|by rewrite (bool_decide_true (Some id = Some id)), orb_true_r]).
  cbn. rewrite lookup_insert_eq. cbn. rewrite Hev. cbn.
  destruct (ok_channels r Hr id c Hc) as [[Hi _]|[(Hm & Hi & Hint)|(Hm & Hi & Hint & _)]]; [done|..].
  - rewrite bool_decide_true by done. cbn. rewrite Hi. cbn.
    unfold poller_update, epoll_ctl, set_channel. cbn. rewrite Hint. cbn. by rewrite insert_insert_eq.
  - rewrite bool_decide_true by done. cbn. rewrite Hi. cbn.
    unfold set_channel. cbn. by rewrite insert_insert_eq, (delete_id (r_interest r)).
Qed.

Lemma with_removal_ok id c r :
  reactor_ok r → r_store r !! id = Some c → may_remove r id c → reactor_ok (with_removal id c r).
Proof.
  intros Hr Hc (Hev & Hne & Hh).
  assert (r_channels r !! fd_ c = Some id) as Hm.
  { destruct (ok_channels r Hr id c Hc) as [[Hi _]|[(Hm & _)|(Hm & _)]]; done. }
  assert (may_update r id c) as Hmay by (by intros ?).
  split.
  - intros id' c'. cbn. destruct (decide (id' = id)) as [->|Hid].
    + rewrite lookup_insert_eq. intros [= <-]. left. split; [done|]. cbn. by rewrite lookup_delete_eq.
    + rewrite lookup_insert_ne by done. intros Hc'. destruct (decide (fd_ c' = fd_ c)) as [Hfd|Hfd].
      * left. split; [|cbn; by rewrite Hfd, lookup_delete_eq]. by apply (same_fd_new r id c id' c').
      * pose proof (ok_channels r Hr id' c' Hc') as Hok. unfold channel_ok in *. cbn. by rewrite !lookup_delete_ne.
  - intros fd id'. cbn. intros [Hfd Hl]%lookup_delete_Some. destruct (ok_map r Hr fd id' Hl) as (c' & Hc' & <-).
    exists c'. split; [|done]. rewrite lookup_insert_ne; [done|]. congruence.
  - intros fd [ev He]. cbn in *. apply lookup_delete_Some in He as [Hfd He]. rewrite lookup_delete_ne by done.
    apply (ok_interest r Hr). by eexists.
Qed.

(** A new channel object. *)
Lemma new_channel_ok id fd r :
  reactor_ok r → r_store r !! id = None → reactor_ok (set_channel id (new_channel fd) r).
Proof.
  intros Hr Hid. assert (∀ fd', r_channels r !! fd' ≠ Some id) as Hno.
  { intros fd' Hm. destruct (ok_map r Hr fd' id Hm) as (c & Hc & _). congruence. }
  split.
  - intros id' c'. cbn. destruct (decide (id' = id)) as [->|Hne].
    + rewrite lookup_insert_eq. intros [= <-]. left. split; [done|]. apply Hno.
    + rewrite lookup_insert_ne by done. apply (ok_channels r Hr).
  - intros fd' id' Hm. cbn in *. destruct (ok_map r Hr fd' id' Hm) as (c' & Hc' & Hfd).
    exists c'. split; [|done]. rewrite lookup_insert_ne; [done|]. intros <-. by destruct (Hno fd').
  - apply (ok_interest r Hr).
Qed.

(** [Channel::~Channel] in the loop's thread, outside of [handleEvent]. *)
Definition destroy_channel (id : nat) (r : reactor) : option reactor :=
  c ← r_store r !! id;
  _ ← assertion (negb (addedToLoop_ c));
  _ ← assertion (negb (points_to (fd_ c) id r));
  Some (r <| r_store := delete id (r_store r) |>).

Lemma destroy_channel_ok id c r :
  reactor_ok r → r_store r !! id = Some c → addedToLoop_ c = false → index_ c = kNew →
  destroy_channel id r = Some (r <| r_store := delete id (r_store r) |>) ∧ reactor_ok (r <| r_store := delete id (r_store r) |>).
Proof.
  intros Hr Hc Ha Hi. assert (r_channels r !! fd_ c ≠ Some id) as Hno.
  { destruct (ok_channels r Hr id c Hc) as [[_ ?]|[(_ & Hx & _)|(_ & Hx & _)]]; [done|..]; rewrite Hi in Hx; done. }
  split.
  - unfold destroy_channel, points_to. rewrite Hc. cbn. rewrite Ha. cbn. by rewrite bool_decide_false.
  - split.
    + intros id' c'. cbn. intros [Hne Hc']%lookup_delete_Some. exact (ok_channels r Hr id' c' Hc').
    + intros fd id'. cbn. intros Hm. destruct (ok_map r Hr fd id' Hm) as (c' & Hc' & <-). exists c'. split; [|done].
      rewrite lookup_delete_ne; [done|]. congruence.
    + apply (ok_interest r Hr).
Qed.

(** The event loop while [todo] is left of the callbacks of channel [id]. *)
Definition handling (todo : list callback) (id : nat) (r : reactor) : reactor :=
  match todo with
  | [] => r <| r_handling := false |> <| r_active := [] |> <| r_current := None |>
  | _ => r <| r_handling := true |> <| r_active := [id] |> <| r_current := Some id |>
  end.

Lemma handling_same todo id r :
  r_store (handling todo id r) = r_store r ∧ r_channels (handling todo id r) = r_channels r ∧
  r_interest (handling todo id r) = r_interest r ∧
  r_handling (handling todo id r) = match todo with [] => false | _ => true end.
Proof. by destruct todo. Qed.

Lemma handling_ok todo id r : reactor_ok r → reactor_ok (handling todo id r).
Proof.
  intros Hr. destruct (handling_same todo id r) as (E1 & E2 & E3 & _). split; unfold channel_ok; rewrite ?E1, ?E2, ?E3; apply Hr.
Qed.

(** What the kernel does not report. *)
Lemma not_reported revents interest mask :
  Z.land revents (Z.lnot interest) = 0 → Z.land (Z.lnot interest) mask = mask → Z.land revents mask = 0.
Proof. intros Hr Hm. by rewrite <- Hm, Z.land_assoc, Hr. Qed.

(** What [epoll_wait] can report: registered channels, with events they asked
    for or errors and hang-ups, which are always reported. *)
Definition reportable (r : reactor) (id : nat) (revents : Z) : Prop :=
  ∃ c ev, r_store r !! id = Some c ∧ r_channels r !! fd_ c = Some id ∧ r_interest r !! fd_ c = Some ev ∧
    Z.land revents (Z.lnot (Z.lor ev (Z.lor POLLERR POLLHUP))) = 0.

(** Only the received events of channels differ. *)
Definition same_but_revents (r r' : reactor) : Prop :=
  r_channels r' = r_channels r ∧ r_interest r' = r_interest r ∧ r_handling r' = r_handling r ∧
  r_active r' = r_active r ∧ r_current r' = r_current r ∧
  ∀ id, (λ c, c <| revents_ := 0 |>) <$> r_store r' !! id = (λ c, c <| revents_ := 0 |>) <$> r_store r !! id.

Lemma same_but_revents_lookup r r' id c' :
  same_but_revents r r' → r_store r' !! id = Some c' →
  ∃ c, r_store r !! id = Some c ∧ fd_ c' = fd_ c ∧ events_ c' = events_ c ∧ index_ c' = index_ c.
Proof.
  intros (_ & _ & _ & _ & _ & Hs) Hc'. specialize (Hs id). rewrite Hc' in Hs.
  destruct (r_store r !! id) as [c|]; [|done]. exists c. injection Hs as ???. done.
Qed.

Lemma same_but_revents_sym r r' : same_but_revents r r' → same_but_revents r' r.
Proof. intros (? & ? & ? & ? & ? & Hs). split_and!; try done. Qed.

Lemma same_but_revents_ok r r' : same_but_revents r r' → reactor_ok r → reactor_ok r'.
Proof.
  intros Hs Hr. pose proof Hs as (Hch & Hin & _). split.
  - intros id c' Hc'. destruct (same_but_revents_lookup _ _ _ _ Hs Hc') as (c & Hc & Hfd & He & Hi).
    pose proof (ok_channels r Hr id c Hc). unfold channel_ok in *. by rewrite Hch, Hin, Hfd, He, Hi.
  - intros fd id Hm. rewrite Hch in Hm. destruct (ok_map r Hr fd id Hm) as (c & Hc & Hfd).
    destruct (same_but_revents_lookup _ _ _ _ (same_but_revents_sym _ _ Hs) Hc) as (c' & Hc' & Hfd' & _).
    exists c'. split; [done|congruence].
  - rewrite Hch, Hin. apply (ok_interest r Hr).
Qed.

Lemma set_revents_same id c revents r :
  r_store r !! id = Some c → same_but_revents r (set_channel id (c <| revents_ := revents |>) r).
Proof.
  intros Hc. split_and!; try done. intros id'. cbn. destruct (decide (id' = id)) as [->|Hne].
  - by rewrite lookup_insert_eq, Hc.
  - by rewrite lookup_insert_ne.
Qed.

Lemma same_but_revents_trans r1 r2 r3 : same_but_revents r1 r2 → same_but_revents r2 r3 → same_but_revents r1 r3.
Proof.
  intros (? & ? & ? & ? & ? & Hs1) (? & ? & ? & ? & ? & Hs2). split_and!; congruence.
Qed.

Lemma fillActiveChannels_ok ready : ∀ r,
  Forall (λ e, reportable r e.1 e.2) ready →
  ∃ r', fillActiveChannels ready r = Some (r', ready.*1) ∧ same_but_revents r r'.
Proof.
  induction ready as [|[id revents] ready IH]; intros r Hall; cbn [fillActiveChannels].
  { exists r. split; [done|]. by split_and!. }
  apply Forall_cons in Hall as [(c & ev & Hc & Hm & Hi & Hrev) Hall]. cbn [fst snd] in *. rewrite Hc.
  cbn [mbind option_bind]. unfold points_to. rewrite bool_decide_true by done. cbn [assertion mbind option_bind].
  pose proof (set_revents_same id c revents r Hc) as Hs.
  destruct (IH (set_channel id (c <| revents_ := revents |>) r)) as (r' & -> & Hs').
  { eapply Forall_impl; [exact Hall|]. intros [id' rev'] (c' & ev' & Hc' & Hm' & Hi' & Hrev'). cbn [fst snd] in *.
    destruct (same_but_revents_lookup _ _ id' c' (same_but_revents_sym _ _ Hs) Hc') as (c'' & Hc'' & Hfd & _).
    exists c'', ev'. split_and!; [done| |..|done]; by rewrite <- Hfd. }
  cbn [mbind option_bind]. exists r'. split; [done|]. by apply (same_but_revents_trans _ _ _ Hs).
Qed.

Lemma poll_ok ready r :
  Forall (λ e, reportable r e.1 e.2) ready → Z.of_nat (length ready) <= r_event_list r →
  ∃ r', poll ready r = Some (r', ready.*1) ∧ same_but_revents r r'.
Proof.
  intros Hall Hlen. unfold poll. destruct (Z.ltb_spec 0 (Z.of_nat (length ready))) as [Hpos|Hzero].
  - rewrite (proj2 (Z.leb_le _ _)) by done. cbn [assertion mbind option_bind].
    destruct (fillActiveChannels_ok ready r Hall) as (r' & -> & Hs). cbn [mbind option_bind].
    eexists. split; [done|]. by destruct (_ =? _).
  - destruct ready; [|cbn in Hzero; lia]. exists r. split; [done|]. by split_and!.
Qed.

(** ** Properties *)

(** The operations on channels, as the other classes use them. *)
Inductive reactor_op :=
  | NewChannel (id : nat) (fd : Z)
  | EnableReading (id : nat)
  | DisableReading (id : nat)
  | EnableWriting (id : nat)
  | DisableWriting (id : nat)
  | DisableAll (id : nat)
  | Remove (id : nat)
  | Poll (ready : list (nat * Z)).

Definition run_reactor_op (op : reactor_op) (r : reactor) : option reactor :=
  match op with
  | NewChannel id fd => Some (set_channel id (new_channel fd) r)
  | EnableReading id => enableReading id r
  | DisableReading id => disableReading id r
  | EnableWriting id => enableWriting id r
  | DisableWriting id => disableWriting id r
  | DisableAll id => disableAll id r
  | Remove id => remove id r
  | Poll ready => fst <$> poll ready r
  end.

(** What the callers have to respect: objects are new, a channel is registered
    under a descriptor that is not in use and removed when it is registered
    and has no events left; the kernel reports what is registered. *)
Definition reactor_allowed (op : reactor_op) (r : reactor) : Prop :=
  match op with
  | NewChannel id _ => r_store r !! id = None
  | EnableReading id | DisableReading id | EnableWriting id | DisableWriting id | DisableAll id =>
      ∃ c, r_store r !! id = Some c ∧ may_update r id c
  | Remove id => ∃ c, r_store r !! id = Some c ∧ may_remove r id c
  | Poll ready => Forall (λ e, reportable r e.1 e.2) ready ∧ Z.of_nat (length ready) <= r_event_list r
  end.

Lemma change_events_ok f id r :
  reactor_ok r → (∃ c, r_store r !! id = Some c ∧ may_update r id c) →
  ∃ r', change_events f id r = Some r' ∧ reactor_ok r'.
Proof.
  intros Hr (c & Hc & Hmay). eexists. split; [by apply change_events_eq|by apply with_update_ok].
Qed.

Lemma run_reactor_op_ok op r :
  reactor_ok r → reactor_allowed op r → ∃ r', run_reactor_op op r = Some r' ∧ reactor_ok r'.
Proof.
  intros Hr Ha. destruct op as [id fd|id|id|id|id|id|id|ready]; cbn [run_reactor_op reactor_allowed] in *;
    try (by apply change_events_ok).
  - eexists. split; [done|by apply new_channel_ok].
  - destruct Ha as (c & Hc & Hmay). eexists. split; [by apply remove_eq|by apply with_removal_ok].
  - destruct Ha as [Hall Hlen]. destruct (poll_ok ready r Hall Hlen) as (r' & -> & Hs). exists r'. split; [done|].
    by apply (same_but_revents_ok r).
Qed.

Lemma new_reactor_ok : reactor_ok new_reactor.
Proof.
  split; cbn.
  - intros id c. by rewrite lookup_empty.
  - intros fd id. by rewrite lookup_empty.
  - intros fd. rewrite lookup_empty. by intros [? ?].
Qed.

Definition reactor_step (r r' : reactor) : Prop := ∃ op, reactor_allowed op r ∧ run_reactor_op op r = Some r'.

Lemma reachable_reactor_ok r : rtc reactor_step new_reactor r → reactor_ok r.
Proof.
  intros Hrun. refine (rtc_preserves reactor_step reactor_ok _ _ _ Hrun new_reactor_ok).
  intros x y (op & Ha & E) Hx. destruct (run_reactor_op_ok op x Hx Ha) as (y' & E' & Hy). congruence.
Qed.

(** C32.  The poller and the kernel agree: after any sequence of channel
    operations the kernel's interest list has an entry exactly for the
    channels marked as added, with the events of the channel; so whatever the
    kernel reports belongs to a live channel, and no assertion of the poller
    and no call of epoll_ctl fails. *)
Theorem poller_mirrors_kernel (r : reactor) (op : reactor_op) :
  rtc reactor_step new_reactor r →
  (∀ fd ev, r_interest r !! fd = Some ev ↔
     ∃ id c, r_store r !! id = Some c ∧ r_channels r !! fd = Some id ∧ fd_ c = fd ∧ index_ c = kAdded ∧ events_ c = ev) ∧
  (reactor_allowed op r → is_Some (run_reactor_op op r)).
Proof.
  intros Hrun. pose proof (reachable_reactor_ok r Hrun) as Hr. split.
  - intros fd ev. split.
    + intros Hi. destruct (ok_interest r Hr fd) as [id Hm]; [by eexists|].
      destruct (ok_map r Hr fd id Hm) as (c & Hc & <-). exists id, c.
      destruct (ok_channels r Hr id c Hc) as [[_ Hn]|[(_ & ? & Hi')|(_ & _ & Hi' & _)]]; [done| |congruence].
      split_and!; congruence.
    + intros (id & c & Hc & Hm & <- & Hadded & <-).
      destruct (ok_channels r Hr id c Hc) as [[Hi _]|[(_ & _ & Hi)|(_ & Hi & _)]]; [|done|]; rewrite Hadded in Hi; done.
  - intros Ha. destruct (run_reactor_op_ok op r Hr Ha) as (r' & E & _). by eexists.
Qed.

(** A channel that is being read. *)
Definition watching : reactor :=
  match enableReading 0 (set_channel 0 (new_channel 5) new_reactor) with Some r => r | None => new_reactor end.

Lemma poller_mirrors_kernel_witness : r_interest watching !! 5 = Some ReadEvent ∧ is_Some (run_reactor_op (DisableAll 0) watching).
Proof.
  destruct (poller_mirrors_kernel watching (DisableAll 0)) as [Hi Hop].
  - apply (rtc_l _ _ (set_channel 0 (new_channel 5) new_reactor)).
    + exists (NewChannel 0 5). split; [reflexivity|reflexivity].
    + apply rtc_once. exists (EnableReading 0). split; [|reflexivity].
      exists (new_channel 5). split; [reflexivity|]. intros _. reflexivity.
  - split.
    + apply Hi. exists 0%nat, (MkChannel 5 ReadEvent 0 kAdded true).
      split_and!; reflexivity.
    + apply Hop. eexists. split; [reflexivity|]. intros Hnew. discriminate Hnew.
Defined.

(** Disabling a channel twice registers it again, with no events: the kernel
    still reports hang-ups and errors of a channel that is meant to be off. *)
Lemma disable_twice_registers :
  match disableAll 0 watching with
  | Some r => r_interest r !! 5 = None ∧
      match disableAll 0 r with Some r => r_interest r !! 5 = Some NoneEvent | None => False end
  | None => False
  end.
Proof. vm_compute. done. Qed.
