(* ===== verification/Connection.v ===== *)
(** * TCP connections

    [class TcpConnection] ([network/src/TcpConnection.cc]) on the channel of
    its socket ([Reactor]) and its two buffers ([NetBuffer]), together with
    what the server does when it is told of a close
    ([TcpServer::removeConnection]) and the functors the connection leaves to
    the event loop.

    One connection is modelled; other channels of the loop may do anything
    that leaves this one alone.  A failed [assert] is [None].  What the socket
    answers to [readv] and [write] is an argument.  The message callback is
    that of the unit manager ([onMessage]) and of the library's default: it
    takes everything out of the input buffer.  What can be observed from
    outside is kept in a log. *)
From S2P Require Import Prelude NetBuffer Reactor.

Inductive StateE := kDisconnected | kConnecting | kConnected | kDisconnecting.
#[export] Instance StateE_eq_dec : EqDecision StateE.
Proof. solve_decision. Defined.

(** What is left to the event loop. *)
Inductive functor :=
  | SendInLoop (message : bytes)
  | ShutdownInLoop
  | ForceCloseInLoop
  | StartReadInLoop
  | StopReadInLoop
  | ConnectDestroyed
  | WriteComplete.

(** What can be observed. *)
Inductive note :=
  | Up                        (* connectionCallback_ of a connection *)
  | Down                      (* connectionCallback_ of a disconnection *)
  | Closed                    (* closeCallback_ *)
  | Received (data : bytes)   (* the kernel has delivered *)
  | Message (text : bytes)    (* messageCallback_ *)
  | Accepted (data : bytes)   (* a message to send *)
  | Written (data : bytes)    (* the kernel has taken *)
  | Fault                     (* the peer is gone, output is dropped *)
  | ShutdownWrite             (* no more output *)
  | SocketError.

Record connection := MkConnection {
  state_ : StateE;
  reading_ : bool;
  channel_ : nat;
  inputBuffer_ : Buffer;
  outputBuffer_ : Buffer;
  writeCompleteCallback_ : bool;
  n_reactor : reactor;
  n_queue : list functor;
  n_todo : list callback;
  n_removal : bool;
  n_log : list note;
}.
#[export] Instance eta_connection : Eta connection := fun c =>
  MkConnection (state_ c) (reading_ c) (channel_ c) (inputBuffer_ c) (outputBuffer_ c) (writeCompleteCallback_ c)
    (n_reactor c) (n_queue c) (n_todo c) (n_removal c) (n_log c).

(** The answer of the socket: an error number, or how many bytes it took, or
    the bytes it had. *)
Definition EWOULDBLOCK : Z := 11.
Definition EPIPE : Z := 32.
Definition ECONNRESET : Z := 104.

Record io := MkIo {
  io_write : Z + nat;
  io_read : Z + bytes;
}.

(** ** Small steps *)

Definition note_that (n : note) (c : connection) : connection := c <| n_log := n_log c ++ [n] |>.
Definition queueInLoop (f : functor) (c : connection) : connection := c <| n_queue := n_queue c ++ [f] |>.
Definition setState (s : StateE) (c : connection) : connection := c <| state_ := s |>.

Definition on_channel (op : nat → reactor → option reactor) (c : connection) : option connection :=
  r ← op (channel_ c) (n_reactor c);
  Some (c <| n_reactor := r |>).

Definition the_channel (c : connection) : option Channel := r_store (n_reactor c) !! channel_ c.

Definition is_state (l : list StateE) (c : connection) : bool := bool_decide (state_ c ∈ l).

(** ** Output *)

Definition complete (c : connection) : connection :=
  if writeCompleteCallback_ c then queueInLoop WriteComplete c else c.

(** The direct write of [sendInLoop]: how much was written and whether the
    peer is gone. *)
Definition write_directly (wr : Z + nat) (data : bytes) (c : connection) : connection * nat * bool :=
  match wr with
  | inr n =>
      let c := note_that (Written (take n data)) c in
      (if (length data - n =? 0)%nat then complete c else c, n, false)
  | inl errno =>
      if negb (errno =? EWOULDBLOCK) && ((errno =? EPIPE) || (errno =? ECONNRESET))
      then (note_that Fault c, 0%nat, true) else (c, 0%nat, false)
  end.

Definition sendInLoop (wr : Z + nat) (data : bytes) (c : connection) : option connection :=
  if is_state [kDisconnected] c then Some c
  else
    let c := note_that (Accepted data) c in
    ch ← the_channel c;
    let '(c, nwrote, faultError) :=
      if negb (isWriting ch) && (readableBytes (outputBuffer_ c) =? 0)%nat
      then write_directly wr data c else (c, 0%nat, false) in
    let remaining := (length data - nwrote)%nat in
    if negb faultError && (0 <? remaining)%nat then
      out ← append (drop nwrote data) (outputBuffer_ c);
      let c := c <| outputBuffer_ := out |> in
      if negb (isWriting ch) then on_channel enableWriting c else Some c
    else Some c.

(** [send] of a buffer, which is emptied. *)
Definition send (in_loop : bool) (wr : Z + nat) (message : bytes) (c : connection) : option connection :=
  if is_state [kConnected] c then
    if in_loop then sendInLoop wr message c else Some (queueInLoop (SendInLoop message) c)
  else Some c.

(** ** Closing *)

Definition shutdownInLoop (c : connection) : option connection :=
  ch ← the_channel c;
  Some (if isWriting ch then c else note_that ShutdownWrite c).

(** [shutdown], [forceClose] and [forceCloseWithDelay] test [state_] and write
    it.  On the thread of the loop nothing comes between the two; on another
    thread the loop may ([close_race] at the end of the file), so they are also
    given apart. *)
Definition shutdown_commit (in_loop : bool) (c : connection) : option connection :=
  let c := setState kDisconnecting c in
  if in_loop then shutdownInLoop c else Some (queueInLoop ShutdownInLoop c).

Definition shutdown (in_loop : bool) (c : connection) : option connection :=
  if is_state [kConnected] c then shutdown_commit in_loop c else Some c.

(** [closeCallback_] is [TcpServer::removeConnection], which has to reach the
    loop of the server first. *)
Definition handleClose (c : connection) : option connection :=
  _ ← assertion (is_state [kConnected; kDisconnecting] c);
  c ← on_channel disableAll (setState kDisconnected c);
  Some (note_that Closed (note_that Down c) <| n_removal := true |>).

Definition forceClose_commit (c : connection) : connection := queueInLoop ForceCloseInLoop (setState kDisconnecting c).

Definition forceClose (c : connection) : connection :=
  if is_state [kConnected; kDisconnecting] c then forceClose_commit c else c.

Definition forceCloseWithDelay (c : connection) : connection :=
  if is_state [kConnected; kDisconnecting] c then setState kDisconnecting c else c.

Definition forceCloseInLoop (c : connection) : option connection :=
  if is_state [kConnected; kDisconnecting] c then handleClose c else Some c.

(** [TcpServer::removeConnectionInLoop] on the loop of the server. *)
Definition removeConnectionInLoop (c : connection) : connection :=
  queueInLoop ConnectDestroyed c <| n_removal := false |>.

(** ** Reading *)

Definition startReadInLoop (c : connection) : option connection :=
  ch ← the_channel c;
  if negb (reading_ c) || negb (isReading ch) then
    c ← on_channel enableReading c;
    Some (c <| reading_ := true |>)
  else Some c.

Definition stopReadInLoop (c : connection) : option connection :=
  ch ← the_channel c;
  if reading_ c || isReading ch then
    c ← on_channel disableReading c;
    Some (c <| reading_ := false |>)
  else Some c.

(** ** Start and end *)

Definition connectEstablished (c : connection) : option connection :=
  _ ← assertion (is_state [kConnecting] c);
  c ← on_channel enableReading (setState kConnected c);
  Some (note_that Up c).

Definition connectDestroyed (c : connection) : option connection :=
  c ← (if is_state [kConnected] c then
         c ← on_channel disableAll (setState kDisconnected c);
         Some (note_that Down c)
       else Some c);
  on_channel remove c.

(** ** Events of the socket *)

Definition handleError (c : connection) : connection := note_that SocketError c.

Definition handleRead (got : Z + bytes) (c : connection) : option connection :=
  '(input, n) ← readFd got (inputBuffer_ c);
  let c := c <| inputBuffer_ := input |> in
  if 0 <? n then
    let c := note_that (Received (match got with inr data => data | inl _ => [] end)) c in
    '(input, text) ← retrieveAllAsString (inputBuffer_ c);
    Some (note_that (Message text) (c <| inputBuffer_ := input |>))
  else if n =? 0 then handleClose c
  else Some (handleError c).

Definition handleWrite (wr : Z + nat) (c : connection) : option connection :=
  ch ← the_channel c;
  if isWriting ch then
    match wr with
    | inr (S m as n) =>
        let c := note_that (Written (peek n (outputBuffer_ c))) c in
        out ← retrieve n (outputBuffer_ c);
        let c := c <| outputBuffer_ := out |> in
        if (readableBytes out =? 0)%nat then
          c ← on_channel disableWriting c;
          let c := complete c in
          if is_state [kDisconnecting] c then shutdownInLoop c else Some c
        else Some c
    | _ => Some c
    end
  else Some c.

Definition run_callback (x : io) (cb : callback) (c : connection) : option connection :=
  match cb with
  | CloseCallback => handleClose c
  | ReadCallback => handleRead (io_read x) c
  | WriteCallback => handleWrite (io_write x) c
  | ErrorCallback => Some (handleError c)
  end.

Definition run_functor (x : io) (f : functor) (c : connection) : option connection :=
  match f with
  | SendInLoop message => sendInLoop (io_write x) message c
  | ShutdownInLoop => shutdownInLoop c
  | ForceCloseInLoop => forceCloseInLoop c
  | StartReadInLoop => startReadInLoop c
  | StopReadInLoop => stopReadInLoop c
  | ConnectDestroyed => connectDestroyed c
  | WriteComplete => Some c
  end.

(** ** Runs *)

Definition new_connection (id : nat) (r : reactor) : connection :=
  MkConnection kConnecting true id (new_buffer kInitialSize) (new_buffer kInitialSize) false r [] [] false [].

(** What happens to a connection: the server establishes it; the kernel
    reports events, whose callbacks run one after the other; then the event
    loop runs what was left to it, in order; meanwhile the program sends,
    shuts down and closes, from the loop's thread or another one; the server
    learns of a close; other channels are used. *)
Inductive action :=
  | Establish
  | Report (revents : Z)
  | Callback (x : io)
  | Functor (x : io)
  | Send (in_loop : bool) (x : io) (message : bytes)
  | Shutdown (in_loop : bool)
  | ForceClose
  | ServerRemoves
  | OtherChannels (r : reactor)
  | StartRead (in_loop : bool)
  | StopRead (in_loop : bool)
  | ForceCloseWithDelay
  | ServerDestroyed.

Definition next_todo (todo : list callback) (c : connection) : connection :=
  c <| n_todo := todo |> <| n_reactor ::= handling todo (channel_ c) |>.

Definition run_in_loop (in_loop : bool) (f : functor) (c : connection) : option connection :=
  if in_loop then run_functor (MkIo (inl EWOULDBLOCK) (inl EWOULDBLOCK)) f c else Some (queueInLoop f c).

Definition run_action (a : action) (c : connection) : option connection :=
  match a with
  | Establish => connectEstablished c
  | Report revents =>
      '(r, _) ← poll [(channel_ c, revents)] (n_reactor c);
      Some (next_todo (handleEvent revents) (c <| n_reactor := r |>))
  | Callback x =>
      match n_todo c with
      | cb :: todo => c ← run_callback x cb c; Some (next_todo todo c)
      | [] => Some c
      end
  | Functor x =>
      match n_queue c with
      | f :: queue => run_functor x f (c <| n_queue := queue |>)
      | [] => Some c
      end
  | Send in_loop x message => send in_loop (io_write x) message c
  | Shutdown in_loop => shutdown in_loop c
  | ForceClose => Some (forceClose c)
  | ServerRemoves => Some (removeConnectionInLoop c)
  | OtherChannels r => Some (c <| n_reactor := r |>)
  | StartRead in_loop => run_in_loop in_loop StartReadInLoop c
  | StopRead in_loop => run_in_loop in_loop StopReadInLoop c
  | ForceCloseWithDelay => Some (forceCloseWithDelay c)
  | ServerDestroyed => connectDestroyed c
  end.

(** The socket takes at most what it is given. *)
Definition takes_at_most (n : nat) (x : io) : Prop := match io_write x with inr m => (m <= n)%nat | inl _ => True end.

(** When an action can happen.  The last four are left out: the program does
    not use them (see the end of the file for what they do). *)
Definition enabled (a : action) (c : connection) : Prop :=
  match a with
  | Establish => state_ c = kConnecting
  | Report revents => n_todo c = [] ∧ reportable (n_reactor c) (channel_ c) revents ∧ 1 <= r_event_list (n_reactor c)
  | Callback x => takes_at_most (length (content (outputBuffer_ c))) x
  | Functor x => n_todo c = [] ∧ match n_queue c with SendInLoop m :: _ => takes_at_most (length m) x | _ => True end
  | Send _ x message => takes_at_most (length message) x
  | Shutdown _ | ForceClose => True
  | ServerRemoves => n_removal c = true
  | OtherChannels r =>
      reactor_ok r ∧ r_store r !! channel_ c = the_channel c ∧ r_handling r = r_handling (n_reactor c) ∧
      ∀ ch, the_channel c = Some ch → r_channels r !! fd_ ch = r_channels (n_reactor c) !! fd_ ch
  | _ => False
  end.

Definition connection_step (c c' : connection) : Prop := ∃ a, enabled a c ∧ run_action a c = Some c'.

(** The steps when the connection is closed and shut down on the thread of its
    loop only: then [ForceClose] and [Shutdown] are not interrupted.  Sends may
    come from any thread. *)
Definition on_loop_thread (a : action) : Prop := match a with Shutdown in_loop => in_loop = true | _ => True end.

Definition loop_thread_step (c c' : connection) : Prop := ∃ a, enabled a c ∧ on_loop_thread a ∧ run_action a c = Some c'.

(** ** What the log says *)

Definition concat_notes (f : note → bytes) (log : list note) : bytes := concat (f <$> log).
Definition accepted : list note → bytes := concat_notes (λ n, match n with Accepted d => d | _ => [] end).
Definition written : list note → bytes := concat_notes (λ n, match n with Written d => d | _ => [] end).
Definition received : list note → bytes := concat_notes (λ n, match n with Received d => d | _ => [] end).
Definition delivered : list note → bytes := concat_notes (λ n, match n with Message d => d | _ => [] end).

Definition is_lifecycle (n : note) : bool := match n with Up | Down | Closed => true | _ => false end.
Definition lifecycle (log : list note) : list note := List.filter is_lifecycle log.

(** ** Lemmas on logs *)

(** [rest] is the output that was accepted and not written yet. *)
Definition log_ok (rest : bytes) (log : list note) : Prop :=
  (Fault ∈ log ∨ written log ++ rest = accepted log) ∧ received log = delivered log ∧
  ∀ pre post, log = pre ++ ShutdownWrite :: post → Down ∈ pre ∨ Fault ∈ pre ∨ written pre = accepted pre.

Lemma concat_notes_snoc f log n : concat_notes f (log ++ [n]) = concat_notes f log ++ f n.
Proof. unfold concat_notes. rewrite fmap_app, concat_app. cbn. by rewrite app_nil_r. Qed.

Lemma lifecycle_snoc log n : lifecycle (log ++ [n]) = lifecycle log ++ (if is_lifecycle n then [n] else []).
Proof. unfold lifecycle. rewrite List.filter_app. cbn. by destruct (is_lifecycle n). Qed.

Lemma snoc_split {A} (l : list A) x pre y post :
  l ++ [x] = pre ++ y :: post → (l = pre ∧ x = y ∧ post = []) ∨ ∃ post', post = post' ++ [x] ∧ l = pre ++ y :: post'.
Proof.
  destruct post as [|z post _] using rev_ind; intros E.
  - left. apply app_inj_tail in E as [-> ->]. done.
  - right. exists post. change (pre ++ y :: post ++ [z]) with (pre ++ (y :: post) ++ [z]) in E.
    rewrite (assoc_L (++)) in E. apply app_inj_tail in E as [-> ->]. done.
Qed.

(** One more note that is not a shutdown. *)
Lemma log_snoc rest rest' log n :
  log_ok rest log → n ≠ ShutdownWrite →
  (Fault ∈ log ∨ n = Fault ∨ (written log ++ rest = accepted log → written (log ++ [n]) ++ rest' = accepted (log ++ [n]))) →
  received (log ++ [n]) = delivered (log ++ [n]) → log_ok rest' (log ++ [n]).
Proof.
  intros (Hout & Hin & Hshut) Hn Hout' Hin'. split_and!; [|done|].
  - rewrite elem_of_app, list_elem_of_singleton. naive_solver.
  - intros pre post [(_ & -> & _)|(post' & _ & E)]%snoc_split; [done|]. exact (Hshut pre post' E).
Qed.

Ltac log_simpl := unfold written, accepted, received, delivered in *; rewrite !concat_notes_snoc; cbn; rewrite ?app_nil_r.

Lemma log_neutral rest log n :
  log_ok rest log → n ∈ [Up; Down; Closed; SocketError] → log_ok rest (log ++ [n]).
Proof.
  intros Hlog Hn. pose proof Hlog as (_ & Hin & _).
  assert (n = Up ∨ n = Down ∨ n = Closed ∨ n = SocketError) as Hcase by set_solver.
  destruct Hcase as [->|[->|[->| ->]]]; (apply (log_snoc rest); [done|done|right; right; intros E|]; by log_simpl).
Qed.

Lemma log_accepted rest log d : log_ok rest log → log_ok (rest ++ d) (log ++ [Accepted d]).
Proof.
  intros Hlog. pose proof Hlog as (_ & Hin & _). apply (log_snoc rest); [done..| |].
  - right. right. intros E. log_simpl. by rewrite (assoc_L (++)), E.
  - by log_simpl.
Qed.

Lemma log_written d rest log : log_ok (d ++ rest) log → log_ok rest (log ++ [Written d]).
Proof.
  intros Hlog. pose proof Hlog as (_ & Hin & _). apply (log_snoc (d ++ rest)); [done..| |].
  - right. right. intros E. log_simpl. by rewrite <- (assoc_L (++)).
  - by log_simpl.
Qed.

Lemma log_fault rest rest' log : log_ok rest log → log_ok rest' (log ++ [Fault]).
Proof.
  intros Hlog. pose proof Hlog as (_ & Hin & _). apply (log_snoc rest); [done..|by right; left|]. by log_simpl.
Qed.

Lemma log_after_fault rest rest' log : Fault ∈ log → log_ok rest log → log_ok rest' log.
Proof. intros Hf (_ & Hin & Hshut). split_and!; [by left|done..]. Qed.

Lemma log_message rest log d : log_ok rest log → log_ok rest ((log ++ [Received d]) ++ [Message d]).
Proof.
  intros (Hout & Hin & Hshut). split_and!.
  - rewrite !elem_of_app. destruct Hout as [?|Hout]; [by left; left; left|right]. by log_simpl.
  - unfold received, delivered in *. rewrite !concat_notes_snoc. cbn. by rewrite !app_nil_r, Hin.
  - intros pre post [(_ & ? & _)|(post' & _ & E)]%snoc_split; [done|].
    apply snoc_split in E as [(_ & ? & _)|(post2 & _ & E)]; [done|]. exact (Hshut pre post2 E).
Qed.

Lemma log_shutdown rest log : log_ok rest log → rest = [] ∨ Down ∈ log → log_ok rest (log ++ [ShutdownWrite]).
Proof.
  intros (Hout & Hin & Hshut) Hcond. split_and!.
  - rewrite elem_of_app. destruct Hout as [?|Hout]; [by left; left|right]. by log_simpl.
  - by log_simpl.
  - intros pre post [(-> & _ & _)|(post' & _ & E)]%snoc_split; [|exact (Hshut pre post' E)].
    destruct Hcond as [->|?]; [|by left]. rewrite app_nil_r in Hout. tauto.
Qed.

(** ** The invariant *)

(** The events of an open connection: output is watched while there is some. *)
Definition open_events (out : bytes) : Z := match out with [] => ReadEvent | _ => Z.lor ReadEvent WriteEvent end.

(** Requests to destroy that are under way. *)
Definition removals (c : connection) : nat :=
  (if n_removal c then 1 else 0) + length (List.filter (λ f, match f with ConnectDestroyed => true | _ => false end) (n_queue c)).

Definition late_callback (cb : callback) : Prop := cb = WriteCallback ∨ cb = ErrorCallback.

(** [todo] is what will be left of the callbacks. *)
Definition phase_ok (todo : list callback) (c : connection) (ch : Channel) : Prop :=
  match state_ c with
  | kConnecting =>
      index_ ch = kNew ∧ events_ ch = NoneEvent ∧ r_channels (n_reactor c) !! fd_ ch = None ∧
      content (outputBuffer_ c) = [] ∧ todo = [] ∧ n_queue c = [] ∧ n_removal c = false ∧ lifecycle (n_log c) = []
  | kConnected | kDisconnecting =>
      index_ ch = kAdded ∧ events_ ch = open_events (content (outputBuffer_ c)) ∧ removals c = 0%nat ∧
      lifecycle (n_log c) = [Up]
  | kDisconnected =>
      events_ ch = NoneEvent ∧ (index_ ch = kDeleted ∧ removals c = 1%nat ∨ index_ ch = kNew ∧ removals c = 0%nat) ∧
      Forall late_callback todo ∧ lifecycle (n_log c) = [Up; Down; Closed]
  end.

Definition used_functor (f : functor) : Prop := match f with StartReadInLoop | StopReadInLoop => False | _ => True end.

Record connection_inv (todo : list callback) (c : connection) : Prop := {
  inv_reactor : reactor_ok (n_reactor c);
  inv_input : buffer_ok (inputBuffer_ c) ∧ content (inputBuffer_ c) = [];
  inv_output : buffer_ok (outputBuffer_ c);
  inv_queue : Forall used_functor (n_queue c);
  inv_log : log_ok (content (outputBuffer_ c)) (n_log c);
  inv_channel : ∃ ch, the_channel c = Some ch ∧ phase_ok todo c ch;
}.

Definition connection_ok (c : connection) : Prop :=
  connection_inv (n_todo c) c ∧ r_handling (n_reactor c) = match n_todo c with [] => false | _ => true end ∧
  Forall late_callback (tail (n_todo c)).

(** What the operations leave to the event loop. *)
Definition same_loop (c c' : connection) : Prop :=
  n_todo c' = n_todo c ∧ r_handling (n_reactor c') = r_handling (n_reactor c) ∧ channel_ c' = channel_ c.

(** The operation succeeds and keeps the invariant. *)
Definition runs (todo : list callback) (c : connection) (r : option connection) : Prop :=
  ∃ c', r = Some c' ∧ connection_inv todo c' ∧ same_loop c c'.

(** ** The operations keep the invariant *)

Lemma is_state_spec l c : is_state l c = true ↔ state_ c ∈ l.
Proof. apply bool_decide_eq_true. Qed.

Lemma runs_id todo c : connection_inv todo c → runs todo c (Some c).
Proof. intros Hc. by exists c. Qed.

Lemma runs_trans todo c c1 r :
  same_loop c c1 → runs todo c1 r → runs todo c r.
Proof. intros (? & ? & ?) (c2 & -> & Hc2 & ? & ? & ?). exists c2. split_and!; [done|done|..]; split_and!; congruence. Qed.

Lemma on_change f c ch :
  reactor_ok (n_reactor c) → the_channel c = Some ch → may_update (n_reactor c) (channel_ c) ch →
  on_channel (change_events f) c =
    Some (c <| n_reactor := with_update (f (events_ ch)) (channel_ c) ch (n_reactor c) |>).
Proof. intros Hr Hch Hmay. unfold on_channel. by rewrite (change_events_eq f _ ch). Qed.

Lemma added_may_update r id ch : index_ ch ≠ kNew → may_update r id ch.
Proof. by intros ? ?. Qed.

(** An open connection. *)
Definition is_open (c : connection) : Prop := state_ c = kConnected ∨ state_ c = kDisconnecting.

Lemma open_phase todo c ch :
  is_open c →
  phase_ok todo c ch ↔ index_ ch = kAdded ∧ events_ ch = open_events (content (outputBuffer_ c)) ∧
                       removals c = 0%nat ∧ lifecycle (n_log c) = [Up].
Proof. unfold phase_ok. by intros [-> | ->]. Qed.

Lemma open_writing ch out : events_ ch = open_events out → isWriting ch = match out with [] => false | _ => true end.
Proof. unfold isWriting. intros ->. by destruct out. Qed.

Lemma closed_writing ch : events_ ch = NoneEvent → isWriting ch = false.
Proof. unfold isWriting. by intros ->. Qed.

(** *** Closing *)

Lemma handleClose_runs todo c :
  connection_inv todo c → is_open c → Forall late_callback todo → runs todo c (handleClose c).
Proof.
  intros [Hr Hin Hout Hq Hlog (ch & Hch & Hph)] Hopen Htodo. apply open_phase in Hph as (Hi & He & Hrem & Hlife); [|done].
  unfold handleClose. rewrite assertion_true by (apply is_state_spec; unfold is_open in Hopen; set_solver).
  cbn [mbind option_bind]. unfold disableAll. rewrite (on_change _ _ ch); [|done..|by apply added_may_update; rewrite Hi].
  cbn [mbind option_bind]. eexists. split; [reflexivity|]. split; [|done].
  assert (index_ ch ≠ kNew) as Hne by (by rewrite Hi).
  split.
  - apply with_update_ok; [done..|by apply added_may_update].
  - exact Hin.
  - exact Hout.
  - exact Hq.
  - cbn. apply log_neutral; [|set_solver]. apply log_neutral; [done|set_solver].
  - exists (updated NoneEvent ch). split; [apply lookup_insert_eq|]. unfold phase_ok. cbn. rewrite Hi. cbn.
    split_and!; [done| |done|].
    + left. split; [done|]. unfold removals in *. cbn. destruct (n_removal c); lia.
    + rewrite !lifecycle_snoc, Hlife. done.
Qed.

(** A note or a functor more. *)
Lemma note_inv todo n c :
  connection_inv todo c → is_lifecycle n = false → log_ok (content (outputBuffer_ c)) (n_log c ++ [n]) →
  connection_inv todo (note_that n c).
Proof.
  intros [Hr Hin Hout Hq Hlog (ch & Hch & Hph)] Hn Hlog'. split; [done..|].
  exists ch. split; [done|]. unfold phase_ok in *. cbn. rewrite lifecycle_snoc, Hn, app_nil_r. exact Hph.
Qed.

Definition is_destroy (f : functor) : bool := match f with ConnectDestroyed => true | _ => false end.

Lemma removals_queue f c : is_destroy f = false → removals (queueInLoop f c) = removals c.
Proof. intros Hf. unfold removals. cbn. rewrite List.filter_app, length_app. destruct f; try done; cbn; lia. Qed.

Lemma queue_inv todo f c :
  connection_inv todo c → used_functor f → is_destroy f = false → state_ c ≠ kConnecting →
  connection_inv todo (queueInLoop f c).
Proof.
  intros [Hr Hin Hout Hq Hlog (ch & Hch & Hph)] Hf Hd Hs. split; try done.
  - cbn. apply Forall_app. split; [done|]. by constructor.
  - exists ch. split; [done|]. unfold phase_ok in *. rewrite removals_queue by done. cbn.
    destruct (state_ c); done.
Qed.

Lemma complete_inv todo c : connection_inv todo c → state_ c ≠ kConnecting → connection_inv todo (complete c).
Proof. intros Hc Hs. unfold complete. destruct (writeCompleteCallback_ c); [by apply queue_inv|done]. Qed.

Lemma complete_same c : same_loop c (complete c) ∧ state_ (complete c) = state_ c ∧ outputBuffer_ (complete c) = outputBuffer_ c.
Proof. unfold complete. by destruct (writeCompleteCallback_ c). Qed.

Lemma down_in_log log : lifecycle log = [Up; Down; Closed] → Down ∈ log.
Proof.
  intros Hl. apply list_elem_of_In. apply (List.filter_In is_lifecycle Down log). fold (lifecycle log). rewrite Hl.
  right. by left.
Qed.

Lemma shutdownInLoop_runs todo c :
  connection_inv todo c → state_ c ≠ kConnecting → runs todo c (shutdownInLoop c).
Proof.
  intros Hc Hs. destruct (inv_channel _ _ Hc) as (ch & Hch & Hph). unfold shutdownInLoop. rewrite Hch. cbn [mbind option_bind].
  destruct (isWriting ch) eqn:Hw; [by apply runs_id|]. eexists. split; [done|]. split; [|done].
  apply note_inv; [done..|]. apply log_shutdown; [apply Hc|].
  unfold phase_ok in Hph. destruct (state_ c) eqn:Est; try done.
  - right. apply down_in_log. tauto.
  - left. destruct Hph as (_ & He & _). rewrite (open_writing _ _ He) in Hw. by destruct (content (outputBuffer_ c)).
  - left. destruct Hph as (_ & He & _). rewrite (open_writing _ _ He) in Hw. by destruct (content (outputBuffer_ c)).
Qed.

(** *** Output *)

(** The end of [sendInLoop]: [rest] goes to the output buffer. *)
Definition keep_rest (ch : Channel) (rest : bytes) (c : connection) : option connection :=
  if (0 <? length rest)%nat then
    out ← append rest (outputBuffer_ c);
    let c := c <| outputBuffer_ := out |> in
    if negb (isWriting ch) then on_channel enableWriting c else Some c
  else Some c.

Lemma open_events_app out rest : rest ≠ [] → open_events (out ++ rest) = Z.lor ReadEvent WriteEvent.
Proof. destruct out, rest; done. Qed.

Lemma keep_rest_runs todo ch rest c :
  reactor_ok (n_reactor c) → buffer_ok (inputBuffer_ c) ∧ content (inputBuffer_ c) = [] → buffer_ok (outputBuffer_ c) →
  Forall used_functor (n_queue c) → log_ok (content (outputBuffer_ c) ++ rest) (n_log c) →
  the_channel c = Some ch → is_open c → phase_ok todo c ch → runs todo c (keep_rest ch rest c).
Proof.
  intros Hr Hin Hout Hq Hlog Hch Hopen Hph. unfold keep_rest.
  destruct (Nat.ltb_spec 0 (length rest)) as [Hlen|Hlen].
  2: { destruct rest; [|cbn in Hlen; lia]. rewrite app_nil_r in Hlog. apply runs_id. split; try done. by exists ch. }
  assert (rest ≠ []) as Hne by (intros ->; cbn in Hlen; lia). destruct (append_ok rest _ Hout) as (out & -> & Hout' & Hc').
  cbn [mbind option_bind]. set (c1 := c <| outputBuffer_ := out |>).
  pose proof (proj1 (open_phase todo c ch Hopen) Hph) as (Hi & He & Hrem & Hlife).
  rewrite (open_writing _ _ He). destruct (content (outputBuffer_ c)) as [|b l] eqn:Hcont; cbn [negb].
  - unfold enableWriting. rewrite (on_change _ _ ch); [|done..|by apply added_may_update; rewrite Hi].
    eexists. split; [reflexivity|]. split; [|done]. split; try done.
    + apply with_update_ok; [done..|by apply added_may_update; rewrite Hi].
    + cbn. by rewrite Hc'.
    + eexists. split; [apply lookup_insert_eq|]. apply open_phase; [done|]. cbn. rewrite Hi, Hc', He. split_and!; try done.
      by destruct rest.
  - eexists. split; [reflexivity|]. split; [|done]. split; try done.
    + cbn. by rewrite Hc'.
    + exists ch. split; [done|]. apply open_phase; [done|]. cbn [outputBuffer_]. split_and!; [done| |done..].
      rewrite He. change (outputBuffer_ c1) with out. by rewrite Hc'.
Qed.

(** [c2] differs from [c] in its log and its queue. *)
Definition same_core (c c2 : connection) : Prop :=
  n_reactor c2 = n_reactor c ∧ inputBuffer_ c2 = inputBuffer_ c ∧ outputBuffer_ c2 = outputBuffer_ c ∧
  channel_ c2 = channel_ c ∧ state_ c2 = state_ c ∧ n_todo c2 = n_todo c ∧ removals c2 = removals c.

Lemma keep_rest_after todo ch rest c c2 :
  connection_inv todo c → is_open c → the_channel c = Some ch → same_core c c2 → Forall used_functor (n_queue c2) →
  lifecycle (n_log c2) = [Up] → log_ok (content (outputBuffer_ c2) ++ rest) (n_log c2) →
  runs todo c (keep_rest ch rest c2).
Proof.
  intros [Hr Hin Hout _ _ (ch0 & Hch0 & Hph)] Hopen Hch (E1 & E2 & E3 & E4 & E5 & E6 & Hrem2) Hq2 Hl2 Hlog2.
  assert (ch0 = ch) as -> by congruence. apply open_phase in Hph as (Hi & He & Hrem & Hlife); [|done].
  apply (runs_trans _ _ c2); [by split_and!; rewrite ?E1|]. apply keep_rest_runs; rewrite ?E1, ?E2, ?E3; try done.
  - by rewrite <- E3.
  - unfold the_channel. by rewrite E1, E4.
  - unfold is_open. by rewrite E5.
  - apply open_phase; [unfold is_open; by rewrite E5|]. by rewrite E3, Hrem2.
Qed.

Lemma sendInLoop_runs todo wr data c :
  connection_inv todo c → state_ c ≠ kConnecting → (match wr with inr n => (n <= length data)%nat | inl _ => True end) →
  runs todo c (sendInLoop wr data c).
Proof.
  intros Hc Hs Hwr. unfold sendInLoop. destruct (is_state [kDisconnected] c) eqn:Ed; [by apply runs_id|].
  assert (is_open c) as Hopen.
  { apply bool_decide_eq_false in Ed. unfold is_open. destruct (state_ c); try done; [set_solver|by left|by right]. }
  pose proof Hc as [Hr Hin Hout Hq Hlog (ch & Hch & Hph)].
  change (the_channel (note_that (Accepted data) c)) with (the_channel c). rewrite Hch. cbn [mbind option_bind].
  apply open_phase in Hph as (Hi & He & Hrem & Hlife); [|done].
  assert (negb (isWriting ch) && (readableBytes (outputBuffer_ (note_that (Accepted data) c)) =? 0)%nat =
          match content (outputBuffer_ c) with [] => true | _ => false end) as ->.
  { change (outputBuffer_ (note_that (Accepted data) c)) with (outputBuffer_ c).
    rewrite (open_writing _ _ He), <- content_length by done. by destruct (content (outputBuffer_ c)). }
  pose proof (log_accepted _ _ data Hlog) as Hlog1.
  set (c1 := note_that (Accepted data) c) in *.
  assert (∀ c2, same_core c c2 → Forall used_functor (n_queue c2) → lifecycle (n_log c2) = [Up] → ∀ rest,
    log_ok (content (outputBuffer_ c2) ++ rest) (n_log c2) → runs todo c (keep_rest ch rest c2)) as Hkeep
    by (intros c2 ? ? ? rest ?; by apply keep_rest_after).
  assert (lifecycle (n_log c1) = [Up]) as Hl1 by (cbn; rewrite lifecycle_snoc, Hlife; done).
  destruct (content (outputBuffer_ c)) as [|b l] eqn:Hcont.
  2: { rewrite Nat.sub_0_r. cbn [negb andb]. apply (Hkeep c1); try done. cbn [outputBuffer_ c1 note_that].
       change (outputBuffer_ c1) with (outputBuffer_ c). by rewrite Hcont. }
  destruct wr as [errno|n]; cbn [write_directly].
  - destruct (negb (errno =? EWOULDBLOCK) && ((errno =? EPIPE) || (errno =? ECONNRESET))).
    + cbn [negb andb]. eexists. split; [done|]. split; [|done]. split; try done.
      * cbn. rewrite Hcont. by apply (log_fault data).
      * exists ch. split; [done|]. apply open_phase; [done|]. change (outputBuffer_ (note_that Fault c1)) with (outputBuffer_ c).
        rewrite Hcont. split_and!; [done..|]. change (lifecycle (n_log c1 ++ [Fault]) = [Up]).
        by rewrite lifecycle_snoc, Hl1.
    + rewrite Nat.sub_0_r. cbn [negb andb]. apply (Hkeep c1); try done.
      change (outputBuffer_ c1) with (outputBuffer_ c). by rewrite Hcont.
  - assert (length data - n = length (drop n data))%nat as -> by (by rewrite length_drop).
    cbn [negb andb]. set (c2 := note_that (Written (take n data)) c1).
    assert (log_ok (drop n data) (n_log c2)) as Hlog2.
    { apply log_written. by rewrite take_drop. }
    assert (lifecycle (n_log c2) = [Up]) as Hl2.
    { change (lifecycle (n_log c1 ++ [Written (take n data)]) = [Up]). by rewrite lifecycle_snoc, Hl1. }
    assert (runs todo c (keep_rest ch (drop n data) c2)) as H2.
    { apply (Hkeep c2); try done. change (outputBuffer_ c2) with (outputBuffer_ c). by rewrite Hcont. }
    destruct (Nat.eqb_spec (length (drop n data)) 0) as [E0|E0]; [|exact H2].
    destruct (drop n data); [|done]. cbn [length Nat.ltb Nat.leb].
    apply (runs_trans _ _ c2); [by split_and!|].
    destruct H2 as (c3 & [= <-] & Hc3 & _). eexists. split; [done|]. split; [|apply complete_same].
    apply complete_inv; [done|]. exact Hs.
Qed.

(** *** Events of the socket *)

Lemma handleWrite_runs todo wr c :
  connection_inv todo c → state_ c ≠ kConnecting →
  (match wr with inr n => (n <= length (content (outputBuffer_ c)))%nat | inl _ => True end) →
  runs todo c (handleWrite wr c).
Proof.
  intros Hc Hs Hwr. pose proof Hc as [Hr Hin Hout Hq Hlog (ch & Hch & Hph)]. unfold handleWrite. rewrite Hch.
  cbn [mbind option_bind]. destruct (isWriting ch) eqn:Hw; [|by apply runs_id].
  destruct wr as [errno|[|n']]; [by apply runs_id..|]. set (n := S n') in *.
  assert (is_open c) as Hopen.
  { unfold phase_ok in Hph. unfold is_open. destruct (state_ c); [|done|by left|by right].
    rewrite closed_writing in Hw by tauto. done. }
  apply open_phase in Hph as (Hi & He & Hrem & Hlife); [|done].
  rewrite peek_content by (done || by rewrite <- content_length).
  destruct (retrieve_ok n _ Hout Hwr) as (out & E & Hout' & Hc').
  set (c1 := note_that (Written (take n (content (outputBuffer_ c)))) c).
  change (outputBuffer_ c1) with (outputBuffer_ c). rewrite E. cbn [mbind option_bind].
  assert (log_ok (content out) (n_log c1)) as Hlog1 by (apply log_written; by rewrite Hc', take_drop).
  assert (lifecycle (n_log c1) = [Up]) as Hl1 by (cbn; by rewrite lifecycle_snoc, Hlife).
  set (c2 := c1 <| outputBuffer_ := out |>). rewrite <- content_length by done.
  destruct (Nat.eqb_spec (length (content out)) 0) as [E0|E0].
  - unfold disableWriting. rewrite (on_change _ _ ch); [|done..|by apply added_may_update; rewrite Hi].
    cbn [mbind option_bind]. set (c3 := c2 <| n_reactor := _ |>).
    assert (content out = []) as Hnil by (by destruct (content out)).
    assert (events_ ch = Z.lor ReadEvent WriteEvent) as Hev.
    { rewrite He. unfold open_events. destruct (content (outputBuffer_ c)); [cbn in Hwr; lia|done]. }
    assert (connection_inv todo c3) as Hc3.
    { split; try done.
      - apply with_update_ok; [done..|by apply added_may_update; rewrite Hi].
      - eexists. split; [apply lookup_insert_eq|]. apply open_phase; [done|].
        change (outputBuffer_ c3) with out. rewrite Hnil. cbn. rewrite Hi, Hev. split_and!; done. }
    apply (runs_trans _ _ c3); [done|].
    destruct (complete_same c3) as (Hsame & Hst & _). apply (runs_trans _ _ (complete c3)); [done|].
    assert (connection_inv todo (complete c3)) as Hc4 by (apply complete_inv; done).
    destruct (is_state [kDisconnecting] (complete c3)); [|by apply runs_id]. apply shutdownInLoop_runs; [done|]. by rewrite Hst.
  - eexists. split; [reflexivity|]. split; [|done]. split; try done.
    exists ch. split; [done|]. apply open_phase; [done|]. change (outputBuffer_ c2) with out. split_and!; [done| |done..].
    rewrite He. destruct (content out) as [|b l] eqn:Eo; [done|].
    destruct (content (outputBuffer_ c)); [cbn in Hwr; lia|done].
Qed.

Lemma handleRead_runs todo got c :
  connection_inv todo c → is_open c → Forall late_callback todo → runs todo c (handleRead got c).
Proof.
  intros Hc Hopen Htodo. pose proof Hc as [Hr [Hin Hempty] Hout Hq Hlog (ch & Hch & Hph)]. unfold handleRead.
  destruct (readFd_ok got _ Hin) as (input & -> & Hin' & Hci). rewrite Hempty in Hci. cbn [mbind option_bind app] in *.
  set (c1 := c <| inputBuffer_ := input |>). destruct got as [errno|data].
  - cbn [Z.ltb Z.eqb Z.compare]. eexists. split; [reflexivity|]. split; [|done].
    apply (note_inv todo SocketError c1); [|done|apply log_neutral; [done|set_solver]].
    split; try done. by exists ch.
  - destruct (Z.ltb_spec 0 (Z.of_nat (length data))) as [Hpos|Hzero].
    + change (inputBuffer_ (note_that (Received data) c1)) with input.
      destruct (run_op_spec OpRetrieveAllAsString input Hin') as (b & E & Hb & Hcb). cbn [run_op queue_op fst snd] in E, Hcb.
      rewrite E. cbn [mbind option_bind]. rewrite Hci. eexists. split; [reflexivity|]. split; [|done].
      split; try done.
      * cbn. by apply log_message.
      * exists ch. split; [done|]. unfold phase_ok in *. cbn. rewrite !lifecycle_snoc, !app_nil_r. exact Hph.
    + destruct data; [|cbn in Hzero; lia]. cbn [length Z.of_nat Z.eqb].
      apply (runs_trans _ _ c1); [done|]. apply handleClose_runs; [|done|done]. split; try done. by exists ch.
Qed.

(** *** Start and end *)

Lemma connectEstablished_runs c :
  connection_inv [] c → state_ c = kConnecting → runs [] c (connectEstablished c).
Proof.
  intros [Hr Hin Hout Hq Hlog (ch & Hch & Hph)] Hs. unfold connectEstablished.
  rewrite assertion_true by (apply is_state_spec; rewrite Hs; set_solver). cbn [mbind option_bind].
  unfold phase_ok in Hph. rewrite Hs in Hph. destruct Hph as (Hi & He & Hfree & Hnil & _ & Hqueue & Hrem & Hlife).
  assert (may_update (n_reactor c) (channel_ c) ch) as Hmay by (by intros _).
  unfold enableReading. rewrite (on_change _ _ ch) by done. cbn [mbind option_bind].
  eexists. split; [reflexivity|]. split; [|done]. split; try done.
  - by apply with_update_ok.
  - cbn. apply log_neutral; [done|set_solver].
  - eexists. split; [apply lookup_insert_eq|]. unfold phase_ok. cbn. rewrite Hi, He, Hnil, lifecycle_snoc, Hlife. cbn.
    split_and!; try done. unfold removals. cbn. by rewrite Hrem, Hqueue.
Qed.

Lemma connectDestroyed_runs c :
  connection_inv [] c → r_handling (n_reactor c) = false → state_ c = kDisconnected → removals c = 1%nat →
  ∀ queue, Forall used_functor queue → removals (c <| n_queue := queue |>) = 0%nat →
  runs [] (c <| n_queue := queue |>) (connectDestroyed (c <| n_queue := queue |>)).
Proof.
  intros [Hr Hin Hout Hq Hlog (ch & Hch & Hph)] Hh Hs Hrem queue Hqueue Hrem0. set (c1 := c <| n_queue := queue |>).
  unfold connectDestroyed. assert (is_state [kConnected] c1 = false) as ->.
  { apply bool_decide_eq_false. change (state_ c1) with (state_ c). rewrite Hs. set_solver. }
  cbn [mbind option_bind]. unfold phase_ok in Hph. rewrite Hs in Hph.
  destruct Hph as (He & [[Hi _]|[_ ?]] & Htodo & Hlife); [|lia].
  assert (may_remove (n_reactor c) (channel_ c) ch) as Hmay by (split_and!; [done|by rewrite Hi|by left]).
  unfold on_channel. change (channel_ c1) with (channel_ c). change (n_reactor c1) with (n_reactor c).
  rewrite (remove_eq _ ch) by done. cbn [mbind option_bind]. eexists. split; [reflexivity|]. split; [|done]. split; try done.
  - by apply with_removal_ok.
  - eexists. split; [apply lookup_insert_eq|]. unfold phase_ok. cbn. rewrite Hs. split_and!; try done. by right.
Qed.

(** *** One action *)

Lemma open_not_connecting c : is_open c → state_ c ≠ kConnecting.
Proof. by intros [-> | ->]. Qed.

Lemma set_open_inv todo s c :
  connection_inv todo c → is_open c → s = kConnected ∨ s = kDisconnecting → connection_inv todo (setState s c).
Proof.
  intros [Hr Hin Hout Hq Hlog (ch & Hch & Hph)] Hopen Hs. split; try done. exists ch. split; [done|].
  apply open_phase; [done|]. by apply open_phase in Hph.
Qed.

Lemma is_state_open c : is_state [kConnected; kDisconnecting] c = true → is_open c.
Proof. rewrite is_state_spec. unfold is_open. set_solver. Qed.

Lemma is_state_connected c : is_state [kConnected] c = true → is_open c.
Proof. rewrite is_state_spec. unfold is_open. set_solver. Qed.

Lemma send_runs todo in_loop x message c :
  connection_inv todo c → takes_at_most (length message) x → runs todo c (send in_loop (io_write x) message c).
Proof.
  intros Hc Hx. unfold send. destruct (is_state [kConnected] c) eqn:E; [|by apply runs_id].
  apply is_state_connected, open_not_connecting in E. destruct in_loop; [by apply sendInLoop_runs|].
  eexists. split; [done|]. split; [by apply queue_inv|done].
Qed.

Lemma shutdown_runs todo in_loop c : connection_inv todo c → runs todo c (shutdown in_loop c).
Proof.
  intros Hc. unfold shutdown. destruct (is_state [kConnected] c) eqn:E; [|by apply runs_id].
  apply is_state_connected in E. pose proof (set_open_inv todo kDisconnecting c Hc E (or_intror eq_refl)) as Hc1.
  apply (runs_trans _ _ (setState kDisconnecting c)); [done|]. destruct in_loop; [by apply shutdownInLoop_runs|].
  eexists. split; [done|]. split; [by apply queue_inv|done].
Qed.

Lemma forceClose_runs todo c : connection_inv todo c → runs todo c (Some (forceClose c)).
Proof.
  intros Hc. unfold forceClose. destruct (is_state [kConnected; kDisconnecting] c) eqn:E; [|by apply runs_id].
  apply is_state_open in E. pose proof (set_open_inv todo kDisconnecting c Hc E (or_intror eq_refl)) as Hc1.
  eexists. split; [done|]. split; [by apply queue_inv|done].
Qed.

Lemma connecting_queue todo c : connection_inv todo c → n_queue c ≠ [] → state_ c ≠ kConnecting.
Proof.
  intros Hc Hq Hs. destruct (inv_channel _ _ Hc) as (ch & _ & Hph). unfold phase_ok in Hph. rewrite Hs in Hph. tauto.
Qed.

Lemma dequeue_inv f queue c :
  connection_inv [] c → n_queue c = f :: queue → is_destroy f = false → connection_inv [] (c <| n_queue := queue |>).
Proof.
  intros Hc Eq Hf. assert (state_ c ≠ kConnecting) as Hs by (apply (connecting_queue []); [done|by rewrite Eq]).
  pose proof Hc as [Hr Hin Hout Hq Hlog (ch & Hch & Hph)]. rewrite Eq in Hq. apply Forall_cons in Hq as [_ Hq].
  assert (removals (c <| n_queue := queue |>) = removals c) as Hrem.
  { unfold removals. cbn. rewrite Eq. cbn. by destruct f. }
  split; try done. exists ch. split; [done|]. unfold phase_ok in *. rewrite Hrem. cbn. by destruct (state_ c).
Qed.

Lemma functor_runs x f queue c :
  connection_inv [] c → r_handling (n_reactor c) = false → n_queue c = f :: queue →
  (match f with SendInLoop m => takes_at_most (length m) x | _ => True end) →
  runs [] c (run_functor x f (c <| n_queue := queue |>)).
Proof.
  intros Hc Hh Eq Hx. assert (state_ c ≠ kConnecting) as Hs by (apply (connecting_queue []); [done|by rewrite Eq]).
  apply (runs_trans _ _ (c <| n_queue := queue |>)); [done|].
  pose proof (dequeue_inv f queue c Hc Eq) as Hdeq. pose proof (inv_queue _ _ Hc) as Hq. rewrite Eq in Hq.
  apply Forall_cons in Hq as [Hf Hq]. destruct f as [message| | | | | |]; cbn [run_functor]; try done.
  - by apply sendInLoop_runs; [apply Hdeq|..].
  - by apply shutdownInLoop_runs; [apply Hdeq|].
  - unfold forceCloseInLoop. destruct (is_state _ _) eqn:E; [|by apply runs_id, Hdeq].
    apply is_state_open in E. apply handleClose_runs; [by apply Hdeq|done|constructor].
  - destruct (inv_channel _ _ Hc) as (ch & Hch & Hph).
    assert (removals c = S (removals (c <| n_queue := queue |>))) as Hrem by (unfold removals; cbn; rewrite Eq; cbn; lia).
    assert (state_ c = kDisconnected ∧ removals c = 1%nat) as [Hst Hr1].
    { unfold phase_ok in Hph. destruct (state_ c) eqn:E; [|done|exfalso; destruct Hph as (_ & _ & ? & _); lia..].
      destruct Hph as (_ & [[_ ?]|[_ ?]] & _); [done|lia]. }
    apply connectDestroyed_runs; try done. lia.
  - by apply runs_id, Hdeq.
Qed.

Lemma removal_runs todo c :
  connection_inv todo c → n_removal c = true → runs todo c (Some (removeConnectionInLoop c)).
Proof.
  intros [Hr Hin Hout Hq Hlog (ch & Hch & Hph)] Hrem. eexists. split; [done|]. split; [|done]. split; try done.
  - cbn. apply Forall_app. split; [done|]. by repeat constructor.
  - exists ch. split; [done|].
    assert (removals (removeConnectionInLoop c) = removals c) as E.
    { unfold removals. cbn. rewrite Hrem, List.filter_app, length_app. cbn. lia. }
    unfold phase_ok in *. rewrite E. cbn. destruct (state_ c); try done. destruct Hph as (_ & _ & _ & _ & _ & _ & ? & _). congruence.
Qed.

(** *** Reports of the kernel *)

(** An open connection is told of a close or of input, not of both, and of
    nothing it did not ask for. *)
Lemma handleEvent_open out revents :
  Z.land revents (Z.lnot (Z.lor (open_events out) (Z.lor POLLERR POLLHUP))) = 0 →
  Forall late_callback (tail (handleEvent revents)).
Proof.
  intros Hrev. unfold handleEvent.
  assert (Z.land revents (Z.lor POLLPRI POLLRDHUP) = 0) as Hno
    by (apply (not_reported _ _ _ Hrev); by destruct out).
  rewrite (Z.land_lor_distr_r revents POLLIN), Hno, Z.lor_0_r.
  destruct (negb (Z.land revents POLLHUP =? 0)), (negb (Z.land revents POLLIN =? 0)), (negb (Z.land revents POLLOUT =? 0)),
    (negb (Z.land revents (Z.lor POLLERR POLLNVAL) =? 0)); cbn; repeat constructor; by (left + right).
Qed.

(** Another reactor with the same view of this connection. *)
Lemma reactor_inv todo r c ch ch' :
  connection_inv todo c → reactor_ok r → the_channel c = Some ch → r_store r !! channel_ c = Some ch' →
  fd_ ch' = fd_ ch → events_ ch' = events_ ch → index_ ch' = index_ ch →
  r_channels r !! fd_ ch = r_channels (n_reactor c) !! fd_ ch → connection_inv todo (c <| n_reactor := r |>).
Proof.
  intros [Hr Hin Hout Hq Hlog (ch0 & Hch0 & Hph)] Hr' Hch Hch' Hfd He Hi Hm.
  assert (ch0 = ch) as -> by congruence. split; try done. exists ch'. split; [done|].
  unfold phase_ok in *. rewrite Hfd, He, Hi. cbn. rewrite Hm. exact Hph.
Qed.

Lemma next_todo_ok todo c :
  connection_inv todo c → Forall late_callback (tail todo) → connection_ok (next_todo todo c).
Proof.
  intros Hc Htail. pose proof (inv_channel _ _ Hc) as (ch & Hch & Hph).
  destruct (handling_same todo (channel_ c) (n_reactor c)) as (E1 & E2 & E3 & E4). split_and!; [|exact E4|exact Htail].
  assert (connection_inv todo (c <| n_reactor := handling todo (channel_ c) (n_reactor c) |>)) as Hc1.
  { apply (reactor_inv todo _ c ch ch); try done; [apply handling_ok, Hc| |].
    - by rewrite E1.
    - by rewrite E2. }
  destruct Hc1 as [? ? ? ? ? (ch1 & ? & ?)]. split; try done. by exists ch1.
Qed.

Lemma report_ok revents c :
  connection_ok c → enabled (Report revents) c → ∃ c', run_action (Report revents) c = Some c' ∧ connection_ok c'.
Proof.
  intros (Hc & _ & _) (Htodo & Hrep & Hlist). rewrite Htodo in Hc.
  pose proof (inv_reactor _ _ Hc) as Hr. pose proof (inv_channel _ _ Hc) as (ch & Hch & Hph).
  pose proof Hrep as (ch0 & ev & Hch0 & Hm & Hi & Hrev).
  assert (ch0 = ch) as -> by (unfold the_channel in Hch; congruence).
  assert (is_open c ∧ ev = open_events (content (outputBuffer_ c))) as [Hopen ->].
  { destruct (ok_channels _ Hr _ _ Hch0) as [[_ ?]|[(_ & Hidx & Hint)|(_ & _ & Hint & _)]]; [done| |congruence].
    unfold phase_ok in Hph. unfold is_open. destruct (state_ c) eqn:Es.
    - destruct Hph as (_ & [[Hd _]|[Hd _]] & _); rewrite Hidx in Hd; done.
    - destruct Hph as (Hd & _). rewrite Hidx in Hd. done.
    - split; [by left|]. destruct Hph as (_ & <- & _). congruence.
    - split; [by right|]. destruct Hph as (_ & <- & _). congruence. }
  destruct (poll_ok [(channel_ c, revents)] (n_reactor c)) as (r & E & Hs); [by repeat constructor|cbn; lia|].
  cbn [run_action]. rewrite E. cbn [mbind option_bind]. eexists. split; [done|].
  destruct (same_but_revents_lookup _ _ _ _ (same_but_revents_sym _ _ Hs) Hch0) as (ch' & Hch' & Hfd & Hev & Hidx).
  apply next_todo_ok; [|by apply (handleEvent_open (content (outputBuffer_ c)))].
  assert (connection_inv [] (c <| n_reactor := r |>)) as Hc1.
  { apply (reactor_inv [] r c ch ch'); try done; [by apply (same_but_revents_ok (n_reactor c))|].
    destruct Hs as (-> & _). done. }
  destruct Hc1 as [? ? ? ? ? (ch1 & Hch1 & Hph1)]. split; try done. exists ch1. split; [done|].
  apply open_phase; [done|]. by apply open_phase in Hph1.
Qed.

Lemma inv_tail cb todo c : connection_inv (cb :: todo) c → connection_inv todo c.
Proof.
  intros [Hr Hin Hout Hq Hlog (ch & Hch & Hph)]. split; try done. exists ch. split; [done|].
  unfold phase_ok in *. destruct (state_ c); try done.
  - destruct Hph as (? & ? & Hl & ?). apply Forall_cons in Hl as [_ Hl]. done.
  - by destruct Hph as (_ & _ & _ & _ & ? & _).
Qed.

Lemma callback_open cb todo c :
  connection_inv (cb :: todo) c → (cb = CloseCallback ∨ cb = ReadCallback → is_open c) ∧ state_ c ≠ kConnecting.
Proof.
  intros Hc. destruct (inv_channel _ _ Hc) as (ch & _ & Hph). unfold phase_ok, is_open in *. destruct (state_ c).
  - split; [|done]. destruct Hph as (_ & _ & Hl & _). apply Forall_cons in Hl as [[->| ->] _]; by intros [?|?].
  - by destruct Hph as (_ & _ & _ & _ & ? & _).
  - split; [by left|done].
  - split; [by right|done].
Qed.

Lemma callback_ok x c :
  connection_ok c → enabled (Callback x) c → ∃ c', run_action (Callback x) c = Some c' ∧ connection_ok c'.
Proof.
  intros (Hc & Hh & Htail) Hx. cbn [run_action enabled] in *. destruct (n_todo c) as [|cb todo] eqn:Et.
  { exists c. split; [done|]. split_and!; by rewrite Et. }
  cbn [tail] in Htail. destruct (callback_open cb todo c Hc) as [Hopen Hs]. apply inv_tail in Hc.
  assert (runs todo c (run_callback x cb c)) as (c' & -> & Hc' & _).
  { destruct cb; cbn [run_callback].
    - apply handleClose_runs; auto.
    - apply handleRead_runs; auto.
    - apply handleWrite_runs; try done.
    - apply (runs_id _ (handleError c)), note_inv; [done..|]. apply log_neutral; [apply Hc|set_solver]. }
  cbn [mbind option_bind]. eexists. split; [done|]. apply next_todo_ok; [done|]. destruct todo; [done|].
  by apply Forall_cons in Htail as [_ ?].
Qed.

(** No enabled action fails. *)
Lemma action_ok a c : connection_ok c → enabled a c → ∃ c', run_action a c = Some c' ∧ connection_ok c'.
Proof.
  intros Hok Ha. pose proof Hok as (Hc & Hh & Htail).
  assert (∀ r, runs (n_todo c) c r → ∃ c', r = Some c' ∧ connection_ok c') as Hruns.
  { intros r (c' & -> & Hc' & Et & Eh & _). exists c'. split; [done|]. unfold connection_ok. by rewrite Et, Eh. }
  destruct a as [|revents|x|x|in_loop x message|in_loop| | |r|in_loop|in_loop| |];
    try done; cbn [run_action enabled] in *.
  - apply Hruns. destruct (inv_channel _ _ Hc) as (ch & _ & Hph). unfold phase_ok in Hph. rewrite Ha in Hph.
    destruct Hph as (_ & _ & _ & _ & Et & _). rewrite Et in *. by apply connectEstablished_runs.
  - by apply report_ok.
  - by apply callback_ok.
  - destruct Ha as [Et Hx]. rewrite Et in *. destruct (n_queue c) as [|f queue] eqn:Eq; [by exists c|].
    apply Hruns. apply functor_runs; try done.
  - apply Hruns, send_runs; done.
  - by apply Hruns, shutdown_runs.
  - by apply Hruns, forceClose_runs.
  - by apply Hruns, removal_runs.
  - destruct Ha as (Hr & Hstore & Heq & Hmap). eexists. split; [done|].
    destruct (inv_channel _ _ Hc) as (ch & Hch & _). split_and!; [|cbn; by rewrite Heq|done].
    apply (reactor_inv _ r c ch ch); try done; [by rewrite Hstore|by apply Hmap].
Qed.

(** ** Properties *)

(** A connection of a server: a new channel on a descriptor not in use. *)
Definition connection_start (id : nat) (fd : Z) (r : reactor) (c : connection) : Prop :=
  reactor_ok r ∧ r_store r !! id = None ∧ r_channels r !! fd = None ∧ r_handling r = false ∧
  c = new_connection id (set_channel id (new_channel fd) r).

Lemma connection_start_ok id fd r c : connection_start id fd r c → connection_ok c.
Proof.
  intros (Hr & Hid & Hfd & Hh & ->). destruct (new_buffer_ok kInitialSize) as [Hb Hc].
  split_and!; [|exact Hh|constructor]. split; try done.
  - by apply new_channel_ok.
  - cbn [n_log outputBuffer_ new_connection]. rewrite Hc. split_and!; [by right|done|]. intros pre post E.
    by destruct pre.
  - exists (new_channel fd). split; [apply lookup_insert_eq|]. by split_and!.
Qed.

Lemma reachable_connection_ok id fd r c0 c :
  connection_start id fd r c0 → rtc connection_step c0 c → connection_ok c.
Proof.
  intros H0 Hrun. refine (rtc_preserves connection_step connection_ok _ _ _ Hrun (connection_start_ok _ _ _ _ H0)).
  intros x y (a & Ha & E) Hx. destruct (action_ok a x Hx Ha) as (y' & E' & Hy). congruence.
Qed.

(** C19.  Output is neither lost, duplicated nor reordered: as long as the
    peer is not gone, the bytes the socket has taken followed by the bytes in
    the output buffer are exactly the messages accepted for sending, in
    order, however the socket splits its writes and whichever threads send;
    and while an open connection has output left the kernel is asked to
    report when it can be written. *)
Theorem output_in_order (id : nat) (fd : Z) (r : reactor) (c0 c : connection) :
  connection_start id fd r c0 → rtc connection_step c0 c →
  (Fault ∈ n_log c ∨ written (n_log c) ++ content (outputBuffer_ c) = accepted (n_log c)) ∧
  (content (outputBuffer_ c) ≠ [] → is_open c →
     ∃ ch, the_channel c = Some ch ∧ isWriting ch = true ∧ r_interest (n_reactor c) !! fd_ ch = Some (events_ ch)).
Proof.
  intros H0 Hrun. destruct (reachable_connection_ok _ _ _ _ _ H0 Hrun) as (Hc & _). split; [apply Hc|].
  intros Hne Hopen. destruct (inv_channel _ _ Hc) as (ch & Hch & Hph). apply open_phase in Hph as (Hi & He & _); [|done].
  exists ch. split_and!; [done| |].
  - rewrite (open_writing _ _ He). by destruct (content (outputBuffer_ c)).
  - destruct (ok_channels _ (inv_reactor _ _ Hc) _ _ Hch) as [[Hn _]|[(_ & _ & ?)|(_ & Hn & _)]]; [|done|]; rewrite Hi in Hn; done.
Qed.

(** C25.  Input is delivered once and in order, and the connection is shut down
    for writing only after its output: the bytes handed to the message
    callback are the bytes the kernel delivered; and unless the connection
    was already closed or the peer gone, everything accepted before a
    shutdown was written before it. *)
Theorem input_delivered_output_flushed (id : nat) (fd : Z) (r : reactor) (c0 c : connection) :
  connection_start id fd r c0 → rtc connection_step c0 c →
  delivered (n_log c) = received (n_log c) ∧
  ∀ pre post, n_log c = pre ++ ShutdownWrite :: post → Down ∈ pre ∨ Fault ∈ pre ∨ written pre = accepted pre.
Proof.
  intros H0 Hrun. destruct (reachable_connection_ok _ _ _ _ _ H0 Hrun) as (Hc & _).
  destruct (inv_log _ _ Hc) as (_ & -> & Hshut). done.
Qed.

Lemma loop_thread_run c c' : rtc loop_thread_step c c' → rtc connection_step c c'.
Proof. induction 1 as [c|c c1 c' (a & Ha & _ & E) _ IH]; [done|]. eapply rtc_l; [by exists a|done]. Qed.

(** C24.  A connection that is closed on the thread of its loop lives once:
    whatever the order of socket events, queued functors and sends from other
    threads, as long as [shutdown] and [forceClose] are called on the thread of
    the loop, no assertion fails, the connection callback is called once when
    it opens and once when it closes, the close callback once after it, and a
    closed connection is watched by the kernel no more.  (Called on another
    thread they race with the loop, and the connection can close twice:
    [close_race].) *)
Theorem connection_lifecycle (id : nat) (fd : Z) (r : reactor) (c0 c : connection) :
  connection_start id fd r c0 → rtc loop_thread_step c0 c →
  (∀ a, enabled a c → on_loop_thread a → is_Some (run_action a c)) ∧
  lifecycle (n_log c) =
    match state_ c with kConnecting => [] | kConnected | kDisconnecting => [Up] | kDisconnected => [Up; Down; Closed] end ∧
  (state_ c = kDisconnected → ∀ revents, ¬ reportable (n_reactor c) (channel_ c) revents).
Proof.
  intros H0 Hrun%loop_thread_run. pose proof (reachable_connection_ok _ _ _ _ _ H0 Hrun) as Hok. pose proof Hok as (Hc & _). split_and!.
  - intros a Ha _. destruct (action_ok a c Hok Ha) as (c' & -> & _). by eexists.
  - destruct (inv_channel _ _ Hc) as (ch & _ & Hph). unfold phase_ok in Hph. destruct (state_ c); tauto.
  - intros Hs revents (ch & ev & Hch & Hm & Hi & _). destruct (inv_channel _ _ Hc) as (ch' & Hch' & Hph).
    assert (ch' = ch) as -> by (unfold the_channel in Hch'; congruence). unfold phase_ok in Hph. rewrite Hs in Hph.
    destruct (ok_channels _ (inv_reactor _ _ Hc) _ _ Hch) as [[_ ?]|[(_ & Hx & _)|(_ & _ & ? & _)]]; [done| |congruence].
    destruct Hph as (_ & [[Hd _]|[Hd _]] & _); rewrite Hx in Hd; done.
Qed.

(** ** Witnesses *)

Fixpoint run_actions (actions : list action) (c : connection) : option connection :=
  match actions with
  | [] => Some c
  | a :: actions => c ← run_action a c; run_actions actions c
  end.

Definition first_connection : connection := new_connection 0 (set_channel 0 (new_channel 5) new_reactor).

Lemma first_connection_start : connection_start 0 5 new_reactor first_connection.
Proof. split_and!; [apply new_reactor_ok|reflexivity..]. Qed.

Definition hello : bytes := String.list_ascii_of_string "hello".
Definition slow_socket : io := MkIo (inr 2%nat) (inl EWOULDBLOCK).

(** A message of which the socket takes two bytes at first. *)
Definition sending : connection :=
  match run_actions [Establish; Send true slow_socket hello] first_connection with Some c => c | None => first_connection end.

Lemma sending_reached : rtc connection_step first_connection sending.
Proof.
  eapply rtc_l; [exists Establish; split; [reflexivity|reflexivity]|].
  apply rtc_once. exists (Send true slow_socket hello). split; [cbn; lia|]. vm_compute. reflexivity.
Qed.

Lemma output_in_order_witness : written (n_log sending) ++ content (outputBuffer_ sending) = hello.
Proof.
  destruct (output_in_order 0 5 new_reactor first_connection sending) as [[Hf|Ho] _].
  - apply first_connection_start.
  - apply sending_reached.
  - exfalso. vm_compute in Hf. set_solver.
  - rewrite Ho. vm_compute. reflexivity.
Defined.

Lemma input_delivered_output_flushed_witness : delivered (n_log sending) = received (n_log sending).
Proof.
  apply (input_delivered_output_flushed 0 5 new_reactor first_connection sending).
  - apply first_connection_start.
  - apply sending_reached.
Defined.

(** Sent, and closed by the program. *)
Definition closed_by_program : connection :=
  match run_actions [Establish; Send true slow_socket hello; ForceClose; Functor slow_socket] first_connection with
  | Some c => c
  | None => first_connection
  end.

Lemma connection_lifecycle_witness :
  is_Some (run_action ForceClose closed_by_program) ∧ lifecycle (n_log closed_by_program) = [Up; Down; Closed].
Proof.
  destruct (connection_lifecycle 0 5 new_reactor first_connection closed_by_program) as (Ha & Hl & _).
  - apply first_connection_start.
  - eapply rtc_l; [exists Establish; split; [reflexivity|split; [exact I|reflexivity]]|].
    eapply rtc_l; [exists (Send true slow_socket hello); split; [cbn; lia|split; [exact I|reflexivity]]|].
    eapply rtc_l; [exists ForceClose; split; [exact I|split; [exact I|reflexivity]]|].
    apply rtc_once. exists (Functor slow_socket). split; [split; [reflexivity|exact I]|]. split; [exact I|]. vm_compute. reflexivity.
  - split; [apply Ha; exact I|]. rewrite Hl. reflexivity.
Defined.

(** ** What the other operations do *)

Definition no_io : io := MkIo (inl EWOULDBLOCK) (inl EWOULDBLOCK).
Definition end_of_file : io := MkIo (inl EWOULDBLOCK) (inr []).

(** A connection that stops reading and is closed is registered again without
    events; a hang-up then closes it a second time, against the assertion of
    [handleClose]. *)
Lemma stop_read_closes_twice :
  match run_actions [Establish; StopRead true; ForceClose; Functor no_io] first_connection with
  | Some c => r_interest (n_reactor c) !! 5 = Some NoneEvent ∧ state_ c = kDisconnected ∧
      run_actions [Report POLLHUP; Callback no_io] c = None
  | None => False
  end.
Proof. vm_compute. done. Qed.

(** [startRead] after a close watches the socket of a closed connection; the
    end of the input closes it a second time. *)
Lemma start_read_after_close :
  match run_actions [Establish; ForceClose; Functor no_io; StartRead true] first_connection with
  | Some c => r_interest (n_reactor c) !! 5 = Some ReadEvent ∧ state_ c = kDisconnected ∧
      run_actions [Report POLLIN; Callback end_of_file] c = None
  | None => False
  end.
Proof. vm_compute. done. Qed.

(** A server that ends while a connection is shutting down: the channel of the
    connection is removed with events, against the assertion of [remove].
    [forceCloseWithDelay] leaves a connection in that state for good. *)
Lemma destroyed_while_disconnecting :
  run_actions [Establish; Shutdown true; ServerDestroyed] first_connection = None ∧
  run_actions [Establish; ForceCloseWithDelay; ServerDestroyed] first_connection = None.
Proof. split; vm_compute; reflexivity. Qed.

(** [forceClose] or [shutdown] on another thread tests [state_] while the
    connection is open; the loop then reads the end of the input and closes the
    connection; and the other thread writes [state_].  After a [forceClose] the
    connection is reported closed a second time; after a [shutdown] the closed
    connection counts as open, so that a later [forceClose] closes it again. *)
Lemma close_race :
  match run_actions [Establish] first_connection with
  | Some c =>
      is_state [kConnected] c = true ∧
      match run_actions [Report POLLIN; Callback end_of_file] c with
      | Some c1 => lifecycle (n_log c1) = [Up; Down; Closed] ∧
          (match run_action (Functor no_io) (forceClose_commit c1) with
           | Some c2 => lifecycle (n_log c2) = [Up; Down; Closed; Down; Closed]
           | None => False
           end) ∧
          (match c2 ← shutdown_commit false c1; run_actions [Functor no_io; ForceClose; Functor no_io] c2 with
           | Some c2 => lifecycle (n_log c2) = [Up; Down; Closed; Down; Closed]
           | None => False
           end)
      | None => False
      end
  | None => False
  end.
Proof. vm_compute. done. Qed.
