(* ===== verification/EventLoop.v ===== *)
(** * The event loop and its threads

    [class EventLoop] ([network/src/EventLoop.cc]): the queue of functors that
    other threads leave to the loop, the eventfd that wakes it up and the end
    of the loop; [class EventLoopThreadPool]
    ([network/src/EventLoopThreadPool.cc]): the choice of a loop for a
    connection.

    The loop's thread and the others interleave: each step below is one
    critical section, one system call or one access to an atomic.  Functors
    are abstract; what a functor itself queues when it runs is a parameter. *)
From S2P Require Import Prelude.

Section loop.
Context {F : Type}.

(** What the functors queue with [queueInLoop] when they run. *)
Variable body : F → list F.

(** Where the loop's thread is: before [loop()], at [epoll_wait], handling the
    events, in [doPendingFunctors], or after the loop. *)
Inductive phase := Idle | Polling | Handling | Calling | Stopped.

(** [l_running] is what is left of the vector that [doPendingFunctors] has
    swapped out; [l_posting] counts the threads between an action and their
    [wakeup()]; [l_woken] tells whether [epoll_wait] has reported the
    eventfd.  [l_queued] and [l_done] record the functors queued and run. *)
Record event_loop := MkEventLoop {
  l_phase : phase;
  l_pending : list F;
  l_running : list F;
  l_eventfd : nat;
  l_posting : nat;
  l_woken : bool;
  l_quit : bool;
  l_queued : list F;
  l_done : list F;
}.
#[export] Instance eta_event_loop : Eta event_loop := fun l =>
  MkEventLoop (l_phase l) (l_pending l) (l_running l) (l_eventfd l) (l_posting l) (l_woken l) (l_quit l)
    (l_queued l) (l_done l).

Definition new_event_loop : event_loop := MkEventLoop Idle [] [] 0 0 false false [] [].

(** [pendingFunctors_.push_back] under the mutex. *)
Definition push_functor (f : F) (l : event_loop) : event_loop :=
  l <| l_pending := l_pending l ++ [f] |> <| l_queued := l_queued l ++ [f] |>.

(** [wakeup()]. *)
Definition wakeup (l : event_loop) : event_loop := l <| l_eventfd ::= S |>.

(** [queueInLoop] on the loop's own thread: a wakeup only from
    [doPendingFunctors]. *)
Definition queueInLoop (f : F) (l : event_loop) : event_loop :=
  let l := push_functor f l in
  match l_phase l with Calling => wakeup l | _ => l end.

(** [queueInLoop] on another thread, up to the wakeup. *)
Definition post (f : F) (l : event_loop) : event_loop := push_functor f l <| l_posting ::= S |>.

(** [quit()] on the loop's thread, and on another one up to the wakeup. *)
Definition quit (l : event_loop) : event_loop := l <| l_quit := true |>.
Definition post_quit (l : event_loop) : event_loop := quit l <| l_posting ::= S |>.

(** The wakeup of another thread. *)
Definition post_wakeup (l : event_loop) : event_loop := wakeup l <| l_posting ::= pred |>.

(** The start of [loop()]. *)
Definition loop_start (l : event_loop) : event_loop := l <| l_phase := Polling |> <| l_quit := false |>.

(** [epoll_wait] returns: with the eventfd if it is readable, for another
    event, or after [kPollTimeMs]. *)
Definition poll_returns (l : event_loop) : event_loop :=
  l <| l_phase := Handling |> <| l_woken := (0 <? l_eventfd l)%nat |>.

(** [EventLoop::handleRead], when the eventfd was reported. *)
Definition handleRead (l : event_loop) : event_loop :=
  if l_woken l then l <| l_eventfd := 0%nat |> <| l_woken := false |> else l.

(** The start of [doPendingFunctors]: the swap under the mutex. *)
Definition swap_functors (l : event_loop) : event_loop :=
  l <| l_phase := Calling |> <| l_running := l_pending l |> <| l_pending := [] |>.

Definition run_functor (l : event_loop) : event_loop :=
  match l_running l with
  | [] => l
  | f :: running =>
      foldl (λ l g, queueInLoop g l) (l <| l_running := running |> <| l_done := l_done l ++ [f] |>) (body f)
  end.

(** The end of an iteration and the test of [quit_]. *)
Definition end_iteration (l : event_loop) : event_loop :=
  l <| l_phase := if l_quit l then Stopped else Polling |>.

(** ** Interleavings *)

Inductive loop_step : event_loop → event_loop → Prop :=
  | LoopStart l : l_phase l = Idle → loop_step l (loop_start l)
  | PollReturns l : l_phase l = Polling → loop_step l (poll_returns l)
  | WakeupRead l : l_phase l = Handling → loop_step l (handleRead l)
  | CallbackQueues f l : l_phase l = Handling → loop_step l (queueInLoop f l)
  | CallbackQuits l : l_phase l = Handling ∨ l_phase l = Calling → loop_step l (quit l)
  | SwapFunctors l : l_phase l = Handling → l_woken l = false → loop_step l (swap_functors l)
  | RunFunctor l : l_phase l = Calling → l_running l ≠ [] → loop_step l (run_functor l)
  | EndIteration l : l_phase l = Calling → l_running l = [] → loop_step l (end_iteration l)
  | OtherQueues f l : loop_step l (post f l)
  | OtherQuits l : loop_step l (post_quit l)
  | OtherWakes l : (0 < l_posting l)%nat → loop_step l (post_wakeup l).

(** The loop's thread alone, for one iteration. *)
Fixpoint run_functors (n : nat) (l : event_loop) : event_loop :=
  match n with O => l | S n => run_functors n (run_functor l) end.

Definition iteration (l : event_loop) : event_loop :=
  let l := swap_functors (handleRead (poll_returns l)) in
  end_iteration (run_functors (length (l_running l)) l).

(** ** Lemmas *)

Record loop_ok (l : event_loop) : Prop := {
  lok_order : l_done l ++ l_running l ++ l_pending l = l_queued l;
  lok_running : l_phase l ≠ Calling → l_running l = [];
  lok_wakeup : l_phase l ≠ Handling → l_phase l ≠ Stopped → l_pending l ≠ [] → (0 < l_eventfd l + l_posting l)%nat;
  lok_woken : l_woken l = true → l_phase l = Handling;
  lok_quit : l_phase l = Polling → l_quit l = true → (0 < l_eventfd l + l_posting l)%nat;
}.

Lemma new_event_loop_ok : loop_ok new_event_loop.
Proof. split; done. Qed.

Lemma queue_in_calling gs : ∀ l,
  l_phase l = Calling → loop_ok l →
  let l' := foldl (λ l g, queueInLoop g l) l gs in
  loop_ok l' ∧ l_phase l' = Calling ∧ l_running l' = l_running l ∧ l_done l' = l_done l ∧ l_quit l' = l_quit l ∧
  l_pending l' = l_pending l ++ gs ∧ l_posting l' = l_posting l.
Proof.
  induction gs as [|g gs IH]; intros l Hp Hl; intros l'; [subst l'; cbn; rewrite app_nil_r; done|].
  cbn [foldl] in l'.
  assert (queueInLoop g l = wakeup (push_functor g l)) as E by (unfold queueInLoop; cbn; by rewrite Hp).
  subst l'. rewrite E. set (l1 := wakeup (push_functor g l)).
  assert (loop_ok l1) as Hl1.
  { destruct Hl as [Ho Hr Hw Hk Hq]. split; cbn; try done.
    - by rewrite <- Ho, <- !(assoc_L (++)).
    - intros. lia.
    - rewrite Hp. done. }
  destruct (IH l1 Hp Hl1) as (Hok & -> & -> & -> & -> & Hpend & ->). split_and!; try done.
  rewrite Hpend. cbn. by rewrite <- (assoc_L (++)).
Qed.

(** The functor that runs. *)
Lemma run_functor_ok l :
  l_phase l = Calling → loop_ok l → loop_ok (run_functor l) ∧ l_phase (run_functor l) = Calling ∧
  l_running (run_functor l) = tail (l_running l) ∧ l_done (run_functor l) = l_done l ++ take 1 (l_running l) ∧
  l_quit (run_functor l) = l_quit l ∧ l_posting (run_functor l) = l_posting l.
Proof.
  intros Hp Hl. unfold run_functor. destruct (l_running l) as [|f running] eqn:Er.
  { rewrite Er, app_nil_r. done. }
  set (l1 := l <| l_running := running |> <| l_done := l_done l ++ [f] |>).
  assert (loop_ok l1) as Hl1.
  { destruct Hl as [Ho Hr Hw Hk Hq]. split; cbn; try done.
    rewrite Er in Ho. rewrite <- (assoc_L (++)). exact Ho. }
  destruct (queue_in_calling (body f) l1 Hp Hl1) as (? & ? & ? & ? & ? & ? & ?). by split_and!.
Qed.

Lemma loop_step_ok l l' : loop_step l l' → loop_ok l → loop_ok l'.
Proof.
  intros Hstep Hl. pose proof Hl as [Ho Hr Hw Hk Hq].
  destruct Hstep as [l Hp|l Hp|l Hp|f l Hp|l Hp|l Hp Hnw|l Hp Hne|l Hp He|f l|l|l Hpost].
  - split; cbn; try done.
    + intros _. apply Hr. congruence.
    + intros _ _ Hpend. apply Hw; congruence.
    + intros Hwok. specialize (Hk Hwok). congruence.
  - split; cbn; try done. intros _. apply Hr. congruence.
  - unfold handleRead. destruct (l_woken l) eqn:Ew; [|done]. split; cbn; try done; congruence.
  - unfold queueInLoop. cbn. rewrite Hp. split; cbn; try congruence; try done.
    rewrite <- Ho, <- !(assoc_L (++)). done.
  - split; cbn; try done. intros Hpol. destruct Hp; congruence.
  - split; cbn; try congruence.
    rewrite (Hr ltac:(congruence)) in Ho. by rewrite app_nil_r.
  - by apply run_functor_ok.
  - split; cbn; try done.
    + intros _ _ Hpend. apply Hw; congruence.
    + intros Hwok. specialize (Hk Hwok). congruence.
    + by destruct (l_quit l).
  - split; cbn; try done.
    + rewrite <- Ho, <- !(assoc_L (++)). done.
    + intros. lia.
    + intros. lia.
  - split; cbn; try done; intros; lia.
  - split; cbn; try done; intros; lia.
Qed.

(** *** One iteration *)

Lemma run_functors_all n : ∀ l,
  l_phase l = Calling → loop_ok l → n = length (l_running l) →
  let l' := run_functors n l in
  loop_ok l' ∧ l_phase l' = Calling ∧ l_running l' = [] ∧ l_done l' = l_done l ++ l_running l ∧ l_quit l' = l_quit l.
Proof.
  induction n as [|n IH]; intros l Hp Hl Hn; cbn [run_functors].
  { destruct (l_running l) eqn:E; [|done]. by rewrite app_nil_r. }
  destruct (run_functor_ok l Hp Hl) as (Hl1 & Hp1 & Hr1 & Hd1 & Hq1 & _).
  destruct (IH (run_functor l) Hp1 Hl1) as (? & ? & ? & Hd & Hq).
  { rewrite Hr1. destruct (l_running l); [done|]. cbn in *. lia. }
  split_and!; try done; [|congruence]. rewrite Hd, Hd1, Hr1. destruct (l_running l); [done|].
  by rewrite <- (assoc_L (++)).
Qed.

Lemma iteration_after_poll l :
  loop_ok (poll_returns l) →
  l_done (iteration l) = l_done l ++ l_pending l ∧ loop_ok (iteration l) ∧
  l_phase (iteration l) = if l_quit l then Stopped else Polling.
Proof.
  intros Hl. set (l1 := swap_functors (handleRead (poll_returns l))).
  assert (loop_ok (handleRead (poll_returns l))) as Hl0 by (apply (loop_step_ok (poll_returns l)); [by apply WakeupRead|done]).
  assert (loop_ok l1) as Hl1.
  { apply (loop_step_ok (handleRead (poll_returns l))); [|done]. apply SwapFunctors; unfold handleRead; by destruct (l_woken (poll_returns l)) eqn:?. }
  assert (l_running l1 = l_pending l ∧ l_done l1 = l_done l ∧ l_quit l1 = l_quit l) as (Er & Ed & Eq).
  { unfold l1, handleRead. by destruct (l_woken (poll_returns l)). }
  destruct (run_functors_all (length (l_running l1)) l1) as (Hl2 & Hp2 & Hr2 & Hd2 & Hq2); [done..|].
  unfold iteration. fold l1. set (l2 := run_functors _ l1) in *. split_and!.
  - change (l_done (end_iteration l2)) with (l_done l2). by rewrite Hd2, Ed, Er.
  - apply (loop_step_ok l2); [by apply EndIteration|done].
  - change (l_phase (end_iteration l2)) with (if l_quit l2 then Stopped else Polling). by rewrite Hq2, Eq.
Qed.

Lemma iteration_runs_pending l :
  l_phase l = Polling → loop_ok l →
  l_done (iteration l) = l_done l ++ l_pending l ∧ loop_ok (iteration l) ∧
  l_phase (iteration l) = if l_quit l then Stopped else Polling.
Proof. intros Hp Hl. apply iteration_after_poll, (loop_step_ok l); [by apply PollReturns|done]. Qed.

(** ** Properties *)

(** C23.  No functor and no request to quit is forgotten: under every
    interleaving of the loop with other threads, functors run once each and
    in the order they were queued; and when the loop is about to wait in
    [epoll_wait] with functors pending or a request to quit, the eventfd is
    readable, so that it does not wait, or a thread is just about to write
    it; the iteration that follows runs everything that is pending and ends
    the loop when it is asked to. *)
Theorem no_lost_wakeup (l : event_loop) :
  rtc loop_step new_event_loop l →
  (∃ rest, l_queued l = l_done l ++ rest ∧ (l_phase l = Polling → rest = l_pending l)) ∧
  (l_phase l = Polling → l_pending l ≠ [] ∨ l_quit l = true → (0 < l_eventfd l + l_posting l)%nat) ∧
  (l_phase l = Polling →
     l_done (iteration l) = l_queued l ∧ l_phase (iteration l) = if l_quit l then Stopped else Polling).
Proof.
  intros Hrun. assert (loop_ok l) as Hl.
  { refine (rtc_preserves loop_step loop_ok _ _ _ Hrun new_event_loop_ok). intros x y. apply loop_step_ok. }
  pose proof Hl as [Ho Hr Hw Hk Hq]. split_and!.
  - exists (l_running l ++ l_pending l). split; [done|]. intros Hp. by rewrite Hr by congruence.
  - intros Hp [Hpend|Hquit]; [apply Hw; congruence|by apply Hq].
  - intros Hp. destruct (iteration_runs_pending l Hp Hl) as (Hd & _ & Hph). split; [|done].
    rewrite Hd, <- Ho, Hr by congruence. done.
Qed.
End loop.
Arguments event_loop : clear implicits.
Arguments new_event_loop {F}.

(** Another thread queues functor 7 while the loop waits. *)
Definition posted : event_loop nat := post 7%nat (loop_start new_event_loop).

Lemma no_lost_wakeup_witness : (0 < l_eventfd posted + l_posting posted)%nat ∧ l_done (iteration (λ _, []) posted) = [7%nat].
Proof.
  destruct (no_lost_wakeup (λ _, []) posted) as (_ & Hw & Hi).
  - apply (rtc_l _ _ (loop_start new_event_loop)); [by apply LoopStart|]. apply rtc_once, OtherQueues.
  - split.
    + apply Hw; [reflexivity|]. left. discriminate.
    + destruct Hi as [-> _]; reflexivity.
Defined.

(** A request to quit that comes before [loop()] is forgotten. *)
Lemma early_quit_forgotten : l_quit (loop_start (post_quit (@new_event_loop nat))) = false.
Proof. reflexivity. Qed.

(** A functor that the loop's own thread queues before [loop()] wakes nobody:
    it waits for the first event or the poll timeout. *)
Lemma early_functor_waits :
  let l := loop_start (queueInLoop 7%nat new_event_loop) in
  l_phase l = Polling ∧ l_pending l = [7%nat] ∧ (l_eventfd l + l_posting l = 0)%nat.
Proof. done. Qed.

(** ** The pool of loops *)

(** Loops are numbered; [None] is the loop of the server. *)
Record thread_pool := MkThreadPool {
  tp_started : bool;
  tp_numThreads : Z;
  tp_next : Z;
  tp_loops : list nat;
}.

Definition new_pool : thread_pool := MkThreadPool false 0 0 [].

Definition setThreadNum (numThreads : Z) (p : thread_pool) : thread_pool :=
  MkThreadPool (tp_started p) numThreads (tp_next p) (tp_loops p).

Definition pool_start (p : thread_pool) : option thread_pool :=
  _ ← assertion (negb (tp_started p));
  Some (MkThreadPool true (tp_numThreads p) (tp_next p) (tp_loops p ++ seq 0 (Z.to_nat (tp_numThreads p)))).

Definition getNextLoop (p : thread_pool) : option (thread_pool * option nat) :=
  _ ← assertion (tp_started p);
  match tp_loops p with
  | [] => Some (p, None)
  | _ =>
      loop ← tp_loops p !! Z.to_nat (tp_next p);
      let next := to_int (tp_next p + 1) in
      let next := if Z.of_nat (length (tp_loops p)) <=? next then 0 else next in
      Some (MkThreadPool (tp_started p) (tp_numThreads p) next (tp_loops p), Some loop)
  end.

Definition getLoopForHash (hashCode : Z) (p : thread_pool) : option nat :=
  match tp_loops p with [] => None | _ => tp_loops p !! Z.to_nat (hashCode mod Z.of_nat (length (tp_loops p))) end.

Definition getAllLoops (p : thread_pool) : option (list (option nat)) :=
  _ ← assertion (tp_started p);
  Some (match tp_loops p with [] => [None] | loops => Some <$> loops end).

Fixpoint next_loops (n : nat) (p : thread_pool) : option (thread_pool * list (option nat)) :=
  match n with
  | O => Some (p, [])
  | S n =>
      '(p, loop) ← getNextLoop p;
      '(p, rest) ← next_loops n p;
      Some (p, loop :: rest)
  end.

(** A started pool of [n] loops. *)
Definition pool_of (n : nat) (next : nat) : thread_pool := MkThreadPool true (Z.of_nat n) (Z.of_nat next) (seq 0 n).

Lemma getNextLoop_pool n i :
  (i < n)%nat → Z.of_nat n <= INT_MAX →
  getNextLoop (pool_of n i) = Some (pool_of n (if (S i =? n)%nat then 0 else S i)%nat, Some i).
Proof.
  intros Hi Hmax. unfold getNextLoop, pool_of. cbn [tp_started tp_loops tp_next tp_numThreads assertion mbind option_bind].
  destruct (seq 0 n) as [|x l] eqn:Es; [destruct n; [lia|done]|]. rewrite <- Es, Nat2Z.id, lookup_seq_lt by done.
  cbn [mbind option_bind]. rewrite length_seq.
  rewrite to_int_id by (unfold is_int, INT_MIN, INT_MAX in *; lia). do 3 f_equal.
  destruct (Z.leb_spec (Z.of_nat n) (Z.of_nat i + 1)), (Nat.eqb_spec (S i) n); try lia.
Qed.

Lemma next_loops_range n k : ∀ i,
  (i + k <= n)%nat → (0 < n)%nat → Z.of_nat n <= INT_MAX →
  next_loops k (pool_of n (if (i =? n)%nat then 0 else i)%nat) =
  match k with
  | O => Some (pool_of n (if (i =? n)%nat then 0 else i)%nat, [])
  | _ => Some (pool_of n (if (i + k =? n)%nat then 0 else i + k)%nat, Some <$> seq i k)
  end.
Proof.
  induction k as [|k IH]; intros i Hi Hn Hmax; [done|]. cbn [next_loops].
  destruct (Nat.eqb_spec i n); [lia|]. rewrite getNextLoop_pool by lia. cbn [mbind option_bind].
  rewrite IH by lia. replace (i + S k)%nat with (S i + k)%nat by lia.
  destruct k as [|k]; cbn [mbind option_bind]; [|done]. by rewrite Nat.add_0_r.
Qed.

Lemma next_loops_app k1 k2 : ∀ p p1 l1,
  next_loops k1 p = Some (p1, l1) → next_loops (k1 + k2) p = ('(p2, l2) ← next_loops k2 p1; Some (p2, l1 ++ l2)).
Proof.
  induction k1 as [|k1 IH]; intros p p1 l1 E; cbn [next_loops Nat.add] in *.
  { injection E as <- <-. by destruct (next_loops k2 p) as [[? ?]|]. }
  destruct (getNextLoop p) as [[p' x]|]; cbn [mbind option_bind] in *; [|done].
  destruct (next_loops k1 p') as [[p'' l']|] eqn:E1; cbn [mbind option_bind] in *; [|done]. injection E as <- <-.
  rewrite (IH _ _ _ E1). by destruct (next_loops k2 p'') as [[? ?]|].
Qed.

(** Connections are spread evenly: [rounds] times as many connections as
    there are loops are given to the loops in turn, each loop [rounds] of
    them. *)
Theorem round_robin (n rounds : nat) :
  (0 < n)%nat → Z.of_nat n <= INT_MAX →
  next_loops (rounds * n) (pool_of n 0) = Some (pool_of n 0, concat (replicate rounds (Some <$> seq 0 n))).
Proof.
  intros Hn Hmax. induction rounds as [|rounds IH]; [done|]. cbn [Nat.mul replicate concat].
  pose proof (next_loops_range n n 0 ltac:(lia) Hn Hmax) as E. destruct (Nat.eqb_spec 0 n); [lia|].
  assert (next_loops n (pool_of n 0) = Some (pool_of n 0, Some <$> seq 0 n)) as E1.
  { rewrite E. destruct n; [lia|]. by rewrite Nat.add_0_l, Nat.eqb_refl. }
  rewrite (next_loops_app n (rounds * n) _ _ _ E1), IH. done.
Qed.

Lemma round_robin_witness :
  pool_start (setThreadNum 2 new_pool) = Some (pool_of 2 0) ∧
  next_loops 4 (pool_of 2 0) = Some (pool_of 2 0, [Some 0; Some 1; Some 0; Some 1])%nat.
Proof. split; [reflexivity|]. apply (round_robin 2 2); [lia|vm_compute; discriminate]. Defined.
