(* ===== verification/LoopThread.v ===== *)
(** * The thread of an event loop

    [class EventLoopThread] ([network/src/EventLoopThread.cc]): [startLoop]
    starts a thread and waits until the loop, which lives on the stack of that
    thread, has been published; the destructor asks the loop to quit and joins
    the thread.

    Owner and thread interleave: each step is one critical section of
    [mutex_], one access to an atomic or one call.  A wait on the condition
    variable ends when it is notified, or spuriously. *)
From S2P Require Import Prelude.

(** Where the owner is. *)
Inductive owner_phase :=
  | Created                 (* before startLoop *)
  | Checking                (* in startLoop, about to look at loop_ under the mutex *)
  | Waiting (woken : bool)  (* in cv_.wait *)
  | Returned (loop : bool)  (* startLoop has returned; whether the loop is not null *)
  | Joining                 (* in the destructor, in join *)
  | Gone.
#[export] Instance owner_phase_eq_dec : EqDecision owner_phase.
Proof. solve_decision. Defined.

(** Where the thread is in [threadFunc]. *)
Inductive thread_phase :=
  | NotStarted
  | Preparing               (* the loop exists, callback_ runs *)
  | Published               (* before loop.loop() *)
  | Looping                 (* in loop.loop() *)
  | Leaving                 (* the loop has ended *)
  | Finished.
#[export] Instance thread_phase_eq_dec : EqDecision thread_phase.
Proof. solve_decision. Defined.

Record loop_thread := MkLoopThread {
  lt_owner : owner_phase;
  lt_thread : thread_phase;
  lt_loop : bool;           (* loop_ is not null *)
  lt_quit : bool;           (* quit_ of the loop *)
  lt_exiting : bool;
}.
#[export] Instance eta_loop_thread : Eta loop_thread := fun t =>
  MkLoopThread (lt_owner t) (lt_thread t) (lt_loop t) (lt_quit t) (lt_exiting t).

Definition new_loop_thread : loop_thread := MkLoopThread Created NotStarted false false false.

(** ** [startLoop] *)

Definition start_thread (t : loop_thread) : loop_thread := t <| lt_owner := Checking |> <| lt_thread := Preparing |>.

Definition check_loop (t : loop_thread) : loop_thread :=
  t <| lt_owner := if lt_loop t then Returned true else Waiting false |>.

Definition wake_owner (t : loop_thread) : loop_thread := t <| lt_owner := Checking |>.

(** ** [threadFunc] *)

(** The loop is published and the owner notified, under the mutex. *)
Definition publish (t : loop_thread) : loop_thread :=
  t <| lt_thread := Published |> <| lt_loop := true |>
    <| lt_owner := match lt_owner t with Waiting _ => Waiting true | p => p end |>.

(** [loop()] resets [quit_]. *)
Definition enter_loop (t : loop_thread) : loop_thread := t <| lt_thread := Looping |> <| lt_quit := false |>.
Definition leave_loop (t : loop_thread) : loop_thread := t <| lt_thread := Leaving |>.
Definition clear_loop (t : loop_thread) : loop_thread := t <| lt_thread := Finished |> <| lt_loop := false |>.

(** ** The destructor *)

Definition destroy_thread (t : loop_thread) : loop_thread :=
  let t := t <| lt_exiting := true |> in
  if lt_loop t then t <| lt_quit := true |> <| lt_owner := Joining |> else t <| lt_owner := Gone |>.

Definition joined (t : loop_thread) : loop_thread := t <| lt_owner := Gone |>.

(** ** Interleavings *)

Inductive thread_step : loop_thread → loop_thread → Prop :=
  | StepStart t : lt_owner t = Created → thread_step t (start_thread t)
  | StepCheck t : lt_owner t = Checking → thread_step t (check_loop t)
  | StepWake t b : lt_owner t = Waiting b → thread_step t (wake_owner t)
  | StepPublish t : lt_thread t = Preparing → thread_step t (publish t)
  | StepEnter t : lt_thread t = Published → thread_step t (enter_loop t)
  | StepLeave t : lt_thread t = Looping → lt_quit t = true → thread_step t (leave_loop t)
  | StepClear t : lt_thread t = Leaving → thread_step t (clear_loop t)
  | StepDestroy t b : lt_owner t = Returned b → thread_step t (destroy_thread t)
  | StepJoined t : lt_owner t = Joining → lt_thread t = Finished → thread_step t (joined t).

(** The steps that happen without anybody asking: all but the call of
    [startLoop], the destructor and spurious wakeups. *)
Definition next_step (t : loop_thread) : option loop_thread :=
  match lt_owner t, lt_thread t with
  | Checking, _ => Some (check_loop t)
  | Waiting true, _ => Some (wake_owner t)
  | Waiting false, Preparing => Some (publish t)
  | _, _ => None
  end.

Fixpoint run_steps (n : nat) (t : loop_thread) : loop_thread :=
  match n with
  | O => t
  | S n => match next_step t with Some t => run_steps n t | None => t end
  end.

(** ** The invariant *)

(** Before [startLoop] has returned nobody asks the loop to quit. *)
Definition owner_ok (t : loop_thread) : Prop :=
  match lt_owner t with
  | Created => lt_thread t = NotStarted ∧ lt_loop t = false ∧ lt_quit t = false
  | Checking => lt_thread t ∈ [Preparing; Published; Looping] ∧ lt_quit t = false
  | Waiting false => lt_thread t = Preparing ∧ lt_quit t = false
  | Waiting true => lt_thread t ∈ [Published; Looping] ∧ lt_quit t = false
  | Returned b => b = true ∧ lt_thread t ∈ [Published; Looping] ∧ lt_quit t = false
  | Joining => lt_thread t ≠ NotStarted ∧ lt_thread t ≠ Preparing
  | Gone => lt_thread t = Finished
  end.

Definition published (p : thread_phase) : bool :=
  match p with Published | Looping | Leaving => true | _ => false end.

Definition loop_thread_ok (t : loop_thread) : Prop := owner_ok t ∧ lt_loop t = published (lt_thread t).

(** ** Lemmas *)

Lemma thread_step_ok t t' : thread_step t t' → loop_thread_ok t → loop_thread_ok t'.
Proof.
  intros Hstep [Ho Hl]. destruct t as [o p loop quit exiting]. unfold loop_thread_ok, owner_ok in *. cbn in *.
  inversion Hstep; subst; cbn in *; simplify_eq/=.
  - destruct Ho as (-> & _ & ->). split; [|done]. split; [set_solver|done].
  - destruct (published p) eqn:Ep; (split; [|done]).
    + split_and!; [done| |tauto]. destruct Ho as [Hp _]. destruct p; set_solver.
    + split; [|tauto]. destruct Ho as [Hp _]. destruct p; try done; set_solver.
  - split; [|done]. destruct b; [destruct Ho; split; [set_solver|done]|destruct Ho as [-> ->]; split; [set_solver|done]].
  - destruct o as [| |[]|b| |]; cbn in *; try (by destruct Ho); split; try done; try (set_solver).
  - destruct o as [| |[]|b| |]; cbn in *; try (by destruct Ho); split; try done; try (split; [set_solver|done]); set_solver.
  - destruct o as [| |[]|b| |]; cbn in *; try (destruct Ho; naive_solver); split; done.
  - destruct o as [| |[]|b| |]; cbn in *; try (destruct Ho; set_solver); split; done.
  - destruct Ho as (-> & Hp & ->). assert (published p = true) as Hpub by (destruct p; set_solver).
    rewrite Hpub in *. cbn. split; [|done]. destruct p; done.
  - done.
Qed.

Lemma new_loop_thread_ok : loop_thread_ok new_loop_thread.
Proof. done. Qed.

Lemma reachable_thread_ok t : rtc thread_step new_loop_thread t → loop_thread_ok t.
Proof.
  intros Hrun. refine (rtc_preserves thread_step loop_thread_ok _ _ _ Hrun new_loop_thread_ok).
  intros x y Hxy Hx. exact (thread_step_ok x y Hxy Hx).
Qed.

Lemma next_step_sound t t' : next_step t = Some t' → thread_step t t'.
Proof.
  unfold next_step. destruct (lt_owner t) as [| |[]|b| |] eqn:Eo; try done.
  - intros [= <-]. by apply StepCheck.
  - intros [= <-]. by apply (StepWake t true).
  - destruct (lt_thread t) eqn:Et; try done. intros [= <-]. by apply StepPublish.
Qed.

(** ** Properties *)

(** The start of a loop neither misses the notification nor returns too early:
    however owner and thread interleave, an owner that waits without having
    been notified waits for a thread that has not published its loop yet;
    from every state inside [startLoop] four steps of the two threads at most
    lead to its return; and what it returns is a loop that exists and that
    nobody has asked to quit. *)
Theorem start_loop_returns (t : loop_thread) :
  rtc thread_step new_loop_thread t →
  (lt_owner t = Waiting false → lt_thread t = Preparing) ∧
  (lt_owner t = Checking ∨ (∃ woken, lt_owner t = Waiting woken) → lt_owner (run_steps 4 t) = Returned true) ∧
  (∀ loop, lt_owner t = Returned loop → loop = true ∧ lt_loop t = true ∧ lt_quit t = false).
Proof.
  intros Hrun. destruct (reachable_thread_ok t Hrun) as [Ho Hl]. destruct t as [o p loop quit exiting].
  unfold owner_ok in Ho. cbn in *. split_and!.
  - intros ->. by destruct Ho.
  - intros Hin. destruct o as [| |[]|b| |]; try (by destruct Hin as [?|[? ?]]).
    + destruct Ho as [Hp _]. destruct p; subst; try (by vm_compute); set_solver.
    + destruct Ho as [Hp _]. destruct p; subst; try (by vm_compute); set_solver.
    + destruct Ho as [-> _]. subst. by vm_compute.
  - intros b ->. destruct Ho as (-> & Hp & ->). split_and!; [done| |done]. destruct p; try done; set_solver.
Qed.

(** A loop thread that is destroyed before its loop has started never ends:
    the request to quit is forgotten, and the owner waits in [join]. *)
Lemma early_destroy_hangs :
  ∃ t, rtc thread_step new_loop_thread t ∧ lt_owner t = Joining ∧ ∀ t', ¬ thread_step t t'.
Proof.
  exists (MkLoopThread Joining Looping true false true). split_and!; [|done|].
  - set (t1 := start_thread new_loop_thread). set (t2 := publish t1). set (t3 := check_loop t2). set (t4 := destroy_thread t3).
    apply (rtc_l _ _ t1); [by apply StepStart|]. apply (rtc_l _ _ t2); [by apply StepPublish|].
    apply (rtc_l _ _ t3); [by apply StepCheck|]. apply (rtc_l _ _ t4); [by apply (StepDestroy t3 true)|].
    apply rtc_once. exact (StepEnter t4 eq_refl).
  - intros t' Hstep. inversion Hstep; subst; done.
Qed.
