(* ===== verification/Acceptor.v ===== *)
(** * Accepting connections

    [class Acceptor] ([network/src/Acceptor.cc]): the listening socket with
    its channel ([Reactor]) and the spare descriptor that is given up for a
    moment when the process has no descriptor left, so that the connection
    that waits can be accepted and closed.

    The descriptors the acceptor has open are a set; a connection that is
    delivered is closed later by its owner.  What the kernel answers to
    [socket], [bind], [listen], [accept] and [open] is an argument.  [None] is
    the end of the process, by a failed [assert] or by [LOG(FATAL)]. *)
From S2P Require Import Prelude Reactor.

Record acceptor := MkAcceptor {
  a_socket : Z;
  a_channel : nat;
  a_reactor : reactor;
  a_listening : bool;
  a_idleFd : Z;
  a_callback : bool;
  a_open : gset Z;
  a_live : gset Z;
}.
#[export] Instance eta_acceptor : Eta acceptor := fun a =>
  MkAcceptor (a_socket a) (a_channel a) (a_reactor a) (a_listening a) (a_idleFd a) (a_callback a) (a_open a) (a_live a).

Definition EMFILE : Z := 24.

(** [::close]: a negative descriptor is refused. *)
Definition close_descriptor (fd : Z) (a : acceptor) : acceptor := a <| a_open := a_open a ∖ {[fd]} |>.

(** [::open] and [::accept] give a descriptor or -1. *)
Definition open_descriptor (answer : option Z) (a : acceptor) : acceptor * Z :=
  match answer with Some fd => (a <| a_open := {[fd]} ∪ a_open a |>, fd) | None => (a, -1) end.

(** The answers to the calls that set the socket up: [socket], [open],
    [bind] and [listen]. *)
Record listen_answers := MkListenAnswers {
  la_socket : Z;
  la_null : option Z;
  la_bind : Z;
  la_listen : Z;
}.

(** [createNonblockingOrDie], [bindOrDie] and [listenOrDie]: [LOG(FATAL)] when
    the call fails. *)
Definition or_die (ret : Z) : option Z := if ret <? 0 then None else Some ret.

(** The constructor; the options of the socket are set whatever the kernel
    answers. *)
Definition new_acceptor (k : listen_answers) (id : nat) (r : reactor) : option acceptor :=
  socket ← or_die (la_socket k);
  let a := MkAcceptor socket id (set_channel id (new_channel socket) r) false (-1) false {[socket]} ∅ in
  let '(a, idleFd) := open_descriptor (la_null k) a in
  _ ← assertion (0 <=? idleFd);
  _ ← or_die (la_bind k);
  Some (a <| a_idleFd := idleFd |>).

(** [setNewConnectionCallback]. *)
Definition set_callback (a : acceptor) : acceptor := a <| a_callback := true |>.

Definition listen (ret : Z) (a : acceptor) : option acceptor :=
  _ ← or_die ret;
  r ← enableReading (a_channel a) (a_reactor a);
  Some (a <| a_listening := true |> <| a_reactor := r |>).

(** The answers to one event of the listening socket: to [accept], or its
    errno, to the second [accept] and to [open]. *)
Record accept_answers := MkAcceptAnswers {
  an_accept : Z + Z;
  an_again : option Z;
  an_null : option Z;
}.

Definition handleRead (s : accept_answers) (a : acceptor) : acceptor :=
  match an_accept s with
  | inr connfd =>
      let a := a <| a_open := {[connfd]} ∪ a_open a |> in
      if a_callback a then a <| a_live := {[connfd]} ∪ a_live a |> else close_descriptor connfd a
  | inl errno =>
      if errno =? EMFILE then
        let a := close_descriptor (a_idleFd a) a in
        let '(a, idleFd) := open_descriptor (an_again s) a in
        let a := close_descriptor idleFd a in
        let '(a, idleFd) := open_descriptor (an_null s) a in
        a <| a_idleFd := idleFd |>
      else a
  end.

(** The destructor of the acceptor; that of its socket closes the socket. *)
Definition destroy_acceptor (a : acceptor) : option acceptor :=
  r ← disableAll (a_channel a) (a_reactor a);
  r ← remove (a_channel a) r;
  Some (close_descriptor (a_socket a) (close_descriptor (a_idleFd a) a) <| a_reactor := r |>).

(** ** Runs *)

Inductive acceptor_action :=
  | SetCallback
  | Listen (ret : Z)
  | Incoming (s : accept_answers)
  | ConnectionClosed (fd : Z)
  | OtherChannels (r : reactor).

Definition run_acceptor (x : acceptor_action) (a : acceptor) : option acceptor :=
  match x with
  | SetCallback => Some (set_callback a)
  | Listen ret => listen ret a
  | Incoming s => Some (handleRead s a)
  | ConnectionClosed fd => Some (close_descriptor fd a <| a_live := a_live a ∖ {[fd]} |>)
  | OtherChannels r => Some (a <| a_reactor := r |>)
  end.

(** The kernel gives descriptors that are not in use at that moment. *)
Definition answers_fresh (s : accept_answers) (a : acceptor) : Prop :=
  let used := a_open a ∖ {[a_idleFd a]} in
  match an_accept s with inr fd => 0 <= fd ∧ fd ∉ a_open a | inl _ => True end ∧
  match an_again s with Some fd => 0 <= fd ∧ fd ∉ used | None => True end ∧
  match an_null s with Some fd => 0 <= fd ∧ fd ∉ used | None => True end.

Definition acceptor_enabled (x : acceptor_action) (a : acceptor) : Prop :=
  match x with
  | SetCallback => True
  | Listen ret => 0 <= ret
  | Incoming s => answers_fresh s a
  | ConnectionClosed fd => fd ∈ a_live a
  | OtherChannels r => reactor_ok r ∧ r_store r !! a_channel a = r_store (a_reactor a) !! a_channel a ∧
      (r_channels (a_reactor a) !! a_socket a = None → r_channels r !! a_socket a = None)
  end.

Definition acceptor_step (a a' : acceptor) : Prop := ∃ x, acceptor_enabled x a ∧ run_acceptor x a = Some a'.

(** The descriptors an acceptor is responsible for. *)
Definition idle_set (a : acceptor) : gset Z := if 0 <=? a_idleFd a then {[a_idleFd a]} else ∅.

Record acceptor_ok (a : acceptor) : Prop := {
  ao_reactor : reactor_ok (a_reactor a);
  ao_channel : ∃ ch, r_store (a_reactor a) !! a_channel a = Some ch ∧ fd_ ch = a_socket a ∧
    if a_listening a then index_ ch = kAdded ∧ events_ ch = ReadEvent
    else index_ ch = kNew ∧ events_ ch = NoneEvent ∧ r_channels (a_reactor a) !! a_socket a = None;
  ao_open : a_open a = {[a_socket a]} ∪ idle_set a ∪ a_live a;
  ao_idle : -1 <= a_idleFd a ∧ a_idleFd a ≠ a_socket a ∧ a_idleFd a ∉ a_live a;
  ao_live : a_socket a ∉ a_live a ∧ ∀ fd, fd ∈ a_open a → 0 <= fd;
}.

(** ** Lemmas *)

(** Without its spare descriptor. *)
Lemma open_without_idle a : acceptor_ok a → a_open a ∖ {[a_idleFd a]} = {[a_socket a]} ∪ a_live a.
Proof.
  intros [_ _ Hopen (Hge & Hs & Hl) _]. rewrite Hopen. unfold idle_set. destruct (0 <=? a_idleFd a); set_solver.
Qed.

(** A new spare descriptor next to the socket and the connections. *)
Lemma with_idle_ok a open idle :
  acceptor_ok a → -1 <= idle → (0 <= idle → idle ∉ {[a_socket a]} ∪ a_live a) →
  open = {[a_socket a]} ∪ (if 0 <=? idle then {[idle]} else ∅) ∪ a_live a →
  acceptor_ok (a <| a_open := open |> <| a_idleFd := idle |>).
Proof.
  intros [Hr Hch Hopen (Hge & Hs & Hl) (Hsl & Hpos)] Hi Hfresh E.
  assert (∀ fd, fd ∈ {[a_socket a]} ∪ a_live a → 0 <= fd) as Hpos' by (intros fd Hfd; apply Hpos; rewrite Hopen; set_solver).
  split; [exact Hr|exact Hch|exact E|..]; cbn.
  - split; [done|]. destruct (decide (0 <= idle)) as [Hp|Hn]; [set_solver|].
    split; intros Hx; [subst idle|]; [pose proof (Hpos' (a_socket a))|pose proof (Hpos' idle)]; set_solver by lia.
  - split; [done|]. intros fd. rewrite E. destruct (Z.leb_spec 0 idle); intros Hin; [|apply Hpos'; set_solver].
    apply elem_of_union in Hin as [[Hin|Hin]%elem_of_union|Hin]; [apply Hpos'; set_solver| |apply Hpos'; set_solver].
    apply elem_of_singleton in Hin as ->. done.
Qed.

Lemma emfile_ok again null a :
  acceptor_ok a →
  (match again with Some fd => 0 <= fd ∧ fd ∉ a_open a ∖ {[a_idleFd a]} | None => True end) →
  (match null with Some fd => 0 <= fd ∧ fd ∉ a_open a ∖ {[a_idleFd a]} | None => True end) →
  acceptor_ok (handleRead (MkAcceptAnswers (inl EMFILE) again null) a) ∧
  a_live (handleRead (MkAcceptAnswers (inl EMFILE) again null) a) = a_live a.
Proof.
  intros Ha Hagain Hnull. pose proof (open_without_idle a Ha) as Hbase. rewrite Hbase in Hagain, Hnull.
  assert (-1 ∉ {[a_socket a]} ∪ a_live a) as Hneg.
  { intros Hin. destruct (ao_live a Ha) as [_ Hpos]. pose proof (Hpos (-1)). rewrite <- Hbase in Hin. set_solver by lia. }
  unfold handleRead. cbn [an_accept an_again an_null Z.eqb EMFILE]. split; [|by destruct again, null].
  assert (∀ idle, idle = default (-1) null → acceptor_ok (a <| a_open :=
    (match null with Some fd => {[fd]} | None => ∅ end) ∪ ({[a_socket a]} ∪ a_live a) |> <| a_idleFd := idle |>)) as Hend.
  { intros idle ->. apply with_idle_ok; [done|..].
    - destruct null; cbn; lia.
    - destruct null as [fd|]; cbn; [tauto|lia].
    - destruct null as [fd|]; cbn; [|set_solver]. destruct Hnull as [Hp _]. destruct (Z.leb_spec 0 fd); [set_solver|lia]. }
  assert (∀ x, x ∉ {[a_socket a]} ∪ a_live a →
    ({[x]} ∪ a_open a ∖ {[a_idleFd a]}) ∖ {[x]} = {[a_socket a]} ∪ a_live a) as Hin by (intros x Hx; rewrite Hbase; set_solver).
  assert (a_open a ∖ {[a_idleFd a]} ∖ {[-1]} = {[a_socket a]} ∪ a_live a) as Hout by (rewrite Hbase; set_solver).
  destruct again as [x|], null as [y|]; cbn [open_descriptor]; unfold close_descriptor; cbn;
    cbn in Hend; [specialize (Hend y eq_refl)|specialize (Hend (-1) eq_refl)|specialize (Hend y eq_refl)|specialize (Hend (-1) eq_refl)];
    rewrite ?Hin, ?Hout by tauto; rewrite ?union_empty_l_L in Hend; exact Hend.
Qed.

Lemma accepted_ok connfd again null a :
  acceptor_ok a → 0 <= connfd → connfd ∉ a_open a → acceptor_ok (handleRead (MkAcceptAnswers (inr connfd) again null) a).
Proof.
  intros [Hr Hch Hopen (Hge & Hs & Hl) (Hsl & Hpos)] Hp Hfresh. unfold handleRead. cbn [an_accept].
  change (a_callback (a <| a_open := {[connfd]} ∪ a_open a |>)) with (a_callback a). destruct (a_callback a).
  - split; [exact Hr|exact Hch|..]; cbn.
    + rewrite Hopen. unfold idle_set. cbn. set_solver.
    + split_and!; try done. apply not_elem_of_union. split; [|done]. apply not_elem_of_singleton. intros <-. apply Hfresh.
      rewrite Hopen. unfold idle_set. destruct (Z.leb_spec 0 (a_idleFd a)); [set_solver|lia].
    + split; [set_solver|]. intros fd [->%elem_of_singleton|Hin]%elem_of_union; [done|auto].
  - assert (({[connfd]} ∪ a_open a) ∖ {[connfd]} = a_open a) as E by set_solver.
    unfold close_descriptor. cbn. split; cbn; rewrite ?E; try done.
Qed.

Lemma acceptor_action_ok x a : acceptor_ok a → acceptor_enabled x a → ∃ a', run_acceptor x a = Some a' ∧ acceptor_ok a'.
Proof.
  intros Ha Hx. pose proof Ha as [Hr (ch & Hst & Hfd & Hch) Hopen Hidle Hlive]. destruct x as [|ret|s|fd|r]; cbn [run_acceptor].
  - eexists. split; [done|]. split; try done. by exists ch.
  - unfold listen, or_die, enableReading. cbn in Hx. destruct (Z.ltb_spec ret 0); [lia|]. cbn [mbind option_bind]. assert (may_update (a_reactor a) (a_channel a) ch) as Hmay.
    { intros Hn. rewrite Hfd. destruct (a_listening a); [destruct Hch as [Hi _]; rewrite Hi in Hn; done|tauto]. }
    rewrite (change_events_eq _ _ ch) by done. cbn [mbind option_bind]. eexists. split; [done|]. split; try done.
    + by apply with_update_ok.
    + eexists. split; [apply lookup_insert_eq|]. split; [done|]. cbn.
      assert (Z.lor (events_ ch) ReadEvent = ReadEvent) as -> by (destruct (a_listening a); [destruct Hch as [_ ->]|destruct Hch as (_ & -> & _)]; done).
      by rewrite andb_false_r.
  - eexists. split; [done|]. destruct s as [acc again null]. destruct Hx as (Hacc & Hagain & Hnull). cbn in Hacc, Hagain, Hnull.
    destruct acc as [errno|connfd]; [|by apply accepted_ok; tauto]. destruct (decide (errno = EMFILE)) as [->|Hne].
    + by apply emfile_ok.
    + unfold handleRead. cbn [an_accept]. by rewrite (proj2 (Z.eqb_neq errno EMFILE) Hne).
  - eexists. split; [done|]. cbn in Hx. destruct Hidle as (? & ? & Hl), Hlive as (Hsl & Hpos). split; cbn; try done.
    + by exists ch.
    + unfold close_descriptor. cbn. rewrite Hopen. unfold idle_set. cbn. destruct (0 <=? a_idleFd a); set_solver.
    + set_solver.
    + split; [set_solver|]. intros fd' Hin. apply Hpos. set_solver.
  - destruct Hx as (Hr' & Est & Hmap). eexists. split; [done|]. split; try done. exists ch. cbn. rewrite Est. split_and!; try done.
    destruct (a_listening a); [done|]. destruct Hch as (? & ? & ?). split_and!; auto.
Qed.

(** ** Properties *)

(** An acceptor as a server creates it: the channel is a new object, and the
    kernel gives descriptors that are not in use. *)
Definition acceptor_start (k : listen_answers) (id : nat) (r : reactor) (a : acceptor) : Prop :=
  reactor_ok r ∧ r_store r !! id = None ∧ r_channels r !! la_socket k = None ∧ la_null k ≠ Some (la_socket k) ∧
  new_acceptor k id r = Some a.

Lemma acceptor_start_ok k id r a : acceptor_start k id r a → acceptor_ok a.
Proof.
  intros (Hr & Hid & Hfd & Hne & E). unfold new_acceptor, or_die in E. destruct k as [socket null bound listened]. cbn [la_socket la_null la_bind] in *.
  destruct (Z.ltb_spec socket 0); [done|]. cbn [mbind option_bind] in E. destruct null as [null|]; cbn [open_descriptor] in E; [|done].
  destruct (Z.leb_spec 0 null); [|done]. cbn in E. destruct (bound <? 0); [done|]. cbn in E. injection E as <-. split; cbn.
  - by apply new_channel_ok.
  - exists (new_channel socket). split; [apply lookup_insert_eq|]. done.
  - unfold idle_set. cbn. destruct (Z.leb_spec 0 null); [set_solver|lia].
  - split_and!; [lia|congruence|set_solver].
  - split; [set_solver|]. intros fd [->%elem_of_singleton| ->%elem_of_singleton]%elem_of_union; done.
Qed.

(** A socket that listens is watched. *)
Lemma listening_watched a : acceptor_ok a → a_listening a = true → r_interest (a_reactor a) !! a_socket a = Some ReadEvent.
Proof.
  intros Ha Hl. destruct (ao_channel a Ha) as (ch & Hst & Hfd & Hch). rewrite Hl in Hch. destruct Hch as [Hi He].
  destruct (ok_channels _ (ao_reactor a Ha) _ _ Hst) as [[Hn _]|[(_ & _ & Hint)|(_ & Hn & _)]]; [|congruence|]; rewrite Hi in Hn; done.
Qed.

(** C38.  An acceptor leaks no descriptor, not even when the process has none
    left: after any sequence of incoming connections, failures of [accept]
    and closes, the descriptors open are the listening socket, the spare one
    and the connections delivered and not closed; no assertion fails; a
    socket that listens is watched; and when descriptors run out the
    connection that waits is taken and refused, the others stay, and the
    spare descriptor is there again if the kernel grants it. *)
Theorem acceptor_descriptors (k : listen_answers) (id : nat) (r : reactor) (a0 a : acceptor) :
  acceptor_start k id r a0 → rtc acceptor_step a0 a →
  (∀ x, acceptor_enabled x a → is_Some (run_acceptor x a)) ∧
  a_open a = {[a_socket a]} ∪ idle_set a ∪ a_live a ∧ a_idleFd a ∉ {[a_socket a]} ∪ a_live a ∧
  (a_listening a = true → r_interest (a_reactor a) !! a_socket a = Some ReadEvent) ∧
  (∀ again fd, 0 <= fd → fd ∉ {[a_socket a]} ∪ a_live a →
     match again with Some c => 0 <= c ∧ c ∉ {[a_socket a]} ∪ a_live a | None => True end →
     let a' := handleRead (MkAcceptAnswers (inl EMFILE) again (Some fd)) a in
     a_live a' = a_live a ∧ a_idleFd a' = fd ∧ a_open a' = {[a_socket a; fd]} ∪ a_live a).
Proof.
  intros H0 Hrun. assert (acceptor_ok a) as Ha.
  { refine (rtc_preserves acceptor_step acceptor_ok _ _ _ Hrun (acceptor_start_ok _ _ _ _ H0)).
    intros x y (act & Hen & E) Hx. destruct (acceptor_action_ok act x Hx Hen) as (y' & E' & Hy). congruence. }
  split_and!.
  - intros x Hx. destruct (acceptor_action_ok x a Ha Hx) as (a' & -> & _). by eexists.
  - apply Ha.
  - destruct (ao_idle a Ha) as (_ & ? & ?). set_solver.
  - by apply listening_watched.
  - intros again fd Hpos Hfd Hagain a'. rewrite <- (open_without_idle a Ha) in Hfd, Hagain.
    destruct (emfile_ok again (Some fd) a Ha Hagain (conj Hpos Hfd)) as [Ha' Hl]. fold a' in Ha', Hl.
    assert (a_idleFd a' = fd) as Hidle by (unfold a'; by destruct again). split_and!; [done|done|].
    rewrite (ao_open a' Ha'). unfold idle_set. rewrite Hidle, Hl. destruct (Z.leb_spec 0 fd); [|lia].
    assert (a_socket a' = a_socket a) as -> by (unfold a'; by destruct again). done.
Qed.

(** An acceptor that listens on descriptor 5 with 6 as the spare one. *)
Definition idle_acceptor : acceptor :=
  default (MkAcceptor 0 0 new_reactor false 0 false ∅ ∅) (new_acceptor (MkListenAnswers 5 (Some 6) 0 0) 0 new_reactor).
Definition listening_acceptor : acceptor := default idle_acceptor (listen 0 (set_callback idle_acceptor)).

Lemma acceptor_descriptors_witness :
  r_interest (a_reactor listening_acceptor) !! 5 = Some ReadEvent ∧
  a_open (handleRead (MkAcceptAnswers (inl EMFILE) (Some 6) (Some 6)) listening_acceptor) = {[5; 6]} ∪ ∅.
Proof.
  destruct (acceptor_descriptors (MkListenAnswers 5 (Some 6) 0 0) 0 new_reactor idle_acceptor listening_acceptor) as (_ & _ & _ & Hw & Hfull).
  - split_and!; [apply new_reactor_ok|reflexivity|reflexivity|discriminate|reflexivity].
  - apply (rtc_l _ _ (set_callback idle_acceptor)).
    + exists SetCallback. split; [exact I|reflexivity].
    + apply rtc_once. exists (Listen 0). split; [cbn; lia|reflexivity].
  - split.
    + apply Hw. reflexivity.
    + apply Hfull; [lia| |split; [lia|]]; vm_compute; set_solver.
Defined.

(** When the spare descriptor could not be opened again the next connection
    that finds no descriptor stays in the queue of the kernel: nothing
    changes and the socket is reported again at once. *)
Lemma lost_spare_spins a :
  a_idleFd a = -1 → -1 ∉ a_open a → handleRead (MkAcceptAnswers (inl EMFILE) None None) a = a.
Proof.
  intros Hi Hn. unfold handleRead, close_descriptor. cbn. rewrite Hi.
  assert (a_open a ∖ {[-1]} = a_open a) as -> by set_solver. assert (a_open a ∖ {[-1]} = a_open a) as -> by set_solver.
  destruct a; cbn in *. by rewrite Hi.
Qed.
