(* ===== verification/Server.v ===== *)
(** * The TCP server of the unit manager

    [class TcpServer] ([network/src/TcpServer.cc]): the connections by name,
    the choice of an event loop for each; and the numbers of client sessions
    ([onConnection] of [unit-manager/src/tcp_comm.cpp]).  A connection object
    is a number here; its life is modelled in [Connection], where the close
    callback, which ends in [removeConnectionInLoop], is called once.  The server
    owns its acceptor ([Acceptor]); [None] is the end of the process. *)
From S2P Require Import Prelude StdString Doubles Json Observability Types Endpoint Util Framing Manager EventLoop Reactor Acceptor.

Record tcp_server := MkTcpServer {
  ts_name : string;
  ts_ipPort : string;
  ts_nextConnId : Z;
  ts_pool : thread_pool;
  ts_acceptor : acceptor;
  ts_connections : gmap string nat;
}.
#[export] Instance eta_ts : Eta tcp_server := fun s =>
  MkTcpServer (ts_name s) (ts_ipPort s) (ts_nextConnId s) (ts_pool s) (ts_acceptor s) (ts_connections s).

(** The constructor, whose acceptor creates and binds the socket; [id] is the
    acceptor's channel on the loop [r]. *)
Definition new_server (name ipPort : string) (k : listen_answers) (id : nat) (r : reactor) : option tcp_server :=
  a ← new_acceptor k id r;
  Some (MkTcpServer name ipPort 1 new_pool (set_callback a) ∅).

Definition server_set_threads (numThreads : Z) (s : tcp_server) : option tcp_server :=
  _ ← assertion (0 <=? numThreads);
  Some (s <| ts_pool := setThreadNum numThreads (ts_pool s) |>).

(** [TcpServer::start] on the loop's thread, on the answer to [listen]. *)
Definition server_start (ret : Z) (s : tcp_server) : option tcp_server :=
  p ← pool_start (ts_pool s);
  _ ← assertion (negb (a_listening (ts_acceptor s)));
  a ← listen ret (ts_acceptor s);
  Some (s <| ts_pool := p |> <| ts_acceptor := a |>).

(** The name of a connection: [snprintf] into 64 bytes. *)
Definition connection_name (s : tcp_server) (id : Z) : string :=
  ts_name s +:+ str_take 63 ("-" +:+ ts_ipPort s +:+ "#" +:+ to_string id).

(** [TcpServer::newConnection]: the name of the new connection and its loop. *)
Definition newConnection (conn : nat) (s : tcp_server) : option (tcp_server * string * option nat) :=
  '(p, ioLoop) ← getNextLoop (ts_pool s);
  let connName := connection_name s (ts_nextConnId s) in
  Some (s <| ts_pool := p |> <| ts_nextConnId := to_int (ts_nextConnId s + 1) |>
          <| ts_connections := <[connName := conn]> (ts_connections s) |>, connName, ioLoop).

Definition removeConnectionInLoop (connName : string) (s : tcp_server) : option tcp_server :=
  _ ← assertion (bool_decide (is_Some (ts_connections s !! connName)));
  Some (s <| ts_connections := delete connName (ts_connections s) |>).

(** [TcpServer::~TcpServer]: the connections whose [connectDestroyed] is run, in
    the order of the table. *)
Definition destroy_server (s : tcp_server) : list (string * nat) := map_to_list (ts_connections s).

(** ** Runs *)

(** What the server has done: a connection accepted or removed. *)
Inductive server_event :=
  | Accept (conn : nat)
  | Close (connName : string).

Definition server_event_run (e : server_event) (s : tcp_server) : option (tcp_server * option string) :=
  match e with
  | Accept conn => '(s, connName, _) ← newConnection conn s; Some (s, Some connName)
  | Close connName => s ← removeConnectionInLoop connName s; Some (s, None)
  end.

(** The names given out and not closed yet, newest first: a connection is
    closed once. *)
Inductive server_run : tcp_server → list string → tcp_server → Prop :=
  | RunStart s : server_run s [] s
  | RunAccept s0 s s' conn open connName :
      server_run s0 open s → ts_nextConnId s < INT_MAX →
      server_event_run (Accept conn) s = Some (s', Some connName) → server_run s0 (connName :: open) s'
  | RunClose s0 s s' open1 connName open2 :
      server_run s0 (open1 ++ connName :: open2) s →
      server_event_run (Close connName) s = Some (s', None) → server_run s0 (open1 ++ open2) s'.

(** ** Lemmas *)

Lemma int_to_string_length n : 0 <= n <= INT_MAX → (String.length (to_string n) <= 10)%nat.
Proof.
  intros Hn. unfold to_string. destruct (Z.ltb_spec n 0); [lia|]. apply decimal_digits_short.
  split; [lia|]. change (10 ^ Z.of_nat 10) with 10000000000. unfold INT_MAX in Hn. lia.
Qed.

(** A text form of the server's address is at most 50 bytes long (an IPv6
    address with brackets and port has 47). *)
Definition short_address (s : tcp_server) : Prop := (String.length (ts_ipPort s) <= 50)%nat.

Lemma connection_name_full s id :
  short_address s → 0 <= id <= INT_MAX →
  connection_name s id = ts_name s +:+ "-" +:+ ts_ipPort s +:+ "#" +:+ to_string id.
Proof.
  intros Hs Hid. unfold connection_name. rewrite str_take_ge; [done|]. rewrite !str_length_app. cbn [String.length].
  pose proof (int_to_string_length id Hid). unfold short_address in Hs. lia.
Qed.

Lemma connection_name_inj s id id' :
  short_address s → 0 <= id <= INT_MAX → 0 <= id' <= INT_MAX →
  connection_name s id = connection_name s id' → id = id'.
Proof.
  intros Hs Hid Hid'. rewrite !connection_name_full by done. intros E. do 4 apply str_app_inj in E.
  apply to_string_inj in E; [done|unfold is_int, INT_MIN, INT_MAX in *; lia..].
Qed.

Definition same_names (s0 s : tcp_server) : Prop := ts_name s = ts_name s0 ∧ ts_ipPort s = ts_ipPort s0.

Lemma connection_name_same s0 s id : same_names s0 s → connection_name s id = connection_name s0 id.
Proof. intros [E1 E2]. unfold connection_name. by rewrite E1, E2. Qed.

(** The open connections are those of the map, under names below the next
    number. *)
Record server_ok (s0 : tcp_server) (open : list string) (s : tcp_server) : Prop := {
  sok_names : same_names s0 s;
  sok_next : 1 <= ts_nextConnId s <= INT_MAX;
  sok_pool : ∃ n i, (0 < n)%nat ∧ Z.of_nat n <= INT_MAX ∧ (i < n)%nat ∧ ts_pool s = pool_of n i;
  sok_open : NoDup open ∧ ∀ name, name ∈ open ↔ is_Some (ts_connections s !! name);
  sok_ids : Forall (λ name, ∃ id, 0 <= id < ts_nextConnId s ∧ name = connection_name s0 id) open;
}.

Lemma accept_ok s0 open s conn :
  short_address s0 → server_ok s0 open s → ts_nextConnId s < INT_MAX →
  ∃ s', server_event_run (Accept conn) s = Some (s', Some (connection_name s0 (ts_nextConnId s))) ∧
    server_ok s0 (connection_name s0 (ts_nextConnId s) :: open) s' ∧
    ts_connections s' = <[connection_name s0 (ts_nextConnId s) := conn]> (ts_connections s).
Proof.
  intros Hshort [Hn Hnext (n & i & Hpos & Hmax & Hi & Hp) [Hnd Hopen] Hids] Hlt.
  cbn [server_event_run]. unfold newConnection. rewrite Hp, getNextLoop_pool by done. cbn [mbind option_bind].
  rewrite (connection_name_same s0 s) by done. eexists. split; [reflexivity|]. split; [|done].
  set (name := connection_name s0 (ts_nextConnId s)) in *.
  assert (to_int (ts_nextConnId s + 1) = ts_nextConnId s + 1) as Hc
    by (apply to_int_id; unfold is_int, INT_MIN, INT_MAX in *; lia).
  split; cbn; rewrite ?Hc.
  - exact Hn.
  - lia.
  - exists n, (if (S i =? n)%nat then 0 else S i)%nat. split_and!; [done|done| |done].
    destruct (Nat.eqb_spec (S i) n); lia.
  - split.
    + constructor; [|done]. intros Hin. rewrite Forall_forall in Hids. destruct (Hids name Hin) as (id & Hid & E).
      apply connection_name_inj in E; [lia|done|lia..].
    + intros name'. rewrite elem_of_cons, Hopen. destruct (decide (name' = name)) as [->|Hne].
      * rewrite lookup_insert_eq. naive_solver.
      * rewrite lookup_insert_ne by done. naive_solver.
  - constructor; [exists (ts_nextConnId s); split; [lia|done]|].
    eapply Forall_impl; [exact Hids|]. intros name' (id & Hid & ->). exists id. split; [lia|done].
Qed.

Lemma close_ok s0 open1 name open2 s :
  server_ok s0 (open1 ++ name :: open2) s →
  ∃ s', server_event_run (Close name) s = Some (s', None) ∧ server_ok s0 (open1 ++ open2) s' ∧
    ts_connections s' = delete name (ts_connections s).
Proof.
  intros [Hn Hnext Hp [Hnd Hopen] Hids]. cbn [server_event_run]. unfold removeConnectionInLoop.
  rewrite bool_decide_true by (apply Hopen; set_solver). cbn [assertion mbind option_bind].
  eexists. split; [reflexivity|]. split; [|done].
  rewrite <- Permutation_middle in Hnd. apply NoDup_cons in Hnd as [Hnot Hnd].
  split; cbn; try done.
  - split; [done|]. intros name'. destruct (decide (name' = name)) as [->|Hne].
    + rewrite lookup_delete_eq. split; [done|]. by intros [? ?].
    + rewrite lookup_delete_ne, <- Hopen by done. set_solver.
  - rewrite <- Permutation_middle in Hids. by apply Forall_cons in Hids as [_ ?].
Qed.

Lemma server_run_ok s0 open s :
  short_address s0 → server_ok s0 [] s0 → server_run s0 open s → server_ok s0 open s.
Proof.
  intros Hshort H0 Hrun. induction Hrun as [s|s0 s s' conn open name Hrun IH Hlt E|s0 s s' open1 name open2 Hrun IH E].
  - done.
  - destruct (accept_ok s0 open s conn Hshort (IH Hshort H0) Hlt) as (s2 & E2 & Hok & _). congruence.
  - destruct (close_ok s0 open1 name open2 s (IH Hshort H0)) as (s2 & E2 & Hok & _). congruence.
Qed.

(** ** Properties *)

(** C34.  The server loses no connection and none is removed twice: after any
    sequence of accepts and closes, in which every connection is closed at
    most once, the table holds exactly the open connections under distinct
    names; closing an open one and accepting another never fails an
    assertion; and the end of the server destroys each open connection
    once. *)
Theorem server_connections (s0 s : tcp_server) (open : list string) :
  short_address s0 → (∃ n, (0 < n)%nat ∧ Z.of_nat n <= INT_MAX ∧ ts_pool s0 = pool_of n 0) →
  ts_nextConnId s0 = 1 → ts_connections s0 = ∅ → server_run s0 open s →
  NoDup open ∧ (∀ name, name ∈ open ↔ is_Some (ts_connections s !! name)) ∧
  (∀ name, name ∈ open → is_Some (removeConnectionInLoop name s)) ∧
  (∀ conn, ts_nextConnId s < INT_MAX → is_Some (newConnection conn s)) ∧
  (destroy_server s).*1 ≡ₚ open.
Proof.
  intros Hshort (n & Hpos & Hmax & Hp) Hid Hempty Hrun.
  assert (server_ok s0 [] s0) as H0.
  { split; [done|rewrite Hid; done|by exists n, 0%nat| |constructor]. split; [constructor|].
    intros name. rewrite Hempty, lookup_empty. split; [set_solver|by intros [? ?]]. }
  pose proof (server_run_ok s0 open s Hshort H0 Hrun) as Hok. pose proof (sok_open _ _ _ Hok) as [Hnd Hopen].
  split_and!; [done..| | |].
  - intros name Hin. apply list_elem_of_split in Hin as (open1 & open2 & ->).
    destruct (close_ok s0 open1 name open2 s Hok) as (s' & E & _). cbn [server_event_run] in E.
    destruct (removeConnectionInLoop name s); [by eexists|done].
  - intros conn Hlt. destruct (accept_ok s0 open s conn Hshort Hok Hlt) as (s' & E & _). cbn [server_event_run] in E.
    destruct (newConnection conn s); [by eexists|done].
  - unfold destroy_server. apply NoDup_Permutation; [apply NoDup_fst_map_to_list|done|]. intros name.
    rewrite Hopen, list_elem_of_fmap. split.
    + intros ([name' c] & -> & Hin). apply elem_of_map_to_list in Hin. by eexists.
    + intros [c Hc]. exists (name, c). split; [done|]. by apply elem_of_map_to_list.
Qed.

(** The numbers of the first [k] client sessions, from counter [c]. *)
Fixpoint com_ports (k : nat) (c : Z) : list Z :=
  match k with
  | O => []
  | S k => let '(port, c) := next_com_port c in port :: com_ports k c
  end.

Lemma next_com_port_cycle j :
  0 <= j < 57536 → next_com_port (8000 + j) = (8000 + j, 8000 + (j + 1) mod 57536).
Proof.
  intros Hj. unfold next_com_port. f_equal. destruct (Z.ltb_spec 65535 (8000 + j + 1)).
  - assert (j = 57535) as -> by lia. done.
  - rewrite Z.mod_small by lia. lia.
Qed.

Lemma com_ports_lookup k : ∀ j i,
  0 <= j < 57536 → (i < k)%nat → com_ports k (8000 + j) !! i = Some (8000 + (j + Z.of_nat i) mod 57536).
Proof.
  induction k as [|k IH]; intros j i Hj Hi; [lia|]. cbn [com_ports]. rewrite next_com_port_cycle by done.
  destruct i as [|i]; cbn [lookup list_lookup].
  - rewrite Z.add_0_r, Z.mod_small by done. done.
  - rewrite IH by (try apply Z.mod_pos_bound; lia). do 2 f_equal.
    rewrite Zplus_mod_idemp_l. f_equal. lia.
Qed.

(** Client sessions get numbers of their own: the [i]-th session since
    the start has number [8000 + i mod 57536], so among any 57536 successive
    sessions no two share the URL their answers are pushed to, and all
    numbers are valid port numbers. *)
Theorem session_numbers_distinct (k i i' : nat) (port port' : Z) :
  com_ports k 8000 !! i = Some port → com_ports k 8000 !! i' = Some port' →
  8000 <= port <= 65535 ∧ (port = port' ↔ Z.of_nat i mod 57536 = Z.of_nat i' mod 57536).
Proof.
  intros Hi Hi'. assert (∀ x p, com_ports k 8000 !! x = Some p → p = 8000 + Z.of_nat x mod 57536) as Hget.
  { intros x p Hx. assert (x < k)%nat as Hlt.
    { apply lookup_lt_Some in Hx. assert (∀ n c, length (com_ports n c) = n) as Hlen.
      { induction n as [|n IH]; intros c; [done|]. cbn [com_ports]. destruct (next_com_port c). cbn. by rewrite IH. }
      by rewrite Hlen in Hx. }
    pose proof (com_ports_lookup k 0 x ltac:(lia) Hlt) as E. rewrite Z.add_0_r in E. rewrite E in Hx. injection Hx as <-.
    by rewrite Z.add_0_l. }
  rewrite (Hget i port Hi), (Hget i' port' Hi'). pose proof (Z.mod_pos_bound (Z.of_nat i) 57536 ltac:(lia)). lia.
Qed.

(** ** Witnesses *)

Definition no_server : tcp_server := MkTcpServer "" "" 1 new_pool idle_acceptor ∅.

Definition manager_server : tcp_server :=
  default no_server (
    s ← new_server "ZMQBridge" "0.0.0.0:10001" (MkListenAnswers 5 (Some 6) 0 0) 0 new_reactor;
    s ← server_set_threads 2 s;
    server_start 0 s).

Definition one_client : tcp_server :=
  match newConnection 0 manager_server with Some (s, _, _) => s | None => manager_server end.

Lemma server_connections_witness :
  is_Some (removeConnectionInLoop "ZMQBridge-0.0.0.0:10001#1" one_client).
Proof.
  destruct (server_connections manager_server one_client ["ZMQBridge-0.0.0.0:10001#1"]) as (_ & _ & Hrem & _).
  - vm_compute. lia.
  - exists 2%nat. split; [lia|]. split; [vm_compute; discriminate|reflexivity].
  - reflexivity.
  - reflexivity.
  - apply (RunAccept manager_server manager_server one_client 0); [constructor|reflexivity|vm_compute; reflexivity].
  - apply Hrem. set_solver.
Defined.

Lemma session_numbers_distinct_witness : 8000 <= 8001 <= 65535.
Proof.
  apply (session_numbers_distinct 2 1 0 8001 8000); reflexivity.
Defined.

(** Starting a server twice fails an assertion. *)
Lemma second_start_fails : server_start 0 manager_server = None.
Proof. reflexivity. Qed.
