(* ===== verification/Connector.v ===== *)
(** * Outgoing connections

    [class Connector] ([network/src/Connector.cc]) and [class TcpClient]
    ([network/src/TcpClient.cc]) on the channel of the socket that is being
    connected ([Reactor]).

    A failed [assert] is [None].  What the kernel answers to [socket],
    [connect] and [getsockopt] is an argument, as is the number of the channel
    object that is created.  A connection that was made is a number here; its
    life is modelled in [Connection].  The descriptors the connector has
    opened, closed and handed over to a connection are recorded. *)
From S2P Require Import Prelude Reactor.

Inductive States := kDisconnected | kConnecting | kConnected.
#[export] Instance States_eq_dec : EqDecision States.
Proof. solve_decision. Defined.

(** What is left to the event loop. *)
Inductive connector_functor := StartInLoop | StopInLoop | ResetChannel.
#[export] Instance connector_functor_eq_dec : EqDecision connector_functor.
Proof. solve_decision. Defined.

Record connector := MkConnector {
  k_connect : bool;
  k_state : States;
  k_channel : option nat;
  k_reactor : reactor;
  k_queue : list connector_functor;
  k_todo : list callback;
  k_opened : list Z;
  k_closed : list Z;
  k_handed : list Z;
}.
#[export] Instance eta_connector : Eta connector := fun k =>
  MkConnector (k_connect k) (k_state k) (k_channel k) (k_reactor k) (k_queue k) (k_todo k) (k_opened k) (k_closed k)
    (k_handed k).

Definition new_connector (r : reactor) : connector := MkConnector false kDisconnected None r [] [] [] [] [].

(** The answers of the kernel: a new descriptor with the number of its channel
    object, the errno of [connect] (0 for success), the error of the socket
    and whether it is connected to itself. *)
Record kernel := MkKernel {
  s_fd : Z;
  s_id : nat;
  s_errno : Z;
  s_error : Z;
  s_self : bool;
}.

Definition EINTR : Z := 4.
Definition EAGAIN : Z := 11.
Definition EADDRINUSE : Z := 98.
Definition EADDRNOTAVAIL : Z := 99.
Definition ENETUNREACH : Z := 101.
Definition EISCONN : Z := 106.
Definition ECONNREFUSED : Z := 111.
Definition EINPROGRESS : Z := 115.

(** ** The connector *)

Definition close_fd (fd : Z) (k : connector) : connector := k <| k_closed := fd :: k_closed k |>.
Definition queue_functor (f : connector_functor) (k : connector) : connector := k <| k_queue := k_queue k ++ [f] |>.

(** [retry]: the timer that would try again is commented out. *)
Definition retry (fd : Z) (k : connector) : connector := close_fd fd k <| k_state := kDisconnected |>.

Definition connecting (id : nat) (fd : Z) (k : connector) : option connector :=
  _ ← assertion (bool_decide (k_channel k = None));
  r ← enableWriting id (set_channel id (new_channel fd) (k_reactor k));
  Some (k <| k_state := kConnecting |> <| k_channel := Some id |> <| k_reactor := r |>).

Definition connect (s : kernel) (k : connector) : option connector :=
  let k := k <| k_opened := s_fd s :: k_opened k |> in
  if bool_decide (s_errno s ∈ [0; EINPROGRESS; EINTR; EISCONN]) then connecting (s_id s) (s_fd s) k
  else if bool_decide (s_errno s ∈ [EAGAIN; EADDRINUSE; EADDRNOTAVAIL; ECONNREFUSED; ENETUNREACH])
  then Some (retry (s_fd s) k)
  else Some (close_fd (s_fd s) k).

Definition startInLoop (s : kernel) (k : connector) : option connector :=
  _ ← assertion (bool_decide (k_state k = kDisconnected));
  if k_connect k then connect s k else Some k.

Definition start (in_loop : bool) (s : kernel) (k : connector) : option connector :=
  let k := k <| k_connect := true |> in
  if in_loop then startInLoop s k else Some (queue_functor StartInLoop k).

Definition restart (s : kernel) (k : connector) : option connector :=
  startInLoop s (k <| k_state := kDisconnected |> <| k_connect := true |>).

Definition removeAndResetChannel (k : connector) : option (connector * Z) :=
  id ← k_channel k;
  r ← disableAll id (k_reactor k);
  r ← remove id r;
  ch ← r_store r !! id;
  Some (queue_functor ResetChannel (k <| k_reactor := r |>), fd_ ch).

Definition resetChannel (k : connector) : option connector :=
  match k_channel k with
  | None => Some k
  | Some id => r ← destroy_channel id (k_reactor k); Some (k <| k_reactor := r |> <| k_channel := None |>)
  end.

Definition connector_stop (k : connector) : connector := queue_functor StopInLoop (k <| k_connect := false |>).

Definition stopInLoop (k : connector) : option connector :=
  if bool_decide (k_state k = kConnecting) then
    '(k, fd) ← removeAndResetChannel (k <| k_state := kDisconnected |>);
    Some (retry fd k)
  else Some k.

(** The descriptor is the argument of [newConnectionCallback_], when it is
    called. *)
Definition handleWrite (s : kernel) (k : connector) : option (connector * option Z) :=
  if bool_decide (k_state k = kConnecting) then
    '(k, fd) ← removeAndResetChannel k;
    if negb (s_error s =? 0) then Some (retry fd k, None)
    else if s_self s then Some (retry fd k, None)
    else
      let k := k <| k_state := kConnected |> in
      if k_connect k then Some (k <| k_handed := fd :: k_handed k |>, Some fd) else Some (close_fd fd k, None)
  else
    _ ← assertion (bool_decide (k_state k = kDisconnected));
    Some (k, None).

Definition handleError (k : connector) : option connector :=
  if bool_decide (k_state k = kConnecting) then
    '(k, fd) ← removeAndResetChannel k;
    Some (retry fd k)
  else Some k.

(** ** The client *)

Record client := MkClient {
  t_connector : connector;
  t_retry : bool;
  t_connect : bool;
  t_nextConnId : Z;
  t_connection : option Z;
}.
#[export] Instance eta_client : Eta client := fun t =>
  MkClient (t_connector t) (t_retry t) (t_connect t) (t_nextConnId t) (t_connection t).

Definition new_client (r : reactor) : client := MkClient (new_connector r) false true 1 None.

Definition with_connector (t : client) (k : connector) : client := t <| t_connector := k |>.

Definition client_connect (in_loop : bool) (s : kernel) (t : client) : option client :=
  k ← start in_loop s (t_connector t);
  Some (with_connector (t <| t_connect := true |>) k).

(** [disconnect] also shuts the connection down, if there is one. *)
Definition client_disconnect (t : client) : client := t <| t_connect := false |>.

Definition client_stop (t : client) : client :=
  with_connector (t <| t_connect := false |>) (connector_stop (t_connector t)).

(** [newConnection] on a descriptor. *)
Definition client_newConnection (fd : Z) (t : client) : client :=
  t <| t_nextConnId := to_int (t_nextConnId t + 1) |> <| t_connection := Some fd |>.

(** [removeConnection], the close callback of the connection. *)
Definition client_removeConnection (s : kernel) (fd : Z) (t : client) : option client :=
  _ ← assertion (bool_decide (t_connection t = Some fd));
  let t := t <| t_connection := None |> in
  if t_retry t && t_connect t then
    k ← restart s (t_connector t);
    Some (with_connector t k)
  else Some t.

(** [~Connector]: its functors are not taken out of the loop; those that are
    left run on a destroyed object. *)
Definition destroy_connector (k : connector) : option (list connector_functor) :=
  _ ← assertion (bool_decide (k_channel k = None));
  Some (k_queue k).

(** [~TcpClient] and the destructors of its members: an open connection gets a
    close callback that does not need the client, and is closed at once when
    nobody else holds it; otherwise the connector is stopped.  The answer is
    the connection with what happens to it and the functors left behind. *)
Definition destroy_client (unique : bool) (t : client) : option (option (Z * bool) * list connector_functor) :=
  match t_connection t with
  | Some fd => functors ← destroy_connector (t_connector t); Some (Some (fd, unique), functors)
  | None => functors ← destroy_connector (connector_stop (t_connector t)); Some (None, functors)
  end.

(** The callbacks the connector has set, on the client. *)
Definition run_connector_callback (s : kernel) (cb : callback) (t : client) : option client :=
  match cb with
  | WriteCallback =>
      '(k, fd) ← handleWrite s (t_connector t);
      let t := with_connector t k in
      Some (match fd with Some fd => client_newConnection fd t | None => t end)
  | ErrorCallback => k ← handleError (t_connector t); Some (with_connector t k)
  | CloseCallback | ReadCallback => Some t
  end.

Definition run_connector_functor (s : kernel) (f : connector_functor) (k : connector) : option connector :=
  match f with
  | StartInLoop => startInLoop s k
  | StopInLoop => stopInLoop k
  | ResetChannel => resetChannel k
  end.

(** ** Runs *)

(** What happens to a client: the program connects, disconnects and stops it,
    from the loop's thread or another one; the kernel reports events of the
    channel, whose callbacks run one after the other; the loop runs what was
    left to it, in order; the connection that was made is closed; other
    channels of the loop are used. *)
Inductive client_action :=
  | Connect (in_loop : bool) (s : kernel)
  | Disconnect
  | StopClient
  | EnableRetry
  | Ready (revents : Z)
  | RunCallback (s : kernel)
  | RunFunctor (s : kernel)
  | ConnectionCloses (s : kernel) (fd : Z)
  | OthersUse (r : reactor).

Definition next_callbacks (todo : list callback) (k : connector) : connector :=
  k <| k_todo := todo |> <| k_reactor ::= handling todo (default 0%nat (k_channel k)) |>.

Definition run_client (a : client_action) (t : client) : option client :=
  let k := t_connector t in
  match a with
  | Connect in_loop s => client_connect in_loop s t
  | Disconnect => Some (client_disconnect t)
  | StopClient => Some (client_stop t)
  | EnableRetry => Some (t <| t_retry := true |>)
  | Ready revents =>
      id ← k_channel k;
      '(r, _) ← poll [(id, revents)] (k_reactor k);
      Some (with_connector t (next_callbacks (handleEvent revents) (k <| k_reactor := r |>)))
  | RunCallback s =>
      match k_todo k with
      | [] => Some t
      | cb :: todo =>
          t ← run_connector_callback s cb t;
          Some (with_connector t (next_callbacks todo (t_connector t)))
      end
  | RunFunctor s =>
      match k_queue k with
      | [] => Some t
      | f :: queue =>
          k ← run_connector_functor s f (k <| k_queue := queue |>);
          Some (with_connector t k)
      end
  | ConnectionCloses s fd => client_removeConnection s fd t
  | OthersUse r => Some (with_connector t (k <| k_reactor := r |>))
  end.

(** The kernel gives a descriptor that no channel is registered under, and
    the program a new channel object. *)
Definition fresh (s : kernel) (k : connector) : Prop :=
  r_store (k_reactor k) !! s_id s = None ∧ r_channels (k_reactor k) !! s_fd s = None.

(** When an action can happen.  A client is connected only while it is idle
    (see the end of the file for what happens otherwise).  The reset of the
    channel is queued before the connection exists and the loop runs its
    queue in order ([EventLoop]), so that the connection closes after it. *)
Definition client_enabled (a : client_action) (t : client) : Prop :=
  let k := t_connector t in
  match a with
  | Connect _ s => k_state k = kDisconnected ∧ k_channel k = None ∧ StartInLoop ∉ k_queue k ∧ fresh s k
  | Disconnect | StopClient | EnableRetry | RunCallback _ => True
  | Ready revents =>
      k_todo k = [] ∧ 1 <= r_event_list (k_reactor k) ∧
      ∃ id, k_channel k = Some id ∧ reportable (k_reactor k) id revents
  | RunFunctor s => k_todo k = [] ∧ fresh s k
  | ConnectionCloses s fd => k_todo k = [] ∧ t_connection t = Some fd ∧ ResetChannel ∉ k_queue k ∧ fresh s k
  | OthersUse r =>
      reactor_ok r ∧ r_handling r = r_handling (k_reactor k) ∧ r_current r = r_current (k_reactor k) ∧
      ∀ id, k_channel k = Some id → r_store r !! id = r_store (k_reactor k) !! id
  end.

Definition client_step (t t' : client) : Prop := ∃ a, client_enabled a t ∧ run_client a t = Some t'.

(** ** The invariant *)

Definition queued (f : connector_functor) (k : connector) : nat := length (filter (.= f) (k_queue k)).

Definition only_errors (todo : list callback) : Prop := Forall (.= ErrorCallback) todo.

(** Once a socket is writable or has an error only errors are left. *)
Fixpoint todo_ok (todo : list callback) : Prop :=
  match todo with
  | [] => True
  | (WriteCallback | ErrorCallback) :: todo => only_errors todo
  | _ :: todo => todo_ok todo
  end.

(** A channel that waits for its reset. *)
Definition retired (k : connector) (id : nat) : Prop :=
  ∃ ch, r_store (k_reactor k) !! id = Some ch ∧ index_ ch = kNew ∧ addedToLoop_ ch = false.

Definition watched (k : connector) (id : nat) (ch : Channel) : Prop :=
  r_store (k_reactor k) !! id = Some ch ∧ index_ ch = kAdded ∧ events_ ch = WriteEvent.

(** The connector is connecting on descriptor [fd]. *)
Definition connecting_ok (todo : list callback) (conn : option Z) (k : connector) : Prop :=
  ∃ id ch, k_channel k = Some id ∧ watched k id ch ∧ queued ResetChannel k = 0%nat ∧ queued StartInLoop k = 0%nat ∧
    conn = None ∧ k_opened k ≡ₚ fd_ ch :: k_closed k ++ k_handed k ∧ todo_ok todo.

(** The connector is not connecting. *)
Definition settled_ok (todo : list callback) (conn : option Z) (k : connector) : Prop :=
  match k_channel k with
  | None => queued ResetChannel k = 0%nat
  | Some id => queued ResetChannel k = 1%nat ∧ queued StartInLoop k = 0%nat ∧ retired k id
  end ∧
  k_opened k ≡ₚ k_closed k ++ k_handed k ∧ only_errors todo ∧
  match k_state k with
  | kDisconnected => (queued StartInLoop k <= 1)%nat ∧ conn = None
  | _ => queued StartInLoop k = 0%nat
  end.

Record connector_inv (todo : list callback) (conn : option Z) (k : connector) : Prop := {
  ki_reactor : reactor_ok (k_reactor k);
  ki_phase : match k_state k with kConnecting => connecting_ok todo conn k | _ => settled_ok todo conn k end;
}.

Definition loop_inv (k : connector) : Prop :=
  match k_todo k with
  | [] => r_handling (k_reactor k) = false
  | _ => ∃ id, k_channel k = Some id ∧ r_current (k_reactor k) = Some id
  end.

Definition client_ok (t : client) : Prop :=
  connector_inv (k_todo (t_connector t)) (t_connection t) (t_connector t) ∧ loop_inv (t_connector t).

(** ** Lemmas *)

Lemma queued_app f l k : queued f (k <| k_queue := k_queue k ++ l |>) = (queued f k + length (filter (.= f) l))%nat.
Proof. unfold queued. cbn. by rewrite filter_app, length_app. Qed.

Lemma queued_snoc f g k : queued f (queue_functor g k) = (queued f k + if decide (g = f) then 1 else 0)%nat.
Proof. unfold queue_functor. rewrite queued_app, filter_cons, filter_nil. by destruct (decide (g = f)). Qed.

Lemma queued_head f g queue k :
  k_queue k = g :: queue → queued f k = ((if decide (g = f) then 1 else 0) + queued f (k <| k_queue := queue |>))%nat.
Proof. intros E. unfold queued. rewrite E, filter_cons. cbn. by destruct (decide (g = f)). Qed.

Lemma not_queued f k : f ∉ k_queue k ↔ queued f k = 0%nat.
Proof.
  unfold queued. split.
  - intros Hf. apply length_zero_iff_nil.
    destruct (filter (.= f) (k_queue k)) as [|g l] eqn:E; [done|exfalso].
    assert (g ∈ filter (.= f) (k_queue k)) as [-> Hin]%list_elem_of_filter by (rewrite E; set_solver). done.
  - intros E Hf. apply length_zero_iff_nil in E.
    assert (f ∈ filter (.= f) (k_queue k)) as Hin by (by apply list_elem_of_filter). rewrite E in Hin. set_solver.
Qed.

Lemma not_connecting k (P Q : Prop) :
  k_state k ≠ kConnecting → match k_state k with kConnecting => P | _ => Q end ↔ Q.
Proof. by destruct (k_state k). Qed.

(** The start of an attempt. *)
Lemma connecting_runs todo k id fd :
  reactor_ok (k_reactor k) → k_channel k = None → queued ResetChannel k = 0%nat → queued StartInLoop k = 0%nat →
  r_store (k_reactor k) !! id = None → r_channels (k_reactor k) !! fd = None →
  k_opened k ≡ₚ fd :: k_closed k ++ k_handed k → todo_ok todo →
  ∃ k', connecting id fd k = Some k' ∧ connector_inv todo None k' ∧ k_todo k' = k_todo k ∧
    r_handling (k_reactor k') = r_handling (k_reactor k).
Proof.
  intros Hr Hch Hreset Hstart Hid Hfd Hopen Htodo. unfold connecting. rewrite Hch. cbn [assertion bool_decide mbind option_bind].
  rewrite bool_decide_true by done. cbn [assertion mbind option_bind].
  set (r1 := set_channel id (new_channel fd) (k_reactor k)).
  assert (reactor_ok r1) as Hr1 by (by apply new_channel_ok).
  assert (r_store r1 !! id = Some (new_channel fd)) as Hst by apply lookup_insert_eq.
  assert (may_update r1 id (new_channel fd)) as Hmay by (by intros _).
  unfold enableWriting. rewrite (change_events_eq _ id (new_channel fd)) by done. cbn [mbind option_bind].
  eexists. split; [done|]. split; [|done]. split.
  - by apply with_update_ok.
  - exists id, (updated WriteEvent (new_channel fd)). split_and!; try done. split_and!; [apply lookup_insert_eq|done..].
Qed.

(** The end of an attempt: the channel is off and waits for its reset. *)
Lemma remove_runs k id ch :
  reactor_ok (k_reactor k) → k_channel k = Some id → watched k id ch →
  r_handling (k_reactor k) = false ∨ r_current (k_reactor k) = Some id →
  ∃ r, removeAndResetChannel k = Some (queue_functor ResetChannel (k <| k_reactor := r |>), fd_ ch) ∧
    reactor_ok r ∧ retired (k <| k_reactor := r |>) id ∧ r_handling r = r_handling (k_reactor k) ∧
    r_current r = r_current (k_reactor k).
Proof.
  intros Hr Hch (Hst & Hi & He) Hh. unfold removeAndResetChannel. rewrite Hch. cbn [mbind option_bind].
  assert (may_update (k_reactor k) id ch) as Hmay by (intros Hn; by rewrite Hi in Hn).
  unfold disableAll. rewrite (change_events_eq _ id ch) by done. cbn [mbind option_bind].
  set (r1 := with_update NoneEvent id ch (k_reactor k)). set (ch1 := updated NoneEvent ch).
  assert (reactor_ok r1) as Hr1 by (by apply with_update_ok).
  assert (r_store r1 !! id = Some ch1) as Hst1 by apply lookup_insert_eq.
  assert (may_remove r1 id ch1) as Hrem.
  { split_and!; [done| |exact Hh]. cbn. rewrite Hi. done. }
  rewrite (remove_eq id ch1) by done. cbn [mbind option_bind].
  set (r2 := with_removal id ch1 r1).
  assert (r_store r2 !! id = Some (ch1 <| addedToLoop_ := false |> <| index_ := kNew |>)) as Hst2 by apply lookup_insert_eq.
  rewrite Hst2. cbn [mbind option_bind]. exists r2. split_and!; try done; [by apply with_removal_ok|].
  eexists. split; [exact Hst2|done].
Qed.

(** After an attempt: [k'] has closed the descriptor or handed it over. *)
Lemma settled_inv todo conn k k' id ch r :
  connecting_ok (k_todo k) None k → k_channel k = Some id → watched k id ch → reactor_ok r →
  retired (k <| k_reactor := r |>) id →
  k_channel k' = Some id → k_reactor k' = r → k_queue k' = k_queue k ++ [ResetChannel] → k_opened k' = k_opened k →
  k_closed k' ++ k_handed k' ≡ₚ fd_ ch :: k_closed k ++ k_handed k → k_state k' ≠ kConnecting →
  (k_state k' = kDisconnected → conn = None) → only_errors todo → connector_inv todo conn k'.
Proof.
  intros (id0 & ch0 & Hid & Hw0 & Hreset & Hstart & _ & Hopen & _) Hch Hw Hr Hret Ech Er Eq Eo Efd Hst Hconn Htodo.
  assert (id0 = id) as -> by congruence. destruct Hw0 as (Hs0 & _), Hw as (Hs & _). assert (ch0 = ch) as -> by congruence.
  assert (∀ f, queued f k' = queued f (queue_functor ResetChannel k)) as Hq by (intros f; unfold queued; by rewrite Eq).
  split; [by rewrite Er|]. apply not_connecting; [done|]. unfold settled_ok. rewrite Ech, !Hq, !queued_snoc, Hreset, Hstart, Eo.
  split_and!; try done.
  - unfold retired in *. by rewrite Er.
  - by rewrite Efd.
  - destruct (k_state k') eqn:E; [|done|done]. split; [case_decide; [done|lia]|auto].
Qed.

Lemma start_runs todo s k :
  connector_inv todo None k → k_state k = kDisconnected → k_channel k = None →
  queued StartInLoop k = 0%nat → fresh s k →
  ∃ k', startInLoop s k = Some k' ∧ connector_inv todo None k' ∧ k_todo k' = k_todo k ∧
    r_handling (k_reactor k') = r_handling (k_reactor k).
Proof.
  intros Hk Hst Hch Hq [Hid Hfd]. destruct Hk as [Hr Hph]. rewrite Hst in Hph. unfold settled_ok in Hph. rewrite Hch in Hph.
  destruct Hph as (Hreset & Hopen & Htodo & _).
  assert (∀ k', k_reactor k' = k_reactor k → k_queue k' = k_queue k → k_state k' = kDisconnected → k_channel k' = None →
    k_opened k' ≡ₚ k_closed k' ++ k_handed k' → connector_inv todo None k') as Hidle.
  { intros k' E1 E2 E3 E4 E5. split; [by rewrite E1|]. rewrite E3. unfold settled_ok. rewrite E4, E3.
    assert (∀ f, queued f k' = queued f k) as Hq' by (intros f; unfold queued; by rewrite E2).
    rewrite !Hq', Hq. split_and!; try done. lia. }
  unfold startInLoop. rewrite bool_decide_true by done. cbn [assertion mbind option_bind].
  destruct (k_connect k); [|exists k; split_and!; try done; by apply Hidle].
  unfold connect. destruct (bool_decide _).
  - set (k1 := k <| k_opened := s_fd s :: k_opened k |>).
    destruct (connecting_runs todo k1 (s_id s) (s_fd s)) as (k' & E & Hk' & Et & Eh); [exact Hr|exact Hch|exact Hreset|exact Hq|exact Hid|exact Hfd|..].
    + cbn. by rewrite Hopen.
    + clear -Htodo. destruct todo as [|cb todo]; [done|]. apply Forall_cons in Htodo as [-> Htodo]. exact Htodo.
    + exists k'. split_and!; [exact E|exact Hk'|exact Et|exact Eh].
  - destruct (bool_decide _); (eexists; split; [done|]; split; [|done]); apply Hidle; try done; cbn; by rewrite Hopen.
Qed.

Lemma remove_attempt todo k :
  connector_inv (k_todo k) None k → k_state k = kConnecting → loop_inv k → only_errors todo →
  ∃ id ch r, removeAndResetChannel k = Some (queue_functor ResetChannel (k <| k_reactor := r |>), fd_ ch) ∧
    r_handling r = r_handling (k_reactor k) ∧ r_current r = r_current (k_reactor k) ∧
    ∀ k' conn, k_channel k' = k_channel k → k_reactor k' = r → k_queue k' = k_queue k ++ [ResetChannel] →
      k_opened k' = k_opened k → k_closed k' ++ k_handed k' ≡ₚ fd_ ch :: k_closed k ++ k_handed k →
      k_state k' ≠ kConnecting → (k_state k' = kDisconnected → conn = None) → k_channel k = Some id ∧ connector_inv todo conn k'.
Proof.
  intros [Hr Hph] Hst Hloop Htodo. rewrite Hst in Hph. pose proof Hph as (id & ch & Hch & Hw & _).
  destruct (remove_runs k id ch Hr Hch Hw) as (r & E & Hr' & Hret & Eh & Ec).
  { unfold loop_inv in Hloop. destruct (k_todo k); [by left|]. destruct Hloop as (id' & ? & ?). right. congruence. }
  exists id, ch, r. split_and!; try done. intros k' conn Ech Er Eq Eo Efd Hst' Hconn. split; [done|].
  apply (settled_inv todo conn k k' id ch r); try done. congruence.
Qed.

(** A reactor that shows the connector the same channel. *)
Definition same_channel (k : connector) (r : reactor) : Prop :=
  ∀ id ch, k_channel k = Some id → r_store (k_reactor k) !! id = Some ch →
    ∃ ch', r_store r !! id = Some ch' ∧ fd_ ch' = fd_ ch ∧ events_ ch' = events_ ch ∧ index_ ch' = index_ ch ∧
      addedToLoop_ ch' = addedToLoop_ ch.

Lemma same_channel_inv todo conn k r todo' :
  connector_inv todo conn k → reactor_ok r → same_channel k r →
  connector_inv todo conn (k <| k_reactor := r |> <| k_todo := todo' |>).
Proof.
  intros [_ Hph] Hr Hsame. split; [done|]. cbn. destruct (k_state k) eqn:Est; cbn in *.
  2: { destruct Hph as (id & ch & Hch & (Hst & Hi & He) & Hq). destruct (Hsame id ch Hch Hst) as (ch' & Hst' & Hfd & He' & Hi' & _).
       exists id, ch'. unfold watched. cbn. rewrite Hfd, He', Hi'. split_and!; try done; apply Hq. }
  all: unfold settled_ok in *; cbn in *; rewrite Est in *; destruct (k_channel k) as [id|] eqn:Ech; [|exact Hph].
  all: destruct Hph as ((Hr1 & Hs & ch & Hst & Hi & Ha) & Hrest); destruct (Hsame id ch Ech Hst) as (ch' & Hst' & _ & _ & Hi' & Ha').
  all: split; [|exact Hrest]; split_and!; [exact Hr1|exact Hs|]; exists ch'; rewrite Hi', Ha'; done.
Qed.

Lemma same_store k r : r_store r = r_store (k_reactor k) → same_channel k r.
Proof. intros E id ch _ Hst. exists ch. by rewrite E. Qed.

Lemma next_callbacks_ok todo conn k :
  connector_inv todo conn k → is_Some (k_channel k) ∨ todo = [] →
  connector_inv todo conn (next_callbacks todo k) ∧ loop_inv (next_callbacks todo k).
Proof.
  intros Hk Hch. unfold next_callbacks. set (id := default 0%nat (k_channel k)).
  destruct (handling_same todo id (k_reactor k)) as (E1 & E2 & E3 & E4). split.
  - exact (same_channel_inv todo conn k (handling todo id (k_reactor k)) todo Hk (handling_ok _ _ _ (ki_reactor _ _ _ Hk)) (same_store k _ E1)).
  - unfold loop_inv. cbn. destruct todo as [|cb todo]; [done|]. destruct Hch as [[id' Hid']|]; [|done]. exists id'.
    unfold id. by rewrite Hid'.
Qed.

(** *** Callbacks *)

Lemma handleEvent_connecting revents :
  Z.land revents (Z.lnot (Z.lor WriteEvent (Z.lor POLLERR POLLHUP))) = 0 → todo_ok (handleEvent revents).
Proof.
  intros Hrev. unfold handleEvent.
  assert (Z.land revents (Z.lor POLLIN (Z.lor POLLPRI POLLRDHUP)) = 0) as -> by (by apply (not_reported _ _ _ Hrev)).
  destruct (negb (Z.land revents POLLHUP =? 0)), (negb (Z.land revents POLLIN =? 0)), (negb (Z.land revents POLLOUT =? 0)),
    (negb (Z.land revents (Z.lor POLLERR POLLNVAL) =? 0)); cbn; repeat constructor.
Qed.

Lemma ready_ok revents t :
  client_ok t → client_enabled (Ready revents) t → ∃ t', run_client (Ready revents) t = Some t' ∧ client_ok t'.
Proof.
  intros [Hk Hloop] (Htodo & Hlist & id & Hch & Hrep). pose proof Hk as [Hr Hph]. rewrite Htodo in *.
  pose proof Hrep as (ch & ev & Hst & Hm & Hi & Hrev).
  assert (index_ ch = kAdded ∧ ev = events_ ch) as [Hadded ->].
  { destruct (ok_channels _ Hr _ _ Hst) as [[_ ?]|[(_ & ? & Hint)|(_ & _ & Hint & _)]]; [done|split; congruence|congruence]. }
  assert (k_state (t_connector t) = kConnecting ∧ events_ ch = WriteEvent) as [Hs Hev].
  { destruct (k_state (t_connector t)); [exfalso| |exfalso].
    2: { split; [done|]. destruct Hph as (id' & ch' & Hch' & (Hst' & _ & He) & _). congruence. }
    all: unfold settled_ok in Hph; rewrite Hch in Hph; destruct Hph as ((_ & _ & ch' & Hst' & Hn & _) & _).
    all: assert (ch' = ch) as -> by congruence; rewrite Hadded in Hn; done. }
  destruct (poll_ok [(id, revents)] (k_reactor (t_connector t))) as (r & E & Hsame); [by repeat constructor|cbn; lia|].
  cbn [run_client]. rewrite Hch. cbn [mbind option_bind]. rewrite E. cbn [mbind option_bind]. eexists. split; [done|].
  set (k1 := (t_connector t) <| k_reactor := r |>).
  assert (connector_inv (handleEvent revents) (t_connection t) k1) as Hk1.
  { assert (same_channel (t_connector t) r) as Hsc.
    { intros id' ch' _ Hst'. destruct Hsame as (_ & _ & _ & _ & _ & Hs'). specialize (Hs' id'). rewrite Hst' in Hs'.
      destruct (r_store r !! id') as [ch2|]; [|done]. exists ch2. by injection Hs' as ????. }
    destruct (same_channel_inv [] _ _ r [] Hk (same_but_revents_ok _ _ Hsame Hr) Hsc) as [Hr1 Hph1].
    split; [exact Hr1|]. cbn in *. rewrite Hs in *. destruct Hph1 as (id' & ch' & ? & ? & ? & ? & ? & ? & _).
    exists id', ch'. split_and!; try done. apply handleEvent_connecting. by rewrite Hev in Hrev. }
  apply (next_callbacks_ok (handleEvent revents) (t_connection t) k1 Hk1). left. by exists id.
Qed.

Lemma callback_runs s t cb todo :
  client_ok t → k_todo (t_connector t) = cb :: todo →
  ∃ t', run_connector_callback s cb t = Some t' ∧ connector_inv todo (t_connection t') (t_connector t') ∧
    is_Some (k_channel (t_connector t')).
Proof.
  intros [Hk Hloop] Htodo. pose proof Hk as [Hr Hph].
  assert (is_Some (k_channel (t_connector t))) as Hch.
  { unfold loop_inv in Hloop. rewrite Htodo in Hloop. destruct Hloop as (id & -> & _). by eexists. }
  rewrite Htodo in Hk, Hph. set (k := t_connector t) in *.
  destruct (decide (k_state k = kConnecting)) as [Hst|Hst].
  2: { assert (settled_ok (cb :: todo) (t_connection t) k) as Hset by (by apply (not_connecting k) in Hph).
       pose proof Hset as (H1 & H2 & Herr & H4). apply Forall_cons in Herr as [-> Herr]. exists t. split_and!; [| |done].
       - cbn [run_connector_callback]. unfold handleError. rewrite bool_decide_false by done. cbn [mbind option_bind]. by destruct t.
       - split; [done|]. apply not_connecting; [done|]. by split_and!. }
  rewrite Hst in Hph. pose proof Hph as (id & ch & Hid & Hw & Hreset & Hstart & Hconn & Hopen & Hok).
  destruct cb; cbn [run_connector_callback todo_ok] in *.
  1,2: exists t; split_and!; [done| |done]; split; [done|]; fold k; rewrite Hst; exists id, ch; by split_and!.
  - rewrite <- Htodo, Hconn in Hk. destruct (remove_attempt todo k Hk Hst Hloop Hok) as (id' & ch' & r & E & _ & _ & Hafter).
    fold k. unfold handleWrite. rewrite bool_decide_true by done. rewrite E. cbn [mbind option_bind].
    set (k1 := queue_functor ResetChannel (k <| k_reactor := r |>)) in *.
    assert (∃ t', Some (with_connector t (retry (fd_ ch') k1)) = Some t' ∧ connector_inv todo (t_connection t') (t_connector t') ∧
              is_Some (k_channel (t_connector t'))) as Hretry.
    { eexists. split; [done|]. split; [|exact Hch]. cbn. rewrite Hconn. by apply Hafter. }
    destruct (negb (s_error s =? 0)); [exact Hretry|]. destruct (s_self s); [exact Hretry|].
    destruct (k_connect (k1 <| k_state := kConnected |>)); (eexists; split; [done|]; split; [|exact Hch]); cbn.
    + apply Hafter; try done. cbn. by rewrite Permutation_middle.
    + apply Hafter; try done.
  - rewrite <- Htodo, Hconn in Hk. destruct (remove_attempt todo k Hk Hst Hloop Hok) as (id' & ch' & r & E & _ & _ & Hafter).
    fold k. unfold handleError. rewrite bool_decide_true by done. rewrite E. cbn [mbind option_bind].
    eexists. split; [done|]. split; [|exact Hch]. cbn. rewrite Hconn. by apply Hafter.
Qed.

(** *** Functors *)

Lemma remove_state st k :
  removeAndResetChannel (k <| k_state := st |>) = (λ p, (p.1 <| k_state := st |>, p.2)) <$> removeAndResetChannel k.
Proof.
  unfold removeAndResetChannel. cbn. destruct (k_channel k) as [id|]; [|done]. cbn. destruct (disableAll id (k_reactor k)) as [r|]; [|done].
  cbn. destruct (remove id r) as [r'|]; [|done]. cbn. by destruct (r_store r' !! id).
Qed.

(** An inequality of the queue that does not matter. *)
Lemma same_queue_inv todo conn k queue :
  connector_inv todo conn k →
  queued StartInLoop (k <| k_queue := queue |>) = queued StartInLoop k →
  queued ResetChannel (k <| k_queue := queue |>) = queued ResetChannel k →
  connector_inv todo conn (k <| k_queue := queue |>).
Proof.
  intros [Hr Hph] Es Er. split; [done|]. change (k_state (k <| k_queue := queue |>)) with (k_state k).
  destruct (k_state k) eqn:Est.
  2: { destruct Hph as (id & ch & Hch & Hw & Hq & Hq' & Hrest). exists id, ch. rewrite Es, Er. done. }
  all: unfold settled_ok in *; rewrite Es, Er; cbn; rewrite Est in *; exact Hph.
Qed.

Lemma connector_functor_runs s f queue k conn :
  connector_inv [] conn k → loop_inv k → k_todo k = [] → k_queue k = f :: queue → fresh s k →
  ∃ k', run_connector_functor s f (k <| k_queue := queue |>) = Some k' ∧ connector_inv [] conn k' ∧ k_todo k' = [] ∧
    r_handling (k_reactor k') = r_handling (k_reactor k).
Proof.
  intros Hk Hloop Htodo Eq Hfresh. pose proof Hk as [Hr Hph].
  pose proof (λ g, queued_head g f queue k Eq) as Hcount. set (k0 := k <| k_queue := queue |>) in *.
  destruct f; cbn [run_connector_functor].
  - specialize (Hcount StartInLoop) as Hs. rewrite decide_True in Hs by done.
    specialize (Hcount ResetChannel) as Hre. rewrite decide_False in Hre by done. cbn [Nat.add] in Hre.
    assert (k_state k = kDisconnected ∧ k_channel k = None ∧ queued StartInLoop k0 = 0%nat ∧ conn = None) as (Hst & Hch & Hq & ->).
    { destruct (k_state k) eqn:Est; cbn in Hph.
      - destruct Hph as (Hc & _ & _ & Hd). rewrite Est in Hd. destruct Hd as [Hle Hconn].
        destruct (k_channel k); [destruct Hc as (_ & ? & _); lia|]. split_and!; try done. lia.
      - destruct Hph as (id & ch & _ & _ & _ & ? & _). lia.
      - destruct Hph as (_ & _ & _ & Hd). rewrite Est in Hd. lia. }
    destruct (start_runs [] s k0) as (k' & E & Hk' & Et & Eh); [|exact Hst|exact Hch|exact Hq|exact Hfresh|].
    + split; [exact Hr|]. rewrite Hst in Hph. unfold settled_ok in *. change (k_state k0) with (k_state k).
      change (k_channel k0) with (k_channel k). rewrite Hst, Hch, <- Hre, Hq in *. destruct Hph as (? & ? & ? & _).
      split_and!; try done. lia.
    + exists k'. split_and!; try done. by rewrite Et.
  - assert (connector_inv [] conn k0) as Hk0.
    { apply same_queue_inv; [done|symmetry; apply Hcount..]. }
    unfold stopInLoop. destruct (decide (k_state k0 = kConnecting)) as [Hst|Hst].
    2: { rewrite bool_decide_false by done. exists k0. by split_and!. }
    rewrite bool_decide_true by done. pose proof Hk0 as [_ Hph0]. rewrite Hst in Hph0.
    destruct Hph0 as (_ & _ & _ & _ & _ & _ & -> & _). change (k_todo k) with (k_todo k0) in Htodo. rewrite <- Htodo in Hk0 at 1.
    destruct (remove_attempt [] k0 Hk0 Hst Hloop ltac:(constructor)) as (id & ch & r & E & Eh & _ & Hafter).
    rewrite remove_state, E. cbn [mbind option_bind fmap option_fmap option_map fst snd]. eexists. split; [done|]. split_and!; [|done|done].
    by apply Hafter.
  - specialize (Hcount StartInLoop) as Hs. rewrite decide_False in Hs by done. cbn [Nat.add] in Hs.
    specialize (Hcount ResetChannel) as Hre. rewrite decide_True in Hre by done.
    unfold resetChannel. change (k_channel k0) with (k_channel k).
    assert (k_state k ≠ kConnecting) as Hst by (intros Est; rewrite Est in Hph; destruct Hph as (id & ch & _ & _ & ? & _); lia).
    apply not_connecting in Hph; [|done]. destruct Hph as (Hc & Hopen & Herr & Hd).
    destruct (k_channel k) as [id|] eqn:Hch; [|lia]. destruct Hc as (Hre1 & Hs0 & ch & Hst' & Hi & Ha).
    destruct (destroy_channel_ok id ch (k_reactor k) Hr Hst' Ha Hi) as [E Hr']. change (k_reactor k0) with (k_reactor k). rewrite E.
    cbn [mbind option_bind]. eexists. split; [done|]. split_and!; [|done|done]. split; [exact Hr'|]. apply not_connecting; [done|].
    unfold settled_ok. cbn [k_channel]. split_and!; try done.
    + change (queued ResetChannel k0 = 0%nat). lia.
    + cbn. destruct (k_state k); try done.
      * change (queued StartInLoop k0 <= 1 ∧ conn = None)%nat. lia || (destruct Hd; split; [lia|done]).
      * change (queued StartInLoop k0 = 0%nat). lia.
Qed.

(** *** Every action *)

Lemma connect_flag_inv todo conn k b : connector_inv todo conn k → connector_inv todo conn (k <| k_connect := b |>).
Proof. intros [Hr Hph]. split; [exact Hr|exact Hph]. Qed.

Lemma idle_todo k : loop_inv k → k_channel k = None → k_todo k = [] ∧ r_handling (k_reactor k) = false.
Proof. unfold loop_inv. intros Hl Hch. destruct (k_todo k); [done|]. destruct Hl as (id & ? & _). congruence. Qed.

Lemma loop_inv_todo k k' :
  k_todo k' = [] → r_handling (k_reactor k') = r_handling (k_reactor k) → k_todo k = [] → loop_inv k → loop_inv k'.
Proof. unfold loop_inv. intros -> -> ->. done. Qed.

Lemma connect_ok in_loop s t :
  client_ok t → client_enabled (Connect in_loop s) t → ∃ t', run_client (Connect in_loop s) t = Some t' ∧ client_ok t'.
Proof.
  intros [Hk Hloop] (Hst & Hch & Hs & Hfresh). cbn [run_client]. unfold client_connect, start.
  destruct (idle_todo _ Hloop Hch) as [Htodo Hh]. rewrite Htodo in Hk. apply not_queued in Hs.
  pose proof Hk as [_ Hph]. rewrite Hst in Hph. destruct Hph as (Hc & Hopen & _ & Hd). rewrite Hst in Hd. destruct Hd as [_ Hconn].
  rewrite Hconn in Hk. set (k := t_connector t) in *. set (k1 := k <| k_connect := true |>).
  assert (connector_inv [] None k1) as Hk1 by (by apply connect_flag_inv).
  destruct in_loop.
  - destruct (start_runs [] s k1 Hk1 Hst Hch Hs Hfresh) as (k' & -> & Hk' & Et & Eh). cbn [mbind option_bind]. eexists. split; [done|].
    unfold client_ok. cbn [t_connector t_connection with_connector]. assert (k_todo k' = []) as Et' by (by rewrite Et). split.
    + cbn. rewrite Et', Hconn. exact Hk'.
    + apply (loop_inv_todo k); try done.
  - eexists. split; [done|]. split; [|exact Hloop]. cbn. rewrite Htodo, Hconn. split; [apply Hk1|]. change (k_state (queue_functor StartInLoop k1)) with (k_state k).
    rewrite Hst. unfold settled_ok. change (k_channel (queue_functor StartInLoop k1)) with (k_channel k).
    change (k_state (queue_functor StartInLoop k1)) with (k_state k). rewrite Hch, Hst, !queued_snoc in *.
    change (queued ResetChannel k1) with (queued ResetChannel k). change (queued StartInLoop k1) with (queued StartInLoop k).
    rewrite Hc, Hs. split_and!; try done. constructor.
Qed.

Lemma closes_ok s fd t :
  client_ok t → client_enabled (ConnectionCloses s fd) t → ∃ t', run_client (ConnectionCloses s fd) t = Some t' ∧ client_ok t'.
Proof.
  intros [Hk Hloop] (Htodo & Hconn & Hre & Hfresh). cbn [run_client]. unfold client_removeConnection.
  rewrite bool_decide_true by done. cbn [assertion mbind option_bind]. rewrite Htodo, Hconn in Hk. apply not_queued in Hre.
  set (k := t_connector t) in *. pose proof Hk as [Hr Hph].
  assert (k_state k = kConnected) as Hst.
  { destruct (k_state k) eqn:Est; [exfalso| |done].
    - destruct Hph as (_ & _ & _ & Hd). rewrite Est in Hd. by destruct Hd.
    - by destruct Hph as (id & ch & _ & _ & _ & _ & ? & _). }
  rewrite Hst in Hph. destruct Hph as (Hc & Hopen & Herr & Hd). rewrite Hst in Hd.
  assert (k_channel k = None) as Hch by (destruct (k_channel k); [lia|done]). rewrite Hch in Hc.
  destruct (t_retry (t <| t_connection := None |>) && t_connect (t <| t_connection := None |>)).
  - unfold restart. change (t_connector (t <| t_connection := None |>)) with k.
    set (k1 := k <| k_state := kDisconnected |> <| k_connect := true |>).
    destruct (start_runs [] s k1) as (k' & -> & Hk' & Et & Eh); [|done|exact Hch|exact Hd|exact Hfresh|].
    + split; [exact Hr|]. change (settled_ok [] None k1). unfold settled_ok. change (k_channel k1) with (k_channel k).
      rewrite Hch. split_and!; [exact Hc|exact Hopen|exact Herr|]. change (queued StartInLoop k <= 1 ∧ @None Z = None)%nat.
      split; [lia|done].
    + cbn [mbind option_bind]. eexists. split; [done|]. assert (k_todo k' = []) as Et' by (by rewrite Et). split.
      * cbn. by rewrite Et'.
      * by apply (loop_inv_todo k).
  - eexists. split; [done|]. split; [|exact Hloop]. cbn. fold k. rewrite Htodo. split; [exact Hr|]. rewrite Hst. unfold settled_ok.
    rewrite Hch, Hst. by split_and!.
Qed.

Lemma client_action_ok a t : client_ok t → client_enabled a t → ∃ t', run_client a t = Some t' ∧ client_ok t'.
Proof.
  intros Hok Ha. pose proof Hok as [Hk Hloop]. destruct a as [in_loop s| | | |revents|s|s|s fd|r].
  - by apply connect_ok.
  - eexists. split; [done|]. by split.
  - eexists. split; [done|]. split; [|exact Hloop]. cbn.
    refine (same_queue_inv _ _ ((t_connector t) <| k_connect := false |>) (k_queue (t_connector t) ++ [StopInLoop]) _ _ _).
    + by apply connect_flag_inv.
    + change (queued StartInLoop (queue_functor StopInLoop (t_connector t)) = queued StartInLoop (t_connector t)).
      rewrite queued_snoc, decide_False by done. lia.
    + change (queued ResetChannel (queue_functor StopInLoop (t_connector t)) = queued ResetChannel (t_connector t)).
      rewrite queued_snoc, decide_False by done. lia.
  - eexists. split; [done|]. by split.
  - by apply ready_ok.
  - cbn [run_client]. destruct (k_todo (t_connector t)) as [|cb todo] eqn:Et; [by exists t|].
    destruct (callback_runs s t cb todo Hok Et) as (t' & -> & Hk' & Hch). cbn [mbind option_bind]. eexists. split; [done|].
    destruct (next_callbacks_ok todo (t_connection t') (t_connector t') Hk' (or_introl Hch)) as [H1 H2]. split; [exact H1|exact H2].
  - destruct Ha as [Et Hf]. cbn [run_client]. destruct (k_queue (t_connector t)) as [|f queue] eqn:Eq; [by exists t|].
    rewrite Et in Hk. destruct (connector_functor_runs s f queue _ _ Hk Hloop Et Eq Hf) as (k' & -> & Hk' & Et' & Eh). cbn [mbind option_bind].
    eexists. split; [done|]. split.
    + cbn. by rewrite Et'.
    + by apply (loop_inv_todo (t_connector t)).
  - by apply closes_ok.
  - destruct Ha as (Hr & Eh & Ec & Hst). eexists. split; [done|]. split.
    + refine (same_channel_inv _ _ (t_connector t) r (k_todo (t_connector t)) Hk Hr _). intros id ch Hid Hs. exists ch. by rewrite Hst.
    + unfold loop_inv in *. cbn. by rewrite Eh, Ec.
Qed.

(** ** Properties *)

Lemma new_client_ok r : reactor_ok r → r_handling r = false → client_ok (new_client r).
Proof. intros Hr Hh. split; [|exact Hh]. split; [exact Hr|]. split_and!; try done; [apply Forall_nil_2|exact (conj (Nat.le_0_l 1) eq_refl)]. Qed.

Lemma reachable_client_ok r t : reactor_ok r → r_handling r = false → rtc client_step (new_client r) t → client_ok t.
Proof.
  intros Hr Hh Hrun. refine (rtc_preserves client_step client_ok _ _ _ Hrun (new_client_ok r Hr Hh)).
  intros x y (a & Ha & E) Hx. destruct (client_action_ok a x Hx Ha) as (y' & E' & Hy). congruence.
Qed.

(** The descriptor of the attempt that is running, if any. *)
Definition pending_fd (k : connector) : list Z :=
  match k_state k, k_channel k with
  | kConnecting, Some id => match r_store (k_reactor k) !! id with Some ch => [fd_ ch] | None => [] end
  | _, _ => []
  end.

(** A client leaks no descriptor and closes none twice: whatever the order of
    connects, stops, socket events, queued functors and closes of the
    connection, no assertion fails; every descriptor opened for an attempt is
    closed once, or handed over to a connection once, or belongs to the
    attempt that is running, which the kernel is asked to report on; and
    there is a connection only after an attempt that succeeded. *)
Theorem client_descriptors (r : reactor) (t : client) :
  reactor_ok r → r_handling r = false → rtc client_step (new_client r) t →
  let k := t_connector t in
  (∀ a, client_enabled a t → is_Some (run_client a t)) ∧
  k_opened k ≡ₚ pending_fd k ++ k_closed k ++ k_handed k ∧
  (k_state k = kConnecting → ∃ fd, pending_fd k = [fd] ∧ r_interest (k_reactor k) !! fd = Some WriteEvent) ∧
  (is_Some (t_connection t) → k_state k = kConnected).
Proof.
  intros Hr Hh Hrun k. pose proof (reachable_client_ok r t Hr Hh Hrun) as Hok. pose proof Hok as [[Hrk Hph] _].
  fold k in Hrk, Hph. split; [|unfold pending_fd; destruct (k_state k) eqn:Est].
  - intros a Ha. destruct (client_action_ok a t Hok Ha) as (t' & -> & _). by eexists.
  - destruct Hph as (_ & Hopen & _ & Hd). rewrite Est in Hd. destruct Hd as [_ ->]. split; [done|]. split; [done|by intros [? ?]].
  - destruct Hph as (id & ch & -> & (Hst & Hi & He) & _ & _ & -> & Hopen & _). rewrite Hst. split; [done|]. split; [|by intros [? ?]].
    intros _. exists (fd_ ch). split; [done|].
    destruct (ok_channels _ Hrk _ _ Hst) as [[Hn _]|[(_ & _ & Hint)|(_ & Hn & _)]]; [rewrite Hi in Hn; done|congruence|rewrite Hi in Hn; done].
  - destruct Hph as (_ & Hopen & _). by split_and!.
Qed.

(** A client that connects to a server and is connected. *)
Definition server_answers : kernel := MkKernel 7 0 EINPROGRESS 0 false.

Fixpoint run_clients (l : list client_action) (t : client) : option client :=
  match l with
  | [] => Some t
  | a :: l => t ← run_client a t; run_clients l t
  end.

Definition first_client : client := new_client new_reactor.
Definition connecting_client : client := default first_client (run_clients [Connect true server_answers] first_client).
Definition connected_client : client :=
  default first_client (run_clients [Ready POLLOUT; RunCallback server_answers; RunFunctor server_answers] connecting_client).

Lemma client_descriptors_witness :
  k_opened (t_connector connecting_client) ≡ₚ pending_fd (t_connector connecting_client) ++ [] ++ [] ∧
  pending_fd (t_connector connecting_client) = [7] ∧ t_connection connected_client = Some 7.
Proof.
  destruct (client_descriptors new_reactor connecting_client) as (_ & Hopen & _).
  - apply new_reactor_ok.
  - reflexivity.
  - apply rtc_once. exists (Connect true server_answers). split; [|reflexivity].
    split_and!; [reflexivity|reflexivity|cbn; set_solver|split; reflexivity].
  - split_and!; [exact Hopen|reflexivity|reflexivity].
Defined.

(** After a connection is closed the connector still counts as connected: the
    next [connect] of the client fails an assertion. *)
Lemma connect_after_close_fails :
  run_clients [ConnectionCloses server_answers 7] connected_client ≠ None ∧
  run_clients [ConnectionCloses server_answers 7; Connect true server_answers] connected_client = None.
Proof. vm_compute. done. Qed.

(** An attempt that is refused is not repeated: nothing is left to the loop
    and no channel is watched. *)
Lemma refused_attempt_not_repeated :
  match run_clients [Connect true (MkKernel 7 0 ECONNREFUSED 0 false)] first_client with
  | Some t => k_connect (t_connector t) = true ∧ k_state (t_connector t) = kDisconnected ∧ k_queue (t_connector t) = [] ∧
      k_channel (t_connector t) = None
  | None => False
  end.
Proof. vm_compute. done. Qed.

(** A [connect] while an attempt runs fails an assertion, and so does one that
    was queued before the attempt failed, because the old channel is reset
    later. *)
Lemma second_connect_fails :
  run_clients [Connect true server_answers] connecting_client = None ∧
  run_clients [Ready POLLERR; Connect false server_answers; RunCallback server_answers; RunFunctor server_answers] connecting_client = None.
Proof. vm_compute. done. Qed.

(** A client that is destroyed while it connects fails the assertion of
    [~Connector]. *)
Lemma destroy_while_connecting_fails unique t :
  t_connection t = None → is_Some (k_channel (t_connector t)) → destroy_client unique t = None.
Proof.
  intros Ht [id Hid]. unfold destroy_client, destroy_connector. rewrite Ht.
  change (k_channel (connector_stop (t_connector t))) with (k_channel (t_connector t)). rewrite Hid. by rewrite bool_decide_false.
Qed.

(** A client without a connection always leaves a functor behind that runs on
    the destroyed connector. *)
Lemma destroyed_client_leaves_functor unique t c functors :
  t_connection t = None → destroy_client unique t = Some (c, functors) → StopInLoop ∈ functors.
Proof.
  intros Ht. unfold destroy_client, destroy_connector. rewrite Ht.
  change (k_channel (connector_stop (t_connector t))) with (k_channel (t_connector t)).
  destruct (bool_decide _); [|done]. cbn [assertion mbind option_bind]. intros [= _ <-].
  change (k_queue (connector_stop (t_connector t))) with (k_queue (t_connector t) ++ [StopInLoop]). set_solver.
Qed.
