(* ===== verification/Address.v ===== *)
(** * Socket addresses

    [class InetAddress] ([network/src/InetAddress.cc]), the functions on
    addresses of [network/src/SocketsOps.cc] and the byte order functions of
    [network/include/network/Endian.h].

    An [InetAddress] is a union of [sockaddr_in] and [sockaddr_in6]: 28 bytes
    that both structures overlay, with the family and the port in the same
    place, as the static assertions of the source say.  Constructors for IPv4
    set 16 of them and leave the others as they were, so the storage before
    the construction is an argument.  The host is little-endian.  [inet_pton]
    and [inet_ntop] are modelled for IPv4; for IPv6 they are arguments. *)
From S2P Require Import Prelude StdString Doubles Json Observability Types Endpoint Util Framing Manager NetBuffer EventLoop Server.

(** ** Byte order *)

(** An integer of [n] bytes in the memory of the host. *)
Definition le_bytes (n : nat) (x : Z) : bytes := rev (be_bytes n x).
Definition le_value (l : bytes) : Z := be_value 0 (rev l).

(** [htobe] and [betoh] of a little-endian host exchange the bytes. *)
Definition byte_swap (n : nat) (x : Z) : Z := le_value (be_bytes n x).

Definition hostToNetwork64 (host64 : Z) : Z := byte_swap 8 host64.
Definition hostToNetwork32 (host32 : Z) : Z := byte_swap 4 host32.
Definition hostToNetwork16 (host16 : Z) : Z := byte_swap 2 host16.
Definition networkToHost64 (net64 : Z) : Z := byte_swap 8 net64.
Definition networkToHost32 (net32 : Z) : Z := byte_swap 4 net32.
Definition networkToHost16 (net16 : Z) : Z := byte_swap 2 net16.

(** ** The storage *)

Abbreviation sockaddr := bytes.

Definition AF_INET : Z := 2.
Definition AF_INET6 : Z := 10.
Definition sockaddr_in_size : nat := 16.
Definition sockaddr_in6_size : nat := 28.

Definition field (offset len : nat) (a : sockaddr) : bytes := take len (drop offset a).

Definition sin_family (a : sockaddr) : Z := le_value (field 0 2 a).
Definition sin_port (a : sockaddr) : Z := le_value (field 2 2 a).
Definition sin_addr (a : sockaddr) : bytes := field 4 4 a.
Definition sin6_addr (a : sockaddr) : bytes := field 8 16 a.

Definition set_family (family : Z) (a : sockaddr) : sockaddr := blit 0 (le_bytes 2 family) a.
Definition set_port (port : Z) (a : sockaddr) : sockaddr := blit 2 (le_bytes 2 port) a.
Definition memset_in (a : sockaddr) : sockaddr := blit 0 (replicate sockaddr_in_size zero_byte) a.
Definition memset_in6 (a : sockaddr) : sockaddr := blit 0 (replicate sockaddr_in6_size zero_byte) a.

(** ** Texts *)

(** The text a C function sees. *)
Fixpoint c_str (s : string) : string :=
  match s with
  | EmptyString => EmptyString
  | String c s => if (c =? "000")%char then EmptyString else String c (c_str s)
  end.

(** [inet_pton(AF_INET, ...)]: four decimal numbers of a byte without leading
    zeros; [cur] is the number being read. *)
Fixpoint scan_octets (done : list Z) (cur : option Z) (s : string) : option (list Z) :=
  match s with
  | EmptyString =>
      match cur with
      | Some v => if (length done =? 3)%nat then Some (done ++ [v]) else None
      | None => None
      end
  | String c s =>
      if is_digit c then
        match cur with
        | None => scan_octets done (Some (digit_value c)) s
        | Some v =>
            if v =? 0 then None
            else if 255 <? v * 10 + digit_value c then None
            else scan_octets done (Some (v * 10 + digit_value c)) s
        end
      else if (c =? ".")%char then
        match cur with
        | Some v => if (length done =? 3)%nat then None else scan_octets (done ++ [v]) None s
        | None => None
        end
      else None
  end.

Definition byte_of (z : Z) : ascii := ascii_of_N (Z.to_N z).
Definition octet (c : ascii) : Z := Z.of_N (N_of_ascii c).

Definition inet_pton4 (s : string) : option bytes := map byte_of <$> scan_octets [] None (c_str s).

Definition inet_ntop4 (b : bytes) : string := String.concat "." (map (λ c, to_string (octet c)) b).

(** The IPv6 functions of the C library. *)
Class Inet6Text := {
  inet6_pton : string → option bytes;
  inet6_ntop : bytes → string;
}.

Section address.
Context `{Inet6Text}.

(** [sockets::toIp] on a buffer of [size] bytes that holds [buf]; [None] is a
    failed assertion. *)
Definition toIp (size : nat) (a : sockaddr) (buf : string) : option string :=
  let ntop (text : string) := if (String.length text <? size)%nat then text else buf in
  if sin_family a =? AF_INET then
    _ ← assertion (16 <=? size)%nat; Some (ntop (inet_ntop4 (sin_addr a)))
  else if sin_family a =? AF_INET6 then
    _ ← assertion (46 <=? size)%nat; Some (ntop (inet6_ntop (sin6_addr a)))
  else Some buf.

(** [sockets::toIpPort]; [snprintf] cuts what does not fit. *)
Definition toIpPort (size : nat) (a : sockaddr) (buf : string) : option string :=
  if sin_family a =? AF_INET6 then
    ip ← toIp (size - 1) a (str_drop 1 buf);
    let buf := String "[" ip in
    let fin := String.length buf in
    _ ← assertion (fin <? size)%nat;
    Some (buf +:+ str_take (size - fin - 1) ("]:" +:+ to_string (networkToHost16 (sin_port a))))
  else
    buf ← toIp size a buf;
    let fin := String.length buf in
    _ ← assertion (fin <? size)%nat;
    Some (buf +:+ str_take (size - fin - 1) (":" +:+ to_string (networkToHost16 (sin_port a)))).

(** [sockets::fromIpPort]: an address that does not parse is only logged. *)
Definition fromIpPort4 (ip : string) (port : Z) (a : sockaddr) : sockaddr :=
  let a := set_port (hostToNetwork16 port) (set_family AF_INET a) in
  match inet_pton4 ip with Some b => blit 4 b a | None => a end.

Definition fromIpPort6 (ip : string) (port : Z) (a : sockaddr) : sockaddr :=
  let a := set_port (hostToNetwork16 port) (set_family AF_INET6 a) in
  match inet6_pton (c_str ip) with Some b => blit 8 b a | None => a end.

(** ** [class InetAddress] *)

Definition INADDR_ANY : Z := 0.
Definition INADDR_LOOPBACK : Z := 0x7f000001.
Definition in6addr_any : bytes := replicate 16 zero_byte.
Definition in6addr_loopback : bytes := replicate 15 zero_byte ++ [byte_of 1].

(** [InetAddress(port, loopbackOnly, ipv6)] in the storage [mem]. *)
Definition InetAddress_port (portArg : Z) (loopbackOnly ipv6 : bool) (mem : sockaddr) : sockaddr :=
  if ipv6 then
    let a := set_family AF_INET6 (memset_in6 mem) in
    let a := blit 8 (if loopbackOnly then in6addr_loopback else in6addr_any) a in
    set_port (hostToNetwork16 portArg) a
  else
    let a := set_family AF_INET (memset_in mem) in
    let a := blit 4 (le_bytes 4 (hostToNetwork32 (if loopbackOnly then INADDR_LOOPBACK else INADDR_ANY))) a in
    set_port (hostToNetwork16 portArg) a.

(** [InetAddress(ip, port, ipv6)]. *)
Definition InetAddress_ip (ip : string) (portArg : Z) (ipv6 : bool) (mem : sockaddr) : sockaddr :=
  if ipv6 || char_in ":"%char (c_str ip) then fromIpPort6 ip portArg (memset_in6 mem)
  else fromIpPort4 ip portArg (memset_in mem).

Definition InetAddress_toIpPort (a : sockaddr) : option string := toIpPort 64 a "".
Definition InetAddress_toIp (a : sockaddr) : option string := toIp 64 a "".

Definition ipv4NetEndian (a : sockaddr) : option Z :=
  _ ← assertion (sin_family a =? AF_INET); Some (le_value (sin_addr a)).

Definition portNetEndian (a : sockaddr) : Z := sin_port a.
Definition address_port (a : sockaddr) : Z := networkToHost16 (portNetEndian a).

(** What [gethostbyname_r] returns. *)
Record hostent := MkHostent {
  h_addrtype : Z;
  h_length : Z;
  h_addr : bytes;
}.

Definition resolve (gethostbyname : string → Z * option hostent) (hostname : string) (out : sockaddr) : option (sockaddr * bool) :=
  match gethostbyname (c_str hostname) with
  | (0, Some he) =>
      _ ← assertion ((h_addrtype he =? AF_INET) && (h_length he =? 4));
      Some (blit 4 (take 4 (h_addr he)) out, true)
  | _ => Some (out, false)
  end.

Definition setScopeId (scope_id : Z) (a : sockaddr) : sockaddr :=
  if sin_family a =? AF_INET6 then blit 24 (le_bytes 4 scope_id) a else a.

Definition setSockAddrInet6 (addr6 : sockaddr) (_ : sockaddr) : sockaddr := addr6.

(** ** Addresses of a socket *)

(** [getLocalAddr] and [getPeerAddr]; the argument is what the system call
    writes, nothing when it fails. *)
Definition socket_addr (answer : option bytes) : sockaddr :=
  let a := replicate sockaddr_in6_size zero_byte in
  match answer with Some b => blit 0 (take sockaddr_in6_size b) a | None => a end.

Definition getLocalAddr (getsockname : option bytes) : sockaddr := socket_addr getsockname.
Definition getPeerAddr (getpeername : option bytes) : sockaddr := socket_addr getpeername.

Definition isSelfConnect (getsockname getpeername : option bytes) : bool :=
  let localaddr := getLocalAddr getsockname in
  let peeraddr := getPeerAddr getpeername in
  if sin_family localaddr =? AF_INET then
    (sin_port localaddr =? sin_port peeraddr) && (le_value (sin_addr localaddr) =? le_value (sin_addr peeraddr))
  else if sin_family localaddr =? AF_INET6 then
    (sin_port localaddr =? sin_port peeraddr) && bool_decide (sin6_addr localaddr = sin6_addr peeraddr)
  else false.

(** [getSocketError]; the answer is the option's value or the [errno] of a
    failed call. *)
Definition getSocketError (getsockopt : Z + Z) : Z := match getsockopt with inl err => err | inr optval => optval end.
End address.

(** ** Lemmas *)

(** *** Bytes and integers *)

Lemma octet_range c : 0 <= octet c < 256.
Proof. unfold octet. pose proof (N_ascii_bounded c). lia. Qed.

Lemma byte_octet c : byte_of (octet c) = c.
Proof. unfold byte_of, octet. rewrite N2Z.id. apply ascii_N_embedding. Qed.

Lemma be_value_acc l : ∀ acc, be_value acc l = acc * 2 ^ (8 * Z.of_nat (length l)) + be_value 0 l.
Proof.
  induction l as [|c l IH]; intros acc; cbn [be_value length]; [change (2 ^ (8 * Z.of_nat 0)) with 1; lia|].
  rewrite (IH (acc * 256 + _)), (IH (0 * 256 + _)). replace (8 * Z.of_nat (S (length l))) with (8 + 8 * Z.of_nat (length l)) by lia.
  rewrite Z.pow_add_r by lia. lia.
Qed.

Lemma be_value_range l : 0 <= be_value 0 l < 2 ^ (8 * Z.of_nat (length l)).
Proof.
  induction l as [|c l IH]; cbn [be_value length]; [done|]. rewrite be_value_acc. fold (octet c). pose proof (octet_range c).
  replace (8 * Z.of_nat (S (length l))) with (8 + 8 * Z.of_nat (length l)) by lia. rewrite Z.pow_add_r by lia. nia.
Qed.

(** Only the low bytes of an integer are stored. *)
Lemma be_bytes_low n k x : be_bytes n (k * 2 ^ (8 * Z.of_nat n) + x) = be_bytes n x.
Proof.
  assert (∀ m, (m <= n)%nat → be_bytes m (k * 2 ^ (8 * Z.of_nat n) + x) = be_bytes m x) as Hm; [|by apply Hm].
  induction m as [|m IH]; intros Hmn; [done|]. cbn [be_bytes]. f_equal; [|by apply IH; lia]. do 2 f_equal.
  change 255 with (Z.ones 8). rewrite !Z.land_ones, !Z.shiftr_div_pow2 by lia.
  replace (8 * Z.of_nat n) with (8 * Z.of_nat m + (8 + 8 * Z.of_nat (n - S m))) by lia. rewrite !Z.pow_add_r by lia.
  rewrite (Z.mul_comm (2 ^ (8 * Z.of_nat m))), Z.mul_assoc, Z.div_add_l by (apply Z.pow_nonzero; lia).
  replace (k * (2 ^ 8 * 2 ^ (8 * Z.of_nat (n - S m)))) with (k * 2 ^ (8 * Z.of_nat (n - S m)) * 2 ^ 8) by ring.
  rewrite Z.add_comm. apply Z_mod_plus_full.
Qed.

Lemma be_bytes_value l : be_bytes (length l) (be_value 0 l) = l.
Proof.
  induction l as [|c l IH]; [done|]. cbn [length be_bytes be_value]. rewrite be_value_acc, Z.mul_0_l, Z.add_0_l. fold (octet c).
  rewrite be_bytes_low, IH. f_equal. pose proof (be_value_range l). pose proof (octet_range c).
  rewrite Z.shiftr_div_pow2, Z.div_add_l by lia. rewrite (Z.div_small (be_value 0 l)), Z.add_0_r by lia.
  change 255 with (Z.ones 8). rewrite Z.land_ones, Z.mod_small by lia. apply byte_octet.
Qed.

Lemma le_value_bytes n x : 0 <= x < 2 ^ (8 * Z.of_nat n) → le_value (le_bytes n x) = x.
Proof. intros Hx. unfold le_value, le_bytes. rewrite rev_involutive, be_value_bytes, Z.mod_small by lia. lia. Qed.

Lemma le_bytes_value l : le_bytes (length l) (le_value l) = l.
Proof. unfold le_value, le_bytes. rewrite <- (length_rev l), be_bytes_value. apply rev_involutive. Qed.

(** What is stored of an integer in network order are its bytes, the most
    significant one first. *)
Lemma stored_in_network_order n x : le_bytes n (byte_swap n x) = be_bytes n x.
Proof. unfold byte_swap. rewrite <- (be_bytes_length n x) at 1. apply le_bytes_value. Qed.

Lemma byte_swap_involutive n x : 0 <= x < 2 ^ (8 * Z.of_nat n) → byte_swap n (byte_swap n x) = x.
Proof.
  intros Hx. pose proof (stored_in_network_order n x) as E. unfold le_bytes in E. apply (f_equal (@rev ascii)) in E.
  rewrite rev_involutive in E. unfold byte_swap at 1, le_value. rewrite E, rev_involutive, be_value_bytes, Z.mod_small by lia. lia.
Qed.

Lemma byte_swap_range n x : 0 <= byte_swap n x < 2 ^ (8 * Z.of_nat n).
Proof.
  unfold byte_swap, le_value. pose proof (be_value_range (rev (be_bytes n x))) as Hr. by rewrite length_rev, be_bytes_length in Hr.
Qed.

(** *** Fields *)

Lemma field_blit_same i n data a : length data = n → (i + n <= length a)%nat → field i n (blit i data a) = data.
Proof.
  intros Hd Hl. unfold field, blit. rewrite drop_app_length' by (rewrite length_take; lia). by rewrite take_app_length'.
Qed.

(** A field before or after the bytes that are written. *)
Lemma field_blit_before i n j data a : (i + n <= j)%nat → (j <= length a)%nat → field i n (blit j data a) = field i n a.
Proof.
  intros Hj Hl. unfold field, blit. rewrite drop_app_le by (rewrite length_take; lia).
  rewrite take_app_le by (rewrite length_drop, length_take; lia). by rewrite skipn_firstn_comm, take_take, Nat.min_l by lia.
Qed.

Lemma field_blit_after i n j data a :
  (j + length data <= i)%nat → (j + length data <= length a)%nat → field i n (blit j data a) = field i n a.
Proof.
  intros Hj Hl. unfold field, blit. rewrite app_assoc, drop_app_ge by (rewrite length_app, length_take; lia).
  rewrite drop_drop. do 2 f_equal. rewrite length_app, length_take. lia.
Qed.

(** *** Texts of IPv4 addresses *)

Lemma c_str_id s : char_in "000"%char s = false → c_str s = s.
Proof.
  induction s as [|c s IH]; [done|]. cbn [char_in c_str]. rewrite Ascii.eqb_sym. intros [-> Hs]%orb_false_iff. by rewrite IH.
Qed.

(** The number of a byte is read back, whatever has been read before and
    whatever follows. *)
Lemma octet_scanned v done rest :
  0 <= v < 256 → scan_octets done None (to_string v +:+ rest) = scan_octets done (Some v) rest.
Proof.
  intros Hv. rewrite <- (Z2Nat.id v) by lia. assert (Z.to_nat v < 256)%nat as Hn by lia. generalize dependent (Z.to_nat v). clear v Hv.
  intros n Hn. do 256 (destruct n as [|n]; [reflexivity|]). lia.
Qed.

Lemma octet_text_length v : 0 <= v < 256 → (String.length (to_string v) <= 3)%nat.
Proof.
  intros Hv. rewrite <- (Z2Nat.id v) by lia. assert (Z.to_nat v < 256)%nat as Hn by lia. generalize dependent (Z.to_nat v). clear v Hv.
  intros n Hn. do 256 (destruct n as [|n]; [vm_compute; lia|]). lia.
Qed.

Lemma four_bytes (b : bytes) : length b = 4%nat → ∃ b1 b2 b3 b4, b = [b1; b2; b3; b4].
Proof. intros Hb. destruct b as [|b1 [|b2 [|b3 [|b4 [|]]]]]; try done. by exists b1, b2, b3, b4. Qed.

Lemma inet_ntop4_shape b1 b2 b3 b4 :
  inet_ntop4 [b1; b2; b3; b4] =
  to_string (octet b1) +:+ String "." (to_string (octet b2) +:+ String "." (to_string (octet b3) +:+ String "." (to_string (octet b4)))).
Proof. reflexivity. Qed.

Lemma inet_ntop4_chars c b1 b2 b3 b4 :
  is_digit c = false → c ≠ "-"%char → c ≠ "."%char → char_in c (inet_ntop4 [b1; b2; b3; b4]) = false.
Proof.
  intros Hd Hm Hp. rewrite inet_ntop4_shape. do 3 (rewrite char_in_app; cbn [char_in]). rewrite !to_string_no_char by done.
  by destruct (Ascii.eqb_spec c "."%char).
Qed.

Lemma inet_ntop4_length b : length b = 4%nat → (String.length (inet_ntop4 b) <= 15)%nat.
Proof.
  intros (b1 & b2 & b3 & b4 & ->)%four_bytes. rewrite inet_ntop4_shape. rewrite !str_length_app. cbn [String.length].
  rewrite !str_length_app. cbn [String.length]. rewrite !str_length_app. cbn [String.length].
  pose proof (octet_text_length _ (octet_range b1)). pose proof (octet_text_length _ (octet_range b2)).
  pose proof (octet_text_length _ (octet_range b3)). pose proof (octet_text_length _ (octet_range b4)). lia.
Qed.

Lemma scan_dot done v s : (length done < 3)%nat → scan_octets done (Some v) (String "." s) = scan_octets (done ++ [v]) None s.
Proof. intros Hd. cbn. by destruct (Nat.eqb_spec (length done) 3); [lia|]. Qed.

(** Printing and parsing an IPv4 address. *)
Lemma inet_pton4_ntop4 b : length b = 4%nat → inet_pton4 (inet_ntop4 b) = Some b.
Proof.
  intros (b1 & b2 & b3 & b4 & ->)%four_bytes. unfold inet_pton4. rewrite c_str_id by (by apply inet_ntop4_chars).
  rewrite inet_ntop4_shape, <- (str_app_nil_r (to_string (octet b4))). do 3 rewrite octet_scanned, scan_dot by (apply octet_range || (cbn; lia)).
  rewrite octet_scanned by apply octet_range. cbn. by rewrite !byte_octet.
Qed.

(** *** Addresses *)

(** An address that holds an IPv4 endpoint. *)
Definition ipv4 (a : sockaddr) : Prop := length a = sockaddr_in6_size ∧ sin_family a = AF_INET.

Definition ip_text (a : sockaddr) : string := inet_ntop4 (sin_addr a).

Lemma field_length i n a : (i + n <= length a)%nat → length (field i n a) = n.
Proof. intros Hl. unfold field. rewrite length_take, length_drop. lia. Qed.

Lemma port_range a : 0 <= address_port a < 65536.
Proof. apply (byte_swap_range 2). Qed.

Lemma port_text_length a : (String.length (to_string (address_port a)) <= 5)%nat.
Proof.
  pose proof (port_range a). unfold to_string. destruct (Z.ltb_spec (address_port a) 0); [lia|]. apply decimal_digits_short.
  split; [lia|]. change (10 ^ Z.of_nat 5) with 100000. lia.
Qed.

Lemma ipv4_texts `{Inet6Text} a :
  ipv4 a → (String.length (ip_text a) <= 15)%nat ∧ InetAddress_toIp a = Some (ip_text a) ∧
    InetAddress_toIpPort a = Some (ip_text a +:+ ":" +:+ to_string (address_port a)).
Proof.
  intros [Hl Hf]. assert (String.length (ip_text a) <= 15)%nat as Hip
    by (apply inet_ntop4_length, field_length; rewrite Hl; unfold sockaddr_in6_size; lia).
  assert (toIp 64 a "" = Some (ip_text a)) as Eip.
  { unfold toIp. rewrite Hf. cbn [Z.eqb AF_INET Pos.eqb assertion mbind option_bind Nat.leb]. f_equal.
    by destruct (Nat.ltb_spec (String.length (inet_ntop4 (sin_addr a))) 64); [|unfold ip_text in Hip; lia]. }
  split_and!; [done|done|]. unfold InetAddress_toIpPort, toIpPort. rewrite Hf. change (AF_INET =? AF_INET6) with false. cbv iota.
  rewrite Eip. cbn [mbind option_bind]. destruct (Nat.ltb_spec (String.length (ip_text a)) 64); [|lia]. cbn [assertion mbind option_bind].
  f_equal. f_equal. apply str_take_ge. rewrite str_length_app. pose proof (port_text_length a). unfold address_port, portNetEndian in *.
  change (String.length ":") with 1%nat. lia.
Qed.

Lemma le_bytes_length n x : length (le_bytes n x) = n.
Proof. unfold le_bytes. by rewrite length_rev, be_bytes_length. Qed.

(** The storage is a whole address. *)
Definition whole (a : sockaddr) : Prop := length a = sockaddr_in6_size.

Lemma whole_blit i data a : (i + length data <= sockaddr_in6_size)%nat → whole a → whole (blit i data a).
Proof. unfold whole. intros Hi Ha. by rewrite length_blit by (by rewrite Ha). Qed.

Lemma set_family_fields family a :
  0 <= family < 65536 → whole a →
  whole (set_family family a) ∧ sin_family (set_family family a) = family ∧
  (∀ i n, (2 <= i)%nat → field i n (set_family family a) = field i n a).
Proof.
  intros Hf Ha. unfold set_family. split_and!.
  - apply whole_blit; [rewrite le_bytes_length; unfold sockaddr_in6_size; lia|done].
  - unfold sin_family. rewrite field_blit_same by (rewrite ?le_bytes_length; unfold whole, sockaddr_in6_size in *; lia).
    by apply le_value_bytes.
  - intros i n Hi. apply field_blit_after; rewrite le_bytes_length; unfold whole, sockaddr_in6_size in *; lia.
Qed.

Lemma set_port_fields port a :
  0 <= port < 65536 → whole a →
  whole (set_port (hostToNetwork16 port) a) ∧ sin_family (set_port (hostToNetwork16 port) a) = sin_family a ∧
  address_port (set_port (hostToNetwork16 port) a) = port ∧ field 2 2 (set_port (hostToNetwork16 port) a) = be_bytes 2 port ∧
  (∀ i n, (4 <= i)%nat → field i n (set_port (hostToNetwork16 port) a) = field i n a).
Proof.
  intros Hp Ha. unfold set_port. assert (field 2 2 (blit 2 (le_bytes 2 (hostToNetwork16 port)) a) = be_bytes 2 port) as Ef.
  { rewrite field_blit_same by (rewrite ?le_bytes_length; unfold whole, sockaddr_in6_size in *; lia). apply stored_in_network_order. }
  split_and!; [..|done|].
  - apply whole_blit; [rewrite le_bytes_length; unfold sockaddr_in6_size; lia|done].
  - unfold sin_family. by rewrite field_blit_before by (unfold whole, sockaddr_in6_size in *; lia).
  - unfold address_port, portNetEndian, sin_port. rewrite Ef. by apply (byte_swap_involutive 2).
  - intros i n Hi. apply field_blit_after; rewrite le_bytes_length; unfold whole, sockaddr_in6_size in *; lia.
Qed.

Lemma addr_fields b a :
  length b = 4%nat → whole a →
  whole (blit 4 b a) ∧ sin_family (blit 4 b a) = sin_family a ∧ sin_port (blit 4 b a) = sin_port a ∧ sin_addr (blit 4 b a) = b.
Proof.
  intros Hb Ha. unfold whole in *. split_and!.
  - apply whole_blit; [rewrite Hb; unfold sockaddr_in6_size; lia|done].
  - unfold sin_family. by rewrite field_blit_before by (unfold sockaddr_in6_size in *; lia).
  - unfold sin_port. by rewrite field_blit_before by (unfold sockaddr_in6_size in *; lia).
  - unfold sin_addr. by rewrite field_blit_same by (unfold sockaddr_in6_size in *; lia).
Qed.

Lemma memset_whole mem : whole mem → whole (memset_in mem) ∧ whole (memset_in6 mem).
Proof. intros Hm. split; apply whole_blit; done || (rewrite length_replicate; unfold sockaddr_in_size, sockaddr_in6_size; lia). Qed.

(** *** What the constructors build *)

Lemma from_text_fields ip port mem b :
  whole mem → 0 <= port < 65536 → inet_pton4 ip = Some b → length b = 4%nat →
  let a := fromIpPort4 ip port (memset_in mem) in ipv4 a ∧ address_port a = port ∧ sin_addr a = b.
Proof.
  intros Hm Hp Eb Hb. cbv zeta. unfold fromIpPort4. rewrite Eb. destruct (memset_whole mem Hm) as [Hm' _].
  destruct (set_family_fields AF_INET (memset_in mem) ltac:(done) Hm') as (Hw & Hf & _).
  destruct (set_port_fields port _ Hp Hw) as (Hw2 & Hf2 & Hp2 & _). destruct (addr_fields b _ Hb Hw2) as (Hw3 & Hf3 & Hp3 & Ha3).
  split; [split; [done|by rewrite Hf3, Hf2]|]. split; [|done]. unfold address_port, portNetEndian in *. by rewrite Hp3.
Qed.

Lemma port_constructor_fields `{Inet6Text} port loopbackOnly mem :
  whole mem → 0 <= port < 65536 →
  let a := InetAddress_port port loopbackOnly false mem in
  ipv4 a ∧ address_port a = port ∧ sin_addr a = be_bytes 4 (if loopbackOnly then INADDR_LOOPBACK else INADDR_ANY).
Proof.
  intros Hm Hp. cbv zeta. unfold InetAddress_port. destruct (memset_whole mem Hm) as [Hm' _].
  destruct (set_family_fields AF_INET (memset_in mem) ltac:(done) Hm') as (Hw & Hf & _).
  set (b := le_bytes 4 _). assert (b = be_bytes 4 (if loopbackOnly then INADDR_LOOPBACK else INADDR_ANY)) as Eb by apply stored_in_network_order.
  destruct (addr_fields b _ ltac:(by rewrite Eb, be_bytes_length) Hw) as (Hw2 & Hf2 & _ & Ha2).
  destruct (set_port_fields port _ Hp Hw2) as (Hw3 & Hf3 & Hp3 & _ & Hrest).
  split; [split; [done|by rewrite Hf3, Hf2]|]. split; [done|]. unfold sin_addr in *. by rewrite Hrest, Ha2 by lia.
Qed.

Lemma split_at_char c s : ∀ s' t t', char_in c s = false → char_in c s' = false → s +:+ String c t = s' +:+ String c t' → s = s' ∧ t = t'.
Proof.
  induction s as [|d s IH]; intros [|d' s'] t t'; cbn [char_in]; rewrite ?str_app_cons.
  - intros _ _ E. by injection E.
  - intros _ [Hd _]%orb_false_iff E. injection E as -> _. by rewrite Ascii.eqb_refl in Hd.
  - intros [Hd _]%orb_false_iff _ E. injection E as -> _. by rewrite Ascii.eqb_refl in Hd.
  - intros [_ Hs]%orb_false_iff [_ Hs']%orb_false_iff E. injection E as -> E. by destruct (IH s' t t' Hs Hs' E) as [-> ->].
Qed.

Lemma ip_text_no_colon a : whole a → char_in ":"%char (ip_text a) = false ∧ inet_pton4 (ip_text a) = Some (sin_addr a) ∧ length (sin_addr a) = 4%nat.
Proof.
  intros Ha. assert (length (sin_addr a) = 4%nat) as Hl by (apply field_length; rewrite Ha; unfold sockaddr_in6_size; lia).
  split_and!; [|by apply inet_pton4_ntop4|done]. unfold ip_text. destruct (four_bytes _ Hl) as (b1 & b2 & b3 & b4 & ->). by apply inet_ntop4_chars.
Qed.

Lemma socket_addr_whole l : (length l <= sockaddr_in6_size)%nat → whole (socket_addr (Some l)).
Proof. intros Hl. apply whole_blit; [rewrite length_take; lia|]. by unfold whole; rewrite length_replicate. Qed.

(** ** Properties *)

(** C37.  Addresses and their texts: for every IPv4 endpoint the two texts are
    produced without a failed assertion and without a cut, the longer one is
    the dotted address, a colon and the port and has at most 21 characters,
    and the constructor for an address and a port, applied to what was
    printed, gives the same endpoint back, whatever the storage held
    before. *)
Theorem address_round_trip `{Inet6Text} (a mem : sockaddr) :
  ipv4 a → length mem = sockaddr_in6_size →
  ∃ ip, InetAddress_toIp a = Some ip ∧ InetAddress_toIpPort a = Some (ip +:+ ":" +:+ to_string (address_port a)) ∧
    (String.length (ip +:+ ":" +:+ to_string (address_port a)) <= 21)%nat ∧
    let b := InetAddress_ip ip (address_port a) false mem in
    sin_family b = AF_INET ∧ address_port b = address_port a ∧ sin_addr b = sin_addr a.
Proof.
  intros Ha Hm. destruct (ipv4_texts a Ha) as (Hlen & E1 & E2). exists (ip_text a). split_and!; [done|done| |].
  - rewrite !str_length_app. pose proof (port_text_length a). change (String.length ":") with 1%nat. lia.
  - cbv zeta. destruct (ip_text_no_colon a (proj1 Ha)) as (Hc & Ep & Hl). unfold InetAddress_ip.
    rewrite c_str_id, Hc. 2: { destruct (four_bytes _ Hl) as (b1 & b2 & b3 & b4 & Eb). unfold ip_text. rewrite Eb. by apply inet_ntop4_chars. }
    cbn [orb]. by destruct (from_text_fields _ (address_port a) mem _ Hm (port_range a) Ep Hl) as ([_ Hf] & Hp & Hs).
Qed.

(** The server listens where it says: the address built from a port
    has this port, is the wildcard or the loopback address, prints as such,
    and is short enough for the names that the server gives its connections
    to be complete, so that [server_connections] applies to it. *)
Theorem listen_address_text `{Inet6Text} (port : Z) (loopbackOnly : bool) (name : string) (mem : sockaddr) :
  0 <= port < 65536 → length mem = sockaddr_in6_size →
  let a := InetAddress_port port loopbackOnly false mem in
  let ip := if loopbackOnly then "127.0.0.1" else "0.0.0.0" in
  address_port a = port ∧ InetAddress_toIpPort a = Some (ip +:+ ":" +:+ to_string port) ∧
  ∀ s, ts_name s = name → ts_ipPort s = ip +:+ ":" +:+ to_string port → short_address s ∧
  ∀ id, 0 <= id <= INT_MAX → connection_name s id =
    name +:+ "-" +:+ ip +:+ ":" +:+ to_string port +:+ "#" +:+ to_string id.
Proof.
  intros Hp Hm. cbv zeta. destruct (port_constructor_fields port loopbackOnly mem Hm Hp) as (Ha & Ep & Es).
  destruct (ipv4_texts _ Ha) as (_ & _ & Et). unfold ip_text in Et. rewrite Ep, Es in Et.
  set (ip := if loopbackOnly then "127.0.0.1" else "0.0.0.0"). assert (inet_ntop4 (be_bytes 4 (if loopbackOnly then INADDR_LOOPBACK else INADDR_ANY)) = ip) as Eip
    by (by destruct loopbackOnly).
  rewrite Eip in Et. assert (String.length ip <= 9)%nat as Hlen by (destruct loopbackOnly; cbn; lia).
  pose proof (port_text_length (InetAddress_port port loopbackOnly false mem)) as Hport. rewrite Ep in Hport.
  split_and!; [done|done|]. intros s Ename Eport. split.
  - unfold short_address. rewrite Eport, !str_length_app. change (String.length ":") with 1%nat. lia.
  - intros id Hid. unfold connection_name. rewrite Ename, Eport. rewrite !str_app_assoc, str_take_ge; [done|].
    pose proof (int_to_string_length id Hid). rewrite !str_length_app. change (String.length ":") with 1%nat.
    change (String.length "-") with 1%nat. change (String.length "#") with 1%nat. lia.
Qed.

(** A self connection is recognised by its endpoints: for a socket with
    IPv4 endpoints [isSelfConnect] holds exactly when local and peer address
    have the same text. *)
Theorem self_connect_same_text `{Inet6Text} (l p : bytes) :
  (length l <= sockaddr_in6_size)%nat → (length p <= sockaddr_in6_size)%nat →
  sin_family (getLocalAddr (Some l)) = AF_INET → sin_family (getPeerAddr (Some p)) = AF_INET →
  isSelfConnect (Some l) (Some p) = true ↔
  InetAddress_toIpPort (getLocalAddr (Some l)) = InetAddress_toIpPort (getPeerAddr (Some p)).
Proof.
  intros Hl Hp Fl Fp. unfold isSelfConnect. cbv zeta. rewrite Fl. change (AF_INET =? AF_INET) with true. cbv iota.
  pose proof (socket_addr_whole l Hl) as Wl. pose proof (socket_addr_whole p Hp) as Wp.
  fold (getLocalAddr (Some l)) in Wl. fold (getPeerAddr (Some p)) in Wp.
  generalize dependent (getLocalAddr (Some l)). intros a Fa Wa. generalize dependent (getPeerAddr (Some p)). intros b Fb Wb.
  destruct (ipv4_texts a (conj Wa Fa)) as (_ & _ & ->). destruct (ipv4_texts b (conj Wb Fb)) as (_ & _ & ->).
  destruct (ip_text_no_colon a Wa) as (Ca & Pa & La). destruct (ip_text_no_colon b Wb) as (Cb & Pb & Lb).
  rewrite andb_true_iff, !Z.eqb_eq. split.
  - intros [Eport Eaddr]. unfold address_port, portNetEndian, ip_text. rewrite Eport.
    by rewrite <- (le_bytes_value (sin_addr a)), <- (le_bytes_value (sin_addr b)), La, Lb, Eaddr.
  - intros [= E]. apply (split_at_char ":"%char (ip_text a) (ip_text b)) in E as [Eip Eport]; [|done..].
    rewrite Eip, Pb in Pa. injection Pa as Eaddr. split; [|by rewrite Eaddr].
    apply to_string_inj in Eport; [|unfold is_int, INT_MIN, INT_MAX; pose proof (port_range a); pose proof (port_range b); lia..].
    unfold address_port, portNetEndian in Eport. apply (f_equal networkToHost16) in Eport.
    pose proof (be_value_range (rev (field 2 2 a))) as Ra. pose proof (be_value_range (rev (field 2 2 b))) as Rb.
    rewrite length_rev, field_length in Ra, Rb by (rewrite Wa || rewrite Wb; unfold sockaddr_in6_size; lia).
    by rewrite !(byte_swap_involutive 2) in Eport.
Qed.

(** An IPv6 endpoint whose address has a text of at most 45 characters, as
    [INET6_ADDRSTRLEN] promises, is printed in brackets and in full. *)
Lemma ipv6_text `{Inet6Text} a :
  sin_family a = AF_INET6 → (String.length (inet6_ntop (sin6_addr a)) <= 45)%nat →
  InetAddress_toIpPort a = Some (String "[" (inet6_ntop (sin6_addr a)) +:+ "]:" +:+ to_string (address_port a)).
Proof.
  intros Hf Hlen. unfold InetAddress_toIpPort, toIpPort, toIp. rewrite Hf. change (AF_INET6 =? AF_INET6) with true.
  change (AF_INET6 =? AF_INET) with false. cbv iota. change (46 <=? 64 - 1)%nat with true. cbn [assertion mbind option_bind].
  destruct (Nat.ltb_spec (String.length (inet6_ntop (sin6_addr a))) (64 - 1)); [|lia]. cbn [String.length].
  destruct (Nat.ltb_spec (S (String.length (inet6_ntop (sin6_addr a)))) 64); [|lia]. cbn [assertion mbind option_bind].
  f_equal. f_equal. apply str_take_ge. rewrite str_length_app. pose proof (port_text_length a). unfold address_port, portNetEndian in *.
  change (String.length "]:") with 2%nat. lia.
Qed.

(** A text that is no address is only logged: the endpoint is the wildcard
    address, which a connect takes for the own host. *)
Lemma bad_address_is_wildcard `{Inet6Text} ip port mem :
  whole mem → 0 <= port < 65536 → char_in ":"%char (c_str ip) = false → inet_pton4 ip = None →
  InetAddress_toIpPort (InetAddress_ip ip port false mem) = Some ("0.0.0.0:" +:+ to_string port).
Proof.
  intros Hm Hp Hc Hn. unfold InetAddress_ip. rewrite Hc. cbn [orb]. unfold fromIpPort4. rewrite Hn.
  destruct (memset_whole mem Hm) as [Hm' _]. destruct (set_family_fields AF_INET (memset_in mem) ltac:(done) Hm') as (Hw & Hf & Hr).
  destruct (set_port_fields port _ Hp Hw) as (Hw2 & Hf2 & Hp2 & _ & Hr2).
  assert (ipv4 (set_port (hostToNetwork16 port) (set_family AF_INET (memset_in mem)))) as Ha by (split; [done|by rewrite Hf2]).
  destruct (ipv4_texts _ Ha) as (_ & _ & ->). rewrite Hp2. reflexivity.
Qed.

(** A resolved host replaces the address and keeps family and port. *)
Lemma resolve_keeps_port gethostbyname hostname out out' :
  whole out → resolve gethostbyname hostname out = Some (out', true) → (∀ r he, gethostbyname r = (0, Some he) → length (h_addr he) = 4%nat) →
  sin_family out' = sin_family out ∧ sin_port out' = sin_port out.
Proof.
  intros Hw E Hlen. unfold resolve in E. destruct (gethostbyname (c_str hostname)) as [r [he|]] eqn:Eh; [|by destruct r].
  destruct r; try done. destruct (_ && _); [|done]. cbn [assertion mbind option_bind] in E. injection E as <-.
  assert (length (take 4 (h_addr he)) = 4%nat) as H4 by (rewrite length_take, (Hlen _ _ Eh); lia).
  by destruct (addr_fields _ out H4 Hw) as (_ & Hf & Hp & _).
Qed.

(** ** Witnesses *)

Definition no_ipv6 : Inet6Text := {| inet6_pton _ := None; inet6_ntop _ := ""; |}.
Definition blank : sockaddr := replicate sockaddr_in6_size zero_byte.
Definition client_address : sockaddr := InetAddress_ip (H := no_ipv6) "192.168.1.20" 40000 false blank.

Lemma address_round_trip_witness :
  InetAddress_toIpPort (H := no_ipv6) client_address = Some "192.168.1.20:40000".
Proof.
  destruct (address_round_trip (H := no_ipv6) client_address blank) as (ip & E1 & E2 & _).
  - split; vm_compute; reflexivity.
  - reflexivity.
  - rewrite E2. vm_compute in E1. injection E1 as <-. vm_compute. reflexivity.
Defined.

Lemma listen_address_text_witness :
  InetAddress_toIpPort (H := no_ipv6) (InetAddress_port 10001 false false blank) = Some "0.0.0.0:10001".
Proof.
  destruct (listen_address_text (H := no_ipv6) 10001 false "ZMQ" blank) as (_ & E & _).
  - lia.
  - reflexivity.
  - rewrite E. vm_compute. reflexivity.
Defined.

Lemma self_connect_same_text_witness :
  isSelfConnect (Some client_address) (Some client_address) = true ∧
  InetAddress_toIpPort (H := no_ipv6) (getLocalAddr (Some client_address)) = InetAddress_toIpPort (H := no_ipv6) (getPeerAddr (Some client_address)).
Proof.
  split; [vm_compute; reflexivity|].
  apply (self_connect_same_text (H := no_ipv6) client_address client_address); vm_compute; try reflexivity; lia.
Defined.
