(* ===== verification/SocketCalls.v ===== *)
(** * System calls on sockets

    [class Socket] ([network/src/Socket.cc]) and the wrappers of
    [network/src/SocketsOps.cc]: which system calls they make and what they
    make of the answers.  A function is a program over system calls; the
    kernel's answer to a call is its return value, [errno] and the bytes it
    writes.  [Fatal] is [LOG(FATAL)], which ends the process.  The addresses
    are those of [Address]. *)
From S2P Require Import Prelude StdString Doubles Json Observability Types Endpoint Util Framing Manager NetBuffer EventLoop Server Address.

(** ** Programs over system calls *)

Inductive socket_option := SO_REUSEADDR | SO_REUSEPORT | SO_KEEPALIVE | TCP_NODELAY.

Inductive syscall :=
  | SysSocket (family : Z) (nonblock cloexec : bool)
  | SysBind (fd : Z) (addr : bytes)
  | SysListen (fd backlog : Z)
  | SysAccept (fd : Z) (nonblock cloexec : bool)
  | SysConnect (fd : Z) (addr : bytes)
  | SysShutdownWrite (fd : Z)
  | SysSetsockopt (fd : Z) (opt : socket_option) (optval : Z)
  | SysGetSocketError (fd : Z)
  | SysGetTcpInfo (fd : Z)
  | SysGetsockname (fd : Z)
  | SysGetpeername (fd : Z)
  | SysOpenNull
  | SysClose (fd : Z).

Record sysanswer := MkAnswer {
  ans_ret : Z;
  ans_errno : Z;
  ans_bytes : bytes;
}.

Inductive sys (A : Type) : Type :=
  | SRet (a : A)
  | SFatal
  | SCall (c : syscall) (k : sysanswer → sys A).
Arguments SRet {A} _.
Arguments SFatal {A}.
Arguments SCall {A} _ _.

Fixpoint sys_bind {A B} (f : A → sys B) (p : sys A) : sys B :=
  match p with
  | SRet a => f a
  | SFatal => SFatal
  | SCall c k => SCall c (λ r, sys_bind f (k r))
  end.
#[export] Instance sys_mret : MRet sys := λ A a, SRet a.
#[export] Instance sys_mbind : MBind sys := λ A B f p, sys_bind f p.

Definition call (c : syscall) : sys sysanswer := SCall c SRet.

(** A call whose failure ends the process. *)
Definition call_or_die (c : syscall) : sys Z :=
  r ← call c; if ans_ret r <? 0 then SFatal else mret (ans_ret r).

(** ** [SocketsOps.cc] *)

Definition SOMAXCONN : Z := 4096.

Definition createNonblockingOrDie (family : Z) : sys Z := call_or_die (SysSocket family true true).
Definition bindOrDie (sockfd : Z) (addr : sockaddr) : sys unit := _ ← call_or_die (SysBind sockfd (take sockaddr_in6_size addr)); mret tt.
Definition listenOrDie (sockfd : Z) : sys unit := _ ← call_or_die (SysListen sockfd SOMAXCONN); mret tt.
Definition connect (sockfd : Z) (addr : sockaddr) : sys sysanswer := call (SysConnect sockfd (take sockaddr_in6_size addr)).
Definition close (sockfd : Z) : sys unit := _ ← call (SysClose sockfd); mret tt.

Definition EPERM : Z := 1.
Definition EINTR : Z := 4.
Definition EAGAIN : Z := 11.
Definition EMFILE : Z := 24.
Definition EPROTO : Z := 71.
Definition ECONNABORTED : Z := 103.

(** The errors of [accept] that are expected; every other one is fatal. *)
Definition expected_accept_error (errno : Z) : bool :=
  bool_decide (errno ∈ [EAGAIN; ECONNABORTED; EINTR; EPROTO; EPERM; EMFILE]).

(** [sockets::accept]: the descriptor, the address and [errno]. *)
Definition sockets_accept (sockfd : Z) (addr : sockaddr) : sys (Z * sockaddr * Z) :=
  r ← call (SysAccept sockfd true true);
  if ans_ret r <? 0 then
    if expected_accept_error (ans_errno r) then mret (ans_ret r, addr, ans_errno r) else SFatal
  else mret (ans_ret r, blit 0 (take sockaddr_in6_size (ans_bytes r)) addr, ans_errno r).

Definition get_socket_error (sockfd : Z) : sys Z :=
  r ← call (SysGetSocketError sockfd);
  mret (getSocketError (if ans_ret r <? 0 then inl (ans_errno r) else inr (le_value (take 4 (ans_bytes r))))).

Definition address_answer (r : sysanswer) : option bytes := if ans_ret r <? 0 then None else Some (ans_bytes r).

Definition is_self_connect (sockfd : Z) : sys bool :=
  l ← call (SysGetsockname sockfd);
  p ← call (SysGetpeername sockfd);
  mret (isSelfConnect (address_answer l) (address_answer p)).

(** ** [Socket.cc] *)

Definition Socket_bindAddress (sockfd : Z) (addr : sockaddr) : sys unit := bindOrDie sockfd addr.
Definition Socket_listen (sockfd : Z) : sys unit := listenOrDie sockfd.

(** [Socket::accept]: no flags, and an error is only logged. *)
Definition Socket_accept (sockfd : Z) (peeraddr : sockaddr) : sys (Z * sockaddr * Z) :=
  r ← call (SysAccept sockfd false false);
  if ans_ret r <? 0 then mret (ans_ret r, peeraddr, ans_errno r)
  else mret (ans_ret r,
         setSockAddrInet6 (blit 0 (take sockaddr_in6_size (ans_bytes r)) (replicate sockaddr_in6_size zero_byte)) peeraddr, ans_errno r).

Definition shutdownWrite (sockfd : Z) : sys unit := _ ← call (SysShutdownWrite sockfd); mret tt.

Definition set_option (opt : socket_option) (sockfd : Z) (on : bool) : sys unit :=
  _ ← call (SysSetsockopt sockfd opt (if on then 1 else 0)); mret tt.

Definition setTcpNoDelay : Z → bool → sys unit := set_option TCP_NODELAY.
Definition setReuseAddr : Z → bool → sys unit := set_option SO_REUSEADDR.
Definition setReusePort : Z → bool → sys unit := set_option SO_REUSEPORT.
Definition setKeepAlive : Z → bool → sys unit := set_option SO_KEEPALIVE.
Definition destroy_socket (sockfd : Z) : sys unit := close sockfd.

(** The members of [tcp_info] that are printed, by their offset; the first one
    is a byte, the others are [uint32_t]. *)
Definition tcp_info_members : list (string * nat) :=
  [("unrecovered=", 2); ("rto=", 8); ("ato=", 12); ("snd_mss=", 16); ("rcv_mss=", 20); ("lost=", 32); ("retrans=", 36);
   ("rtt=", 68); ("rttvar=", 72); ("sshthresh=", 76); ("cwnd=", 80); ("total_retrans=", 100)]%nat.

Definition tcp_info_text (info : bytes) : string :=
  String.concat " " (map (λ '(name, offset),
    name +:+ to_string (le_value (field offset (if (offset =? 2)%nat then 1 else 4) info))) tcp_info_members).

Definition getTcpInfo (sockfd : Z) : sys (option bytes) :=
  r ← call (SysGetTcpInfo sockfd); mret (if ans_ret r =? 0 then Some (ans_bytes r) else None).

(** The text in a buffer of [len] bytes, and whether there is one. *)
Definition getTcpInfoString (sockfd : Z) (len : nat) (buf : string) : sys (string * bool) :=
  info ← getTcpInfo sockfd;
  mret (match info with Some i => (str_take (len - 1) (tcp_info_text i), true) | None => (buf, false) end).

(** ** The listening socket *)

(** The constructor of [Acceptor] with its members, and [Acceptor::listen]; a
    failed [assert] ends the process as well. *)
Definition open_listener (listenAddr : sockaddr) (reuseport : bool) : sys (Z * Z) :=
  fd ← createNonblockingOrDie (sin_family listenAddr);
  null ← call SysOpenNull;
  if ans_ret null <? 0 then SFatal
  else
    _ ← setReuseAddr fd true;
    _ ← setReusePort fd reuseport;
    _ ← Socket_bindAddress fd listenAddr;
    _ ← Socket_listen fd;
    mret (fd, ans_ret null).

(** ** Runs *)

(** [tr] is a complete run of [p]; [None] is the end of the process. *)
Fixpoint sys_runs {A} (p : sys A) (tr : list (syscall * sysanswer)) (res : option A) : Prop :=
  match p with
  | SRet a => tr = [] ∧ res = Some a
  | SFatal => tr = [] ∧ res = None
  | SCall c k => ∃ r tr', tr = (c, r) :: tr' ∧ sys_runs (k r) tr' res
  end.

(** A call the process does not survive failing. *)
Definition vital (c : syscall) : bool :=
  match c with SysSocket _ _ _ | SysOpenNull | SysBind _ _ | SysListen _ _ => true | _ => false end.

Definition failed (x : syscall * sysanswer) : bool := vital x.1 && (ans_ret x.2 <? 0).

Ltac sys_step :=
  match goal with
  | H : sys_runs (SCall _ _) _ _ |- _ => destruct H as ([] & ? & -> & H)
  | H : sys_runs (SRet _) _ _ |- _ => destruct H as [-> ->]
  | H : sys_runs SFatal _ _ |- _ => destruct H as [-> ->]
  | H : sys_runs _ _ _ |- _ => match type of H with context [?z <? 0] => destruct (z <? 0) eqn:? end
  end; cbn [sys_bind ans_ret] in *.

Ltac signs := repeat match goal with E : (_ <? 0) = _ |- _ => rewrite E; clear E end.

(** ** Properties *)

(** The listening socket is set up in order: the socket is non-blocking and not
    inherited, its address may be reused before it is bound, and it is bound,
    with all 28 bytes of the address, before it listens.  The process ends at
    the first failure of one of the four vital calls and makes no call after
    it; the failure of an option changes nothing. *)
Theorem listener_ready (addr : sockaddr) (reuseport : bool) (tr : list (syscall * sysanswer)) (res : option (Z * Z)) :
  sys_runs (open_listener addr reuseport) tr res →
  match res with
  | Some (fd, null) =>
      tr.*1 = [SysSocket (sin_family addr) true true; SysOpenNull; SysSetsockopt fd SO_REUSEADDR 1;
               SysSetsockopt fd SO_REUSEPORT (if reuseport then 1 else 0);
               SysBind fd (take sockaddr_in6_size addr); SysListen fd SOMAXCONN] ∧ existsb failed tr = false
  | None => ∃ calls x, tr = calls ++ [x] ∧ failed x = true ∧ existsb failed calls = false
  end.
Proof.
  unfold open_listener. intros Hr. cbv [createNonblockingOrDie call_or_die call setReuseAddr setReusePort set_option
    Socket_bindAddress bindOrDie Socket_listen listenOrDie mbind sys_mbind mret sys_mret] in Hr. cbn [sys_bind] in Hr.
  repeat sys_step.
  - eexists [], _. split; [reflexivity|]. unfold failed. cbn. by signs.
  - eexists [_], _. split; [reflexivity|]. unfold failed. cbn. by signs.
  - eexists [_; _; _; _], _. split; [reflexivity|]. unfold failed. cbn. by signs.
  - eexists [_; _; _; _; _], _. split; [reflexivity|]. unfold failed. cbn. by signs.
  - split; [reflexivity|]. unfold failed. cbn. by signs.
Qed.

(** [Socket::accept] asks for no flags, although its comment promises a
    non-blocking descriptor, never ends the process, and leaves the peer's
    address alone when it fails. *)
Lemma accepted_descriptor_flags sockfd peeraddr tr res :
  sys_runs (Socket_accept sockfd peeraddr) tr res →
  tr.*1 = [SysAccept sockfd false false] ∧
  ∃ fd addr err, res = Some (fd, addr, err) ∧ (fd < 0 → addr = peeraddr).
Proof.
  unfold Socket_accept. cbv [call mbind sys_mbind mret sys_mret]. cbn [sys_bind]. intros Hr. repeat sys_step; (split; [done|]).
  - by eexists _, _, _.
  - eexists _, _, _. split; [done|]. intros Hneg. apply Z.ltb_ge in Heqb. lia.
Qed.

(** [sockets::accept] ends the process on exactly the errors it does not
    expect. *)
Lemma accept_fatal sockfd addr tr :
  sys_runs (sockets_accept sockfd addr) tr None →
  ∃ r, tr = [(SysAccept sockfd true true, r)] ∧ ans_ret r < 0 ∧ expected_accept_error (ans_errno r) = false.
Proof.
  unfold sockets_accept. cbv [call mbind sys_mbind mret sys_mret]. cbn [sys_bind]. intros Hr. do 2 sys_step; [|by destruct Hr].
  cbn [ans_errno] in Hr. destruct (expected_accept_error _) eqn:He; [by destruct Hr|]. destruct Hr as [-> _]. eexists. split; [done|].
  split; [|done]. by apply Z.ltb_lt.
Qed.

(** ** Witness *)

Definition good_answer : sysanswer := MkAnswer 3 0 [].

Lemma listener_ready_witness :
  existsb failed [(SysSocket 0 true true, good_answer); (SysOpenNull, good_answer); (SysSetsockopt 3 SO_REUSEADDR 1, good_answer);
    (SysSetsockopt 3 SO_REUSEPORT 0, good_answer); (SysBind 3 [], good_answer); (SysListen 3 SOMAXCONN, good_answer)] = false.
Proof.
  apply (listener_ready [] false _ (Some (3, 3))).
  exists good_answer; eexists; split; [reflexivity|]. exists good_answer; eexists; split; [reflexivity|].
  exists good_answer; eexists; split; [reflexivity|]. exists good_answer; eexists; split; [reflexivity|].
  exists good_answer; eexists; split; [reflexivity|]. exists good_answer; eexists; split; [reflexivity|]. split; reflexivity.
Defined.
