(* ===== verification/Startup.v ===== *)
(** * Starting the processes

    [main], [all_work] ([unit-manager/src/main.cpp]), [tcp_work]
    ([unit-manager/src/tcp_comm.cpp]) and the limits and the pauses of the two
    processes: [raise_open_file_limit], which both have, and the pause of
    [health_loop] ([node/vllm-client/src/main.cpp]).

    The manager comes up as the composition of its parts: the table read from
    the configuration file and the registry ([Manager]), the listening address
    ([Address]) and the TCP server with its acceptor and its two loops
    ([Server], [Acceptor], [EventLoop]).  The theorem on it establishes what the properties of these
    parts assume of their initial states.  A signal takes it down again
    ([__sigint], [all_stop_work]). *)
From S2P Require Import Prelude StdString Doubles Json Observability Types Endpoint Util Framing Manager NetBuffer EventLoop Reactor Acceptor Server Address.

(** ** The limit of open files *)

Record rlimit := MkRlimit {
  rlim_cur : Z;
  rlim_max : Z;
}.

Definition RLIM_INFINITY : Z := 2 ^ 64 - 1.

(** [raise_open_file_limit]: what [getrlimit] gives, nothing when it fails, and
    whether [setrlimit] succeeds; the limit afterwards. *)
Definition raise_open_file_limit (target : Z) (getrlimit : option rlimit) (set_ok : bool) : option rlimit :=
  match getrlimit with
  | None => None
  | Some limit =>
      if target <=? rlim_cur limit then Some limit
      else
        let cur := if negb (rlim_max limit =? RLIM_INFINITY) && (rlim_max limit <? target) then rlim_max limit else target in
        if cur <=? rlim_cur limit then Some limit
        else if set_ok then Some (MkRlimit cur (rlim_max limit)) else Some limit
  end.

(** ** The manager *)

(** The conversion of an [int] to the [uint16_t] of the address. *)
Definition to_uint16 (z : Z) : Z := z mod 65536.

(** [tcp_work] up to the loop, on the kernel's answers for the listening socket,
    the loop's poller [r] and the number [id] of the acceptor's channel; [None]
    is a failed assertion or [LOG(FATAL)]. *)
Definition tcp_work `{Inet6Text} (sql : gmap string any) (mem : sockaddr) (k : listen_answers) (id : nat) (r : reactor)
    : option (sockaddr * tcp_server) :=
  let listenport := default 0 (read_int sql "config_tcp_server") in
  let listenAddr := InetAddress_port (to_uint16 listenport) false false mem in
  ipPort ← InetAddress_toIpPort listenAddr;
  server ← new_server "ZMQBridge" ipPort k id r;
  server ← server_set_threads 2 server;
  server ← server_start (la_listen k) server;
  Some (listenAddr, server).

(** [get_run_config] and [all_work]. *)
Definition all_work `{Inet6Text} (file : option json) (mem : sockaddr) (k : listen_answers) (id : nat) (r : reactor)
    : result (manager * sockaddr * tcp_server) :=
  sql ← load_default_config file ∅;
  m ← start_manager sql;
  match tcp_work sql mem k id r with
  | Some (addr, server) => mret (m, addr, server)
  | None => Throw "abort"
  end.

(** The process while it works: the flag [main] waits for, the loop that
    [tcp_work] runs on the main thread, the server, and whether the RPC server
    of the registry is there.  [mp_destroyed] are the connections the end of
    the server has handed to [connectDestroyed]. *)
Record manager_process (F : Type) := MkManagerProcess {
  mp_exit_flage : bool;
  mp_loop : event_loop F;
  mp_server : option tcp_server;
  mp_rpc : bool;
  mp_destroyed : list (string * nat);
}.
Arguments MkManagerProcess {F}.
Arguments mp_exit_flage {F}.
Arguments mp_loop {F}.
Arguments mp_server {F}.
Arguments mp_rpc {F}.
Arguments mp_destroyed {F}.

(** [tcp_stop_work]; [own] tells whether the thread that runs it is the one of
    the loop, which [quit] does not wake up. *)
Definition tcp_stop_work {F} (own : bool) (p : manager_process F) : manager_process F :=
  MkManagerProcess (mp_exit_flage p) (if own then quit (mp_loop p) else wakeup (quit (mp_loop p))) None (mp_rpc p)
    (mp_destroyed p ++ from_option destroy_server [] (mp_server p)).

Definition all_stop_work {F} (own : bool) (p : manager_process F) : manager_process F :=
  let p := tcp_stop_work own p in
  MkManagerProcess (mp_exit_flage p) (mp_loop p) (mp_server p) false (mp_destroyed p).

(** [__sigint]. *)
Definition sigint {F} (own : bool) (p : manager_process F) : manager_process F :=
  all_stop_work own (MkManagerProcess true (mp_loop p) (mp_server p) (mp_rpc p) (mp_destroyed p)).

(** ** The pause between health checks *)

Definition sleep_step_ms : Z := 200.

(** The loop of [health_loop] after a round; [stops] says for each turn whether
    the task is stopping.  The answer is the time slept. *)
Fixpoint health_pause (fuel : nat) (interval slept : Z) (stops : nat → bool) (turn : nat) : option Z :=
  match fuel with
  | O => None
  | S fuel =>
      if negb (stops turn) && (slept <? interval) then health_pause fuel interval (to_int (slept + sleep_step_ms)) stops (S turn)
      else Some slept
  end.

(** ** Lemmas *)

(** What a member of the configuration file becomes. *)
Definition config_value (value : json) : option any :=
  match value with
  | JInt z => Some (AnyInt (to_int z))
  | JFloat d => Some (AnyInt (d_to_int d))
  | JStr s => Some (AnyString s)
  | _ => None
  end.

Lemma load_config_table members :
  ∃ sql, load_default_config (Some (JObj members)) ∅ = Ok sql ∧ ∀ key, sql !! key = members !! key ≫= config_value.
Proof.
  eexists. split; [reflexivity|]. intros key.
  apply (map_fold_weak_ind (λ sql m, sql !! key = m !! key ≫= config_value)); [by rewrite !lookup_empty|].
  intros k v m sql Hk IH. destruct (decide (k = key)) as [->|Hne].
  - rewrite lookup_insert_eq. rewrite Hk in IH. cbn [mbind option_bind] in *. destruct v; cbn [config_value]; try done; by rewrite lookup_insert_eq.
  - rewrite (lookup_insert_ne m) by done. destruct v; try done; by rewrite lookup_insert_ne.
Qed.

Lemma health_pause_time interval stops : 0 <= interval <= INT_MAX - sleep_step_ms → ∀ n slept turn,
  0 <= slept → interval - slept < Z.of_nat n * sleep_step_ms → slept < interval + sleep_step_ms →
  ∃ t, health_pause (S n) interval slept stops turn = Some t ∧ 0 <= t < interval + sleep_step_ms ∧ slept <= t ∧
    ((∀ i, stops i = false) → interval <= t).
Proof.
  intros Hint n. unfold sleep_step_ms in *. induction n as [|n IH]; intros slept turn Hs Hn Hlt; cbn [health_pause].
  - destruct (Z.ltb_spec slept interval); [lia|]. rewrite andb_false_r. exists slept. repeat split; lia.
  - destruct (stops turn) eqn:Est; cbn [negb andb].
    + exists slept. repeat split; try lia. intros Hall. by rewrite Hall in Est.
    + destruct (Z.ltb_spec slept interval).
      * rewrite to_int_id by (unfold is_int, INT_MIN, INT_MAX, sleep_step_ms in *; lia).
        destruct (IH (slept + sleep_step_ms) (S turn)) as (t & E & H1 & H2 & H3); unfold sleep_step_ms in *; try lia.
        exists t. split; [exact E|]. split; [done|]. split; [lia|done].
      * exists slept. repeat split; lia.
Qed.

(** ** Properties *)

(** A configuration file as the one that is delivered: one format for the URLs
    of both directions, a range of ports, the port of the server and, if it is
    given, a number for the first work identifier. *)
Definition good_config (members : gmap string json) (fmt : string) (port : Z) : Prop :=
  members !! "config_zmq_s_format" = Some (JStr fmt) ∧ members !! "config_zmq_c_format" = Some (JStr fmt) ∧ good_format fmt ∧
  (∃ lo hi, members !! "config_zmq_min_port" = Some (JInt lo) ∧ members !! "config_zmq_max_port" = Some (JInt hi) ∧ 0 < lo <= hi ∧ hi <= INT_MAX) ∧
  members !! "config_tcp_server" = Some (JInt port) ∧ 0 <= port < 65536 ∧
  match members !! "config_work_id" with Some (JInt c) => 0 <= c <= INT_MAX | None => True | Some _ => False end.

Lemma good_config_starts members fmt port sql :
  good_config members fmt port → (∀ key, sql !! key = members !! key ≫= config_value) →
  ∃ m, start_manager sql = Ok m ∧ good_start sql m ∧ m_s_format m = fmt ∧ m_c_format m = fmt ∧ read_int sql "config_tcp_server" = Some port.
Proof.
  intros (Hs & Hc & Hfmt & (lo & hi & Hlo & Hhi & Hrange & Hmax) & Htcp & Hport & Hwork) Hsql.
  assert (∀ key s, members !! key = Some (JStr s) → read_string sql key = Some s) as Hstr
    by (intros key s Hk; unfold read_string; by rewrite Hsql, Hk).
  assert (∀ key z, members !! key = Some (JInt z) → 0 <= z <= INT_MAX → read_int sql key = Some z) as Hint.
  { intros key z Hk Hz. unfold read_int. rewrite Hsql, Hk. cbn [mbind option_bind config_value]. f_equal.
    apply to_int_id. unfold is_int, INT_MIN, INT_MAX in *. lia. }
  assert (∃ counter, default 0 (read_int sql "config_work_id") = counter ∧ 0 <= counter <= INT_MAX) as (counter & Ec & Hcounter).
  { destruct (members !! "config_work_id") as [j|] eqn:Ew.
    - destruct j as [|b|z|d|s|l|o]; try done. exists z. by rewrite (Hint _ _ Ew Hwork).
    - exists 0. unfold read_int. rewrite Hsql, Ew. unfold INT_MAX. done. }
  exists (MkManager counter lo (replicate (Z.to_nat (hi - lo)) false) sql fmt fmt).
  assert (start_manager sql = Ok (MkManager counter lo (replicate (Z.to_nat (hi - lo)) false) sql fmt fmt)) as E.
  { unfold start_manager. rewrite (Hstr _ _ Hs), (Hstr _ _ Hc), (Hint _ _ Hlo), (Hint _ _ Hhi), Ec by (unfold INT_MAX in *; lia).
    cbn [default from_option id]. by destruct (Z.ltb_spec hi lo); [lia|]. }
  split; [done|]. split; [|split_and!; [done|done|apply (Hint _ _ Htcp); unfold INT_MAX; lia]].
  unfold good_start. cbn [m_s_format m_port_start m_ports m_counter]. split; [done|]. split; [done|]. split; [lia|].
  split; [rewrite length_replicate, Z2Nat.id; lia|]. split; [done|].
  intros key v Hv. rewrite Hsql in Hv. destruct (members !! key) as [[]|]; cbn in Hv; by simplify_eq.
Qed.

(** The four calls succeed. *)
Definition answers_good (k : listen_answers) : Prop :=
  0 <= la_socket k ∧ match la_null k with Some fd => 0 <= fd | None => False end ∧ 0 <= la_bind k ∧ 0 <= la_listen k.

Lemma or_die_ok ret : 0 <= ret → or_die ret = Some ret.
Proof. intros Hr. unfold or_die. destruct (Z.ltb_spec ret 0); [lia|done]. Qed.

Lemma or_die_fails ret : ¬ 0 <= ret → or_die ret = None.
Proof. intros Hr. unfold or_die. destruct (Z.ltb_spec ret 0); [done|lia]. Qed.

(** The server of the manager, up to the loop. *)
Definition serve (ipPort : string) (k : listen_answers) (id : nat) (r : reactor) : option tcp_server :=
  server ← new_server "ZMQBridge" ipPort k id r; server ← server_set_threads 2 server; server_start (la_listen k) server.

Lemma serve_up ipPort k id r :
  reactor_ok r → r_store r !! id = None → r_channels r !! la_socket k = None → la_null k ≠ Some (la_socket k) → answers_good k →
  ∃ server, serve ipPort k id r = Some server ∧ ts_ipPort server = ipPort ∧ ts_pool server = pool_of 2 0 ∧
    ts_nextConnId server = 1 ∧ ts_connections server = ∅ ∧ acceptor_ok (ts_acceptor server) ∧
    a_listening (ts_acceptor server) = true ∧ a_callback (ts_acceptor server) = true ∧ a_socket (ts_acceptor server) = la_socket k.
Proof.
  intros Hr Hid Hfd Hne (Hs & Hn & Hb & Hl). destruct (la_null k) as [null|] eqn:En; [|done].
  assert (∃ a, new_acceptor k id r = Some a ∧ a_listening a = false ∧ a_socket a = la_socket k) as (a & Ea & Hlist & Hsock).
  { unfold new_acceptor. rewrite (or_die_ok _ Hs), En, (or_die_ok _ Hb). cbn. destruct (Z.leb_spec 0 null); [|lia]. by eexists. }
  assert (acceptor_ok (set_callback a)) as Hok.
  { destruct (acceptor_action_ok SetCallback a) as (a' & [= <-] & Ha'); [|exact I|exact Ha']. apply (acceptor_start_ok k id r). by rewrite <- En in Hne. }
  destruct (acceptor_action_ok (Listen (la_listen k)) _ Hok Hl) as (a' & E' & Hok'). cbn [run_acceptor] in E'.
  assert (a_listening a' = true ∧ a_callback a' = true ∧ a_socket a' = la_socket k) as (H1 & H2 & H3).
  { unfold listen in E'. rewrite (or_die_ok _ Hl) in E'. cbn [mbind option_bind] in E'. destruct (enableReading _ _); [|done]. by injection E' as <-. }
  unfold serve, new_server, server_start. rewrite Ea. cbn [mbind option_bind server_set_threads]. cbn.
  rewrite Hlist. cbn. rewrite E'. cbn. eexists. split; [reflexivity|]. by split_and!.
Qed.

Lemma serve_down ipPort k id r : ¬ answers_good k → serve ipPort k id r = None.
Proof.
  intros Hbad. unfold serve, new_server, new_acceptor. destruct (decide (0 <= la_socket k)) as [Hs|Hs]; [|by rewrite (or_die_fails _ Hs)].
  rewrite (or_die_ok _ Hs). cbn [mbind option_bind]. destruct (la_null k) as [null|] eqn:En; cbn [open_descriptor]; [|done].
  destruct (Z.leb_spec 0 null) as [Hn|]; [|done]. cbn. destruct (decide (0 <= la_bind k)) as [Hb|Hb]; [|by rewrite (or_die_fails _ Hb)].
  rewrite (or_die_ok _ Hb). cbn. unfold server_start, listen. cbn. destruct (decide (0 <= la_listen k)) as [Hl|Hl]; [|by rewrite (or_die_fails _ Hl)].
  exfalso. apply Hbad. unfold answers_good. by rewrite En.
Qed.

(** C33.  The manager comes up ready, or it ends at once: with a configuration
    file like the one that is delivered, when the system calls that set up the
    listening socket ([socket], the [open] of the spare descriptor, [bind] and
    [listen]) succeed, nothing throws and no assertion fails; the registry
    starts in a state from which its invariants hold; the server listens, on
    all interfaces and on the configured port, with its socket watched by the
    loop and connections passed on to it, with two loops to deal connections
    out to and no connection yet, under a name short enough for the names of
    its connections to be complete.  When one of the calls fails, as when the
    port is in use, the process ends and no server is left. *)
Theorem manager_starts `{Inet6Text} (members : gmap string json) (fmt : string) (port : Z) (mem : sockaddr)
    (k : listen_answers) (ch : nat) (r : reactor) :
  good_config members fmt port → length mem = sockaddr_in6_size →
  reactor_ok r → r_store r !! ch = None → r_channels r !! la_socket k = None → la_null k ≠ Some (la_socket k) →
  (answers_good k →
   ∃ sql m addr server, load_default_config (Some (JObj members)) ∅ = Ok sql ∧
     all_work (Some (JObj members)) mem k ch r = Ok (m, addr, server) ∧
     good_start sql m ∧ manager_ok m ∧ m_s_format m = fmt ∧ m_c_format m = fmt ∧
     address_port addr = port ∧ ts_ipPort server = "0.0.0.0:" +:+ to_string port ∧
     a_listening (ts_acceptor server) = true ∧ a_callback (ts_acceptor server) = true ∧
     r_interest (a_reactor (ts_acceptor server)) !! la_socket k = Some ReadEvent ∧
     short_address server ∧ ts_pool server = pool_of 2 0 ∧ ts_nextConnId server = 1 ∧ ts_connections server = ∅) ∧
  (¬ answers_good k → all_work (Some (JObj members)) mem k ch r = Throw "abort").
Proof.
  intros Hc Hm Hr Hid Hfd Hne. destruct (load_config_table members) as (sql & El & Hsql).
  destruct (good_config_starts members fmt port sql Hc Hsql) as (m & Em & Hgood & Hs & Hcf & Hp).
  assert (0 <= port < 65536) as Hport by (by destruct Hc as (_ & _ & _ & _ & _ & ? & _)).
  destruct (port_constructor_fields port false mem Hm Hport) as (Ha & Ep & Es).
  destruct (ipv4_texts _ Ha) as (_ & _ & Et). unfold ip_text in Et. rewrite Ep, Es in Et.
  assert (tcp_work sql mem k ch r = server ← serve ("0.0.0.0:" +:+ to_string port) k ch r;
    Some (InetAddress_port port false false mem, server)) as Ew.
  { unfold tcp_work, serve. rewrite Hp. cbn [default from_option id]. unfold to_uint16. rewrite Z.mod_small by lia. rewrite Et.
    change (inet_ntop4 (be_bytes 4 INADDR_ANY) +:+ ":" +:+ to_string port) with ("0.0.0.0:" +:+ to_string port).
    cbn [mbind option_bind]. destruct (new_server _ _ _ _ _) as [s1|]; [|done]. cbn [mbind option_bind]. by destruct (server_set_threads 2 s1). }
  unfold all_work. rewrite El. cbn [mbind result_bind]. rewrite Em. cbn [mbind result_bind]. rewrite Ew. split.
  - intros Hk. destruct (serve_up ("0.0.0.0:" +:+ to_string port) k ch r Hr Hid Hfd Hne Hk)
      as (server & E & Hip & Hpool & Hnext & Hconn & Hok & Hl & Hcb & Hsock).
    rewrite E. cbn [mbind option_bind]. exists sql, m, (InetAddress_port port false false mem), server.
    split_and!; try done; [by eapply good_start_ok|rewrite <- Hsock; by apply listening_watched|].
    unfold short_address. rewrite Hip, str_length_app. pose proof (port_text_length (InetAddress_port port false false mem)) as Hlen.
    rewrite Ep in Hlen. change (String.length "0.0.0.0:") with 8%nat. lia.
  - intros Hk. by rewrite serve_down.
Qed.

(** The limit of open files is never lowered, never set above the hard
    limit, and reaches the target whenever the hard limit allows it and the
    system call succeeds. *)
Theorem open_file_limit (target : Z) (limit : rlimit) (set_ok : bool) :
  0 <= rlim_cur limit <= rlim_max limit → 0 <= target < RLIM_INFINITY → rlim_max limit <= RLIM_INFINITY →
  ∃ limit', raise_open_file_limit target (Some limit) set_ok = Some limit' ∧
    rlim_cur limit <= rlim_cur limit' <= rlim_max limit' ∧ rlim_max limit' = rlim_max limit ∧
    (set_ok = true → Z.min target (rlim_max limit) <= rlim_cur limit').
Proof.
  intros Hcur Ht Hmax. unfold raise_open_file_limit. destruct (Z.leb_spec target (rlim_cur limit)).
  - exists limit. split_and!; try done; lia.
  - cbv zeta. destruct (Z.eqb_spec (rlim_max limit) RLIM_INFINITY), (Z.ltb_spec (rlim_max limit) target); cbn [negb andb]; try lia;
      match goal with |- context [?cur <=? rlim_cur limit] => destruct (Z.leb_spec cur (rlim_cur limit)) end; try lia;
      destruct set_ok; eexists; (split; [reflexivity|]); cbn; split_and!; done || lia.
Qed.

(** The pause between two rounds of health checks ends: it takes less
    than one step more than the configured interval, and not less than the
    interval unless the task stops, as long as the counter of the pause, an
    [int], can pass the interval. *)
Theorem health_pause_bounded (interval : Z) (stops : nat → bool) :
  0 <= interval <= INT_MAX - sleep_step_ms →
  ∃ t, health_pause (S (S (Z.to_nat (interval / sleep_step_ms)))) interval 0 stops 0 = Some t ∧
    0 <= t < interval + sleep_step_ms ∧ ((∀ i, stops i = false) → interval <= t).
Proof.
  intros Hint. destruct (health_pause_time interval stops Hint (S (Z.to_nat (interval / sleep_step_ms))) 0 0) as (t & E & H1 & _ & H3).
  - lia.
  - unfold sleep_step_ms. rewrite Nat2Z.inj_succ, Z2Nat.id by (apply Z.div_pos; lia). pose proof (Z.mod_pos_bound interval 200).
    pose proof (Z.div_mod interval 200). lia.
  - unfold sleep_step_ms. lia.
  - by exists t.
Qed.

(** A signal takes the manager down: from any state of the loop in which it
    waits, with the handler on the main thread or on another one, the next
    iteration runs what is pending and ends the loop, so that [tcp_work]
    returns; [main] leaves its own loop; the server is gone, with its
    connections each handed to [connectDestroyed] once; a second signal
    changes nothing more. *)
Lemma signal_stops_manager {F} (body : F → list F) (own : bool) (p : manager_process F) (s : tcp_server) :
  rtc (loop_step body) new_event_loop (mp_loop p) → l_phase (mp_loop p) = Polling → mp_server p = Some s → mp_destroyed p = [] →
  let p' := sigint own p in
  l_phase (iteration body (mp_loop p')) = Stopped ∧ l_done (iteration body (mp_loop p')) = l_queued (mp_loop p) ∧
  mp_exit_flage p' = true ∧ mp_server p' = None ∧ mp_rpc p' = false ∧
  (NoDup (mp_destroyed p').*1 ∧ ∀ name conn, (name, conn) ∈ mp_destroyed p' ↔ ts_connections s !! name = Some conn) ∧
  mp_destroyed (sigint own p') = mp_destroyed p'.
Proof.
  intros Hrun Hp Hs Hd p'.
  assert (loop_ok (mp_loop p)) as Hl by (by refine (rtc_preserves (loop_step body) loop_ok (loop_step_ok body) _ _ Hrun new_event_loop_ok)).
  assert (loop_ok (poll_returns (mp_loop p'))) as Hok.
  { destruct own.
    - apply (loop_step_ok body (poll_returns (mp_loop p))); [apply (CallbackQuits body (poll_returns (mp_loop p))); by left|].
      apply (loop_step_ok body (mp_loop p)); [by apply PollReturns|done].
    - apply (loop_step_ok body (post_wakeup (post_quit (mp_loop p)))); [by apply PollReturns|].
      apply (loop_step_ok body (post_quit (mp_loop p))); [apply OtherWakes; cbn; lia|]. by apply (loop_step_ok body (mp_loop p)); [apply OtherQuits|]. }
  destruct (iteration_after_poll body _ Hok) as (Hdone & _ & Hph). pose proof (lok_order _ Hl) as Hord.
  rewrite (lok_running _ Hl) in Hord by congruence. split_and!; try done.
  - rewrite Hph. by destruct own.
  - rewrite Hdone, <- Hord. by destruct own.
  - subst p'. cbn. rewrite Hs, Hd. apply NoDup_fst_map_to_list.
  - intros name conn. subst p'. cbn. rewrite Hs, Hd. apply elem_of_map_to_list.
  - subst p'. cbn. by rewrite app_nil_r.
Qed.

(** A port that does not fit is cut to sixteen bits without a word. *)
Lemma listen_port_cut : to_uint16 70001 = 4465.
Proof. reflexivity. Qed.

(** ** Witnesses *)

Definition delivered_members : gmap string json := match master_config with JObj members => members | _ => ∅ end.

Lemma delivered_config_good : good_config delivered_members "ipc:///tmp/llm/%i.sock" 10001.
Proof.
  split; [vm_compute; reflexivity|]. split; [vm_compute; reflexivity|]. split; [exact (proj1 (proj2 idle_manager_good))|]. split.
  - exists 5010, 5555. split; [vm_compute; reflexivity|]. split; [vm_compute; reflexivity|]. unfold INT_MAX. lia.
  - split; [vm_compute; reflexivity|]. split; [lia|]. vm_compute. exact I.
Qed.

Definition working_calls : listen_answers := MkListenAnswers 5 (Some 6) 0 0.
Definition port_in_use : listen_answers := MkListenAnswers 5 (Some 6) (-1) 0.

Lemma manager_starts_witness :
  (∃ m addr server, all_work (H := no_ipv6) (Some master_config) blank working_calls 0 new_reactor = Ok (m, addr, server) ∧
     ts_ipPort server = "0.0.0.0:10001") ∧
  all_work (H := no_ipv6) (Some master_config) blank port_in_use 0 new_reactor = Throw "abort".
Proof.
  split.
  - destruct (manager_starts (H := no_ipv6) delivered_members "ipc:///tmp/llm/%i.sock" 10001 blank working_calls 0 new_reactor
      delivered_config_good eq_refl new_reactor_ok eq_refl eq_refl ltac:(discriminate)) as [Hup _].
    destruct Hup as (sql & m & addr & server & _ & E & _ & _ & _ & _ & _ & Hip & _).
    + split_and!; vm_compute; discriminate.
    + exists m, addr, server. split; [exact E|]. rewrite Hip. vm_compute. reflexivity.
  - destruct (manager_starts (H := no_ipv6) delivered_members "ipc:///tmp/llm/%i.sock" 10001 blank port_in_use 0 new_reactor
      delivered_config_good eq_refl new_reactor_ok eq_refl eq_refl ltac:(discriminate)) as [_ Hdown].
    apply Hdown. intros (_ & _ & Hb & _). vm_compute in Hb. by apply Hb.
Defined.

Lemma open_file_limit_witness : raise_open_file_limit 65535 (Some (MkRlimit 1024 524288)) true = Some (MkRlimit 65535 524288).
Proof.
  destruct (open_file_limit 65535 (MkRlimit 1024 524288) true) as (limit' & E & _).
  - vm_compute. split; discriminate.
  - vm_compute. split; [discriminate|reflexivity].
  - vm_compute. discriminate.
  - rewrite E. rewrite <- E. reflexivity.
Defined.

Lemma health_pause_bounded_witness : health_pause 27 5000 0 (λ _, false) 0 = Some 5000.
Proof.
  destruct (health_pause_bounded 5000 (λ _, false)) as (t & E & _); [by vm_compute|]. vm_compute in E. injection E as <-. vm_compute. reflexivity.
Defined.
